(* ===== verification/_CoqProject ===== *)
-Q . S2P
Prelude.v
Effect.v
Codec.v
Evpoll.v
Protocol.v
Lib.v
State.v
Skel.v
Rules.v
Call.v
Sdp.v
SipLeg.v
MnccConn.v
App.v
Unroll.v
MnccRx.v
SipUa.v
CallFlow.v
Replies.v
SipCall.v
Stranded.v
Bridge.v
Local.v
Relay.v
Faults.v
Vty.v
Demo.v
System.v
Refine.v
Apart.v
Together.v
Opening.v
Typing.v
TypeSafety.v
Wire.v
Fits.v
Drain.v
Main.v
Logging.v
MainLoop.v
Scenario.v
Instances.v
Surroundings.v
Findings.v
