(* ===== verification/Prelude.v ===== *)
(** * osmo-sip-connector: a verification development (root file)

    osmo-sip-connector bridges calls between an MSC, which speaks MNCC over a Unix
    socket, and a SIP peer, reached through sofia-sip.  It is one process with
    one event loop: the loop waits, and runs one callback to completion.  This
    library models the callbacks and everything they call, and proves what they
    do.

    ** The program's parts and the files that model them

    A call (src/call.h, src/call.c) has two legs, [initial] (which started it) and
    [remote] (which it was routed to), one of them an MNCC leg and the other a SIP
    leg.  A leg carries function pointers (release, ring, connect, hold, retrieve,
    dtmf, update_rtp) through which the other side acts on it.

    - [Prelude]: machine integers, C strings, printf, lemmas on them; this header.
    - [Effect]: computations with a store that return or crash; weakest
      preconditions; a judgement for invariants ([within]) and an equivalence of
      computations under which one can rewrite ([meq]).  The faults of C that the code
      could commit (NULL, use after free, a call through NULL, a wrong cast, a failed
      assertion, a write out of bounds, a string of the show commands that is read
      beyond its array) are values of [fault]; what is left out is said below.
    - [Codec]: bytes.  A codec is the layout of a C type: size, alignment, bytes of a
      value, value of bytes; combinators for the fields of a structure, which add
      the padding, and the class [CodecOk] of those that read what they wrote.
    - [Protocol] (src/mncc_protocol.h): message numbers and flags; every message as
      bytes, by its codec.  The fields the program never touches are skipped with
      their size; the structures of libosmocore in [gsm_mncc] are codecs the class
      [MnccLib] provides.
    - [Lib]: the class [Env], what is not under src/: libosmocore, libosmogsm,
      sofia-sip, the system calls and the allocator, with the answers to the
      n-th question left open; [EnvLaws], their documented behaviour;
      [WritesOk], that a write on an open MNCC socket sends everything.
    - [State] (call.h, mncc.h, app.h): the store.  Calls and legs are heap objects
      under pointers that are never reused; freeing one removes it, and freeing a
      call frees its talloc children; the armed command timers, the handles bound
      to a leg and the trace of what was sent are part of the store.
    - [Skel]: an abstract machine: which calls, legs, handles and list entries
      exist and how they point to each other, its invariant [wfsk], and its
      steps.  [Rules]: the view of the store as that machine, the invariant [wf],
      and a rule per primitive.
    - [Call] (call.c); [Sdp] (sdp.c); [SipLeg] (sip.c: cause mapping, callbacks of a
      SIP leg, outgoing INVITE); [MnccConn] (mncc.c: connection, writing,
      callbacks of an MNCC leg, outgoing SETUP); [App] (app.c: disconnect and
      routing, calls through function pointers) and [Unroll] (its recursion);
      [MnccRx] (mncc.c: each message
      of the MSC, [mncc_data]); [SipUa] (sip.c: each event of sofia-sip,
      [nua_callback], [new_call], re-INVITE).
    - [CallFlow], [SipCall], [Replies]: specifications of handlers that involve both
      legs, and of the searches for a leg.  [Stranded]: RTP_CONNECT, and two ways in
      which hanging up at the wrong moment goes wrong.
    - [Bridge]: the abstract machine of a bridged call, [react]: what the MSC and the
      SIP peer see of it, and the reaction to each event.  [Local]: the part of a
      store that is one call, [holds], and a judgement to run a computation on it,
      [does].  [Relay]: each handler, run so, is a reaction.  [Refine]: events, runs
      and stores as the machine sees them.  [Apart]: what does not concern a call, the
      [frame] of a call, and a judgement with a lemma per function that the frame is
      kept; [Together]: events that are about none or another call, and runs of
      several calls.  [Opening]: the two events that make a bridged call.
    - [Faults]: what happens when the hypotheses of the safety theorem fail.
    - [Evpoll] (evpoll.c): the poll function.  [Vty] (vty.c): configuration and
      show commands.
    - [System]: events, one turn of the loop, the set-up of the store,
      executions.  [Main] (main.c, start of the agent in sip.c): the whole of
      main(), in a monad of its own with exit codes and the calls that leave the
      program.  [MainLoop]: [evpoll] wired to the handlers.  [Drain]: the MSC hangs up, or
      stays silent.  [Logging] (log_mncc, sip_logger): the two functions
      that handle memory to print it.
    - [Typing], [TypeSafety]: a second invariant, [typed], which needs nothing of
      the peers, of writes or of memory; a Hoare-style judgement with one rule
      per primitive, and one lemma per function of the program; what a leg that
      is alive keeps.  [Wire]: what is written to the peers, in the same way.
      [Fits]: every number and string of the store and of the trace within its
      field.
    - [Demo], [Scenario], [Instances], [Surroundings], [Findings]: a concrete
      environment, complete calls evaluated in it, the theorems applied to their
      stores, and executions that go wrong.

    The definitions keep the names of the C functions.  Where a C function is
    long, its parts are definitions of their own, composed in the order of the
    code; PROJECT.json maps each to its lines.

    ** What the theorems show

    - Safety.  [event_safe]: from a well-formed store, every event that a peer who
      keeps to its protocol can cause is handled to completion, without a fault,
      into a well-formed store.  [reachable_wf], [no_dangling]: the invariant of
      the executions and what it says about the links between calls, legs, timers and
      handles.  [steps_wf]: every execution refines the machine of [Skel].
      [disconnect_clears]: losing the MSC releases every MNCC leg and timer,
      whatever the environment does.
    - Without hypotheses on the peers.  [type_safety]: no execution at all casts a
      leg to the wrong structure, writes beyond an array or fails an assertion,
      except for that of new_call when an allocation of the new call failed; the faults
      that remain are NULL pointers and objects that were freed, which [Findings] shows
      to occur.  [leg_lifecycle]: what a leg keeps while it lives, that a release
      is never taken back and a dialog never goes back.
      [disconnect_terminates]: the walk over the calls ends in every typed store.
      [speaks_protocol]: the types, masks, strings and statuses of everything the
      program sends.  [fields_fit]: whatever bytes arrive, each number of a leg, a
      call or a message is within its width and no string has more characters than its array;
      hence [written_as_read]: a peer with the same layout reads from the bytes of
      each message the message that was meant.
    - The process.  [main_spec]: each way main() ends, what it called before, and the
      store with which it enters the loop, where [type_safety] and [event_safe]
      start.  [unrolling_exact]: the unrolled disconnect callback is a solution of
      the equation of the code.  [program_runs]: main() followed by any number of turns of
      [evpoll] goes through stores that [type_safety] is about, whatever arrives.
      [timers_drain]: the calls the MSC leaves waiting are released on both sides, and
      nothing waits anew.
    - The call from either side, message by message: [check_setup_opens],
      [check_rtp_create_spec], [ringing_spec],
      [answered_spec] for a call from the MSC; [new_call_opens],
      [new_call_refused_late], [check_alrt_ind_spec], [check_stp_cnf_spec] for one
      from SIP; [check_hold_spec], [check_retrieve_spec], [reinvite_spec],
      [check_dtmf_start_spec], [check_rtp_connect_spec], [mncc_replies_spec] while
      it lasts;
      [check_disc_ind_spec], [check_rel_ind_spec], [mncc_release_spec], [sip_release_call_spec],
      [on_remote_hangup_spec], [invite_failed_spec], [cmd_timeout_spec] for its
      end.  Each states the messages sent and the new state.  [complete_calls]
      (Scenario.v) evaluates two calls from start to end.
    - The call as a whole.  [runs_as_machine]: any run of events of one call, in any
      order, is a run of the machine of [Bridge], with the same messages, and a NULL
      function pointer where the machine has no reaction.  [hangup_reaches_all]: as
      long as the events are [clean], and the MSC neither alerts nor answers for a SIP
      leg that did not place the call, nothing crashes, whichever side ends the call the
      other one is told, and a leg that waits for the MSC has its timer armed;
      [unclean_event_strands]: each event that is not clean leaves a side behind.
    - The call from its beginning.  [placed_call_runs]: an INVITE that is accepted, and
      the RTP_CREATE of a call of the MSC, end in a store that holds a call in the
      first state of the machine; what follows is a run of the machine, and hanging
      up reaches both sides as long as the events are [clean].
    - Any number of calls.  [foreign_event_frames]: an event that is not about a call
      leaves it alone and says nothing to the peers of its legs.  [calls_run_apart]: in a run of
      interleaved events of several bridged calls, and of others, each call is a run
      of its own machine.
    - Finding a leg: [find_legs_spec], the searches are the first match in the list
      of all live legs; the one for a leg that is not in release looks at this match only.
    - Data: SDP ([sdp_screen_iff], [sdp_extract_spec], [call_leg_rx_sdp_spec]),
      causes ([cause_roundtrip], [cause_map_first]), numbers
      ([number_roundtrip]), bytes ([view_rtp_bytes], [view_mncc_bytes]), configuration
      ([config_roundtrip]).
    - The loop and inspection: [evpoll_spec], [check_hello_spec], [show_safe_iff].
      What the log shows of a truncated message: [log_mncc_stack]; the buffer of
      sofia-sip's lines: [sip_logger_bounds].
    - Limits: [lost_write_faults] and [wrong_direction_faults] prove that
      [event_safe] needs its hypotheses, for every bridged call;
      [crossed_answer_stranded] and [cleared_is_answered_200] that a call can be
      left connected on the SIP side, and answered by being cleared; [Findings]
      adds executions.

    ** Hypotheses

    [enabled] says when an event can occur, [conforms] what a peer may send: for a
    call it made itself, the MSC sends ALERT_IND, SETUP_CNF and RTP_CREATE at most
    until the call is routed to SIP; sofia-sip reports events of a dialog for
    handles that are bound, with a message where one exists; and a new INVITE
    finds memory, because the code asserts it.  [WritesOk] is used where a message
    is sent; it is false of a socket that breaks, and [lost_write_faults] shows
    what the code does then.  [mncc_sip_call] (MnccRx.v) is a bridged call in a
    well-formed store whose callref is unique; [resources] says that memory and
    SIP handles are there.  [fields_fit] assumes of the peers that they send bytes
    and C strings ([event_fits]) and of the libraries that what they return has
    the type it is declared with ([FitLaws]); [MnccLibLaws] says that the layouts
    of the embedded structures are layouts.

    ** Bounds and fuel

    Releasing legs can lose the connection and losing it releases legs.  The
    recursion is unrolled by [on_disconnect n]; [disconnected] is one
    unrolling, and [on_disconnect_fuel] proves that more make no difference, since
    the connection is marked disconnected before the callback runs;
    [unrolling_exact] extends this to every function that writes.
    [disconnect_loop] has the length of the call list as fuel; the list does not
    grow while it runs, so [OutOfFuel] is excluded like any fault, by
    [disconnect_clears].  [cause_loop] has the length of the table; its index
    stays below 256, as the [uint8_t] of the code needs.  Other recursion is
    structural.  [labels_of] has a label for the events of one call: messages with its
    callref that are long enough, events of its handle with a message where the code
    reads one, its timer; an RTP_CREATE for a call of the MSC, which places a new SIP
    leg, has none: it is one of the two events of [places], with the INVITE that opens
    a call, for which the number of the call must be free.  [foreign] leaves out what ends or starts the connection (a HELLO, a
    read that fails, a message cut short) and a SETUP or INVITE when the next number
    is the callref of the call, which the wrap of the ids or the MSC can bring about.
    Calls get 32-bit ids that wrap; RTP ports are 16-bit; [int] and
    [unsigned] conversions of printf are written out.

    ** What is not modelled

    Reads beyond an array that do not change what is computed: [call_leg_rx_sdp] of a
    message whose sdp[] has no NUL measures it with strlen, within the buffer of
    [mncc_data] (see [rx_sdp_update]).  Logging inside the handlers, including what its arguments read ([i_id] of a
    Call-ID, names of causes).  The inside of the structures of libosmocore that
    [gsm_mncc] embeds: their codecs are parameters.  [gsm_call] and the prototypes
    of other programs at the end of mncc_protocol.h.  Allocation failure of temporary strings
    and of the copy of the SIP payload; the strings that routing tests for NULL
    may fail.  The order in which C evaluates the two [talloc_strdup] arguments in
    [new_call] is fixed.  The libraries [Main] calls: what they answer is a field
    of [Startup], that they were called is recorded.  glib and the event loop of
    libosmocore are parameters of [MainLoop]; that they call back what is registered
    is the hypothesis of [program_runs].  The bytes that [vsnprintf] and the log targets make
    of a line. *)
From stdpp Require Export base gmap list strings pretty.
From Stdlib Require Export ZArith Lia.
From Stdlib Require Import Ascii.
#[global] Open Scope Z_scope.

(** ** Machine integers *)

(** [uint32_t] arithmetic wraps modulo 2^32. *)
Definition u32 (z : Z) : Z := z mod 2 ^ 32.

(** Assignment to a [uint16_t]. *)
Definition u16 (z : Z) : Z := z mod 2 ^ 16.

(** Conversion of a 32-bit value to [int]. *)
Definition int32 (z : Z) : Z :=
  let u := u32 z in if u <? 2 ^ 31 then u else u - 2 ^ 32.

(** ** C strings

    A NUL-terminated C string is modelled by the Rocq string of the bytes
    before the terminator. *)

(** [strncmp (a, b, n) == 0] *)
Definition strncmp_eq (n : nat) (a b : string) : bool :=
  String.eqb (String.substring 0 n a) (String.substring 0 n b).

(** [%.<n>s] of printf, and the part of a string that [snprintf] keeps. *)
Definition str_take (n : nat) (s : string) : string := String.substring 0 n s.

Definition ascii_lower (c : ascii) : ascii :=
  let n := Ascii.nat_of_ascii c in
  if (65 <=? n)%nat && (n <=? 90)%nat then Ascii.ascii_of_nat (n + 32) else c.

(** [strcasecmp (a, b) == 0] *)
Fixpoint strcasecmp_eq (a b : string) : bool :=
  match a, b with
  | EmptyString, EmptyString => true
  | String x a', String y b' =>
      Ascii.eqb (ascii_lower x) (ascii_lower y) && strcasecmp_eq a' b'
  | _, _ => false
  end.

(** [%d] of an [int] argument and [%u] of an [unsigned int] argument. *)
Definition fmt_d (z : Z) : string := pretty (int32 z).
Definition fmt_u (z : Z) : string := pretty (u32 z).

(** [%c] of an [int] argument: the argument converted to [unsigned char]. *)
Definition fmt_c (z : Z) : string :=
  String (Ascii.ascii_of_nat (Z.to_nat (z mod 256))) EmptyString.

(** Characters that do not appear literally in the strings below. *)
Definition str_nl : string := String (Ascii.ascii_of_nat 10) EmptyString.
Definition str_tab : string := String (Ascii.ascii_of_nat 9) EmptyString.
Definition str_crlf : string :=
  String (Ascii.ascii_of_nat 13) (String (Ascii.ascii_of_nat 10) EmptyString).
Definition str_quote : string := String (Ascii.ascii_of_nat 34) EmptyString.

(** ** Lemmas on integers and strings *)

Lemma u32_range z : 0 <= u32 z < 2 ^ 32.
Proof. apply Z.mod_pos_bound. lia. Qed.

Lemma u32_small z : 0 <= z < 2 ^ 32 -> u32 z = z.
Proof. apply Z.mod_small. Qed.

Lemma substring_le (s : string) : forall n, (String.length s <= n)%nat -> String.substring 0 n s = s.
Proof.
  induction s as [|c s IH]; intros [|n] Hn; simpl in *; try lia; auto.
  f_equal. apply IH. lia.
Qed.

Lemma length_substring0 (s : string) : forall n, String.length (String.substring 0 n s) = Nat.min n (String.length s).
Proof. induction s as [|c s IH]; intros [|n]; simpl; auto. Qed.

Lemma str_take_length n s : (String.length (str_take n s) <= n)%nat.
Proof. unfold str_take. rewrite length_substring0. lia. Qed.

Lemma str_take_small n s : (String.length s <= n)%nat -> str_take n s = s.
Proof. apply substring_le. Qed.

(** Comparing against a string that is shorter than the bound is equality. *)
Lemma strncmp_eq_short n a b :
  (String.length a < n)%nat -> strncmp_eq n a b = true <-> a = b.
Proof.
  intros Ha. unfold strncmp_eq. rewrite String.eqb_eq. split; [|by intros ->].
  rewrite (substring_le a n) by lia. intros Heq.
  assert (String.length b <= n)%nat as Hb.
  { apply (f_equal String.length) in Heq. rewrite length_substring0 in Heq. lia. }
  by rewrite (substring_le b n Hb) in Heq.
Qed.

Lemma strcasecmp_eq_refl s : strcasecmp_eq s s = true.
Proof. induction s as [|c s IH]; simpl; [done|]. by rewrite Ascii.eqb_refl. Qed.

(** ** Lemmas on lists *)
Lemma filter_all {A} (P : A -> Prop) `{forall x, Decision (P x)} (xs : list A) :
  (forall x, x ∈ xs -> P x) -> filter P xs = xs.
Proof.
  induction xs as [|x xs IH]; intros Hp; [done|].
  rewrite filter_cons_True by (apply Hp; left). f_equal. apply IH. intros y Hy. apply Hp. by right.
Qed.

(** ** Lemmas on finite maps *)

Section gmap_lemmas.
Context {K A B : Type} `{Countable K}.

(** Overwriting an entry by one with the same image leaves the image map. *)
Lemma fmap_insert_same (f : A -> B) (m : gmap K A) k x y :
  m !! k = Some x -> f y = f x -> f <$> <[k := y]> m = f <$> m.
Proof.
  intros Hk Hf. rewrite fmap_insert, Hf. apply insert_id.
  by rewrite lookup_fmap, Hk.
Qed.

Lemma fmap_lookup_inv (f : A -> B) (m : gmap K A) k y :
  (f <$> m) !! k = Some y -> exists x, m !! k = Some x /\ y = f x.
Proof. rewrite lookup_fmap, fmap_Some. done. Qed.
End gmap_lemmas.

(** ** Tactics *)

(** Split conjunctions and existentials of the context. *)
Ltac destruct_ands :=
  repeat match goal with
  | H : _ /\ _ |- _ => destruct H
  | H : exists _, _ |- _ => destruct H
  end.
