(* ===== verification/Effect.v ===== *)
(** * Effects: state passing with crashes

    The C program is a single-threaded event loop over one shared store.  A
    function of the program becomes a computation [M W A]: it takes the store
    and returns a value with the new store, or crashes.  A crash is what the C
    program does on an undefined dereference, on a call through a NULL
    function pointer or on a failed assertion; the store at that point is kept
    so that the trace of what was done before can be inspected. *)
From S2P Require Import Prelude.

(** Why a computation stopped. *)
Inductive fault :=
| NullDeref        (* a field of a NULL pointer is accessed *)
| NullCall         (* a call through a NULL function pointer *)
| UseAfterFree     (* an object is accessed after it was freed *)
| TypeConfusion    (* a base-class pointer is cast to the wrong derived type *)
| AssertFail       (* OSMO_ASSERT failed *)
| OutOfBounds      (* a copy runs over the end of an array *)
| OutOfFuel.       (* not a behaviour of the program: a recursion bound was too small *)

#[export] Instance fault_eq_dec : EqDecision fault.
Proof. solve_decision. Defined.

Inductive outcome (W A : Type) :=
| Ret (a : A) (w : W)
| Crash (f : fault) (w : W).
Arguments Ret {W A}.
Arguments Crash {W A}.

Definition M (W A : Type) : Type := W -> outcome W A.

Section ops.
Context {W : Type}.

Definition ret {A} (a : A) : M W A := fun w => Ret a w.

Definition bind {A B} (m : M W A) (k : A -> M W B) : M W B :=
  fun w => match m w with
           | Ret a w' => k a w'
           | Crash f w' => Crash f w'
           end.

Definition crash {A} (f : fault) : M W A := fun w => Crash f w.
Definition gets {A} (f : W -> A) : M W A := fun w => Ret (f w) w.
Definition modify (f : W -> W) : M W unit := fun w => Ret tt (f w).

(** [OSMO_ASSERT] *)
Definition assert (b : bool) : M W unit :=
  if b then ret tt else crash AssertFail.

(** Unwrap an optional value; [f] is the fault of the [None] case. *)
Definition some_or {A} (f : fault) (o : option A) : M W A :=
  match o with Some a => ret a | None => crash f end.

Definition when (b : bool) (m : M W unit) : M W unit :=
  if b then m else ret tt.

(** ** Weakest preconditions

    [wp m Q w]: run from [w], the computation [m] returns, and its result and
    final store satisfy [Q].  It excludes every crash. *)
Definition wp {A} (m : M W A) (Q : A -> W -> Prop) (w : W) : Prop :=
  match m w with Ret a w' => Q a w' | Crash _ _ => False end.

Lemma wp_ret {A} (a : A) (Q : A -> W -> Prop) w : Q a w -> wp (ret a) Q w.
Proof. done. Qed.

Lemma wp_bind {A B} (m : M W A) (k : A -> M W B) Q w :
  wp m (fun a => wp (k a) Q) w -> wp (bind m k) Q w.
Proof. unfold wp, bind. by destruct (m w). Qed.

Lemma wp_mono {A} (m : M W A) (P Q : A -> W -> Prop) w :
  wp m P w -> (forall a w', P a w' -> Q a w') -> wp m Q w.
Proof. unfold wp. destruct (m w); auto. Qed.

Lemma wp_gets {A} (f : W -> A) (Q : A -> W -> Prop) w : Q (f w) w -> wp (gets f) Q w.
Proof. done. Qed.

Lemma wp_modify (f : W -> W) (Q : unit -> W -> Prop) w : Q tt (f w) -> wp (modify f) Q w.
Proof. done. Qed.

Lemma wp_assert b (Q : unit -> W -> Prop) w : b = true -> Q tt w -> wp (assert b) Q w.
Proof. by intros ->. Qed.

Lemma wp_some_or {A} f (o : option A) (Q : A -> W -> Prop) w a :
  o = Some a -> Q a w -> wp (some_or f o) Q w.
Proof. by intros ->. Qed.

Lemma wp_when b (m : M W unit) (Q : unit -> W -> Prop) w :
  (b = true -> wp m Q w) -> (b = false -> Q tt w) -> wp (when b m) Q w.
Proof. destruct b; simpl; auto using wp_ret. Qed.

(** A computation that satisfies a [wp] returns. *)
Lemma wp_returns {A} (m : M W A) Q w : wp m Q w -> exists a w', m w = Ret a w' /\ Q a w'.
Proof. unfold wp. destruct (m w) as [a w'|]; [eauto | done]. Qed.

Lemma wp_of_returns {A} (m : M W A) (Q : A -> W -> Prop) w a w' :
  m w = Ret a w' -> Q a w' -> wp m Q w.
Proof. unfold wp. by intros ->. Qed.

Lemma wp_bind_inv {A B} (m : M W A) (k : A -> M W B) Q w :
  wp (bind m k) Q w -> wp m (fun a => wp (k a) Q) w.
Proof. unfold wp, bind. by destruct (m w). Qed.

Lemma wp_assoc {A B C} (m : M W A) (k : A -> M W B) (h : B -> M W C) Q w :
  wp (bind (bind m k) h) Q w -> wp (bind m (fun a => bind (k a) h)) Q w.
Proof. unfold wp, bind. by destruct (m w). Qed.

(** ** What a computation leaves alone

    [keeps f m]: when [m] returns, the projection [f] of the store is unchanged. *)
Definition keeps {A F} (f : W -> F) (m : M W A) : Prop :=
  forall w, match m w with Ret _ w' => f w' = f w | Crash _ _ => True end.

Lemma keeps_ret {A F} (f : W -> F) (a : A) : keeps f (ret a).
Proof. done. Qed.
Lemma keeps_gets {A F} (f : W -> F) (g : W -> A) : keeps f (gets g).
Proof. done. Qed.
Lemma keeps_modify {F} (f : W -> F) g : (forall w, f (g w) = f w) -> keeps f (modify g).
Proof. intros Hf w. apply Hf. Qed.
Lemma keeps_some_or {A F} (f : W -> F) e (o : option A) : keeps f (some_or e o).
Proof. by destruct o. Qed.
Lemma keeps_assert {F} (f : W -> F) b : keeps f (assert b).
Proof. by destruct b. Qed.
Lemma keeps_crash {A F} (f : W -> F) e : keeps f (crash e : M W A).
Proof. done. Qed.
Lemma keeps_bind {A B F} (f : W -> F) (m : M W A) (k : A -> M W B) :
  keeps f m -> (forall a, keeps f (k a)) -> keeps f (bind m k).
Proof.
  intros Hm Hk w. specialize (Hm w). unfold bind. destruct (m w) as [a w1|]; [|done].
  specialize (Hk a w1). destruct (k a w1); [congruence|done].
Qed.

Lemma keeps_run {A F} (f : W -> F) (m : M W A) w a w' : keeps f m -> m w = Ret a w' -> f w' = f w.
Proof. intros Hk Heq. specialize (Hk w). by rewrite Heq in Hk. Qed.

(** Using it beside a [wp]. *)
Lemma wp_keeps {A F} (f : W -> F) (m : M W A) (Q : A -> W -> Prop) w :
  keeps f m -> wp m Q w -> wp m (fun a w' => Q a w' /\ f w' = f w) w.
Proof. intros Hk. specialize (Hk w). unfold wp. by destruct (m w). Qed.

(** ** Invariants

    [within I m Q]: [m] preserves [I], on the way to a fault too, and returns a
    value with [Q]. *)
Definition within {A} (I : W -> Prop) (m : M W A) (Q : A -> Prop) : Prop := forall w, I w ->
  match m w with
  | Ret a w' => I w' /\ Q a
  | Crash _ w' => I w'
  end.
(** What is left of an outcome when its value does not matter. *)
Definition final {A} (o : outcome W A) : W := match o with Ret _ w | Crash _ w => w end.

Section within.
Context (I : W -> Prop).

Lemma within_bind {A B} (m : M W A) (k : A -> M W B) P Q :
  within I m P -> (forall a, P a -> within I (k a) Q) -> within I (bind m k) Q.
Proof.
  intros Hm Hk w Hw. specialize (Hm w Hw). unfold bind. destruct (m w) as [a w1|]; [|done].
  destruct Hm as [Hw1 Ha]. by apply Hk.
Qed.
Lemma within_mono {A} (m : M W A) (P Q : A -> Prop) : within I m P -> (forall a, P a -> Q a) -> within I m Q.
Proof. intros Hm HPQ w Hw. specialize (Hm w Hw). destruct (m w); [|done]. destruct Hm. auto. Qed.
Lemma within_ret {A} (a : A) (Q : A -> Prop) : Q a -> within I (ret a) Q.
Proof. by intros ? ?. Qed.
Lemma within_crash {A} f (Q : A -> Prop) : within I (crash f) Q.
Proof. by intros ?. Qed.
Lemma within_gets {A} (f : W -> A) (Q : A -> Prop) : (forall w, I w -> Q (f w)) -> within I (gets f) Q.
Proof. intros Hf w Hw. split; [done|by apply Hf]. Qed.
Lemma within_modify (f : W -> W) (Q : unit -> Prop) : (forall w, I w -> I (f w)) -> Q tt -> within I (modify f) Q.
Proof. intros Hf ? w Hw. split; [by apply Hf|done]. Qed.
Lemma within_some_or {A} f (o : option A) (Q : A -> Prop) : (forall a, o = Some a -> Q a) -> within I (some_or f o) Q.
Proof. intros Ho w Hw. destruct o as [a|]; [|done]. split; [done|by apply Ho]. Qed.
Lemma within_assert b (Q : unit -> Prop) : Q tt -> within I (assert b) Q.
Proof. intros ? w Hw. by destruct b. Qed.
Lemma within_when b m (Q : unit -> Prop) : within I m Q -> Q tt -> within I (when b m) Q.
Proof. intros ? ?. destruct b; [done|by apply within_ret]. Qed.
Lemma within_final {A} (m : M W A) Q w : within I m Q -> I w -> I (final (m w)).
Proof. intros Hm Hw. specialize (Hm w Hw). destruct (m w); [by destruct Hm|done]. Qed.
End within.

(** ** Computations that do the same *)
Definition meq {A} (m n : M W A) : Prop := forall w, m w = n w.

#[export] Instance meq_equivalence {A} : Equivalence (@meq A).
Proof. split; [by intros m w|by intros m n H w|]. intros m n p H1 H2 w. by rewrite H1. Qed.

#[export] Instance bind_proper {A B} : Proper (meq ==> pointwise_relation A meq ==> meq) (@bind A B).
Proof. intros m n Hm k h Hk w. unfold bind. rewrite (Hm w). destruct (n w); [apply Hk|done]. Qed.

#[export] Instance when_proper : Proper (eq ==> meq ==> meq) when.
Proof. by intros b ? <- m n Hm w; destruct b. Qed.

#[export] Instance wp_proper {A} : Proper (meq ==> eq ==> eq ==> iff) (@wp A).
Proof. intros m n Hm Q ? <- w ? <-. unfold wp. by rewrite (Hm w). Qed.

#[export] Instance within_proper {A} I : Proper (meq ==> eq ==> iff) (@within A I).
Proof. intros m n Hm Q ? <-. unfold within. split; intros H w Hw; specialize (H w Hw); by rewrite ?(Hm w), <- ?(Hm w) in *. Qed.

#[export] Instance keeps_proper {A F} (f : W -> F) : Proper (meq ==> iff) (@keeps A F f).
Proof. intros m n Hm. unfold keeps. split; intros H w; specialize (H w); by rewrite ?(Hm w), <- ?(Hm w) in *. Qed.

(** ** Monad laws *)
Lemma bind_ret_l {A B} (a : A) (k : A -> M W B) w : bind (ret a) k w = k a w.
Proof. done. Qed.

Lemma bind_assoc {A B C} (m : M W A) (k : A -> M W B) (h : B -> M W C) w :
  bind (bind m k) h w = bind m (fun a => bind (k a) h) w.
Proof. unfold bind. by destruct (m w). Qed.

Lemma bind_ext {A B} (m : M W A) (k h : A -> M W B) w :
  (forall a w', k a w' = h a w') -> bind m k w = bind m h w.
Proof. intros Hk. unfold bind. by destruct (m w). Qed.

Lemma some_or_Some {A} f (a : A) w : some_or f (Some a) w = Ret a w.
Proof. done. Qed.

Lemma bind_returns {A B} (m : M W A) (k : A -> M W B) w a w' :
  m w = Ret a w' -> bind m k w = k a w'.
Proof. unfold bind. by intros ->. Qed.
End ops.
#[export] Hint Opaque meq : rewrite typeclass_instances.
Infix "≈" := meq (at level 70, no associativity).

Create HintDb keepsdb.
Create HintDb meqdb.
Ltac keeps := repeat first
  [ match goal with |- forall _, _ => intro end | solve [auto with keepsdb]
  | apply keeps_bind | apply keeps_ret | apply keeps_gets | apply keeps_some_or
  | apply keeps_assert | apply keeps_crash | (apply keeps_modify; reflexivity)
  | match goal with
    | |- keeps _ (if ?b then _ else _) => destruct b
    | |- keeps _ (match ?x with _ => _ end) => destruct x
    end ].

(** Two computations of the same shape, part by part. *)
Ltac meq := repeat first
  [ reflexivity | match goal with |- forall _, _ => intro | |- pointwise_relation _ _ _ _ => intro end
  | solve [auto with meqdb] | f_equiv
  | match goal with
    | |- meq (if ?b then _ else _) _ => destruct b
    | |- meq (match ?x with _ => _ end) _ => destruct x
    end ].

Declare Scope effect_scope.
Delimit Scope effect_scope with M.
Notation "x <- m ;; k" := (bind m (fun x => k))
  (at level 100, m at next level, right associativity) : effect_scope.
Notation "m ;; k" := (bind m (fun _ => k))
  (at level 100, right associativity) : effect_scope.
#[global] Open Scope effect_scope.
