(* ===== verification/Codec.v ===== *)
(** * Bytes, C strings and the memory layout of C structures

    A buffer is a list of bytes, each a [Z] in [0, 256).  [codec A] is how a C
    compiler lays out values of a type: a size, an alignment, the bytes of a
    value, the value read from a buffer that starts with them, and the values
    that have a representation.  [CodecOk] is the law.  There is a codec for
    integers, character arrays and byte arrays, and combinators for the fields of
    a structure, each put at the next multiple of its alignment; their
    instances of [CodecOk] make the round trip of a structure a matter of
    class resolution. *)
From S2P Require Import Prelude.
From Stdlib Require Import Ascii.

(** ** Definitions *)

(** Integers are in the byte order of the machine (little endian). *)
Fixpoint le_decode (bs : list Z) : Z :=
  match bs with
  | [] => 0
  | b :: bs' => b + 256 * le_decode bs'
  end.

Fixpoint le_encode (n : nat) (z : Z) : list Z :=
  match n with
  | O => []
  | S n' => z mod 256 :: le_encode n' (z / 256)
  end.

(** The bytes [off .. off + len - 1] of a buffer. *)
Definition bytes_at (buf : list Z) (off len : nat) : list Z := take len (drop off buf).
Definition rd32 (buf : list Z) (off : nat) : Z := le_decode (bytes_at buf off 4).
Definition rd16 (buf : list Z) (off : nat) : Z := le_decode (bytes_at buf off 2).
(** A 16-bit field in network byte order. *)
Definition rd16be (buf : list Z) (off : nat) : Z := le_decode (reverse (bytes_at buf off 2)).

(** A character array as a C string: the bytes before the first NUL. *)
Fixpoint cstr (bs : list Z) : string :=
  match bs with
  | [] => EmptyString
  | b :: bs' => if b =? 0 then EmptyString else String (Ascii.ascii_of_nat (Z.to_nat b)) (cstr bs')
  end.

Fixpoint str_bytes (s : string) : list Z :=
  match s with
  | EmptyString => []
  | String c s' => Z.of_nat (Ascii.nat_of_ascii c) :: str_bytes s'
  end.

(** A string stored in a zeroed character array of [n] bytes. *)
Definition str_array (n : nat) (s : string) : list Z :=
  take n (str_bytes s ++ replicate n 0).

Definition byte (b : Z) : Prop := 0 <= b < 256.
Definition is_u32 (z : Z) : Prop := 0 <= z < 2 ^ 32.
Definition is_int (z : Z) : Prop := - 2 ^ 31 <= z < 2 ^ 31.
(** A string without NUL characters. *)
Definition no_nul (s : string) : Prop := Forall (fun b => b <> 0) (str_bytes s).

(** ** Lemmas on integers and buffers *)
Lemma le_encode_length n z : length (le_encode n z) = n.
Proof. revert z. induction n as [|n IH]; intros z; simpl; [done|by rewrite IH]. Qed.

Lemma le_decode_encode n z : 0 <= z < 256 ^ Z.of_nat n -> le_decode (le_encode n z) = z.
Proof.
  revert z. induction n as [|n IH]; intros z Hz; simpl.
  - simpl in Hz. lia.
  - rewrite IH; [pose proof (Z.div_mod z 256); lia|].
    rewrite Nat2Z.inj_succ, Z.pow_succ_r in Hz by lia.
    split; [apply Z.div_pos; lia|apply Z.div_lt_upper_bound; lia].
Qed.

Lemma le_decode_range bs : Forall byte bs -> 0 <= le_decode bs < 256 ^ Z.of_nat (length bs).
Proof.
  unfold byte. induction 1 as [|b bs Hb _ IH]; [simpl; lia|].
  cbn [le_decode length]. rewrite Nat2Z.inj_succ, Z.pow_succ_r by lia. lia.
Qed.

Lemma le_encode_bytes n z : Forall byte (le_encode n z).
Proof.
  revert z. induction n as [|n IH]; intros z; simpl; constructor; [|done].
  apply Z.mod_pos_bound. lia.
Qed.

Lemma bytes_at_app (a b c : list Z) off len : length a = off -> length b = len ->
  bytes_at (a ++ b ++ c) off len = b.
Proof. intros <- <-. unfold bytes_at. by rewrite drop_app_length, take_app_length. Qed.

Lemma bytes_at_here (b c : list Z) len : length b = len -> bytes_at (b ++ c) 0 len = b.
Proof. apply (bytes_at_app [] b c 0 len eq_refl). Qed.

Lemma bytes_at_bytes buf off len : Forall byte buf -> Forall byte (bytes_at buf off len).
Proof. intros H. by apply Forall_take, Forall_drop. Qed.

Lemma bytes_at_length buf off len : (off + len <= length buf)%nat -> length (bytes_at buf off len) = len.
Proof. intros H. unfold bytes_at. rewrite length_take, length_drop. lia. Qed.

Lemma rd32_range buf off : Forall byte buf -> is_u32 (rd32 buf off).
Proof.
  intros H. unfold rd32, is_u32. pose proof (le_decode_range _ (bytes_at_bytes buf off 4 H)) as Hr.
  assert (Z.of_nat (length (bytes_at buf off 4)) <= 4) as Hl by (unfold bytes_at; rewrite length_take; lia).
  pose proof (Z.pow_le_mono_r 256 _ _ ltac:(lia) Hl) as Hp. change (256 ^ 4) with (2 ^ 32) in Hp. lia.
Qed.

Lemma rd16_range buf off : Forall byte buf -> 0 <= rd16 buf off < 2 ^ 16 /\ 0 <= rd16be buf off < 2 ^ 16.
Proof.
  intros H. unfold rd16, rd16be. pose proof (bytes_at_bytes buf off 2 H) as Hb.
  assert (Z.of_nat (length (bytes_at buf off 2)) <= 2) as Hl by (unfold bytes_at; rewrite length_take; lia).
  pose proof (Z.pow_le_mono_r 256 _ _ ltac:(lia) Hl) as Hp. change (256 ^ 2) with (2 ^ 16) in Hp.
  pose proof (le_decode_range _ Hb). pose proof (le_decode_range (reverse (bytes_at buf off 2))) as Hr.
  rewrite length_reverse in Hr. specialize (Hr (proj2 (Forall_reverse _ _) Hb)). lia.
Qed.

(** ** Lemmas on strings *)
Lemma str_bytes_length s : length (str_bytes s) = String.length s.
Proof. induction s; simpl; auto. Qed.

Lemma str_bytes_bytes s : Forall byte (str_bytes s).
Proof.
  induction s as [|c s IH]; simpl; constructor; [|done].
  pose proof (Ascii.nat_ascii_bounded c). unfold byte. lia.
Qed.

Lemma str_array_length n s : length (str_array n s) = n.
Proof. unfold str_array. rewrite length_take, length_app, length_replicate. lia. Qed.

Lemma zeros_bytes n : Forall byte (replicate n 0).
Proof. apply Forall_replicate. unfold byte. lia. Qed.

Lemma str_array_bytes n s : Forall byte (str_array n s).
Proof. apply Forall_take, Forall_app. auto using str_bytes_bytes, zeros_bytes. Qed.

Lemma cstr_bytes s : forall rest, no_nul s -> rest = [] \/ (exists r, rest = 0 :: r) ->
  cstr (str_bytes s ++ rest) = s.
Proof.
  unfold no_nul. induction s as [|c s IH]; simpl; intros rest.
  - by intros _ [->|[r ->]].
  - intros [Hc Hs]%Forall_cons Hr.
    destruct (Z.eqb_spec (Z.of_nat (Ascii.nat_of_ascii c)) 0) as [|_]; [done|].
    rewrite Nat2Z.id, Ascii.ascii_nat_embedding. f_equal. by apply IH.
Qed.

(** A character array holds any string that is not longer; it is terminated if
    there is room. *)
Lemma cstr_str_array n s : no_nul s -> (String.length s <= n)%nat -> cstr (str_array n s) = s.
Proof.
  intros Hs Hn. unfold str_array. rewrite take_app_ge by (rewrite str_bytes_length; lia).
  rewrite str_bytes_length, take_replicate. apply cstr_bytes; [done|].
  destruct (Nat.min (n - String.length s) n) as [|k]; [by left|right]. by eexists.
Qed.

Lemma cstr_no_nul bs : Forall byte bs -> no_nul (cstr bs).
Proof.
  unfold no_nul, byte. induction 1 as [|b bs Hb _ IH]; simpl; [constructor|].
  destruct (Z.eqb_spec b 0) as [|Hz]; simpl; constructor; [|done].
  rewrite Ascii.nat_ascii_embedding; lia.
Qed.

Lemma cstr_length bs : (String.length (cstr bs) <= length bs)%nat.
Proof. induction bs as [|b bs IH]; simpl; [lia|]. destruct (b =? 0); simpl; lia. Qed.

Lemma no_nul_substring s : forall n, no_nul s -> no_nul (String.substring 0 n s).
Proof.
  unfold no_nul. induction s as [|c s IH]; intros [|n]; simpl; try constructor.
  - by apply Forall_cons in H as [? _].
  - apply IH. by apply Forall_cons in H as [_ ?].
Qed.

Lemma no_nul_take n s : no_nul s -> no_nul (str_take n s).
Proof. apply no_nul_substring. Qed.

Lemma no_nul_app a b : no_nul (a +:+ b) <-> no_nul a /\ no_nul b.
Proof.
  assert (str_bytes (a +:+ b) = str_bytes a ++ str_bytes b) as Heq by (induction a as [|c a IH]; [done|]; simpl; by rewrite <- IH).
  unfold no_nul. by rewrite Heq, Forall_app.
Qed.

(** ** Codecs *)
Record codec (A : Type) := Codec {
  c_size : nat;
  c_align : nat;
  enc : A -> list Z;
  dec : list Z -> A;
  fits : A -> Prop;
}.
Arguments Codec {A}.
Arguments c_size {A}.
Arguments c_align {A}.
Arguments enc {A}.
Arguments dec {A}.
Arguments fits {A}.

Class CodecOk {A} (c : codec A) : Prop := {
  c_align_pos : (0 < c_align c)%nat;
  enc_length : forall a, fits c a -> length (enc c a) = c_size c;
  enc_bytes : forall a, fits c a -> Forall byte (enc c a);
  dec_enc : forall a rest, fits c a -> dec c (enc c a ++ rest) = a;
  dec_fits : forall bs, Forall byte bs -> (c_size c <= length bs)%nat -> fits c (dec c bs) }.

(** The next multiple of [al]. *)
Definition align_up (n al : nat) : nat := (n + al - 1) / al * al.

Definition c_u32 : codec Z := Codec 4 4 (le_encode 4) (fun bs => rd32 bs 0) is_u32.
Definition c_int : codec Z := Codec 4 4 (fun z => le_encode 4 (u32 z)) (fun bs => int32 (rd32 bs 0)) is_int.
Definition c_u16 : codec Z := Codec 2 2 (le_encode 2) (fun bs => rd16 bs 0) (fun z => 0 <= z < 2 ^ 16).
(** In network byte order. *)
Definition c_u16be : codec Z :=
  Codec 2 2 (fun z => reverse (le_encode 2 z)) (fun bs => rd16be bs 0) (fun z => 0 <= z < 2 ^ 16).
Definition c_chars (n : nat) : codec string :=
  Codec n 1 (str_array n) (fun bs => cstr (bytes_at bs 0 n)) (fun s => no_nul s /\ (String.length s <= n)%nat).
Definition c_bytes (n : nat) : codec (list Z) :=
  Codec n 1 id (fun bs => bytes_at bs 0 n) (fun bs => length bs = n /\ Forall byte bs).
(** A field that is never looked at and zero when written. *)
Definition c_skip (n al : nat) : codec unit :=
  Codec n al (fun _ => replicate n 0) (fun _ => tt) (fun _ => True).

(** The field [d] after the fields [c]. *)
Definition field_offset {A B} (c : codec A) (d : codec B) : nat := align_up (c_size c) (c_align d).
Definition c_field {A B} (c : codec A) (d : codec B) : codec (A * B) :=
  Codec (field_offset c d + c_size d) (Nat.max (c_align c) (c_align d))
        (fun ab => enc c (fst ab) ++ replicate (field_offset c d - c_size c) 0 ++ enc d (snd ab))
        (fun bs => (dec c bs, dec d (drop (field_offset c d) bs)))
        (fun ab => fits c (fst ab) /\ fits d (snd ab)).

(** The structure with these fields, as a record: its size is a multiple of its
    alignment. *)
Definition c_struct {A B} (c : codec A) (mk : A -> B) (get : B -> A) : codec B :=
  let size := align_up (c_size c) (c_align c) in
  Codec size (c_align c)
        (fun b => enc c (get b) ++ replicate (size - c_size c) 0)
        (fun bs => mk (dec c bs))
        (fun b => fits c (get b)).

(** The same bytes with a stricter alignment. *)
Definition c_aligned {A} (al : nat) (c : codec A) : codec A := Codec (c_size c) al (enc c) (dec c) (fits c).

Declare Scope codec_scope.
Delimit Scope codec_scope with C.
Notation "c ;+ d" := (c_field c d) (at level 50, left associativity) : codec_scope.

(** ** The codecs are lawful *)
Lemma align_up_ge n al : (0 < al)%nat -> (n <= align_up n al)%nat.
Proof.
  intros Ha. unfold align_up. pose proof (Nat.div_mod_eq (n + al - 1) al).
  pose proof (Nat.mod_upper_bound (n + al - 1) al). nia.
Qed.

Lemma align_up_divides n al : (al | align_up n al)%nat.
Proof. by exists ((n + al - 1) / al)%nat. Qed.

#[export] Instance c_u32_ok : CodecOk c_u32.
Proof.
  split; cbn [c_u32 c_int c_size c_align enc dec fits]; intros.
  - lia.
  - apply le_encode_length.
  - apply le_encode_bytes.
  - unfold rd32. rewrite bytes_at_here by apply le_encode_length. by apply le_decode_encode.
  - by apply rd32_range.
Qed.

Lemma int32_u32 z : is_int z -> int32 (u32 z) = z.
Proof.
  unfold is_int, int32. intros Hz. rewrite (u32_small (u32 z)) by apply u32_range. unfold u32.
  pose proof (Z.div_mod z (2 ^ 32)). pose proof (Z.mod_pos_bound z (2 ^ 32)).
  destruct (Z.ltb_spec (z mod 2 ^ 32) (2 ^ 31)); nia.
Qed.
Lemma int32_range z : is_int (int32 z).
Proof. unfold is_int, int32. pose proof (u32_range z). destruct (Z.ltb_spec (u32 z) (2 ^ 31)); lia. Qed.

#[export] Instance c_int_ok : CodecOk c_int.
Proof.
  split; cbn [c_u32 c_int c_size c_align enc dec fits]; intros.
  - lia.
  - apply le_encode_length.
  - apply le_encode_bytes.
  - unfold rd32. rewrite bytes_at_here by apply le_encode_length.
    rewrite le_decode_encode by apply u32_range. by apply int32_u32.
  - apply int32_range.
Qed.

#[export] Instance c_u16_ok : CodecOk c_u16.
Proof.
  split; cbn [c_u16 c_size c_align enc dec fits]; intros.
  - lia.
  - apply le_encode_length.
  - apply le_encode_bytes.
  - unfold rd16. rewrite bytes_at_here by apply le_encode_length. by apply le_decode_encode.
  - by apply rd16_range.
Qed.

#[export] Instance c_u16be_ok : CodecOk c_u16be.
Proof.
  split; cbn [c_u16be c_size c_align enc dec fits]; intros.
  - lia.
  - by rewrite length_reverse, le_encode_length.
  - apply Forall_reverse, le_encode_bytes.
  - unfold rd16be. rewrite bytes_at_here by by rewrite length_reverse, le_encode_length.
    rewrite reverse_involutive. by apply le_decode_encode.
  - by apply rd16_range.
Qed.

#[export] Instance c_chars_ok n : CodecOk (c_chars n).
Proof.
  split; simpl; intros.
  - lia.
  - apply str_array_length.
  - apply str_array_bytes.
  - rewrite bytes_at_here by apply str_array_length. destruct_ands. by apply cstr_str_array.
  - split; [by apply cstr_no_nul, bytes_at_bytes|]. etrans; [apply cstr_length|].
    unfold bytes_at. rewrite length_take. lia.
Qed.

#[export] Instance c_bytes_ok n : CodecOk (c_bytes n).
Proof.
  split; simpl; intros; destruct_ands; try done.
  - lia.
  - by apply bytes_at_here.
  - split; [by apply bytes_at_length|by apply bytes_at_bytes].
Qed.

Lemma c_skip_ok n al : (0 < al)%nat -> CodecOk (c_skip n al).
Proof.
  split; simpl; intros; try done.
  - apply length_replicate.
  - apply zeros_bytes.
  - by destruct a.
Qed.

#[export] Instance c_field_ok {A B} (c : codec A) (d : codec B) : CodecOk c -> CodecOk d -> CodecOk (c_field c d).
Proof.
  intros Hc Hd. pose proof (align_up_ge (c_size c) (c_align d) c_align_pos) as Hoff. fold (field_offset c d) in Hoff.
  split; simpl.
  - pose proof (c_align_pos (c := c)). lia.
  - intros [a b] [Ha Hb]. rewrite !length_app, length_replicate, !enc_length by done. simpl. lia.
  - intros [a b] [Ha Hb]. rewrite !Forall_app. split_and!; [by apply enc_bytes|apply zeros_bytes|by apply enc_bytes].
  - intros [a b] rest [Ha Hb]. simpl in *. rewrite <- !app_assoc, dec_enc by done. f_equal.
    rewrite app_assoc, drop_app_length', dec_enc; [done|done|].
    rewrite length_app, length_replicate, enc_length by done. lia.
  - intros bs Hbs Hl. split; [apply dec_fits; [done|lia]|]. apply dec_fits; [by apply Forall_drop|].
    rewrite length_drop. lia.
Qed.

Lemma c_aligned_ok {A} al (c : codec A) : (0 < al)%nat -> CodecOk c -> CodecOk (c_aligned al c).
Proof. intros Hal Hc. split; simpl; [done|apply Hc..]. Qed.

(** A record is its fields: [mk] and [get] are inverse. *)
Lemma c_struct_ok {A B} (c : codec A) (mk : A -> B) (get : B -> A) : CodecOk c ->
  (forall a, get (mk a) = a) -> (forall b, mk (get b) = b) -> CodecOk (c_struct c mk get).
Proof.
  intros Hc Hgm Hmg. pose proof (align_up_ge (c_size c) (c_align c) c_align_pos) as Hsz.
  split; simpl.
  - apply c_align_pos.
  - intros b Hb. rewrite length_app, length_replicate, enc_length by done. lia.
  - intros b Hb. rewrite Forall_app. split; [by apply enc_bytes|apply zeros_bytes].
  - intros b rest Hb. by rewrite <- app_assoc, dec_enc.
  - intros bs Hbs Hl. rewrite Hgm. apply dec_fits; [done|lia].
Qed.

(** Each field lies behind those before it, at a multiple of its alignment, and
    within the structure. *)
Lemma field_within {A B} (c : codec A) (d : codec B) : CodecOk d ->
  (c_size c <= field_offset c d)%nat /\ (c_align d | field_offset c d)%nat
  /\ (field_offset c d + c_size d <= c_size (c_field c d))%nat.
Proof. intros Hd. split_and!; [apply align_up_ge, c_align_pos|apply align_up_divides|done]. Qed.

(** A structure is at least as long as its last field. *)
Lemma struct_size_last {A B C} (c : codec A) (d : codec B) (mk : A * B -> C) get : (0 < c_align d)%nat ->
  (c_size d <= c_size (c_struct (c_field c d) mk get))%nat.
Proof.
  intros Hd. assert (0 < c_align (c_field c d))%nat as Ha by (cbn; lia).
  pose proof (align_up_ge (c_size (c_field c d)) _ Ha) as H. cbn in H |- *. lia.
Qed.
