(* ===== verification/Evpoll.v ===== *)
(** * The poll function of the main loop (src/evpoll.c)

    glib asks the program to poll its descriptors; [evpoll] adds those of
    libosmocore, waits in [select] and runs the timers and callbacks of
    libosmocore before it reports back.  The event loop state of libosmocore, its
    timers and [select] are parameters: a callback it runs may be any
    computation on the store [W], the handlers of System.v among them. *)
From S2P Require Import Prelude Effect.
#[local] Open Scope effect_scope.

(** ** Definitions *)

(** [struct timeval] and [struct pollfd] *)
Record timeval := Timeval { tv_sec : Z; tv_usec : Z }.
Record pollfd := Pollfd { pf_fd : Z; events : Z; revents : Z }.
Definition set_revents (r : Z) (p : pollfd) : pollfd := Pollfd (pf_fd p) (events p) r.

(** The three [fd_set]s. *)
Record fdsets := Fdsets { readset : gset Z; writeset : gset Z; exceptset : gset Z }.

(** poll.h of the C library *)
Definition POLLIN : Z := 1.
Definition POLLPRI : Z := 2.
Definition POLLOUT : Z := 4.
Definition POLLERR : Z := 8.
Definition FD_SETSIZE : Z := 1024.

(** libosmocore's event loop, and the system call *)
Class Osmo (W : Type) := {
  osmo_fd_fill_fds : W -> fdsets * Z;
  osmo_timers_check : M W unit;
  osmo_timers_prepare : M W unit;
  osmo_timers_nearest : W -> option timeval;
  osmo_timers_update : M W unit;
  osmo_fd_disp_fds : fdsets -> M W unit;
  select : Z -> fdsets -> option timeval -> M W (Z * fdsets);
}.

(** [timercmp (a, b, <)] *)
Definition timer_lt (a b : timeval) : bool :=
  if tv_sec a =? tv_sec b then tv_usec a <? tv_usec b else tv_sec a <? tv_sec b.

(** [x & flag] *)
Definition flagged (x flag : Z) : bool := negb (Z.land x flag =? 0).

Section evpoll.
Context {W : Type} {O : Osmo W}.

(** [FD_SET] and [FD_ISSET] of a descriptor that is not negative: past the end of
    the set they access other memory. *)
Definition FD_SET (fd : Z) (s : gset Z) : M W (gset Z) :=
  if fd <? FD_SETSIZE then ret ({[fd]} ∪ s) else crash OutOfBounds.
Definition FD_ISSET (fd : Z) (s : gset Z) : M W bool :=
  if fd <? FD_SETSIZE then ret (bool_decide (fd ∈ s)) else crash OutOfBounds.

(** [if (fds[i].events & flag) FD_SET (fds[i].fd, set)] *)
Definition add_if (flag : Z) (p : pollfd) (s : gset Z) : M W (gset Z) :=
  if flagged (events p) flag then FD_SET (pf_fd p) s else ret s.

(** The first loop: the sets and [maxfd]. *)
Fixpoint add_fds (fds : list pollfd) (sets : fdsets) (maxfd : Z) : M W (fdsets * Z) :=
  match fds with
  | [] => ret (sets, maxfd)
  | p :: fds' =>
      if pf_fd p <? 0 then add_fds fds' sets maxfd
      else if negb (flagged (events p) (Z.lor POLLIN (Z.lor POLLOUT POLLPRI))) then add_fds fds' sets maxfd
      else
        r <- add_if POLLIN p (readset sets) ;;
        w <- add_if POLLOUT p (writeset sets) ;;
        e <- add_if POLLPRI p (exceptset sets) ;;
        add_fds fds' (Fdsets r w e) (if maxfd <? pf_fd p then pf_fd p else maxfd)
  end.

(** The timeout passed to [select]; [None] is NULL.  Division truncates. *)
Definition evpoll_wait (timeout : Z) (nearest : option timeval) : option timeval :=
  if timeout =? 0 then Some (Timeval 0 0)
  else if timeout =? -1 then nearest
  else
    let poll_tv := Timeval (Z.quot timeout 1000) (Z.rem timeout 1000 * 1000) in
    match nearest with
    | None => Some poll_tv
    | Some tv => if timer_lt poll_tv tv then Some poll_tv else Some tv
    end.

(** The last loop. *)
Definition report (sets : fdsets) (p : pollfd) : M W pollfd :=
  if pf_fd p <? 0 then ret (set_revents 0 p)
  else
    r <- FD_ISSET (pf_fd p) (readset sets) ;;
    w <- FD_ISSET (pf_fd p) (writeset sets) ;;
    e <- FD_ISSET (pf_fd p) (exceptset sets) ;;
    let v := if r : bool then Z.lor POLLIN POLLERR else 0 in
    let v := if w : bool then Z.lor v POLLOUT else v in
    ret (set_revents (if e : bool then Z.lor v POLLPRI else v) p).
Fixpoint report_fds (sets : fdsets) (fds : list pollfd) : M W (list pollfd) :=
  match fds with
  | [] => ret []
  | p :: fds' => p' <- report sets p ;; ps <- report_fds sets fds' ;; ret (p' :: ps)
  end.

(** The result, and the array as it is left behind. *)
Definition evpoll (fds : list pollfd) (timeout : Z) : M W (Z * list pollfd) :=
  filled <- gets osmo_fd_fill_fds ;;
  added <- add_fds fds (fst filled) (snd filled) ;;
  osmo_timers_check ;;
  osmo_timers_prepare ;;
  nearest <- gets osmo_timers_nearest ;;
  res <- select (snd added + 1) (fst added) (evpoll_wait timeout nearest) ;;
  if fst res <? 0 then ret (0, fds)
  else
    osmo_timers_update ;;
    osmo_fd_disp_fds (snd res) ;;
    fds' <- report_fds (snd res) fds ;;
    ret (fst res, fds').
End evpoll.

(** ** The specification *)

(** Microseconds. *)
Definition usecs (t : timeval) : Z := tv_sec t * 1000000 + tv_usec t.

(** glib asks for the descriptor with the flag. *)
Definition asked (fds : list pollfd) (flag fd : Z) : Prop :=
  exists p, p ∈ fds /\ pf_fd p = fd /\ 0 <= fd /\ flagged (events p) flag = true.

(** What the entry reports, from the sets [select] left. *)
Definition told (sets : fdsets) (p p' : pollfd) : Prop :=
  pf_fd p' = pf_fd p /\ events p' = events p /\
  (pf_fd p < 0 -> revents p' = 0) /\
  (0 <= pf_fd p ->
     flagged (revents p') POLLIN = bool_decide (pf_fd p ∈ readset sets) /\
     flagged (revents p') POLLERR = bool_decide (pf_fd p ∈ readset sets) /\
     flagged (revents p') POLLOUT = bool_decide (pf_fd p ∈ writeset sets) /\
     flagged (revents p') POLLPRI = bool_decide (pf_fd p ∈ exceptset sets)).

(** The sets and the bound handed to [select]. *)
Definition select_args (fds : list pollfd) (lib : fdsets) (libmax : Z) (sets : fdsets) (nfds : Z) : Prop :=
  (forall fd, fd ∈ readset sets <-> fd ∈ readset lib \/ asked fds POLLIN fd) /\
  (forall fd, fd ∈ writeset sets <-> fd ∈ writeset lib \/ asked fds POLLOUT fd) /\
  (forall fd, fd ∈ exceptset sets <-> fd ∈ exceptset lib \/ asked fds POLLPRI fd) /\
  libmax < nfds /\
  (forall fd flag, flag ∈ [POLLIN; POLLOUT; POLLPRI] -> asked fds flag fd -> fd < nfds).

(** The entry [report] computes. *)
Definition reported (sets : fdsets) (p : pollfd) : pollfd :=
  if pf_fd p <? 0 then set_revents 0 p
  else
    let v := if bool_decide (pf_fd p ∈ readset sets) then Z.lor POLLIN POLLERR else 0 in
    let v := if bool_decide (pf_fd p ∈ writeset sets) then Z.lor v POLLOUT else v in
    set_revents (if bool_decide (pf_fd p ∈ exceptset sets) then Z.lor v POLLPRI else v) p.

(** The shortest of the waits: [timeout] milliseconds unless it is -1, and the
    nearest timer unless there is none. *)
Definition shortest (timeout : Z) (nearest : option timeval) (wait : option timeval) : Prop :=
  match wait with
  | None => timeout = -1 /\ nearest = None
  | Some t =>
      (timeout <> -1 -> usecs t <= timeout * 1000) /\
      (forall n, nearest = Some n -> 0 <= usecs n -> usecs t <= usecs n) /\
      (usecs t = timeout * 1000 \/ nearest = Some t)
  end.

(** ** Lemmas *)
Lemma evpoll_wait_shortest timeout nearest :
  (forall n, nearest = Some n -> 0 <= tv_usec n < 1000000) -> -1 <= timeout ->
  shortest timeout nearest (evpoll_wait timeout nearest).
Proof.
  intros Hn Ht. unfold evpoll_wait. destruct (Z.eqb_spec timeout 0) as [->|].
  { split_and!; [unfold usecs; simpl; lia|intros tv _ Hu; exact Hu|left; done]. }
  destruct (Z.eqb_spec timeout (-1)) as [->|].
  { destruct nearest as [tv|]; [|done]. split_and!; [done| |by right]. intros m Hm _. injection Hm as ->. lia. }
  assert (usecs (Timeval (Z.quot timeout 1000) (Z.rem timeout 1000 * 1000)) = timeout * 1000) as Hu.
  { unfold usecs. simpl. pose proof (Z.quot_rem' timeout 1000). lia. }
  pose proof (Z.rem_bound_pos timeout 1000 ltac:(lia) ltac:(lia)) as Hrem.
  destruct nearest as [tv|]; simpl.
  - specialize (Hn tv eq_refl). unfold timer_lt. simpl.
    assert (forall a b, 0 <= tv_usec a < 1000000 -> 0 <= tv_usec b < 1000000 ->
      ((if tv_sec a =? tv_sec b then tv_usec a <? tv_usec b else tv_sec a <? tv_sec b) = true <-> usecs a < usecs b)) as Hcmp.
    { intros a b Ha Hb. unfold usecs. destruct (Z.eqb_spec (tv_sec a) (tv_sec b)); rewrite Z.ltb_lt; lia. }
    specialize (Hcmp (Timeval (Z.quot timeout 1000) (Z.rem timeout 1000 * 1000)) tv ltac:(simpl; lia) Hn). simpl in Hcmp.
    destruct (if Z.quot timeout 1000 =? _ then _ else _).
    + split_and!; [lia| |by left]. intros m Hm _. injection Hm as <-. apply Z.lt_le_incl, Hcmp. done.
    + assert (~ usecs (Timeval (Z.quot timeout 1000) (Z.rem timeout 1000 * 1000)) < usecs tv) by (rewrite <- Hcmp; done).
      split_and!; [lia| |by right]. intros m Hm _. injection Hm as <-. lia.
  - split_and!; [lia|done|by left].
Qed.

Section spec.
Context {W : Type} {O : Osmo W}.

Lemma report_fds_eq sets fds (w : W) : Forall (fun p => pf_fd p < FD_SETSIZE) fds ->
  report_fds sets fds w = Ret (map (reported sets) fds) w.
Proof using.
  induction 1 as [|p fds Hp _ IH]; [done|]. simpl. unfold report, FD_ISSET, reported at 1.
  rewrite (proj2 (Z.ltb_lt _ _) Hp). unfold bind, ret in *. destruct (pf_fd p <? 0); by rewrite IH.
Qed.

Lemma add_if_eq flag p s (w : W) : pf_fd p < FD_SETSIZE ->
  add_if flag p s w = Ret (if flagged (events p) flag then {[pf_fd p]} ∪ s else s) w.
Proof using.
  intros Hp. unfold add_if, FD_SET. rewrite (proj2 (Z.ltb_lt _ _) Hp). by destruct (flagged _ _).
Qed.
End spec.

Lemma asked_nil flag fd : asked [] flag fd <-> False.
Proof. split; [|done]. intros (p & Hp & _). by apply elem_of_nil in Hp. Qed.

Lemma asked_cons p fds flag fd : asked (p :: fds) flag fd <->
  (pf_fd p = fd /\ 0 <= fd /\ flagged (events p) flag = true) \/ asked fds flag fd.
Proof.
  unfold asked. split.
  - intros (q & [->|Hq]%elem_of_cons & H); [by left|]. right. eauto.
  - intros [H|(q & Hq & H)]; eexists; (split; [|exact H]); [by left|by right].
Qed.

(** An entry that is skipped for its flags asks for nothing. *)
Lemma unflagged x : flagged x (Z.lor POLLIN (Z.lor POLLOUT POLLPRI)) = false ->
  flagged x POLLIN = false /\ flagged x POLLOUT = false /\ flagged x POLLPRI = false.
Proof.
  unfold flagged. rewrite !negb_false_iff, !Z.eqb_eq. intros H.
  assert (forall f, Z.land (Z.lor POLLIN (Z.lor POLLOUT POLLPRI)) f = f -> Z.land x f = 0) as Hf.
  { intros f Hf. rewrite <- Hf, Z.land_assoc, H. apply Z.land_0_l. }
  split_and!; by apply Hf.
Qed.

(** An entry that asks for nothing changes nothing. *)
Lemma select_args_skip p fds lib libmax sets nfds :
  (forall flag, flag ∈ [POLLIN; POLLOUT; POLLPRI] -> 0 <= pf_fd p -> flagged (events p) flag = false) ->
  select_args fds lib libmax sets nfds -> select_args (p :: fds) lib libmax sets nfds.
Proof.
  intros Hskip (Hr & Hw & He & Hm & Hb).
  assert (forall flag fd, flag ∈ [POLLIN; POLLOUT; POLLPRI] -> asked (p :: fds) flag fd <-> asked fds flag fd) as Ha.
  { intros flag fd Hin. rewrite asked_cons. split; [|auto]. intros [(<- & Hpos & Hf)|]; [|done].
    by rewrite (Hskip flag Hin Hpos) in Hf. }
  split_and!; [intros fd; rewrite Ha by set_solver; done..|done|].
  intros fd flag Hin Hask. apply (Hb fd flag Hin). by apply Ha.
Qed.

(** [if (b) FD_SET (x, s)], as a set. *)
Lemma added_iff (b : bool) x (s : gset Z) fd (A : Prop) : 0 <= x ->
  fd ∈ (if b then {[x]} ∪ s else s) \/ A <-> fd ∈ s \/ (x = fd /\ 0 <= fd /\ b = true) \/ A.
Proof.
  intros Hx. destruct b.
  - rewrite elem_of_union, elem_of_singleton. split; [intros [[->|?]|?]; auto|intros [?|[(-> & _)|?]]; auto].
  - split; [intros [?|?]; auto|intros [?|[(_ & _ & ?)|?]]; auto; done].
Qed.

Section spec.
Context {W : Type} {O : Osmo W}.

(** The first loop computes the arguments of [select]. *)
Lemma add_fds_eq fds lib libmax (w : W) : Forall (fun p => pf_fd p < FD_SETSIZE) fds ->
  exists sets maxfd, add_fds fds lib libmax w = Ret (sets, maxfd) w /\
    select_args fds lib libmax sets (maxfd + 1) /\ libmax <= maxfd.
Proof using.
  intros Hall. revert lib libmax. induction Hall as [|p fds Hp _ IH]; intros lib libmax; simpl.
  { exists lib, libmax. split_and!; [done| |lia]. unfold select_args. setoid_rewrite asked_nil.
    split_and!; [intros fd; tauto..|lia|done]. }
  destruct (Z.ltb_spec (pf_fd p) 0) as [Hneg|Hpos].
  { destruct (IH lib libmax) as (sets & maxfd & Hrun & Hargs & Hmax). exists sets, maxfd. split_and!; [done| |done].
    apply select_args_skip; [lia|done]. }
  destruct (flagged (events p) (Z.lor POLLIN (Z.lor POLLOUT POLLPRI))) eqn:Hfl; cbn [negb].
  2: { apply unflagged in Hfl as (H1 & H2 & H3). destruct (IH lib libmax) as (sets & maxfd & Hrun & Hargs & Hmax).
    exists sets, maxfd. split_and!; [done| |done]. apply select_args_skip; [|done].
    intros flag Hin _. rewrite !elem_of_cons, elem_of_nil in Hin. by destruct Hin as [->|[->|[->|[]]]]. }
  rewrite !(bind_returns _ _ _ _ _ (add_if_eq _ p _ w Hp)).
  match goal with |- context [add_fds fds ?s ?m w] => destruct (IH s m) as (sets & maxfd & Hrun & Hargs & Hmax) end.
  exists sets, maxfd. assert (libmax <= maxfd /\ pf_fd p <= maxfd) as [Hl Hpm]
    by (destruct (Z.ltb_spec libmax (pf_fd p)); lia).
  split_and!; [done| |done]. unfold select_args in *. setoid_rewrite asked_cons. simpl in Hargs.
  destruct Hargs as (Hr & Hw & He & Hm & Hb). split_and!.
  - intros fd. rewrite Hr. by apply added_iff.
  - intros fd. rewrite Hw. by apply added_iff.
  - intros fd. rewrite He. by apply added_iff.
  - lia.
  - intros fd flag Hin [(<- & _)|Ha]; [lia|by eapply Hb].
Qed.

Lemma reported_told sets p : told sets p (reported sets p).
Proof using.
  unfold told, reported. destruct (Z.ltb_spec (pf_fd p) 0); split_and!; try done; try lia; intros ?;
    simpl; repeat case_bool_decide; done.
Qed.

(** C37: the poll function hands to [select] the descriptors of libosmocore and those glib
    asks for, with a bound above all of them, and waits no longer than glib's timeout
    and the nearest timer allow; it then runs the timers and callbacks and reports for every
    entry the sets that [select] left: POLLERR together with POLLIN. When [select] fails, nothing
    runs and the entries keep what they held. *)
Theorem evpoll_spec fds timeout (w : W) : Forall (fun p => pf_fd p < FD_SETSIZE) fds -> -1 <= timeout ->
  exists sets nfds report,
    select_args fds (fst (osmo_fd_fill_fds w)) (snd (osmo_fd_fill_fds w)) sets nfds /\
    (forall nearest, (forall n, nearest = Some n -> 0 <= tv_usec n < 1000000) ->
       shortest timeout nearest (evpoll_wait timeout nearest)) /\
    (forall left p, told left p (report left p)) /\
    evpoll fds timeout w =
      (osmo_timers_check ;; osmo_timers_prepare ;;
       nearest <- gets osmo_timers_nearest ;;
       res <- select nfds sets (evpoll_wait timeout nearest) ;;
       if fst res <? 0 then ret (0, fds)
       else osmo_timers_update ;; osmo_fd_disp_fds (snd res) ;; ret (fst res, map (report (snd res)) fds)) w.
Proof using.
  intros Hall Ht. destruct (add_fds_eq fds (fst (osmo_fd_fill_fds w)) (snd (osmo_fd_fill_fds w)) w Hall)
    as (sets & maxfd & Hrun & Hargs & _).
  exists sets, (maxfd + 1), reported. split_and!; [done| |apply reported_told|].
  { intros nearest Hn. by apply evpoll_wait_shortest. }
  unfold evpoll. rewrite (bind_returns _ _ w _ w (eq_refl : gets osmo_fd_fill_fds w = Ret _ w)).
  rewrite (bind_returns _ _ _ _ _ Hrun). cbn [fst snd].
  do 4 (apply bind_ext; intros ? ?). destruct (fst _ <? 0); [done|].
  do 2 (apply bind_ext; intros ? ?). by rewrite (bind_returns _ _ _ _ _ (report_fds_eq _ fds _ Hall)).
Qed.
End spec.
