(* ===== verification/Protocol.v ===== *)
(** * The MNCC protocol (src/mncc_protocol.h)

    Message numbers, field flags and the message structures with their layout.
    A structure is a record and a codec (Codec.v) with one field after the
    other, as the header declares them.  [gsm_mncc] embeds structures of
    libosmocore: their codecs are the class [MnccLib], and the parts of
    [gsm_mncc] that the program never touches are skipped.  [view_hello] and
    [view_rtp] write the offsets out; [view_hello_codec] and [view_rtp_codec]
    prove them to be those of the layout. *)
From S2P Require Import Prelude Codec.

(** ** Message types *)
Definition MNCC_SETUP_REQ : Z := 0x0101.
Definition MNCC_SETUP_IND : Z := 0x0102.
Definition MNCC_SETUP_RSP : Z := 0x0103.
Definition MNCC_SETUP_CNF : Z := 0x0104.
Definition MNCC_SETUP_COMPL_REQ : Z := 0x0105.
Definition MNCC_SETUP_COMPL_IND : Z := 0x0106.
Definition MNCC_CALL_CONF_IND : Z := 0x0107.
Definition MNCC_CALL_PROC_REQ : Z := 0x0108.
Definition MNCC_PROGRESS_REQ : Z := 0x0109.
Definition MNCC_ALERT_REQ : Z := 0x010a.
Definition MNCC_ALERT_IND : Z := 0x010b.
Definition MNCC_NOTIFY_REQ : Z := 0x010c.
Definition MNCC_NOTIFY_IND : Z := 0x010d.
Definition MNCC_DISC_REQ : Z := 0x010e.
Definition MNCC_DISC_IND : Z := 0x010f.
Definition MNCC_REL_REQ : Z := 0x0110.
Definition MNCC_REL_IND : Z := 0x0111.
Definition MNCC_REL_CNF : Z := 0x0112.
Definition MNCC_FACILITY_REQ : Z := 0x0113.
Definition MNCC_FACILITY_IND : Z := 0x0114.
Definition MNCC_START_DTMF_IND : Z := 0x0115.
Definition MNCC_START_DTMF_RSP : Z := 0x0116.
Definition MNCC_START_DTMF_REJ : Z := 0x0117.
Definition MNCC_STOP_DTMF_IND : Z := 0x0118.
Definition MNCC_STOP_DTMF_RSP : Z := 0x0119.
Definition MNCC_MODIFY_REQ : Z := 0x011a.
Definition MNCC_MODIFY_IND : Z := 0x011b.
Definition MNCC_MODIFY_RSP : Z := 0x011c.
Definition MNCC_MODIFY_CNF : Z := 0x011d.
Definition MNCC_MODIFY_REJ : Z := 0x011e.
Definition MNCC_HOLD_IND : Z := 0x011f.
Definition MNCC_HOLD_CNF : Z := 0x0120.
Definition MNCC_HOLD_REJ : Z := 0x0121.
Definition MNCC_RETRIEVE_IND : Z := 0x0122.
Definition MNCC_RETRIEVE_CNF : Z := 0x0123.
Definition MNCC_RETRIEVE_REJ : Z := 0x0124.
Definition MNCC_USERINFO_REQ : Z := 0x0125.
Definition MNCC_USERINFO_IND : Z := 0x0126.
Definition MNCC_REJ_REQ : Z := 0x0127.
Definition MNCC_REJ_IND : Z := 0x0128.
Definition MNCC_BRIDGE : Z := 0x0200.
Definition MNCC_FRAME_RECV : Z := 0x0201.
Definition MNCC_FRAME_DROP : Z := 0x0202.
Definition MNCC_LCHAN_MODIFY : Z := 0x0203.
Definition MNCC_RTP_CREATE : Z := 0x0204.
Definition MNCC_RTP_CONNECT : Z := 0x0205.
Definition MNCC_RTP_FREE : Z := 0x0206.
Definition GSM_TCHF_FRAME : Z := 0x0300.
Definition GSM_TCHF_FRAME_EFR : Z := 0x0301.
Definition GSM_TCHH_FRAME : Z := 0x0302.
Definition GSM_TCH_FRAME_AMR : Z := 0x0303.
Definition GSM_BAD_FRAME : Z := 0x03ff.
Definition MNCC_SOCKET_HELLO : Z := 0x0400.
Definition MNCC_SOCK_VERSION : Z := 8.

(** Every number a message may have. *)
Definition mncc_types : list Z :=
  [MNCC_SETUP_REQ; MNCC_SETUP_IND; MNCC_SETUP_RSP; MNCC_SETUP_CNF; MNCC_SETUP_COMPL_REQ; MNCC_SETUP_COMPL_IND;
   MNCC_CALL_CONF_IND; MNCC_CALL_PROC_REQ; MNCC_PROGRESS_REQ; MNCC_ALERT_REQ; MNCC_ALERT_IND; MNCC_NOTIFY_REQ;
   MNCC_NOTIFY_IND; MNCC_DISC_REQ; MNCC_DISC_IND; MNCC_REL_REQ; MNCC_REL_IND; MNCC_REL_CNF; MNCC_FACILITY_REQ;
   MNCC_FACILITY_IND; MNCC_START_DTMF_IND; MNCC_START_DTMF_RSP; MNCC_START_DTMF_REJ; MNCC_STOP_DTMF_IND;
   MNCC_STOP_DTMF_RSP; MNCC_MODIFY_REQ; MNCC_MODIFY_IND; MNCC_MODIFY_RSP; MNCC_MODIFY_CNF; MNCC_MODIFY_REJ;
   MNCC_HOLD_IND; MNCC_HOLD_CNF; MNCC_HOLD_REJ; MNCC_RETRIEVE_IND; MNCC_RETRIEVE_CNF; MNCC_RETRIEVE_REJ;
   MNCC_USERINFO_REQ; MNCC_USERINFO_IND; MNCC_REJ_REQ; MNCC_REJ_IND; MNCC_BRIDGE; MNCC_FRAME_RECV;
   MNCC_FRAME_DROP; MNCC_LCHAN_MODIFY; MNCC_RTP_CREATE; MNCC_RTP_CONNECT; MNCC_RTP_FREE; GSM_TCHF_FRAME;
   GSM_TCHF_FRAME_EFR; GSM_TCHH_FRAME; GSM_TCH_FRAME_AMR; GSM_BAD_FRAME; MNCC_SOCKET_HELLO].

(** ** Flags of [gsm_mncc.fields] *)
Definition MNCC_F_BEARER_CAP : Z := 0x0001.
Definition MNCC_F_CALLED : Z := 0x0002.
Definition MNCC_F_CALLING : Z := 0x0004.
Definition MNCC_F_REDIRECTING : Z := 0x0008.
Definition MNCC_F_CONNECTED : Z := 0x0010.
Definition MNCC_F_CAUSE : Z := 0x0020.
Definition MNCC_F_USERUSER : Z := 0x0040.
Definition MNCC_F_PROGRESS : Z := 0x0080.
Definition MNCC_F_EMERGENCY : Z := 0x0100.
Definition MNCC_F_FACILITY : Z := 0x0200.
Definition MNCC_F_SSVERSION : Z := 0x0400.
Definition MNCC_F_CCCAP : Z := 0x0800.
Definition MNCC_F_KEYPAD : Z := 0x1000.
Definition MNCC_F_SIGNAL : Z := 0x2000.
Definition MNCC_F_GCR : Z := 0x4000.
Definition mncc_flags : list Z := [MNCC_F_BEARER_CAP; MNCC_F_CALLED; MNCC_F_CALLING; MNCC_F_REDIRECTING;
   MNCC_F_CONNECTED; MNCC_F_CAUSE; MNCC_F_USERUSER; MNCC_F_PROGRESS; MNCC_F_EMERGENCY; MNCC_F_FACILITY;
   MNCC_F_SSVERSION; MNCC_F_CCCAP; MNCC_F_KEYPAD; MNCC_F_SIGNAL; MNCC_F_GCR].

(** ** Sizes of arrays in the structures of libosmocore *)
Definition GSM_MAX_FACILITY : Z := 128.
Definition GSM_MAX_SSVERSION : Z := 128.
Definition GSM_MAX_USERUSER : Z := 128.

(** [(fields & flag) != 0] *)
Definition has_flag (fields flag : Z) : bool := negb (Z.land fields flag =? 0).

(** [mncc_is_data_frame] *)
Definition mncc_is_data_frame (t : Z) : bool :=
  (t =? GSM_TCHF_FRAME) || (t =? GSM_TCHF_FRAME_EFR) || (t =? GSM_TCHH_FRAME)
  || (t =? GSM_TCH_FRAME_AMR) || (t =? GSM_BAD_FRAME).

(** ** Socket addresses

    The 128 bytes of a [struct sockaddr_storage] as the program reads and
    writes them: the family, the port ([sin_port] and [sin6_port] share their
    offset and are kept here in host order), [sin_addr], [sin6_addr] (which
    does not overlap [sin_addr]) and the bytes the program never looks at. *)
Record sockaddr := Sockaddr {
  ss_family : Z;
  sin_port : Z;
  sin_addr : list Z;
  sin6_addr : list Z;
  ss_rest : list Z;
}.
#[export] Instance sockaddr_eq_dec : EqDecision sockaddr.
Proof. solve_decision. Defined.

Definition sockaddr0 : sockaddr :=
  Sockaddr 0 0 (replicate 4 0) (replicate 16 0) (replicate 104 0).

Definition AF_UNSPEC : Z := 0.
Definition AF_INET : Z := 2.
Definition AF_INET6 : Z := 10.

(** ** Message structures *)
Record gsm_mncc_number := Number { nr_type : Z; nr_plan : Z; nr_number : string }.
Record gsm_mncc_cause := Cause { ca_coding : Z; ca_location : Z; ca_value : Z }.
Record gsm_mncc_progress := Progress { pr_coding : Z; pr_location : Z; pr_descr : Z }.

Record gsm_mncc := Mncc {
  mn_msg_type : Z;
  mn_callref : Z;
  mn_fields : Z;
  mn_called : gsm_mncc_number;
  mn_calling : gsm_mncc_number;
  mn_cause : gsm_mncc_cause;
  mn_progress : gsm_mncc_progress;
  mn_keypad : Z;
  mn_emergency : Z;
  mn_imsi : string;
  mn_gcr : list Z;
  mn_sdp : string;
}.

Definition number0 : gsm_mncc_number := Number 0 0 EmptyString.
Definition gsm_mncc0 : gsm_mncc :=
  Mncc 0 0 0 number0 number0 (Cause 0 0 0) (Progress 0 0 0) 0 0 EmptyString (replicate 16 0) EmptyString.

Record gsm_mncc_hello := Hello {
  he_msg_type : Z;
  he_version : Z;
  he_mncc_size : Z;
  he_data_frame_size : Z;
  he_called_offset : Z;
  he_signal_offset : Z;
  he_emergency_offset : Z;
  he_lchan_type_offset : Z;
}.

Record gsm_mncc_rtp := Rtp {
  rtp_msg_type : Z;
  rtp_callref : Z;
  rtp_addr : sockaddr;
  rtp_payload_type : Z;
  rtp_payload_msg_type : Z;
  rtp_sdp : string;
}.
Definition gsm_mncc_rtp0 : gsm_mncc_rtp := Rtp 0 0 sockaddr0 0 0 EmptyString.


(** Two structures of the header that carry voice frames and connect two calls
    in the MSC; the program neither sends nor reads them. *)
Record gsm_data_frame := DataFrame { df_msg_type : Z; df_callref : Z; df_data : list Z }.
Record gsm_mncc_bridge := Bridge { br_msg_type : Z; br_callref0 : Z; br_callref1 : Z }.

(** ** Layout *)

(** The structures of libosmocore that [gsm_mncc] embeds. *)
Class MnccLib := {
  sizeof_number : nat;              (* sizeof gsm_mncc_number.number *)
  number_codec : codec gsm_mncc_number;
  cause_codec : codec gsm_mncc_cause;
  progress_codec : codec gsm_mncc_progress;
  bearer_cap_codec : codec unit;
  useruser_codec : codec unit;
  facility_codec : codec unit;
  cccap_codec : codec unit;
  ssversion_codec : codec unit }.

(** They are structures of [int]s and a character array; each has a
    representation of its values. *)
Class MnccLibLaws (L : MnccLib) := {
  number_codec_ok :: CodecOk number_codec;
  cause_codec_ok :: CodecOk cause_codec;
  progress_codec_ok :: CodecOk progress_codec;
  bearer_cap_codec_ok :: CodecOk bearer_cap_codec;
  useruser_codec_ok :: CodecOk useruser_codec;
  facility_codec_ok :: CodecOk facility_codec;
  cccap_codec_ok :: CodecOk cccap_codec;
  ssversion_codec_ok :: CodecOk ssversion_codec;
  number_fits : forall n, fits number_codec n <->
    is_int (nr_type n) /\ is_int (nr_plan n) /\ no_nul (nr_number n) /\ (String.length (nr_number n) <= sizeof_number)%nat;
  cause_fits : forall c, fits cause_codec c <-> is_int (ca_coding c) /\ is_int (ca_location c) /\ is_int (ca_value c);
  progress_fits : forall p, fits progress_codec p <-> is_int (pr_coding p) /\ is_int (pr_location p) /\ is_int (pr_descr p);
  skipped_fits : fits bearer_cap_codec tt /\ fits useruser_codec tt /\ fits facility_codec tt
    /\ fits cccap_codec tt /\ fits ssversion_codec tt }.

Definition sockaddr_codec : codec sockaddr :=
  c_aligned 8 (c_struct (c_u16 ;+ c_u16be ;+ c_bytes 4 ;+ c_bytes 16 ;+ c_bytes 104)%C
    (fun '(f, p, a4, a6, r) => Sockaddr f p a4 a6 r)
    (fun a => (ss_family a, sin_port a, sin_addr a, sin6_addr a, ss_rest a))).

Definition hello_codec : codec gsm_mncc_hello :=
  c_struct (c_u32 ;+ c_u32 ;+ c_u32 ;+ c_u32 ;+ c_u32 ;+ c_u32 ;+ c_u32 ;+ c_u32)%C
    (fun '(t, v, ms, ds, co, so, eo, lo) => Hello t v ms ds co so eo lo)
    (fun h => (he_msg_type h, he_version h, he_mncc_size h, he_data_frame_size h, he_called_offset h,
               he_signal_offset h, he_emergency_offset h, he_lchan_type_offset h)).

Definition rtp_codec : codec gsm_mncc_rtp :=
  c_struct (c_u32 ;+ c_u32 ;+ sockaddr_codec ;+ c_u32 ;+ c_u32 ;+ c_chars 1024)%C
    (fun '(t, cr, a, p, pm, s) => Rtp t cr a p pm s)
    (fun r => (rtp_msg_type r, rtp_callref r, rtp_addr r, rtp_payload_type r, rtp_payload_msg_type r, rtp_sdp r)).

(** [data] has no length of its own: the frame goes on to the end of the buffer. *)
Definition data_frame_header : codec (Z * Z) := c_field c_u32 c_u32.
Definition view_data_frame (buf : list Z) : gsm_data_frame :=
  let '(t, cr) := dec data_frame_header buf in DataFrame t cr (drop (c_size data_frame_header) buf).

Definition bridge_codec : codec gsm_mncc_bridge :=
  c_struct (c_u32 ;+ c_u32 ;+ c_u32)%C
    (fun '(t, a, b) => Bridge t a b) (fun b => (br_msg_type b, br_callref0 b, br_callref1 b)).

Section gsm_mncc.
Context {L : MnccLib}.

(** A number that is never looked at. *)
Definition number_skip : codec unit := c_skip (c_size number_codec) (c_align number_codec).

Definition mncc_codec : codec gsm_mncc :=
  c_struct
  (c_u32
   ;+ c_u32
   ;+ c_u32
   ;+ bearer_cap_codec
   ;+ number_codec
   ;+ number_codec
   ;+ number_skip
   ;+ number_skip
   ;+ cause_codec
   ;+ progress_codec
   ;+ useruser_codec
   ;+ facility_codec
   ;+ cccap_codec
   ;+ ssversion_codec
   ;+ c_skip 8 4
   ;+ c_skip 4 4
   ;+ c_int
   ;+ c_skip 4 4
   ;+ c_skip 4 4
   ;+ c_int
   ;+ c_chars 16
   ;+ c_skip 1 1
   ;+ c_skip 1 1
   ;+ c_bytes 16
   ;+ c_chars 1024)%C
    (fun '(t, cr, f, _, cd, cg, _, _, ca, pr, _, _, _, _, _, _, kp, _, _, em, im, _, _, gc, sd) =>
       Mncc t cr f cd cg ca pr kp em im gc sd)
    (fun m => (mn_msg_type m, mn_callref m, mn_fields m, tt, mn_called m, mn_calling m, tt, tt, mn_cause m,
       mn_progress m, tt, tt, tt, tt, tt, tt, mn_keypad m, tt, tt, mn_emergency m, mn_imsi m, tt, tt, mn_gcr
       m, mn_sdp m)).

(** A received buffer as a [struct gsm_mncc], and the bytes of one that is sent. *)
Definition view_gsm_mncc (buf : list Z) : gsm_mncc := dec mncc_codec buf.
Definition mncc_bytes (m : gsm_mncc) : list Z := enc mncc_codec m.
Definition sizeof_gsm_mncc : Z := Z.of_nat (c_size mncc_codec).
End gsm_mncc.
#[global] Arguments view_gsm_mncc : simpl never.
#[global] Arguments mncc_bytes : simpl never.
#[global] Arguments sizeof_gsm_mncc : simpl never.

(** ** The offsets of the structures without foreign parts *)
Definition sizeof_hello : Z := 32.
Definition sizeof_sockaddr_storage : Z := 128.
Definition sizeof_rtp : Z := 1168.

(** A buffer viewed as a [struct gsm_mncc_hello]. *)
Definition view_hello (buf : list Z) : gsm_mncc_hello :=
  Hello (rd32 buf 0) (rd32 buf 4) (rd32 buf 8) (rd32 buf 12)
        (rd32 buf 16) (rd32 buf 20) (rd32 buf 24) (rd32 buf 28).

Definition view_sockaddr (bs : list Z) : sockaddr :=
  Sockaddr (rd16 bs 0) (rd16be bs 2) (bytes_at bs 4 4) (bytes_at bs 8 16) (bytes_at bs 24 104).

Definition sockaddr_bytes (a : sockaddr) : list Z :=
  le_encode 2 (ss_family a) ++ reverse (le_encode 2 (sin_port a))
  ++ sin_addr a ++ sin6_addr a ++ ss_rest a.

(** A buffer viewed as a [struct gsm_mncc_rtp]. *)
Definition view_rtp (buf : list Z) : gsm_mncc_rtp :=
  Rtp (rd32 buf 0) (rd32 buf 4) (view_sockaddr (bytes_at buf 8 128))
      (rd32 buf 136) (rd32 buf 140) (cstr (bytes_at buf 144 1024)).

(** The [sizeof (struct gsm_mncc_rtp)] bytes that [write] sends. *)
Definition rtp_bytes (r : gsm_mncc_rtp) : list Z :=
  le_encode 4 (rtp_msg_type r) ++ le_encode 4 (rtp_callref r) ++ sockaddr_bytes (rtp_addr r)
  ++ le_encode 4 (rtp_payload_type r) ++ le_encode 4 (rtp_payload_msg_type r)
  ++ str_array 1024 (rtp_sdp r).

Definition hello_bytes (h : gsm_mncc_hello) : list Z :=
  le_encode 4 (he_msg_type h) ++ le_encode 4 (he_version h) ++ le_encode 4 (he_mncc_size h)
  ++ le_encode 4 (he_data_frame_size h) ++ le_encode 4 (he_called_offset h)
  ++ le_encode 4 (he_signal_offset h) ++ le_encode 4 (he_emergency_offset h)
  ++ le_encode 4 (he_lchan_type_offset h).

(** ** The layout is lawful *)
#[export] Instance sockaddr_codec_ok : CodecOk sockaddr_codec.
Proof.
  apply c_aligned_ok; [lia|]. apply c_struct_ok; [apply _|by intros [[[[? ?] ?] ?] ?]|by intros []].
Qed.
#[export] Instance hello_codec_ok : CodecOk hello_codec.
Proof. apply c_struct_ok; [apply _|by intros [[[[[[[? ?] ?] ?] ?] ?] ?] ?]|by intros []]. Qed.
#[export] Instance rtp_codec_ok : CodecOk rtp_codec.
Proof. apply c_struct_ok; [apply _|by intros [[[[[? ?] ?] ?] ?] ?]|by intros []]. Qed.
#[export] Instance bridge_codec_ok : CodecOk bridge_codec.
Proof. apply c_struct_ok; [apply _|by intros [[? ?] ?]|by intros []]. Qed.

#[export] Instance mncc_codec_ok {L : MnccLib} {HL : MnccLibLaws L} : CodecOk mncc_codec.
Proof.
  assert (CodecOk number_skip) by apply c_skip_ok, c_align_pos.
  assert (CodecOk (c_skip 8 4) /\ CodecOk (c_skip 4 4) /\ CodecOk (c_skip 1 1)) as (? & ? & ?)
    by (split_and!; apply c_skip_ok; lia).
  apply c_struct_ok; [unfold mncc_codec; repeat apply c_field_ok; apply _| |by intros []].
  intros a. repeat match goal with x : (_ * _)%type |- _ => destruct x end.
  by repeat match goal with x : unit |- _ => destruct x end.
Qed.

(** The offsets written out are those of the layout. *)
Lemma bytes_at_drop buf n off len : bytes_at (drop n buf) off len = bytes_at buf (n + off) len.
Proof. unfold bytes_at. by rewrite drop_drop. Qed.
Lemma rd32_drop buf n : rd32 (drop n buf) 0 = rd32 buf n.
Proof. done. Qed.
Lemma bytes_at_bytes_at buf o1 l1 o2 l2 : (o2 + l2 <= l1)%nat ->
  bytes_at (bytes_at buf o1 l1) o2 l2 = bytes_at buf (o1 + o2) l2.
Proof.
  intros H. unfold bytes_at. rewrite skipn_firstn_comm, drop_drop, take_take. f_equal. lia.
Qed.

Lemma view_hello_codec buf : view_hello buf = dec hello_codec buf.
Proof. done. Qed.

Lemma view_sockaddr_codec bs : view_sockaddr bs = dec sockaddr_codec bs.
Proof.
  cbn -[bytes_at rd16 rd16be drop]. unfold view_sockaddr, rd16be. by rewrite !bytes_at_drop.
Qed.

(** A [sockaddr_storage] has 128 bytes, of which its view depends on no other. *)
Lemma view_sockaddr_at buf : view_sockaddr (bytes_at buf 8 128) = view_sockaddr (drop 8 buf).
Proof.
  unfold view_sockaddr, rd16, rd16be. rewrite !bytes_at_bytes_at by lia. by rewrite !bytes_at_drop.
Qed.

(** A buffer read through the offsets written out in [view_rtp] is the structure
    of the layout rules, and so are the bytes that are written; the sizes agree
    with [sizeof]. *)
Lemma view_rtp_codec buf : view_rtp buf = dec rtp_codec buf.
Proof.
  unfold view_rtp. rewrite view_sockaddr_at, view_sockaddr_codec.
  cbn -[bytes_at rd32 drop sockaddr_codec]. by rewrite !rd32_drop, bytes_at_drop.
Qed.

Lemma rtp_bytes_codec r : rtp_bytes r = enc rtp_codec r.
Proof.
  cbn -[le_encode str_array]. unfold rtp_bytes, sockaddr_bytes, id.
  by rewrite <- ?app_assoc, ?app_nil_r, ?app_nil_l.
Qed.
Lemma hello_bytes_codec h : hello_bytes h = enc hello_codec h.
Proof. cbn -[le_encode]. unfold hello_bytes. by rewrite <- ?app_assoc, ?app_nil_r, ?app_nil_l. Qed.

Lemma sizeof_codecs : sizeof_hello = Z.of_nat (c_size hello_codec) /\ sizeof_rtp = Z.of_nat (c_size rtp_codec)
  /\ sizeof_sockaddr_storage = Z.of_nat (c_size sockaddr_codec).
Proof. by vm_compute. Qed.

(** ** Round trips *)
Definition bytes_of (n : nat) (bs : list Z) : Prop := length bs = n /\ Forall byte bs.
Definition sockaddr_wf (a : sockaddr) : Prop :=
  0 <= ss_family a < 2 ^ 16 /\ 0 <= sin_port a < 2 ^ 16 /\
  bytes_of 4 (sin_addr a) /\ bytes_of 16 (sin6_addr a) /\ bytes_of 104 (ss_rest a).
Lemma sockaddr_wf_fits a : sockaddr_wf a <-> fits sockaddr_codec a.
Proof. cbn. unfold sockaddr_wf, bytes_of, id. tauto. Qed.
Definition rtp_wf (r : gsm_mncc_rtp) : Prop :=
  is_u32 (rtp_msg_type r) /\ is_u32 (rtp_callref r) /\ sockaddr_wf (rtp_addr r) /\
  is_u32 (rtp_payload_type r) /\ is_u32 (rtp_payload_msg_type r) /\
  no_nul (rtp_sdp r) /\ (String.length (rtp_sdp r) <= 1023)%nat.

Lemma rtp_wf_fits r : rtp_wf r -> fits rtp_codec r.
Proof. intros (? & ? & ? & ? & ? & ? & ?). cbn -[sockaddr_codec]. rewrite <- sockaddr_wf_fits. split_and!; try done. lia. Qed.

Lemma rtp_bytes_length r : rtp_wf r -> Z.of_nat (length (rtp_bytes r)) = sizeof_rtp.
Proof. intros Hr. rewrite rtp_bytes_codec, enc_length by by apply rtp_wf_fits. symmetry. apply sizeof_codecs. Qed.

(** The bytes the program writes for an RTP message, received by a program
    with the same layout, are read as the same message, whatever follows them
    in the buffer. *)
Lemma view_rtp_bytes r rest : rtp_wf r -> view_rtp (rtp_bytes r ++ rest) = r.
Proof. intros Hr. rewrite view_rtp_codec, rtp_bytes_codec. by apply dec_enc, rtp_wf_fits. Qed.

Definition hello_wf (h : gsm_mncc_hello) : Prop :=
  Forall is_u32
    [he_msg_type h; he_version h; he_mncc_size h; he_data_frame_size h; he_called_offset h;
     he_signal_offset h; he_emergency_offset h; he_lchan_type_offset h].

Lemma view_hello_bytes h rest : hello_wf h -> view_hello (hello_bytes h ++ rest) = h.
Proof.
  intros Hw. rewrite view_hello_codec, hello_bytes_codec. apply dec_enc.
  unfold hello_wf in Hw. rewrite !Forall_cons in Hw. destruct_ands. by cbn.
Qed.

(** Every message starts with its type and, but for the greeting, its callref. *)
Lemma view_mncc_header {L : MnccLib} buf :
  mn_msg_type (view_gsm_mncc buf) = rd32 buf 0 /\ mn_callref (view_gsm_mncc buf) = rd32 buf 4
  /\ mn_fields (view_gsm_mncc buf) = rd32 buf 8.
Proof. by split_and!. Qed.

Section gsm_mncc_wf.
Context {L : MnccLib} {HL : MnccLibLaws L}.

Definition number_wf (n : gsm_mncc_number) : Prop :=
  is_int (nr_type n) /\ is_int (nr_plan n) /\ no_nul (nr_number n) /\ (String.length (nr_number n) <= sizeof_number)%nat.
Definition mncc_wf (m : gsm_mncc) : Prop :=
  is_u32 (mn_msg_type m) /\ is_u32 (mn_callref m) /\ is_u32 (mn_fields m)
  /\ number_wf (mn_called m) /\ number_wf (mn_calling m)
  /\ fits cause_codec (mn_cause m) /\ fits progress_codec (mn_progress m)
  /\ is_int (mn_keypad m) /\ is_int (mn_emergency m)
  /\ (no_nul (mn_imsi m) /\ (String.length (mn_imsi m) <= 16)%nat)
  /\ (length (mn_gcr m) = 16%nat /\ Forall byte (mn_gcr m))
  /\ (no_nul (mn_sdp m) /\ (String.length (mn_sdp m) <= 1024)%nat).

Lemma mncc_wf_fits m : mncc_wf m <-> fits mncc_codec m.
Proof.
  pose proof skipped_fits as (? & ? & ? & ? & ?). unfold mncc_wf, number_wf. rewrite <- !number_fits.
  cbn -[Nat.le]. unfold id. tauto.
Qed.

(** The text at its end alone makes a message longer than a header. *)
Lemma sizeof_gsm_mncc_min : 1024 <= sizeof_gsm_mncc.
Proof. apply (Nat2Z.inj_le (c_size (c_chars 1024))), struct_size_last, Nat.lt_0_1. Qed.
End gsm_mncc_wf.
#[global] Opaque mncc_codec.

Section gsm_mncc_bytes.
Context {L : MnccLib} {HL : MnccLibLaws L}.

Lemma mncc_bytes_length m : mncc_wf m -> Z.of_nat (length (mncc_bytes m)) = sizeof_gsm_mncc.
Proof. intros Hm. unfold mncc_bytes, sizeof_gsm_mncc. f_equal. by apply enc_length, mncc_wf_fits. Qed.

Lemma view_mncc_bytes m rest : mncc_wf m -> view_gsm_mncc (mncc_bytes m ++ rest) = m.
Proof. intros Hm. by apply dec_enc, mncc_wf_fits. Qed.

(** Whatever bytes a buffer of the right length holds, its view is a message that
    has a representation. *)
Lemma view_mncc_wf buf : Forall byte buf -> sizeof_gsm_mncc <= Z.of_nat (length buf) -> mncc_wf (view_gsm_mncc buf).
Proof. intros Hb Hl. apply (proj2 (mncc_wf_fits _)). unfold view_gsm_mncc. apply dec_fits; [done|]. by apply Nat2Z.inj_le. Qed.
End gsm_mncc_bytes.

Lemma view_rtp_fits buf : Forall byte buf -> sizeof_rtp <= Z.of_nat (length buf) -> fits rtp_codec (view_rtp buf).
Proof.
  intros Hb Hl. rewrite view_rtp_codec. apply dec_fits; [done|].
  destruct sizeof_codecs as (_ & Hs & _). lia.
Qed.

(** ** Numbers and flags *)

(** No two messages share a number, and the numbers of voice frames are those of
    [mncc_is_data_frame]. *)
Lemma mncc_types_nodup : NoDup mncc_types.
Proof. apply (bool_decide_unpack _). by vm_compute. Qed.

Lemma data_frames t : mncc_is_data_frame t = true <->
  t ∈ [GSM_TCHF_FRAME; GSM_TCHF_FRAME_EFR; GSM_TCHH_FRAME; GSM_TCH_FRAME_AMR; GSM_BAD_FRAME].
Proof. unfold mncc_is_data_frame. rewrite !orb_true_iff, !Z.eqb_eq. set_solver. Qed.

(** The i-th flag is the bit [i]: a mask with one flag more answers [has_flag] as
    before for every other. *)
Lemma mncc_flag_bit i f : mncc_flags !! i = Some f -> f = 2 ^ Z.of_nat i.
Proof. intros Hi. do 15 (destruct i as [|i]; [by injection Hi as <-|]). done. Qed.

Lemma has_flag_bit fields i : has_flag fields (2 ^ Z.of_nat i) = Z.testbit fields (Z.of_nat i).
Proof.
  unfold has_flag. destruct (Z.testbit fields (Z.of_nat i)) eqn:Hb.
  - apply negb_true_iff, Z.eqb_neq. intros H0. apply (f_equal (fun z => Z.testbit z (Z.of_nat i))) in H0.
    rewrite Z.land_spec, Hb, Z.pow2_bits_true, Z.bits_0 in H0 by lia. done.
  - apply negb_false_iff, Z.eqb_eq, Z.bits_inj_0. intros k. rewrite Z.land_spec, Z.pow2_bits_eqb by lia.
    destruct (Z.eqb_spec (Z.of_nat i) k) as [<-|]; [by rewrite Hb|apply andb_false_r].
Qed.

Lemma has_flag_lor fields f g : f ∈ mncc_flags -> g ∈ mncc_flags ->
  has_flag (Z.lor fields f) g = has_flag fields g || bool_decide (f = g).
Proof.
  intros [i Hi]%list_elem_of_lookup [j Hj]%list_elem_of_lookup.
  apply mncc_flag_bit in Hi as ->, Hj as ->. rewrite !has_flag_bit, Z.lor_spec, Z.pow2_bits_eqb by lia.
  f_equal. destruct (Z.eqb_spec (Z.of_nat i) (Z.of_nat j)) as [->|Hne]; [by rewrite bool_decide_true|].
  rewrite bool_decide_false; [done|]. intros Heq%Z.pow_inj_r; lia.
Qed.
