(* ===== verification/Lib.v ===== *)
(** * The libraries and the system around the program

    Everything the program calls that is not under src/ is a field of the class
    [Env]: libosmocore and libosmogsm (constants, GCR codec, address
    helpers), sofia-sip (the SDP parser and printer, status phrases), the
    system calls, and the allocator's decisions.  The n-th such decision is
    indexed by a counter of the store, so that an environment can answer the
    same question differently each time.  [EnvLaws] lists the documented
    behaviour the program relies on. *)
From S2P Require Import Prelude Codec Protocol.

(** ** Types of sofia-sip that the program reads *)
Inductive sdp_mode := sdp_inactive | sdp_sendonly | sdp_recvonly | sdp_sendrecv.
#[export] Instance sdp_mode_eq_dec : EqDecision sdp_mode.
Proof. solve_decision. Defined.

Inductive sdp_proto := sdp_proto_rtp | sdp_proto_other (p : Z).
Inductive sdp_media_type := sdp_media_audio | sdp_media_other (t : Z).
Inductive sdp_addrtype := sdp_addr_ip4 | sdp_addr_ip6 | sdp_addr_other (t : Z).

Record sdp_rtpmap := Rtpmap { rm_encoding : string; rm_pt : Z }.
Record sdp_connection := SdpConn { c_addrtype : sdp_addrtype; c_address : string }.
(** [m_rest] and [sdp_rest] carry what the program never inspects. *)
Record sdp_media := Media {
  m_proto : sdp_proto; m_type : sdp_media_type; m_port : Z; m_mode : sdp_mode;
  m_rtpmaps : list sdp_rtpmap; m_rest : string }.
Record sdp_session := Session {
  s_connection : list sdp_connection; s_media : list sdp_media; s_rest : string }.

(** Parser flags used: 0 and [sdp_f_mode_0000]. *)
Inductive sdp_flags := sdp_f_none | sdp_f_mode_0000.

(** The parts of a [sip_t] the program reads: the payload ([None] when
    [sip_payload] or its [pl_data] is NULL), the user parts of To and From
    ([None] when NULL) and the unknown headers. *)
Record sip_t := Sip {
  sip_payload : option string;
  sip_to_user : option string;
  sip_from_user : option string;
  sip_unknown : list (string * string);
}.

Inductive nua_event :=
| nua_r_invite | nua_i_ack | nua_r_bye | nua_r_cancel | nua_i_bye
| nua_i_invite | nua_i_cancel | nua_e_other (n : Z).

(** ** The causes of TS 24.008 that the program names *)
Inductive gsm48_cause :=
| GSM48_CC_CAUSE_UNASSIGNED_NR | GSM48_CC_CAUSE_NO_ROUTE | GSM48_CC_CAUSE_NORM_CALL_CLEAR
| GSM48_CC_CAUSE_USER_BUSY | GSM48_CC_CAUSE_USER_NOTRESPOND | GSM48_CC_CAUSE_CALL_REJECTED
| GSM48_CC_CAUSE_NUMBER_CHANGED | GSM48_CC_CAUSE_PRE_EMPTION | GSM48_CC_CAUSE_DEST_OOO
| GSM48_CC_CAUSE_INV_NR_FORMAT | GSM48_CC_CAUSE_NORMAL_UNSPEC | GSM48_CC_CAUSE_NETWORK_OOO
| GSM48_CC_CAUSE_TEMP_FAILURE | GSM48_CC_CAUSE_SWITCH_CONG | GSM48_CC_CAUSE_RESOURCE_UNAVAIL
| GSM48_CC_CAUSE_BEARER_CA_UNAVAIL | GSM48_CC_CAUSE_SERV_OPT_UNAVAIL
| GSM48_CC_CAUSE_SERV_OPT_UNIMPL | GSM48_CC_CAUSE_INVAL_TRANS_ID
| GSM48_CC_CAUSE_INCOMPAT_DEST | GSM48_CC_CAUSE_RECOVERY_TIMER | GSM48_CC_CAUSE_INTERWORKING
| GSM48_CC_CAUSE_CHAN_UNACCEPT.
#[export] Instance gsm48_cause_eq_dec : EqDecision gsm48_cause.
Proof. solve_decision. Defined.

(** The in-memory image of a [struct osmo_gcr_parsed]. *)
Definition osmo_gcr := list Z.

Class Env := {
  (** constants of libosmogsm *)
  cause_value : gsm48_cause -> Z;
  GSM48_CAUSE_CODING_GSM : Z;
  GSM48_CAUSE_LOC_PUN_S_LU : Z;
  GSM48_CAUSE_LOC_PRN_S_LU : Z;
  GSM48_PROGR_IN_BAND_AVAIL : Z;
  GSM340_TYPE_INTERNATIONAL : Z;
  GSM340_PLAN_UNKNOWN : Z;
  GSM340_PLAN_ISDN : Z;
  GSM48_NPI_UNKNOWN : Z;
  GSM48_NPI_ISDN_E164 : Z;
  GSM48_TON_UNKNOWN : Z;
  GSM48_TON_INTERNATIONAL : Z;
  (** the structures of libosmogsm inside [struct gsm_mncc] *)
  mncc_lib :: MnccLib;
  (** libosmocore *)
  osmo_strlcpy : nat -> string -> string;
  osmo_sockaddr_port : sockaddr -> Z;
  osmo_sockaddr_ntop : sockaddr -> string;
  osmo_sockaddr_cmp : sockaddr -> sockaddr -> Z;
  osmo_hexparse : string -> nat -> list Z;
  osmo_dec_gcr : list Z -> option osmo_gcr;
  osmo_enc_gcr : osmo_gcr -> Z * list Z;
  msgb_hexdump : list Z -> string;
  (** libc: [inet_pton], the address bytes when it returns 1 *)
  inet_pton : Z -> string -> option (list Z);
  (** sofia-sip: [None] for a NULL parser, [Some None] for a NULL session *)
  sdp_parse : sdp_flags -> string -> option (option sdp_session);
  sdp_print : sdp_session -> option (option string);
  sdp_mode_val : sdp_mode -> Z;
  sip_phrase : Z -> string;
  (** the n-th decision of the system *)
  write_rc : nat -> Z -> Z -> Z;          (* fd, size: the result of write *)
  alloc_ok : nat -> bool;                  (* talloc returned memory *)
  nua_handle_ok : nat -> bool;             (* nua_handle returned a handle *)
  unix_connect : nat -> option Z;          (* a descriptor, or an error *)
}.

(** ** Documented behaviour *)
Class EnvLaws (E : Env) := {
  (** distinct cause names have distinct values *)
  cause_value_inj :: Inj (=) (=) cause_value;
  (** at most [n - 1] characters are copied *)
  osmo_strlcpy_spec : forall n s, osmo_strlcpy n s = str_take (n - 1) s;
  (** only [sdp_inactive] is zero *)
  sdp_mode_val_zero : forall m, sdp_mode_val m = 0 <-> m = sdp_inactive;
  (** the encoder returns the number of bytes it put into the message buffer,
      which has room for 16 in both callers *)
  osmo_enc_gcr_fits : forall g, 0 <= fst (osmo_enc_gcr g) <= 16;
  (** a connected socket has a valid descriptor *)
  unix_connect_fd : forall n fd, unix_connect n = Some fd -> 0 <= fd;
}.

(** An operating condition, not a law: a write on an open MNCC socket sends the
    whole message. *)
Class WritesOk (E : Env) :=
  write_open : forall n fd sz, 0 <= fd -> write_rc n fd sz = sz.
