(* ===== verification/State.v ===== *)
(** * The store of the program (src/call.h, src/mncc.h, src/sip.h, src/app.h)

    Calls and call legs are heap objects, reached by pointers.  A pointer whose
    object was freed is no longer in the store, and the primitives below crash
    when it is used.  Pointers are never reused, so a stale pointer is always
    detected.  The store also holds the globals (the call list, the id counter,
    the configuration and the MNCC connection), the armed timers of libosmocore,
    the handles sofia-sip has bound to a leg, and the trace of what the program
    sent. *)
From S2P Require Import Prelude Effect Codec Protocol Lib.

Abbreviation ptr := positive.
Abbreviation handle := positive.

(** ** Enumerations of call.h and mncc.h *)
Inductive call_type := CALL_TYPE_NONE | CALL_TYPE_SIP | CALL_TYPE_MNCC.
Inductive sip_cc_state := SIP_CC_INITIAL | SIP_CC_DLG_CNFD | SIP_CC_CONNECTED | SIP_CC_HOLD.
Inductive sip_dir := SIP_DIR_MO | SIP_DIR_MT.
Inductive mncc_cc_state :=
| MNCC_CC_INITIAL | MNCC_CC_PROCEEDING | MNCC_CC_CONNECTED | MNCC_CC_HOLD.
Inductive mncc_dir := MNCC_DIR_MO | MNCC_DIR_MT.
Inductive mncc_conn_state := MNCC_DISCONNECTED | MNCC_WAIT_VERSION | MNCC_READY.

#[export] Instance call_type_eq_dec : EqDecision call_type.
Proof. solve_decision. Defined.
#[export] Instance sip_cc_state_eq_dec : EqDecision sip_cc_state.
Proof. solve_decision. Defined.
#[export] Instance sip_dir_eq_dec : EqDecision sip_dir.
Proof. solve_decision. Defined.
#[export] Instance mncc_cc_state_eq_dec : EqDecision mncc_cc_state.
Proof. solve_decision. Defined.
#[export] Instance mncc_dir_eq_dec : EqDecision mncc_dir.
Proof. solve_decision. Defined.
#[export] Instance mncc_conn_state_eq_dec : EqDecision mncc_conn_state.
Proof. solve_decision. Defined.

(** ** Function pointers of a leg: the functions the program ever stores *)
Inductive leg_fn :=
| FN_mncc_call_leg_connect | FN_mncc_call_leg_ring | FN_mncc_call_leg_release | FN_update_rtp
| FN_sip_release_call | FN_sip_ring_call | FN_sip_connect_call | FN_sip_dtmf_call
| FN_sip_hold_call | FN_sip_retrieve_call.
#[export] Instance leg_fn_eq_dec : EqDecision leg_fn.
Proof. solve_decision. Defined.

Record leg_ops := LegOps {
  ring_call : option leg_fn;
  connect_call : option leg_fn;
  release_call : option leg_fn;
  dtmf : option leg_fn;
  hold_call : option leg_fn;
  retrieve_call : option leg_fn;
  update_rtp_cb : option leg_fn;
}.
#[export] Instance leg_ops_eq_dec : EqDecision leg_ops.
Proof. solve_decision. Defined.
Definition leg_ops0 : leg_ops := LegOps None None None None None None None.

(** The callbacks of an MNCC leg, of a SIP leg created by an INVITE that came in,
    and of a SIP leg created towards SIP (no [ring_call], no [connect_call]). *)
Definition mncc_leg_ops : leg_ops :=
  LegOps (Some FN_mncc_call_leg_ring) (Some FN_mncc_call_leg_connect)
         (Some FN_mncc_call_leg_release) None None None (Some FN_update_rtp).
Definition sip_mo_ops : leg_ops :=
  LegOps (Some FN_sip_ring_call) (Some FN_sip_connect_call) (Some FN_sip_release_call)
         (Some FN_sip_dtmf_call) (Some FN_sip_hold_call) (Some FN_sip_retrieve_call) None.
Definition sip_mt_ops : leg_ops :=
  LegOps None None (Some FN_sip_release_call) (Some FN_sip_dtmf_call)
         (Some FN_sip_hold_call) (Some FN_sip_retrieve_call) None.

(** ** Legs *)
(** [struct call_leg] *)
Record call_leg := CallLeg {
  lg_type : call_type;
  lg_call : ptr;
  in_release : bool;
  cause : Z;
  addr : sockaddr;
  payload_type : Z;
  payload_msg_type : Z;
  rx_sdp : string;
  rx_sdp_changed : bool;
  ops : leg_ops;
}.

(** [struct mncc_call_leg] without its base.  The timer [cmd_timeout] lives in
    [timers] of the store; [conn] is always the one connection. *)
Record mncc_leg := MnccLeg {
  m_state : mncc_cc_state;
  m_dir : mncc_dir;
  m_callref : Z;
  m_called : gsm_mncc_number;
  m_calling : gsm_mncc_number;
  m_imsi : string;
  m_rsp_wanted : Z;
  m_cause : Z;
}.

(** [struct sip_call_leg] without its base; [agent] is always the one agent. *)
Record sip_leg := SipLeg {
  s_handle : option handle;
  s_state : sip_cc_state;
  s_dir : sip_dir;
  s_wanted_codec : option string;
  s_sdp_payload : option string;
}.

(** What a leg pointer points to: the base and the derived structure it was
    allocated as. *)
Inductive leg_ext := XMncc (m : mncc_leg) | XSip (s : sip_leg).
Record leg := Leg { base : call_leg; ext : leg_ext }.

(** [talloc_zero] of the two derived structures, with [type] and [call] set. *)
Definition call_leg_new (t : call_type) (c : ptr) : call_leg :=
  CallLeg t c false 0 sockaddr0 0 0 EmptyString false leg_ops0.
Definition mncc_leg0 : mncc_leg :=
  MnccLeg MNCC_CC_INITIAL MNCC_DIR_MO 0 number0 number0 EmptyString 0 0.
Definition sip_leg0 : sip_leg := SipLeg None SIP_CC_INITIAL SIP_DIR_MO None None.

(** ** Calls

    [source] and [dest] point to strings that are talloc children of a leg; the
    owner is kept with the text. *)
Record call := Call {
  call_id : Z;
  initial : option ptr;
  remote : option ptr;
  source : option (ptr * string);
  dest : option (ptr * string);
  gcr : osmo_gcr;
  gcr_present : bool;
}.

(** ** The MNCC connection and the configuration *)
Record mncc_connection := Conn {
  cn_state : mncc_conn_state;
  cn_fd : Z;
  cn_reconnect : option Z;         (* the delay the timer was armed with *)
  cn_on_disconnect : bool;         (* app_mncc_disconnected is installed *)
}.

Record app_config := Config {
  sip_local_addr : string;
  sip_local_port : Z;
  sip_remote_addr : string;
  sip_remote_port : Z;
  sofia_log_level : Z;
  mncc_path : string;
  use_imsi_as_id : bool;
}.

(** ** What the program sends *)
Inductive action :=
| TxMncc (m : gsm_mncc) (rc : Z)                     (* write of a gsm_mncc, with its result *)
| TxRtp (r : gsm_mncc_rtp) (rc : Z)                  (* write of a gsm_mncc_rtp *)
| CloseFd (fd : Z)
| NuaRespond (h : option handle) (status : Z) (phrase : string)
             (reason : option string) (sdp : option string)
| NuaInvite (h : option handle) (from to : option string) (header : option string) (sdp : string)
| NuaInfo (h : option handle) (body : string)
| NuaCancel (h : option handle)
| NuaBye (h : option handle)
| NuaAck (h : option handle)
| NuaDestroy (h : option handle).

Record world := World {
  calls : gmap ptr call;
  legs : gmap ptr leg;
  g_call_list : list ptr;
  last_call_id : Z;
  conn : mncc_connection;
  cfg : app_config;
  timers : gset ptr;               (* legs whose cmd_timeout is armed *)
  nua : gmap handle ptr;           (* live handles bound to a leg (hmagic) *)
  next_ptr : ptr;
  n_io : nat;                      (* decisions of the environment so far *)
  out : list action;               (* oldest first *)
}.

(** ** Field updates *)
Definition set_calls f (w : world) : world :=
  World (f (calls w)) (legs w) (g_call_list w) (last_call_id w) (conn w) (cfg w) (timers w) (nua w) (next_ptr w) (n_io w) (out w).
Definition set_legs f (w : world) : world :=
  World (calls w) (f (legs w)) (g_call_list w) (last_call_id w) (conn w) (cfg w) (timers w) (nua w) (next_ptr w) (n_io w) (out w).
Definition set_g_call_list f (w : world) : world :=
  World (calls w) (legs w) (f (g_call_list w)) (last_call_id w) (conn w) (cfg w) (timers w) (nua w) (next_ptr w) (n_io w) (out w).
Definition set_last_call_id f (w : world) : world :=
  World (calls w) (legs w) (g_call_list w) (f (last_call_id w)) (conn w) (cfg w) (timers w) (nua w) (next_ptr w) (n_io w) (out w).
Definition set_conn f (w : world) : world :=
  World (calls w) (legs w) (g_call_list w) (last_call_id w) (f (conn w)) (cfg w) (timers w) (nua w) (next_ptr w) (n_io w) (out w).
Definition set_cfg f (w : world) : world :=
  World (calls w) (legs w) (g_call_list w) (last_call_id w) (conn w) (f (cfg w)) (timers w) (nua w) (next_ptr w) (n_io w) (out w).
Definition set_timers f (w : world) : world :=
  World (calls w) (legs w) (g_call_list w) (last_call_id w) (conn w) (cfg w) (f (timers w)) (nua w) (next_ptr w) (n_io w) (out w).
Definition set_nua f (w : world) : world :=
  World (calls w) (legs w) (g_call_list w) (last_call_id w) (conn w) (cfg w) (timers w) (f (nua w)) (next_ptr w) (n_io w) (out w).
Definition set_next_ptr f (w : world) : world :=
  World (calls w) (legs w) (g_call_list w) (last_call_id w) (conn w) (cfg w) (timers w) (nua w) (f (next_ptr w)) (n_io w) (out w).
Definition set_n_io f (w : world) : world :=
  World (calls w) (legs w) (g_call_list w) (last_call_id w) (conn w) (cfg w) (timers w) (nua w) (next_ptr w) (f (n_io w)) (out w).
Definition set_out f (w : world) : world :=
  World (calls w) (legs w) (g_call_list w) (last_call_id w) (conn w) (cfg w) (timers w) (nua w) (next_ptr w) (n_io w) (f (out w)).

Definition set_base f (l : leg) : leg := Leg (f (base l)) (ext l).
Definition set_in_release b (l : call_leg) : call_leg :=
  CallLeg (lg_type l) (lg_call l) b (cause l) (addr l) (payload_type l) (payload_msg_type l) (rx_sdp l) (rx_sdp_changed l) (ops l).
Definition set_cause v (l : call_leg) : call_leg :=
  CallLeg (lg_type l) (lg_call l) (in_release l) v (addr l) (payload_type l) (payload_msg_type l) (rx_sdp l) (rx_sdp_changed l) (ops l).
Definition set_addr v (l : call_leg) : call_leg :=
  CallLeg (lg_type l) (lg_call l) (in_release l) (cause l) v (payload_type l) (payload_msg_type l) (rx_sdp l) (rx_sdp_changed l) (ops l).
Definition set_payload_type v (l : call_leg) : call_leg :=
  CallLeg (lg_type l) (lg_call l) (in_release l) (cause l) (addr l) v (payload_msg_type l) (rx_sdp l) (rx_sdp_changed l) (ops l).
Definition set_payload_msg_type v (l : call_leg) : call_leg :=
  CallLeg (lg_type l) (lg_call l) (in_release l) (cause l) (addr l) (payload_type l) v (rx_sdp l) (rx_sdp_changed l) (ops l).
Definition set_rx_sdp v ch (l : call_leg) : call_leg :=
  CallLeg (lg_type l) (lg_call l) (in_release l) (cause l) (addr l) (payload_type l) (payload_msg_type l) v ch (ops l).
Definition set_ops v (l : call_leg) : call_leg :=
  CallLeg (lg_type l) (lg_call l) (in_release l) (cause l) (addr l) (payload_type l) (payload_msg_type l) (rx_sdp l) (rx_sdp_changed l) v.

Definition set_m_state v (m : mncc_leg) : mncc_leg :=
  MnccLeg v (m_dir m) (m_callref m) (m_called m) (m_calling m) (m_imsi m) (m_rsp_wanted m) (m_cause m).
Definition set_m_rsp_wanted v (m : mncc_leg) : mncc_leg :=
  MnccLeg (m_state m) (m_dir m) (m_callref m) (m_called m) (m_calling m) (m_imsi m) v (m_cause m).
Definition set_m_cause v (m : mncc_leg) : mncc_leg :=
  MnccLeg (m_state m) (m_dir m) (m_callref m) (m_called m) (m_calling m) (m_imsi m) (m_rsp_wanted m) v.
Definition set_s_state v (s : sip_leg) : sip_leg :=
  SipLeg (s_handle s) v (s_dir s) (s_wanted_codec s) (s_sdp_payload s).
Definition set_s_wanted_codec v (s : sip_leg) : sip_leg :=
  SipLeg (s_handle s) (s_state s) (s_dir s) v (s_sdp_payload s).

Definition set_initial v (c : call) : call :=
  Call (call_id c) v (remote c) (source c) (dest c) (gcr c) (gcr_present c).
Definition set_remote v (c : call) : call :=
  Call (call_id c) (initial c) v (source c) (dest c) (gcr c) (gcr_present c).
Definition set_route src dst (c : call) : call :=
  Call (call_id c) (initial c) (remote c) src dst (gcr c) (gcr_present c).
Definition set_gcr v (c : call) : call :=
  Call (call_id c) (initial c) (remote c) (source c) (dest c) v true.

Definition set_cn_state v (c : mncc_connection) : mncc_connection :=
  Conn v (cn_fd c) (cn_reconnect c) (cn_on_disconnect c).

(** ** Primitives *)
Abbreviation MW := (M world).

(** Dereference a leg or call pointer. *)
Definition deref_leg (l : ptr) : MW leg :=
  w <- gets id ;; some_or UseAfterFree (legs w !! l).
Definition deref_call (c : ptr) : MW call :=
  w <- gets id ;; some_or UseAfterFree (calls w !! c).

(** Assign to fields of an object. *)
Definition upd_leg (l : ptr) (f : leg -> leg) : MW unit :=
  x <- deref_leg l ;; modify (set_legs (<[l := f x]>)).
Definition upd_call (c : ptr) (f : call -> call) : MW unit :=
  x <- deref_call c ;; modify (set_calls (<[c := f x]>)).
Definition upd_base (l : ptr) (f : call_leg -> call_leg) : MW unit := upd_leg l (set_base f).

(** The casts to [struct mncc_call_leg] and [struct sip_call_leg], followed by
    an access. *)
Definition as_mncc (l : ptr) : MW mncc_leg :=
  x <- deref_leg l ;; match ext x with XMncc m => ret m | XSip _ => crash TypeConfusion end.
Definition as_sip (l : ptr) : MW sip_leg :=
  x <- deref_leg l ;; match ext x with XSip s => ret s | XMncc _ => crash TypeConfusion end.
Definition upd_mncc (l : ptr) (f : mncc_leg -> mncc_leg) : MW unit :=
  m <- as_mncc l ;; upd_leg l (fun x => Leg (base x) (XMncc (f m))).
Definition upd_sip (l : ptr) (f : sip_leg -> sip_leg) : MW unit :=
  s <- as_sip l ;; upd_leg l (fun x => Leg (base x) (XSip (f s))).

Definition emit (a : action) : MW unit := modify (set_out (fun o => o ++ [a])).

(** The next decision of the environment. *)
Definition tick : MW nat :=
  n <- gets n_io ;; modify (set_n_io S) ;; ret n.

(** [osmo_timer_schedule] and [osmo_timer_del] of a leg's [cmd_timeout]: the
    timer is a member of the leg, so the leg must be alive. *)
Definition timer_schedule (l : ptr) : MW unit :=
  _ <- deref_leg l ;; modify (set_timers (fun t => {[l]} ∪ t)).
Definition timer_del (l : ptr) : MW unit :=
  _ <- deref_leg l ;; modify (set_timers (fun t => t ∖ {[l]})).

(** [talloc_free] of a leg.  An armed timer in it stays armed: the timer list
    then holds a dangling pointer. *)
Definition free_leg (l : ptr) : MW unit :=
  _ <- deref_leg l ;; modify (set_legs (delete l)).

(** [talloc_free] of a call: its talloc children, the legs allocated under it,
    are freed with it. *)
Definition free_call (c : ptr) : MW unit :=
  _ <- deref_call c ;;
  modify (set_calls (delete c)) ;;
  modify (set_legs (filter (fun kv => lg_call (base kv.2) <> c))).

(** [nua_handle_destroy]: sofia-sip delivers no further event for the handle. *)
Definition nua_handle_destroy (h : option handle) : MW unit :=
  emit (NuaDestroy h) ;;
  match h with
  | Some x => modify (set_nua (delete x))
  | None => ret tt
  end.

(** [nua_handle_bind] *)
Definition nua_handle_bind (h : handle) (l : ptr) : MW unit :=
  modify (set_nua (<[h := l]>)).

(** Read a string pointer of a call: [None] is NULL, and the string is gone
    once the leg it was allocated under is. *)
Definition read_str (o : option (ptr * string)) : MW (option string) :=
  match o with
  | None => ret None
  | Some (owner, s) => _ <- deref_leg owner ;; ret (Some s)
  end.

Section alloc.
Context {E : Env}.

(** [talloc_zero]: a fresh object, or NULL. *)
Definition talloc_call (x : call) : MW (option ptr) :=
  n <- tick ;;
  if alloc_ok n then
    p <- gets next_ptr ;;
    modify (set_next_ptr Pos.succ) ;; modify (set_calls (<[p := x]>)) ;; ret (Some p)
  else ret None.
Definition talloc_leg (x : leg) : MW (option ptr) :=
  n <- tick ;;
  if alloc_ok n then
    p <- gets next_ptr ;;
    modify (set_next_ptr Pos.succ) ;; modify (set_legs (<[p := x]>)) ;; ret (Some p)
  else ret None.

(** [talloc_asprintf] and [talloc_strdup] of a string kept in the store. *)
Definition talloc_str (owner : ptr) (s : string) : MW (option (ptr * string)) :=
  n <- tick ;; ret (if alloc_ok n then Some (owner, s) else None).
End alloc.
