(* ===== verification/Skel.v ===== *)
(** * The resource model: which objects exist and how they point to each other

    An abstract view of the store that keeps the calls with their two leg
    pointers, the identity-defining part of every leg (type, call, callbacks,
    direction, callref, handle), the call list, the handle bindings and the
    allocation pointer.  Protocol states, SDP, addresses and causes are left
    out.  [wfsk] is the well-formedness invariant of this view; [sk_release],
    [sk_new] and [sk_attach] are the abstract counterparts of the operations
    that change it. *)
From S2P Require Import Prelude Effect Codec Protocol Lib State.

(** ** Definitions *)
Inductive ext_shape :=
| ShMncc (d : mncc_dir) (callref : Z)
| ShSip (d : sip_dir) (h : option handle).

Record lshape := LShape {
  sh_type : call_type; sh_call : ptr; sh_ops : leg_ops; sh_ext : ext_shape }.

Definition ext_shape_of (e : leg_ext) : ext_shape :=
  match e with
  | XMncc m => ShMncc (m_dir m) (m_callref m)
  | XSip s => ShSip (s_dir s) (s_handle s)
  end.
Definition shape (x : leg) : lshape :=
  LShape (lg_type (base x)) (lg_call (base x)) (ops (base x)) (ext_shape_of (ext x)).
Definition call_shape (c : call) : option ptr * option ptr := (initial c, remote c).

Record skel := Skel {
  sk_calls : gmap ptr (option ptr * option ptr);
  sk_legs : gmap ptr lshape;
  sk_list : list ptr;
  sk_nua : gmap handle ptr;
  sk_next : ptr }.

Definition sk (w : world) : skel :=
  Skel (call_shape <$> calls w) (shape <$> legs w) (g_call_list w) (nua w) (next_ptr w).

Definition is_mncc (sh : lshape) : Prop :=
  match sh_ext sh with ShMncc _ _ => True | ShSip _ _ => False end.
#[export] Instance is_mncc_dec sh : Decision (is_mncc sh).
Proof. unfold is_mncc. destruct (sh_ext sh); apply _. Defined.
Definition is_mo (sh : lshape) : Prop :=
  match sh_ext sh with ShMncc d _ => d = MNCC_DIR_MO | ShSip d _ => d = SIP_DIR_MO end.
Definition is_mt (sh : lshape) : Prop :=
  match sh_ext sh with ShMncc d _ => d = MNCC_DIR_MT | ShSip d _ => d = SIP_DIR_MT end.

(** The type tag names the structure the leg was allocated as. *)
Definition tag_ok (sh : lshape) : Prop :=
  sh_type sh = match sh_ext sh with ShMncc _ _ => CALL_TYPE_MNCC | ShSip _ _ => CALL_TYPE_SIP end.

(** All callbacks are in place for the kind of leg, and a SIP leg has a handle. *)
Definition established (sh : lshape) : Prop :=
  match sh_ext sh with
  | ShMncc _ _ => sh_ops sh = mncc_leg_ops
  | ShSip SIP_DIR_MO h => sh_ops sh = sip_mo_ops /\ is_Some h
  | ShSip SIP_DIR_MT h => sh_ops sh = sip_mt_ops /\ is_Some h
  end.

(** A SIP leg that [call_sip_create] made and [new_call] has not completed. *)
Definition embryo (sh : lshape) : Prop :=
  sh_ops sh = leg_ops0 /\ sh_ext sh = ShSip SIP_DIR_MO None.

Record wfsk (s : skel) : Prop := {
  wf_nodup : NoDup (sk_list s);
  wf_list : forall c, c ∈ sk_list s <-> is_Some (sk_calls s !! c);
  wf_initial : forall c l r, sk_calls s !! c = Some (Some l, r) ->
    exists sh, sk_legs s !! l = Some sh /\ sh_call sh = c /\ is_mo sh
               /\ (r <> None -> established sh);
  wf_remote : forall c i l, sk_calls s !! c = Some (i, Some l) ->
    exists sh, sk_legs s !! l = Some sh /\ sh_call sh = c /\ is_mt sh /\ established sh;
  wf_types : forall c l1 l2 sh1 sh2, sk_calls s !! c = Some (Some l1, Some l2) ->
    sk_legs s !! l1 = Some sh1 -> sk_legs s !! l2 = Some sh2 -> sh_type sh1 <> sh_type sh2;
  wf_nonempty : forall c, sk_calls s !! c <> Some (None, None);
  wf_leg : forall l sh, sk_legs s !! l = Some sh ->
    tag_ok sh /\ (established sh \/ embryo sh) /\
    exists i r, sk_calls s !! sh_call sh = Some (i, r) /\ (i = Some l \/ r = Some l);
  wf_nua : forall h l, sk_nua s !! h = Some l ->
    exists sh d, sk_legs s !! l = Some sh /\ sh_ext sh = ShSip d (Some h);
  wf_handle : forall l sh d h, sk_legs s !! l = Some sh -> sh_ext sh = ShSip d (Some h) ->
    sk_nua s !! h = Some l;
  wf_next_legs : forall l, is_Some (sk_legs s !! l) -> (l < sk_next s)%positive;
  wf_next_calls : forall c, is_Some (sk_calls s !! c) -> (c < sk_next s)%positive;
}.

(** Release of leg [l]: unlink it, drop it and the bindings to it, and drop its
    call when that was the last leg. *)
Definition unlink (l : ptr) (o : option ptr) : option ptr :=
  if decide (o = Some l) then None else o.
Definition sk_release (l : ptr) (s : skel) : skel :=
  match sk_legs s !! l with
  | None => s
  | Some sh =>
      let c := sh_call sh in
      match sk_calls s !! c with
      | None => s
      | Some (i, r) =>
          let legs' := delete l (sk_legs s) in
          let nua' := filter (fun kv => kv.2 <> l) (sk_nua s) in
          match unlink l i, unlink l r with
          | None, None =>
              Skel (delete c (sk_calls s)) legs' (filter (fun c' => c' <> c) (sk_list s)) nua' (sk_next s)
          | i', r' => Skel (<[c := (i', r')]> (sk_calls s)) legs' (sk_list s) nua' (sk_next s)
          end
      end
  end.

(** The bindings to [l] removed. *)
Definition sk_unbind (l : ptr) (s : skel) : skel :=
  Skel (sk_calls s) (sk_legs s) (sk_list s) (filter (fun kv => kv.2 <> l) (sk_nua s)) (sk_next s).

(** What releasing a leg may do to the view: nothing yet (the other side was
    asked to release), or drop the leg. *)
Definition released (s : skel) (l : ptr) (s' : skel) : Prop := s' = s \/ s' = sk_release l s.

(** A new call with its initial leg; the call is allocated first. *)
Definition sk_new (sh : lshape) (s : skel) : skel :=
  let c := sk_next s in
  let l := Pos.succ c in
  Skel (<[c := (Some l, None)]> (sk_calls s)) (<[l := sh]> (sk_legs s)) (c :: sk_list s)
       (sk_nua s) (Pos.succ l).

(** A leg allocated and not linked to its call yet; the allocation pointer moved
    without an object. *)
Definition sk_alloc (sh : lshape) (s : skel) : skel :=
  Skel (sk_calls s) (<[sk_next s := sh]> (sk_legs s)) (sk_list s) (sk_nua s) (Pos.succ (sk_next s)).
Definition sk_skip (s : skel) : skel :=
  Skel (sk_calls s) (sk_legs s) (sk_list s) (sk_nua s) (Pos.succ (sk_next s)).

(** A remote leg for call [c] whose initial leg is [i]; [h] is its handle. *)
Definition sk_attach (c i : ptr) (sh : lshape) (h : option handle) (s : skel) : skel :=
  let l := sk_next s in
  Skel (<[c := (Some i, Some l)]> (sk_calls s)) (<[l := sh]> (sk_legs s)) (sk_list s)
       (match h with Some x => <[x := l]> (sk_nua s) | None => sk_nua s end) (Pos.succ l).

(** Leg [l] becomes established: its shape is completed and a handle bound. *)
Definition sk_setup (l : ptr) (sh : lshape) (h : option handle) (s : skel) : skel :=
  Skel (sk_calls s) (<[l := sh]> (sk_legs s)) (sk_list s)
       (match h with Some x => <[x := l]> (sk_nua s) | None => sk_nua s end) (sk_next s).

(** ** The abstract machine

    One step of the resource view; the program's handlers refine sequences of
    these steps. *)
Inductive sk_step (s : skel) : skel -> Prop :=
| step_release l sh : sk_legs s !! l = Some sh -> sk_step s (sk_release l s)
| step_new sh : sh_call sh = sk_next s -> tag_ok sh -> is_mo sh -> established sh \/ embryo sh ->
    (forall d h, sh_ext sh <> ShSip d (Some h)) -> sk_step s (sk_new sh s)
| step_attach c i shi sh h : sk_calls s !! c = Some (Some i, None) ->
    sk_legs s !! i = Some shi -> established shi -> sh_type shi <> sh_type sh ->
    sh_call sh = c -> tag_ok sh -> is_mt sh -> established sh ->
    match sh_ext sh with ShSip _ h' => h' = h | ShMncc _ _ => h = None end ->
    (forall x, h = Some x -> sk_nua s !! x = None) ->
    sk_step s (sk_attach c i sh h s)
| step_setup l sh0 sh h : sk_legs s !! l = Some sh0 -> embryo sh0 ->
    sh_call sh = sh_call sh0 -> sh_type sh = sh_type sh0 -> tag_ok sh -> is_mo sh ->
    established sh -> sh_ext sh = ShSip SIP_DIR_MO (Some h) -> sk_nua s !! h = None ->
    sk_step s (sk_setup l sh (Some h) s)
| step_next n : (sk_next s <= n)%positive ->
    sk_step s (Skel (sk_calls s) (sk_legs s) (sk_list s) (sk_nua s) n).

Definition evolves : skel -> skel -> Prop := rtc sk_step.

(** Only releases. *)
Definition drops : skel -> skel -> Prop :=
  rtc (fun s s' => exists l sh, sk_legs s !! l = Some sh /\ s' = sk_release l s).

(** ** [sk_release] *)
Lemma unlink_ne l o l' : o = Some l' -> l' <> l -> unlink l o = Some l'.
Proof. intros -> Hne. unfold unlink. rewrite decide_False; congruence. Qed.

Lemma unlink_Some l o l' : unlink l o = Some l' -> o = Some l' /\ l' <> l.
Proof. unfold unlink. case_decide; [done|]. intros ->. split; congruence. Qed.

Section sk_release.
Context (s : skel) (l : ptr) (sh : lshape).
Context (Hwf : wfsk s) (Hl : sk_legs s !! l = Some sh).

(** The two shapes of the result, with the call as it was. *)
Lemma sk_release_cases :
  exists i r, sk_calls s !! sh_call sh = Some (i, r) /\
    (i = Some l \/ r = Some l) /\
    ((unlink l i = None /\ unlink l r = None /\
      sk_release l s = Skel (delete (sh_call sh) (sk_calls s)) (delete l (sk_legs s))
                         (filter (fun c' => c' <> sh_call sh) (sk_list s))
                         (filter (fun kv => kv.2 <> l) (sk_nua s)) (sk_next s))
     \/ ((unlink l i <> None \/ unlink l r <> None) /\
      sk_release l s = Skel (<[sh_call sh := (unlink l i, unlink l r)]> (sk_calls s))
                         (delete l (sk_legs s)) (sk_list s)
                         (filter (fun kv => kv.2 <> l) (sk_nua s)) (sk_next s))).
Proof.
  destruct (wf_leg s Hwf l sh Hl) as (_ & _ & i & r & Hc & Hir).
  exists i, r. split; [done|]. split; [done|].
  unfold sk_release. rewrite Hl, Hc.
  destruct (unlink l i), (unlink l r); auto.
Qed.

Lemma sk_release_legs : sk_legs (sk_release l s) = delete l (sk_legs s).
Proof. destruct sk_release_cases as (i & r & _ & _ & [(_ & _ & ->) | [_ ->]]); done. Qed.

Lemma sk_release_nua : sk_nua (sk_release l s) = filter (fun kv => kv.2 <> l) (sk_nua s).
Proof. destruct sk_release_cases as (i & r & _ & _ & [(_ & _ & ->) | [_ ->]]); done. Qed.

Lemma sk_release_next : sk_next (sk_release l s) = sk_next s.
Proof. destruct sk_release_cases as (i & r & _ & _ & [(_ & _ & ->) | [_ ->]]); done. Qed.

Lemma sk_release_other_leg l' : l' <> l -> sk_legs (sk_release l s) !! l' = sk_legs s !! l'.
Proof. intros Hne. rewrite sk_release_legs. by rewrite lookup_delete_ne. Qed.

Lemma sk_release_gone : sk_legs (sk_release l s) !! l = None.
Proof. rewrite sk_release_legs. apply lookup_delete_eq. Qed.

Lemma sk_release_other_call c : c <> sh_call sh -> sk_calls (sk_release l s) !! c = sk_calls s !! c.
Proof.
  intros Hne.
  destruct sk_release_cases as (i & r & _ & _ & [(_ & _ & ->) | [_ ->]]); simpl.
  - by rewrite lookup_delete_ne.
  - by rewrite lookup_insert_ne.
Qed.

(** A call of the result is the old call, with [l] unlinked when it was its call. *)
Lemma sk_release_call c i' r' : sk_calls (sk_release l s) !! c = Some (i', r') ->
  exists i r, sk_calls s !! c = Some (i, r) /\ i' = unlink l i /\ r' = unlink l r
    /\ (i' <> None \/ r' <> None \/ c <> sh_call sh).
Proof.
  destruct sk_release_cases as (i & r & Hc & Hir & Hcase).
  destruct (decide (c = sh_call sh)) as [->|Hne].
  - destruct Hcase as [(_ & _ & ->) | [Hn ->]]; simpl.
    + rewrite lookup_delete_eq. done.
    + rewrite lookup_insert_eq. intros [= <- <-]. exists i, r. naive_solver.
  - rewrite sk_release_other_call by done. intros Hc'. exists i', r'.
    split; [done|].
    assert (forall o, (o = i' \/ o = r') -> o <> Some l) as Hnl.
    { intros o Ho ->. destruct Ho as [<-|<-].
      - destruct (wf_initial s Hwf _ _ _ Hc') as (sh' & Hl' & <- & _). congruence.
      - destruct (wf_remote s Hwf _ _ _ Hc') as (sh' & Hl' & <- & _). congruence. }
    unfold unlink. rewrite !decide_False by auto. auto.
Qed.

Lemma sk_release_list :
  sk_list (sk_release l s) = sk_list s
  \/ sk_list (sk_release l s) = filter (fun c' => c' <> sh_call sh) (sk_list s).
Proof. destruct sk_release_cases as (i & r & _ & _ & [(_ & _ & ->) | [_ ->]]); auto. Qed.

(** A call keeps existing as long as it has another leg. *)
Lemma sk_release_call_kept c i r :
  sk_calls s !! c = Some (i, r) -> (unlink l i <> None \/ unlink l r <> None) ->
  sk_calls (sk_release l s) !! c = Some (unlink l i, unlink l r).
Proof.
  intros Hc Hk. destruct sk_release_cases as (i0 & r0 & Hc0 & Hir & Hcase).
  destruct (decide (c = sh_call sh)) as [->|Hne].
  - rewrite Hc in Hc0. simplify_eq.
    destruct Hcase as [(? & ? & ->) | [_ ->]]; simpl; [naive_solver|].
    by rewrite lookup_insert_eq.
  - rewrite sk_release_other_call, Hc by done. f_equal.
    assert (i <> Some l /\ r <> Some l) as [Hi Hr].
    { split; intros ->.
      - destruct (wf_initial s Hwf _ _ _ Hc) as (sh' & Hl' & <- & _). congruence.
      - destruct (wf_remote s Hwf _ _ _ Hc) as (sh' & Hl' & <- & _). congruence. }
    unfold unlink. by rewrite !decide_False.
Qed.
End sk_release.

(** ** The invariant is preserved *)
(** After a release the list holds the calls of the store. *)
Lemma sk_release_listed s l sh c : wfsk s -> sk_legs s !! l = Some sh ->
  c ∈ sk_list (sk_release l s) <-> is_Some (sk_calls (sk_release l s) !! c).
Proof.
  intros Hwf Hl.
  destruct (sk_release_cases s l sh Hwf Hl) as (i & r & Hc & _ & [(_ & _ & ->) | [_ ->]]); simpl.
  - rewrite list_elem_of_filter, (wf_list s Hwf).
    destruct (decide (c = sh_call sh)) as [->|]; [rewrite lookup_delete_eq | rewrite lookup_delete_ne by done].
    + split; [naive_solver | by intros [? ?]].
    + naive_solver.
  - rewrite (wf_list s Hwf).
    destruct (decide (c = sh_call sh)) as [->|]; [rewrite lookup_insert_eq, Hc | by rewrite lookup_insert_ne by done].
    split; eauto.
Qed.

(** A leg that stays keeps its link. *)
Lemma sk_release_linked s l sh l' sh' : wfsk s -> sk_legs s !! l = Some sh ->
  l' <> l -> sk_legs s !! l' = Some sh' ->
  exists i r, sk_calls (sk_release l s) !! sh_call sh' = Some (i, r) /\ (i = Some l' \/ r = Some l').
Proof.
  intros Hwf Hl Hne Hl'. destruct (wf_leg s Hwf l' sh' Hl') as (_ & _ & i & r & Hc & Hir).
  exists (unlink l i), (unlink l r).
  assert (unlink l i = Some l' \/ unlink l r = Some l') as Hu.
  { destruct Hir; [left|right]; by apply unlink_ne. }
  split; [|done]. eapply sk_release_call_kept; eauto. destruct Hu as [-> | ->]; auto.
Qed.

Lemma sk_release_wf s l sh : wfsk s -> sk_legs s !! l = Some sh -> wfsk (sk_release l s).
Proof.
  intros Hwf Hl.
  pose proof (sk_release_call s l sh Hwf Hl) as Hcall.
  pose proof (sk_release_other_leg s l sh Hwf Hl) as Hleg.
  assert (forall l', is_Some (sk_legs (sk_release l s) !! l') ->
            l' <> l /\ sk_legs (sk_release l s) !! l' = sk_legs s !! l') as Hinv.
  { intros l' Hs. destruct (decide (l' = l)) as [->|]; [|auto].
    rewrite (sk_release_gone s l sh Hwf Hl) in Hs. by destruct Hs. }
  split.
  - destruct (sk_release_list s l sh Hwf Hl) as [->| ->].
    + apply wf_nodup, Hwf.
    + apply NoDup_filter, wf_nodup, Hwf.
  - intros c. by apply (sk_release_listed s l sh).
  - intros c l' r' Hc'. destruct (Hcall _ _ _ Hc') as (i & r & Hc & Hi & Hr & _).
    symmetry in Hi. apply unlink_Some in Hi as [-> Hne].
    destruct (wf_initial s Hwf _ _ _ Hc) as (sh' & ? & ? & ? & Hest).
    exists sh'. rewrite Hleg by done. split_and!; auto.
    intros Hn. apply Hest. intros ->. destruct r'; [|done].
    symmetry in Hr. by apply unlink_Some in Hr as [? _].
  - intros c i' l' Hc'. destruct (Hcall _ _ _ Hc') as (i & r & Hc & Hi & Hr & _).
    symmetry in Hr. apply unlink_Some in Hr as [-> Hne].
    destruct (wf_remote s Hwf _ _ _ Hc) as (sh' & ? & ? & ? & ?).
    exists sh'. rewrite Hleg by done. auto.
  - intros c l1 l2 sh1 sh2 Hc' H1 H2. destruct (Hcall _ _ _ Hc') as (i & r & Hc & Hi & Hr & _).
    symmetry in Hi, Hr. apply unlink_Some in Hi as [-> ?]. apply unlink_Some in Hr as [-> ?].
    rewrite Hleg in H1 by done. rewrite Hleg in H2 by done. by eapply (wf_types s Hwf).
  - intros c Hc'. destruct (Hcall _ _ _ Hc') as (i & r & Hc & Hi & Hr & Hn).
    destruct Hn as [?|[?|Hne]]; [done|done|].
    rewrite (sk_release_other_call s l sh Hwf Hl) in Hc' by done.
    by eapply (wf_nonempty s Hwf).
  - intros l' sh' Hl'. destruct (Hinv l') as [Hne Heq]; [eauto|]. rewrite Heq in Hl'.
    destruct (wf_leg s Hwf l' sh' Hl') as (? & ? & _). split; [done|]. split; [done|].
    by apply (sk_release_linked s l sh l').
  - intros h l' Hh. rewrite (sk_release_nua s l sh Hwf Hl) in Hh.
    apply map_lookup_filter_Some in Hh as [Hh Hne]. simpl in Hne.
    destruct (wf_nua s Hwf h l' Hh) as (sh' & d & ? & ?). exists sh', d. by rewrite Hleg.
  - intros l' sh' d h Hl' He. destruct (Hinv l') as [Hne Heq]; [eauto|]. rewrite Heq in Hl'.
    rewrite (sk_release_nua s l sh Hwf Hl). apply map_lookup_filter_Some. split; [|done].
    by eapply (wf_handle s Hwf).
  - intros l' Hs. rewrite (sk_release_next s l sh Hwf Hl). apply (wf_next_legs s Hwf).
    destruct (Hinv l' Hs) as [_ Heq]. by rewrite Heq in Hs.
  - intros c [[i' r'] Hc']. rewrite (sk_release_next s l sh Hwf Hl). apply (wf_next_calls s Hwf).
    destruct (Hcall _ _ _ Hc') as (i & r & Hc & _). eauto.
Qed.

(** A fresh pointer is not in the store. *)
Lemma wf_fresh_leg s l : wfsk s -> (sk_next s <= l)%positive -> sk_legs s !! l = None.
Proof.
  intros Hwf Hle. destruct (sk_legs s !! l) eqn:Hl; [|done].
  pose proof (wf_next_legs s Hwf l ltac:(eauto)). lia.
Qed.
Lemma wf_fresh_call s c : wfsk s -> (sk_next s <= c)%positive -> sk_calls s !! c = None.
Proof.
  intros Hwf Hle. destruct (sk_calls s !! c) eqn:Hc; [|done].
  pose proof (wf_next_calls s Hwf c ltac:(eauto)). lia.
Qed.

(** Linked legs exist. *)
Lemma wf_linked s c i r l : wfsk s -> sk_calls s !! c = Some (i, r) -> i = Some l \/ r = Some l ->
  exists sh, sk_legs s !! l = Some sh /\ sh_call sh = c.
Proof.
  intros Hwf Hc [-> | ->].
  - destruct (wf_initial s Hwf _ _ _ Hc) as (sh & ? & ? & _). eauto.
  - destruct (wf_remote s Hwf _ _ _ Hc) as (sh & ? & ? & _). eauto.
Qed.

Ltac lookup_cases :=
  repeat match goal with
  | H : context [<[?k := _]> _ !! ?k'] |- _ =>
      destruct (decide (k = k')) as [<-|]; [rewrite lookup_insert_eq in H | rewrite lookup_insert_ne in H by done]
  end.

Lemma sk_new_wf s sh : wfsk s ->
  sh_call sh = sk_next s -> tag_ok sh -> is_mo sh -> (established sh \/ embryo sh) ->
  (forall d h, sh_ext sh <> ShSip d (Some h)) ->
  wfsk (sk_new sh s).
Proof.
  intros Hwf Hcall Htag Hmo Hest Hnoh.
  pose proof (wf_fresh_call s (sk_next s) Hwf ltac:(lia)) as Hc0.
  pose proof (wf_fresh_leg s (Pos.succ (sk_next s)) Hwf ltac:(lia)) as Hl0.
  assert (forall l sh', sk_legs s !! l = Some sh' -> Pos.succ (sk_next s) <> l) as Hne by congruence.
  split; simpl.
  - constructor; [|apply (wf_nodup s Hwf)]. rewrite (wf_list s Hwf), Hc0. by intros [? ?].
  - intros c. rewrite elem_of_cons, (wf_list s Hwf).
    destruct (decide (sk_next s = c)) as [<-|]; [rewrite lookup_insert_eq | rewrite lookup_insert_ne by done].
    + split; eauto.
    + naive_solver.
  - intros c l r Hc. lookup_cases.
    + simplify_eq. exists sh. rewrite lookup_insert_eq. done.
    + destruct (wf_initial s Hwf _ _ _ Hc) as (sh' & Hl & ?). exists sh'.
      rewrite lookup_insert_ne by eauto. done.
  - intros c i l Hc. lookup_cases; [done|].
    destruct (wf_remote s Hwf _ _ _ Hc) as (sh' & Hl & ?). exists sh'.
    rewrite lookup_insert_ne by eauto. done.
  - intros c l1 l2 sh1 sh2 Hc H1 H2.
    destruct (decide (sk_next s = c)) as [<-|]; [rewrite lookup_insert_eq in Hc; done | rewrite lookup_insert_ne in Hc by done].
    destruct (wf_initial s Hwf _ _ _ Hc) as (sh1' & Hl1 & _), (wf_remote s Hwf _ _ _ Hc) as (sh2' & Hl2 & _).
    rewrite lookup_insert_ne in H1 by eauto. rewrite lookup_insert_ne in H2 by eauto.
    by eapply (wf_types s Hwf).
  - intros c Hc. lookup_cases; [done|]. by eapply (wf_nonempty s Hwf).
  - intros l sh' Hl. lookup_cases.
    + simplify_eq. split; [done|]. split; [done|]. exists (Some (Pos.succ (sk_next s))), None.
      rewrite Hcall, lookup_insert_eq. auto.
    + destruct (wf_leg s Hwf l sh' Hl) as (? & ? & i & r & Hc & ?). split; [done|]. split; [done|].
      exists i, r. rewrite lookup_insert_ne by congruence. auto.
  - intros h l Hh. destruct (wf_nua s Hwf h l Hh) as (sh' & d & Hl & ?). exists sh', d.
    rewrite lookup_insert_ne by eauto. done.
  - intros l sh' d h Hl He. lookup_cases; [|by eapply (wf_handle s Hwf)].
    simplify_eq. by edestruct Hnoh.
  - intros l [sh' Hl]. lookup_cases; [lia|]. pose proof (wf_next_legs s Hwf l ltac:(eauto)). lia.
  - intros c [x Hc]. lookup_cases; [lia|]. pose proof (wf_next_calls s Hwf c ltac:(eauto)). lia.
Qed.

Lemma sk_attach_wf s c i shi sh h : wfsk s ->
  sk_calls s !! c = Some (Some i, None) -> sk_legs s !! i = Some shi -> established shi ->
  sh_type shi <> sh_type sh -> sh_call sh = c -> tag_ok sh -> is_mt sh -> established sh ->
  match sh_ext sh with ShSip _ h' => h' = h | ShMncc _ _ => h = None end ->
  (forall x, h = Some x -> sk_nua s !! x = None) ->
  wfsk (sk_attach c i sh h s).
Proof.
  intros Hwf Hc0 Hi Hesti Htypes Hcall Htag Hmt Hest Hext Hfresh.
  assert (forall x, h = Some x -> exists d, sh_ext sh = ShSip d (Some x)) as Hh.
  { intros x ->. destruct (sh_ext sh) as [|d h']; [done|]. subst. eauto. }
  pose proof (wf_fresh_leg s (sk_next s) Hwf ltac:(lia)) as Hl0.
  assert (forall l sh', sk_legs s !! l = Some sh' -> sk_next s <> l) as Hne by congruence.
  assert (forall l sh', sk_legs s !! l = Some sh' -> <[sk_next s := sh]> (sk_legs s) !! l = Some sh') as Hins.
  { intros l sh' Hl. rewrite lookup_insert_ne; eauto. }
  split; simpl.
  - apply (wf_nodup s Hwf).
  - intros c'. rewrite (wf_list s Hwf).
    destruct (decide (c = c')) as [<-|]; [rewrite lookup_insert_eq, Hc0 | by rewrite lookup_insert_ne by done].
    split; eauto.
  - intros c' l r Hc. lookup_cases.
    + simplify_eq. destruct (wf_initial s Hwf _ _ _ Hc0) as (sh' & ? & ? & ? & _).
      exists sh'. simplify_eq. split_and!; eauto.
    + destruct (wf_initial s Hwf _ _ _ Hc) as (sh' & Hl & ?). eauto 6.
  - intros c' i' l Hc. lookup_cases.
    + simplify_eq. exists sh. rewrite lookup_insert_eq. done.
    + destruct (wf_remote s Hwf _ _ _ Hc) as (sh' & Hl & ?). eauto 6.
  - intros c' l1 l2 sh1 sh2 Hc H1 H2.
    destruct (decide (c = c')) as [<-|]; [rewrite lookup_insert_eq in Hc | rewrite lookup_insert_ne in Hc by done].
    + simplify_eq. rewrite lookup_insert_eq in H2. rewrite (Hins _ _ Hi) in H1. congruence.
    + destruct (wf_initial s Hwf _ _ _ Hc) as (sh1' & Hl1 & _), (wf_remote s Hwf _ _ _ Hc) as (sh2' & Hl2 & _).
      rewrite (Hins _ _ Hl1) in H1. rewrite (Hins _ _ Hl2) in H2. simplify_eq.
      by eapply (wf_types s Hwf).
  - intros c' Hc. lookup_cases; [done|]. by eapply (wf_nonempty s Hwf).
  - intros l sh' Hl. lookup_cases.
    + simplify_eq. split; [done|]. split; [auto|]. exists (Some i), (Some (sk_next s)).
      rewrite lookup_insert_eq. auto.
    + destruct (wf_leg s Hwf l sh' Hl) as (? & ? & i' & r' & Hc & Hir). split; [done|]. split; [done|].
      destruct (decide (c = sh_call sh')) as [->|].
      * simplify_eq. exists (Some i), (Some (sk_next s)). rewrite lookup_insert_eq. naive_solver.
      * exists i', r'. rewrite lookup_insert_ne by congruence. auto.
  - intros h' l Hh'.
    assert (h = Some h' /\ l = sk_next s \/ sk_nua s !! h' = Some l) as [[-> ->]|Hold].
    { destruct h as [x|]; [|auto]. lookup_cases; [|auto]. left. split; congruence. }
    + destruct (Hh h' eq_refl) as [d Hd]. exists sh, d. by rewrite lookup_insert_eq.
    + destruct (wf_nua s Hwf h' l Hold) as (sh' & d & Hl & ?). eauto 6.
  - intros l sh' d h' Hl He. lookup_cases.
    + simplify_eq. rewrite He in Hext. subst h. by rewrite lookup_insert_eq.
    + pose proof (wf_handle s Hwf l sh' d h' Hl He) as Hn. destruct h as [x|]; [|done].
      rewrite lookup_insert_ne; [done|]. intros ->. rewrite Hfresh in Hn; done.
  - intros l [sh' Hl]. lookup_cases; [lia|]. pose proof (wf_next_legs s Hwf l ltac:(eauto)). lia.
  - intros c' [x Hc]. lookup_cases; [|pose proof (wf_next_calls s Hwf c' ltac:(eauto)); lia].
    pose proof (wf_next_calls s Hwf c ltac:(eauto)). lia.
Qed.

Lemma sk_setup_wf s l sh0 sh h : wfsk s ->
  sk_legs s !! l = Some sh0 -> embryo sh0 -> sh_call sh = sh_call sh0 -> sh_type sh = sh_type sh0 ->
  tag_ok sh -> is_mo sh -> established sh -> sh_ext sh = ShSip SIP_DIR_MO (Some h) ->
  sk_nua s !! h = None ->
  wfsk (sk_setup l sh (Some h) s).
Proof.
  intros Hwf Hl0 [Hemb1 Hemb2] Hcall Htype Htag Hmo Hest Hext Hfresh.
  assert (forall c i, sk_calls s !! c <> Some (i, Some l)) as Hnr.
  { intros c i Hc. destruct (wf_remote s Hwf _ _ _ Hc) as (sh' & Hl & _ & Hmt & _).
    simplify_eq. unfold is_mt in Hmt. by rewrite Hemb2 in Hmt. }
  assert (forall l' sh', l' <> l -> sk_legs s !! l' = Some sh' -> <[l := sh]> (sk_legs s) !! l' = Some sh') as Hins.
  { intros l' sh' Hne Hl'. rewrite lookup_insert_ne; eauto. }
  split; simpl.
  - apply (wf_nodup s Hwf).
  - apply (wf_list s Hwf).
  - intros c l' r Hc. destruct (wf_initial s Hwf _ _ _ Hc) as (sh' & Hl & ? & ? & ?).
    destruct (decide (l' = l)) as [->|]; [|eauto 6].
    simplify_eq. exists sh. rewrite lookup_insert_eq. split_and!; auto; congruence.
  - intros c i l' Hc. destruct (wf_remote s Hwf _ _ _ Hc) as (sh' & Hl & ?).
    destruct (decide (l' = l)) as [->|]; [by edestruct Hnr | eauto 6].
  - intros c l1 l2 sh1 sh2 Hc H1 H2.
    destruct (wf_initial s Hwf _ _ _ Hc) as (sh1' & Hl1 & _), (wf_remote s Hwf _ _ _ Hc) as (sh2' & Hl2 & _).
    assert (l2 <> l) by (intros ->; by edestruct Hnr).
    rewrite (Hins _ _ ltac:(done) Hl2) in H2. simplify_eq.
    pose proof (wf_types s Hwf c l1 l2 _ _ Hc Hl1 Hl2) as Ht.
    destruct (decide (l1 = l)) as [->|].
    + rewrite lookup_insert_eq in H1. simplify_eq. congruence.
    + rewrite (Hins _ _ ltac:(done) Hl1) in H1. by simplify_eq.
  - apply (wf_nonempty s Hwf).
  - intros l' sh' Hl. lookup_cases.
    + simplify_eq. split; [done|]. split; [auto|].
      destruct (wf_leg s Hwf l sh0 Hl0) as (_ & _ & i & r & ? & ?). exists i, r. by rewrite Hcall.
    + apply (wf_leg s Hwf l' sh' Hl).
  - intros h' l' Hh. lookup_cases.
    + simplify_eq. exists sh, SIP_DIR_MO. by rewrite lookup_insert_eq.
    + destruct (wf_nua s Hwf h' l' Hh) as (sh' & d & Hl & Hd).
      destruct (decide (l' = l)) as [->|]; [|eauto 6]. simplify_eq. congruence.
  - intros l' sh' d h' Hl He. lookup_cases.
    + simplify_eq. rewrite Hext in He. simplify_eq. by rewrite lookup_insert_eq.
    + rewrite lookup_insert_ne; [by eapply (wf_handle s Hwf)|]. intros ->.
      pose proof (wf_handle s Hwf l' sh' d h' Hl He). congruence.
  - intros l' [sh' Hl]. apply (wf_next_legs s Hwf). lookup_cases; eauto.
  - apply (wf_next_calls s Hwf).
Qed.

(** Moving the allocation pointer forward keeps the invariant. *)
Lemma sk_next_wf s n : wfsk s -> (sk_next s <= n)%positive ->
  wfsk (Skel (sk_calls s) (sk_legs s) (sk_list s) (sk_nua s) n).
Proof.
  intros Hwf Hn. destruct Hwf. split; simpl; auto.
  - intros l Hl. pose proof (wf_next_legs0 l Hl). lia.
  - intros c Hc. pose proof (wf_next_calls0 c Hc). lia.
Qed.

(** ** Bindings of one leg *)
Lemma sk_unbind_none s l sh : wfsk s -> sk_legs s !! l = Some sh ->
  (forall d h, sh_ext sh <> ShSip d (Some h)) -> sk_unbind l s = s.
Proof.
  intros Hwf Hl Hno. destruct s as [c ls gl n nx]. unfold sk_unbind. simpl in *. f_equal.
  apply map_filter_id. intros h l' Hh. simpl. intros ->.
  destruct (wf_nua _ Hwf h l Hh) as (sh' & d & Hl' & He). simpl in Hl'. simplify_eq. by edestruct Hno.
Qed.

Lemma sk_unbind_handle s l sh d h : wfsk s -> sk_legs s !! l = Some sh ->
  sh_ext sh = ShSip d (Some h) -> filter (fun kv => kv.2 <> l) (sk_nua s) = delete h (sk_nua s).
Proof.
  intros Hwf Hl He. apply map_eq. intros h'.
  pose proof (wf_handle s Hwf l sh d h Hl He) as Hn.
  destruct (decide (h' = h)) as [->|Hne].
  - rewrite lookup_delete_eq. apply map_lookup_filter_None. right. intros x Hx. naive_solver.
  - rewrite lookup_delete_ne by done. destruct (sk_nua s !! h') as [l'|] eqn:Hh.
    + apply map_lookup_filter_Some. split; [done|]. simpl. intros ->.
      destruct (wf_nua s Hwf h' l Hh) as (sh' & d' & Hl' & He'). simplify_eq. congruence.
    + apply map_lookup_filter_None. by left.
Qed.

(** ** Releasing, as seen by the rest of the program *)
Lemma released_wf s l sh s' : wfsk s -> sk_legs s !! l = Some sh -> released s l s' -> wfsk s'.
Proof. intros ? ? [-> | ->]; [done|]. by eapply sk_release_wf. Qed.

Lemma released_other s l sh s' l' : wfsk s -> sk_legs s !! l = Some sh -> released s l s' ->
  l' <> l -> sk_legs s' !! l' = sk_legs s !! l'.
Proof. intros ? ? [-> | ->] ?; [done|]. by eapply sk_release_other_leg. Qed.

Lemma established_sip_handle sh d h : established sh -> sh_ext sh = ShSip d h -> is_Some h.
Proof. unfold established. intros Hest He. rewrite He in Hest. destruct d; naive_solver. Qed.

Lemma tag_type sh : tag_ok sh ->
  (sh_type sh = CALL_TYPE_MNCC /\ exists d cr, sh_ext sh = ShMncc d cr)
  \/ (sh_type sh = CALL_TYPE_SIP /\ exists d h, sh_ext sh = ShSip d h).
Proof. unfold tag_ok. destruct (sh_ext sh); eauto. Qed.

(** Completing the leg of a new call is creating the call with that leg. *)
Lemma sk_setup_new sh sh' s :
  sk_setup (Pos.succ (sk_next s)) sh' None (sk_new sh s) = sk_new sh' s.
Proof. unfold sk_setup, sk_new. simpl. by rewrite insert_insert_eq. Qed.

(** ** The abstract machine *)
Lemma sk_step_wf s s' : wfsk s -> sk_step s s' -> wfsk s'.
Proof.
  intros Hwf [l sh Hl|sh ? ? ? ? ?|c i shi sh h ? ? ? ? ? ? ? ? ? ?|l sh0 sh h ? ? ? ? ? ? ? ? ?|n ?].
  - by eapply sk_release_wf.
  - by apply sk_new_wf.
  - by eapply sk_attach_wf.
  - by eapply sk_setup_wf.
  - by apply sk_next_wf.
Qed.

Lemma evolves_wf s s' : wfsk s -> evolves s s' -> wfsk s'.
Proof. intros Hwf Hev. revert Hwf. induction Hev; eauto using sk_step_wf. Qed.

Lemma drops_wf s s' : wfsk s -> drops s s' -> wfsk s'.
Proof.
  intros Hwf Hd. revert Hwf. induction Hd as [|s1 s2 s3 (l & sh & Hl & ->) _ IH]; [done|].
  intros Hwf. apply IH. by eapply sk_release_wf.
Qed.

Lemma drops_evolves s s' : drops s s' -> evolves s s'.
Proof.
  induction 1 as [|s1 s2 s3 (l & sh & Hl & ->) _ IH]; [apply rtc_refl|].
  eapply rtc_l; [|exact IH]. by eapply step_release.
Qed.

Lemma released_drops s l sh s' : sk_legs s !! l = Some sh -> released s l s' -> drops s s'.
Proof. intros Hl [-> | ->]; [apply rtc_refl|]. apply rtc_once. eauto. Qed.

Lemma released_evolves s l sh s' : sk_legs s !! l = Some sh -> released s l s' -> evolves s s'.
Proof. intros. by eapply drops_evolves, released_drops. Qed.

Lemma evolves_skip s : evolves s (sk_skip s).
Proof. apply rtc_once, step_next. lia. Qed.

(** The leg store only shrinks. *)
Lemma drops_legs s s' l sh : wfsk s -> drops s s' -> sk_legs s' !! l = Some sh -> sk_legs s !! l = Some sh.
Proof.
  intros Hwf Hd. revert Hwf. induction Hd as [|s1 s2 s3 (l' & sh' & Hl' & ->) _ IH]; [done|].
  intros Hwf Hl. apply IH in Hl; [|by eapply sk_release_wf].
  rewrite (sk_release_legs s1 l' sh' Hwf Hl') in Hl. by apply lookup_delete_Some in Hl as [_ ?].
Qed.

(** Releases in call [c] shorten the list at most by [c]. *)
Lemma released_list s l sh s' pre post : wfsk s -> sk_legs s !! l = Some sh -> released s l s' ->
  sk_list s = pre ++ post -> sh_call sh ∉ post ->
  exists pre', sk_list s' = pre' ++ post /\ (forall c, c ∈ pre' -> c ∈ pre).
Proof.
  intros Hwf Hl [-> | ->] Hlist Hn; [by eauto|].
  destruct (sk_release_list s l sh Hwf Hl) as [->| ->]; [by eauto|].
  exists (filter (fun c' => c' <> sh_call sh) pre). rewrite Hlist, filter_app. split.
  - f_equal. apply filter_all. intros c Hc ->. done.
  - intros c. rewrite list_elem_of_filter. by intros [_ ?].
Qed.
