(* ===== verification/Rules.v ===== *)
(** * Proof rules: what the primitives do to the resource view

    [st s cn w] says that the store [w] has the resource view [s] and the
    connection [cn], and that only live MNCC legs have an armed timer.  Most
    operations of the program leave [s] alone; their rules have [st s cn] before
    and after, so facts about [s] carry over.  The rules are collected in the
    hint database [wpdb], and [wp_seq] applies one to the first operation of a
    sequence. *)
From S2P Require Import Prelude Effect Codec Protocol Lib State Skel.

(** ** Definitions *)
Definition timers_ok (s : skel) (ts : gset ptr) : Prop :=
  forall l, l ∈ ts -> exists sh, sk_legs s !! l = Some sh /\ is_mncc sh.

Record st (s : skel) (cn : mncc_connection) (w : world) : Prop := St {
  st_sk : sk w = s;
  st_conn : conn w = cn;
  st_timers : timers_ok s (timers w) }.

(** The connection: no descriptor exactly when disconnected, a reconnect timer
    armed exactly then, and the callback installed. *)
Record conn_ok (cn : mncc_connection) : Prop := {
  co_state : cn_fd cn < 0 <-> cn_state cn = MNCC_DISCONNECTED;
  co_timer : cn_fd cn < 0 <-> cn_reconnect cn <> None;
  co_callback : cn_on_disconnect cn = true }.

(** The invariant of the store. *)
Record wf (w : world) : Prop := Wf {
  w_sk : wfsk (sk w);
  w_timers : timers_ok (sk w) (timers w);
  w_conn : conn_ok (conn w) }.

Lemma wf_st w : wf w -> st (sk w) (conn w) w.
Proof. intros [? ? ?]. by split. Qed.

Lemma st_wf s cn w : st s cn w -> wfsk s -> conn_ok cn -> wf w.
Proof. by intros [<- <- ?] ? ?. Qed.

Create HintDb wpdb.

Ltac wp_seq_core := apply wp_bind; eapply wp_mono; [solve [eauto with wpdb] | cbv beta].
Tactic Notation "wp_seq" := wp_seq_core; intros.
Tactic Notation "wp_seq" simple_intropattern(a) simple_intropattern(w) simple_intropattern(p) :=
  wp_seq_core; intros a w p.
(** One operation by a given rule; side conditions left open come first. *)
Tactic Notation "wp_use" uconstr(H) "as" simple_intropattern(a) simple_intropattern(w) simple_intropattern(p) :=
  apply wp_bind; eapply wp_mono; [eapply H; eauto | cbv beta; intros a w p].
Tactic Notation "wp_last" uconstr(H) "as" simple_intropattern(a) simple_intropattern(w) simple_intropattern(p) :=
  eapply wp_mono; [eapply H; eauto | cbv beta; intros a w p].
(** The last operation of a sequence. *)
Ltac wp_end := eapply wp_mono; [solve [eauto with wpdb] | cbv beta; intros; destruct_ands; eauto with wpdb].

(** ** Lookups through the view *)
Section view.
Context {s : skel} {cn : mncc_connection} {w : world} (Hst : st s cn w).

Lemma st_leg l sh : sk_legs s !! l = Some sh -> exists x, legs w !! l = Some x /\ shape x = sh.
Proof.
  rewrite <- (st_sk _ _ _ Hst). simpl. intros Hl.
  apply fmap_lookup_inv in Hl as (x & ? & ->). eauto.
Qed.

Lemma st_call c i r : sk_calls s !! c = Some (i, r) ->
  exists x, calls w !! c = Some x /\ initial x = i /\ remote x = r.
Proof.
  rewrite <- (st_sk _ _ _ Hst). simpl. intros Hl.
  apply fmap_lookup_inv in Hl as (x & ? & [= -> ->]). eauto.
Qed.

Lemma st_leg_None l : sk_legs s !! l = None -> legs w !! l = None.
Proof.
  rewrite <- (st_sk _ _ _ Hst). simpl. rewrite lookup_fmap. by destruct (legs w !! l).
Qed.

Lemma st_list : g_call_list w = sk_list s.
Proof. by rewrite <- (st_sk _ _ _ Hst). Qed.

Lemma st_nua : nua w = sk_nua s.
Proof. by rewrite <- (st_sk _ _ _ Hst). Qed.

Lemma st_next : next_ptr w = sk_next s.
Proof. by rewrite <- (st_sk _ _ _ Hst). Qed.

(** Updates outside the view. *)
Lemma st_set_out f : st s cn (set_out f w).
Proof. destruct Hst. by split. Qed.
Lemma st_set_n_io f : st s cn (set_n_io f w).
Proof. destruct Hst. by split. Qed.
Lemma st_set_cfg f : st s cn (set_cfg f w).
Proof. destruct Hst. by split. Qed.
Lemma st_set_last_call_id f : st s cn (set_last_call_id f w).
Proof. destruct Hst. by split. Qed.
Lemma st_set_conn f : st s (f cn) (set_conn f w).
Proof. destruct Hst as [? <- ?]. by split. Qed.

(** Writing a leg whose timer, if armed, is still that of an MNCC leg. *)
Lemma st_set_leg l x : (l ∈ timers w -> is_mncc (shape x)) ->
  st (Skel (sk_calls s) (<[l := shape x]> (sk_legs s)) (sk_list s) (sk_nua s) (sk_next s)) cn
     (set_legs (<[l := x]>) w).
Proof.
  intros Hm. destruct Hst as [<- <- Ht]. split; [|done|].
  - unfold sk. simpl. by rewrite fmap_insert.
  - intros l' Hl'. simpl in *. destruct (decide (l = l')) as [<-|].
    + rewrite lookup_insert_eq. eauto.
    + rewrite lookup_insert_ne by done. apply (Ht l' Hl').
Qed.

Lemma st_set_call c x :
  st (Skel (<[c := call_shape x]> (sk_calls s)) (sk_legs s) (sk_list s) (sk_nua s) (sk_next s)) cn
     (set_calls (<[c := x]>) w).
Proof.
  destruct Hst as [<- <- Ht]. split; [|done|done]. unfold sk. simpl. by rewrite fmap_insert.
Qed.

Lemma st_set_nua f :
  st (Skel (sk_calls s) (sk_legs s) (sk_list s) (f (sk_nua s)) (sk_next s)) cn (set_nua f w).
Proof. destruct Hst as [<- <- Ht]. by split. Qed.

Lemma st_set_next f :
  st (Skel (sk_calls s) (sk_legs s) (sk_list s) (sk_nua s) (f (sk_next s))) cn (set_next_ptr f w).
Proof. destruct Hst as [<- <- Ht]. by split. Qed.

Lemma st_set_list f :
  st (Skel (sk_calls s) (sk_legs s) (f (sk_list s)) (sk_nua s) (sk_next s)) cn (set_g_call_list f w).
Proof. destruct Hst as [<- <- Ht]. by split. Qed.
End view.

Lemma st_upd_leg s cn w l x sh :
  st s cn w -> sk_legs s !! l = Some sh -> shape x = sh -> st s cn (set_legs (<[l := x]>) w).
Proof.
  intros Hst Hl Hsh. destruct (st_leg Hst l sh Hl) as (y & Hy & <-).
  destruct Hst as [<- <- Ht]. split; [|done|done]. unfold sk. simpl. f_equal.
  by eapply fmap_insert_same.
Qed.

Lemma st_upd_call s cn w c x i r :
  st s cn w -> sk_calls s !! c = Some (i, r) -> initial x = i -> remote x = r ->
  st s cn (set_calls (<[c := x]>) w).
Proof.
  intros Hst Hc Hi Hr. destruct (st_call Hst c i r Hc) as (y & Hy & <- & <-).
  destruct Hst as [<- <- Ht]. split; [|done|done]. unfold sk. simpl. f_equal.
  eapply fmap_insert_same; [done|]. unfold call_shape. congruence.
Qed.

Lemma timers_ok_minus s ts (l : ptr) : timers_ok s ts -> timers_ok s (ts ∖ {[l]}).
Proof. intros Ht l' Hl'. apply Ht. set_solver. Qed.

Lemma st_set_timers s cn w f :
  st s cn w -> timers_ok s (f (timers w)) -> st s cn (set_timers f w).
Proof. intros [? ? ?] Hf. by split. Qed.

(** ** Rules for the primitives *)
Section rules.
Context (s : skel) (cn : mncc_connection) (w : world).

Lemma deref_leg_st l sh : st s cn w -> sk_legs s !! l = Some sh ->
  wp (deref_leg l) (fun x w' => st s cn w' /\ w' = w /\ legs w !! l = Some x /\ shape x = sh) w.
Proof.
  intros Hst Hl. destruct (st_leg Hst l sh Hl) as (x & Hx & Hsh).
  unfold deref_leg. apply wp_bind, wp_gets. simpl. rewrite Hx. by simpl.
Qed.

Lemma deref_call_st c i r : st s cn w -> sk_calls s !! c = Some (i, r) ->
  wp (deref_call c) (fun x w' => st s cn w' /\ w' = w /\ calls w !! c = Some x /\ initial x = i /\ remote x = r) w.
Proof.
  intros Hst Hl. destruct (st_call Hst c i r Hl) as (x & Hx & Hsh).
  unfold deref_call. apply wp_bind, wp_gets. simpl. rewrite Hx. by simpl.
Qed.

Lemma upd_leg_st l f sh : st s cn w -> sk_legs s !! l = Some sh ->
  (forall x, shape x = sh -> shape (f x) = sh) ->
  wp (upd_leg l f) (fun _ w' => st s cn w') w.
Proof.
  intros Hst Hl Hf. apply wp_bind. eapply wp_mono; [by eapply deref_leg_st|].
  intros x w' (_ & -> & Hx & Hsh). apply wp_modify. eapply st_upd_leg; eauto.
Qed.

Lemma upd_base_st l f sh : st s cn w -> sk_legs s !! l = Some sh ->
  (forall b, lg_type (f b) = lg_type b /\ lg_call (f b) = lg_call b /\ ops (f b) = ops b) ->
  wp (upd_base l f) (fun _ w' => st s cn w') w.
Proof.
  intros Hst Hl Hf. eapply upd_leg_st; eauto. intros x <-. unfold shape. simpl.
  destruct (Hf (base x)) as (-> & -> & ->). done.
Qed.

Lemma upd_call_st c f i r : st s cn w -> sk_calls s !! c = Some (i, r) ->
  (forall x, initial (f x) = initial x /\ remote (f x) = remote x) ->
  wp (upd_call c f) (fun _ w' => st s cn w') w.
Proof.
  intros Hst Hl Hf. apply wp_bind. eapply wp_mono; [by eapply deref_call_st|].
  intros x w' (_ & -> & Hx & Hi & Hr). apply wp_modify.
  destruct (Hf x) as [Hi' Hr']. eapply st_upd_call; eauto; congruence.
Qed.

Lemma upd_call_eq c f i r : st s cn w -> sk_calls s !! c = Some (i, r) ->
  wp (upd_call c f) (fun _ w' => exists x, calls w !! c = Some x /\ initial x = i /\ remote x = r
     /\ w' = set_calls (<[c := f x]>) w) w.
Proof.
  intros Hst Hl. apply wp_bind. eapply wp_mono; [by eapply deref_call_st|].
  intros x w' (_ & -> & Hx & Hi & Hr). apply wp_modify. eauto.
Qed.

Lemma as_mncc_st l sh d cr : st s cn w -> sk_legs s !! l = Some sh -> sh_ext sh = ShMncc d cr ->
  wp (as_mncc l) (fun m w' => st s cn w' /\ w' = w /\ m_dir m = d /\ m_callref m = cr
                   /\ exists b, legs w !! l = Some (Leg b (XMncc m))) w.
Proof.
  intros Hst Hl He. apply wp_bind. eapply wp_mono; [by eapply deref_leg_st|].
  intros [b [m|m]] w' (_ & -> & Hx & Hsh); rewrite <- Hsh in He; simpl in *; [|done].
  simplify_eq. split_and!; eauto.
Qed.

Lemma as_sip_st l sh d h : st s cn w -> sk_legs s !! l = Some sh -> sh_ext sh = ShSip d h ->
  wp (as_sip l) (fun m w' => st s cn w' /\ w' = w /\ s_dir m = d /\ s_handle m = h
                   /\ exists b, legs w !! l = Some (Leg b (XSip m))) w.
Proof.
  intros Hst Hl He. apply wp_bind. eapply wp_mono; [by eapply deref_leg_st|].
  intros [b [m|m]] w' (_ & -> & Hx & Hsh); rewrite <- Hsh in He; simpl in *; [done|].
  simplify_eq. split_and!; eauto.
Qed.

Lemma upd_mncc_st l f sh d cr : st s cn w -> sk_legs s !! l = Some sh -> sh_ext sh = ShMncc d cr ->
  (forall m, m_dir (f m) = m_dir m /\ m_callref (f m) = m_callref m) ->
  wp (upd_mncc l f) (fun _ w' => st s cn w') w.
Proof.
  intros Hst Hl He Hf. apply wp_bind. eapply wp_mono; [by eapply as_mncc_st|].
  intros m w' (_ & -> & Hd & Hc & _). eapply upd_leg_st; eauto.
  intros x <-. unfold shape in *. simpl in *. destruct (Hf m) as [Hd' Hc'].
  by rewrite He, Hd', Hc', Hd, Hc.
Qed.

Lemma upd_sip_st l f sh d h : st s cn w -> sk_legs s !! l = Some sh -> sh_ext sh = ShSip d h ->
  (forall m, s_dir (f m) = s_dir m /\ s_handle (f m) = s_handle m) ->
  wp (upd_sip l f) (fun _ w' => st s cn w') w.
Proof.
  intros Hst Hl He Hf. apply wp_bind. eapply wp_mono; [by eapply as_sip_st|].
  intros m w' (_ & -> & Hd & Hc & _). eapply upd_leg_st; eauto.
  intros x <-. unfold shape in *. simpl in *. destruct (Hf m) as [Hd' Hc'].
  by rewrite He, Hd', Hc', Hd, Hc.
Qed.

Lemma emit_st a : st s cn w -> wp (emit a) (fun _ w' => st s cn w') w.
Proof. intros Hst. apply wp_modify, (st_set_out Hst). Qed.

Lemma tick_st : st s cn w -> wp tick (fun n w' => st s cn w' /\ n = n_io w) w.
Proof. intros Hst. split; [|done]. apply (st_set_n_io Hst). Qed.

Lemma timer_schedule_st l sh : st s cn w -> sk_legs s !! l = Some sh -> is_mncc sh ->
  wp (timer_schedule l) (fun _ w' => st s cn w') w.
Proof.
  intros Hst Hl Hm. apply wp_bind. eapply wp_mono; [by eapply deref_leg_st|].
  intros x w' (_ & -> & _). apply wp_modify, st_set_timers; [done|].
  intros l' [->%elem_of_singleton|Hl']%elem_of_union; [eauto|]. by apply (st_timers _ _ _ Hst).
Qed.

Lemma timer_del_st l sh : st s cn w -> sk_legs s !! l = Some sh ->
  wp (timer_del l) (fun _ w' => st s cn w' /\ l ∉ timers w') w.
Proof.
  intros Hst Hl. apply wp_bind. eapply wp_mono; [by eapply deref_leg_st|].
  intros x w' (_ & -> & _). apply wp_modify. split; [|simpl; set_solver].
  apply st_set_timers; [done|]. intros l' Hl'. apply (st_timers _ _ _ Hst). set_solver.
Qed.

Lemma get_conn_st : st s cn w -> wp (gets conn) (fun c w' => st s cn w' /\ w' = w /\ c = cn) w.
Proof. intros Hst. split_and!; auto. apply (st_conn _ _ _ Hst). Qed.

Lemma get_list_st : st s cn w -> wp (gets g_call_list) (fun c w' => st s cn w' /\ w' = w /\ c = sk_list s) w.
Proof. intros Hst. split_and!; auto. apply (st_list Hst). Qed.

Lemma get_cfg_st : st s cn w -> wp (gets cfg) (fun _ w' => st s cn w') w.
Proof. done. Qed.

Lemma read_str_st o : st s cn w ->
  (forall p t, o = Some (p, t) -> is_Some (sk_legs s !! p)) ->
  wp (read_str o) (fun r w' => st s cn w' /\ w' = w /\ r = snd <$> o) w.
Proof.
  intros Hst Ho. destruct o as [[p t]|]; [|done]. destruct (Ho p t eq_refl) as [sh Hp].
  apply wp_bind. eapply wp_mono; [by eapply deref_leg_st|]. intros x w' (_ & -> & _). done.
Qed.

(** A new leg: at the allocation pointer, not linked yet. *)
Lemma talloc_leg_st {E : Env} x : wfsk s -> st s cn w ->
  wp (talloc_leg x)
     (fun o w' => calls w' = calls w /\ timers w' = timers w /\
        match o with
        | None => st s cn w'
        | Some l => l = sk_next s /\ st (sk_alloc (shape x) s) cn w'
        end) w.
Proof.
  intros Hwf Hst. pose proof (wf_fresh_leg s (sk_next s) Hwf ltac:(lia)) as Hfl.
  unfold talloc_leg, tick, wp, bind, gets, modify, ret. simpl.
  destruct (alloc_ok (n_io w)); simpl.
  - pose proof (st_next Hst) as Hn. rewrite <- Hn in *. split_and!; [done|done|done|].
    split; [|apply Hst|].
    + rewrite <- (st_sk _ _ _ Hst). unfold sk, sk_alloc. simpl. by rewrite fmap_insert.
    + intros l Hl. destruct (st_timers _ _ _ Hst l Hl) as (sh & Hsh & ?). exists sh. simpl.
      rewrite lookup_insert_ne by congruence. done.
  - split_and!; [done|done|]. apply (st_set_n_io Hst).
Qed.

Lemma talloc_str_st {E : Env} p t : st s cn w ->
  wp (talloc_str p t) (fun r w' => st s cn w' /\ (r = None \/ r = Some (p, t))) w.
Proof.
  intros Hst. apply wp_bind. eapply wp_mono; [by apply tick_st|].
  intros n w' [Hst' _]. apply wp_ret. split; [done|]. destruct (alloc_ok n); auto.
Qed.
End rules.

(** Writing a leg whose shape changes. *)
Lemma upd_leg_shape_st s cn w l f sh sh' : st s cn w -> sk_legs s !! l = Some sh ->
  (forall x, shape x = sh -> shape (f x) = sh') -> l ∉ timers w ->
  wp (upd_leg l f) (fun _ w' => st (sk_setup l sh' None s) cn w' /\ timers w' = timers w) w.
Proof.
  intros Hst Hl Hf Ht. unfold upd_leg. wp_use deref_leg_st as x w1 (_ & -> & Hx & Hsh).
  apply wp_modify. split; [|done]. rewrite <- (Hf x Hsh). by apply (st_set_leg Hst).
Qed.

Lemma upd_mncc_shape_st s cn w l f sh d cr sh' : st s cn w -> sk_legs s !! l = Some sh ->
  sh_ext sh = ShMncc d cr -> l ∉ timers w ->
  (forall b m, shape (Leg b (XMncc m)) = sh -> shape (Leg b (XMncc (f m))) = sh') ->
  wp (upd_mncc l f) (fun _ w' => st (sk_setup l sh' None s) cn w' /\ timers w' = timers w) w.
Proof.
  intros Hst Hl He Ht Hf. unfold upd_mncc. wp_use as_mncc_st as m w1 (_ & -> & _ & _ & b & Hx).
  destruct (st_leg Hst l sh Hl) as (x & Hx' & Hsh). simplify_eq.
  unfold upd_leg, deref_leg, wp, bind, gets, modify, some_or, ret. simpl. rewrite Hx. simpl.
  split; [|done]. rewrite <- (Hf _ _ eq_refl). by apply (st_set_leg Hst).
Qed.

Lemma upd_sip_shape_st s cn w l f sh d h sh' : st s cn w -> sk_legs s !! l = Some sh ->
  sh_ext sh = ShSip d h -> l ∉ timers w ->
  (forall b m, shape (Leg b (XSip m)) = sh -> shape (Leg b (XSip (f m))) = sh') ->
  wp (upd_sip l f) (fun _ w' => st (sk_setup l sh' None s) cn w' /\ timers w' = timers w) w.
Proof.
  intros Hst Hl He Ht Hf. unfold upd_sip. wp_use as_sip_st as m w1 (_ & -> & _ & _ & b & Hx).
  destruct (st_leg Hst l sh Hl) as (x & Hx' & Hsh). simplify_eq.
  unfold upd_leg, deref_leg, wp, bind, gets, modify, some_or, ret. simpl. rewrite Hx. simpl.
  split; [|done]. rewrite <- (Hf _ _ eq_refl). by apply (st_set_leg Hst).
Qed.

(** The leg is freed before it was linked. *)
Lemma free_alloc_st s cn w sh : wfsk s -> st (sk_alloc sh s) cn w -> sk_next s ∉ timers w ->
  wp (free_leg (sk_next s)) (fun _ w' => st (sk_skip s) cn w') w.
Proof.
  intros Hwf Hst Ht. pose proof (wf_fresh_leg s (sk_next s) Hwf ltac:(lia)) as Hfl.
  apply wp_bind. eapply wp_mono; [eapply deref_leg_st; [done|apply lookup_insert_eq]|].
  intros x w' (_ & -> & Hx & _). apply wp_modify. split; [|apply Hst|].
  - pose proof (st_sk _ _ _ Hst) as Hsk. injection Hsk as H1 H2 H3 H4 H5.
    unfold sk, sk_skip. simpl. f_equal; [done| |done|done|done].
    by rewrite fmap_delete, H2, delete_insert_id.
  - intros l Hl. simpl in *. destruct (st_timers _ _ _ Hst l Hl) as (sh' & Hsh & ?).
    exists sh'. simpl in *. rewrite lookup_insert_ne in Hsh by congruence. done.
Qed.

(** ** Exact rules, for the theorems that state a result store *)
Section exact.
Context (w : world) (l : ptr).

Lemma deref_leg_eq x : legs w !! l = Some x -> deref_leg l w = Ret x w.
Proof. intros Hl. unfold deref_leg, bind, gets, some_or, ret. simpl. by rewrite Hl. Qed.

Lemma as_mncc_eq b m : legs w !! l = Some (Leg b (XMncc m)) -> as_mncc l w = Ret m w.
Proof. intros Hl. unfold as_mncc. by rewrite (bind_returns _ _ _ _ _ (deref_leg_eq _ Hl)). Qed.

Lemma as_sip_eq b m : legs w !! l = Some (Leg b (XSip m)) -> as_sip l w = Ret m w.
Proof. intros Hl. unfold as_sip. by rewrite (bind_returns _ _ _ _ _ (deref_leg_eq _ Hl)). Qed.

Lemma upd_leg_eq f x : legs w !! l = Some x -> upd_leg l f w = Ret tt (set_legs (<[l := f x]>) w).
Proof. intros Hl. unfold upd_leg. by rewrite (bind_returns _ _ _ _ _ (deref_leg_eq _ Hl)). Qed.

Lemma upd_base_eq f b e : legs w !! l = Some (Leg b e) ->
  upd_base l f w = Ret tt (set_legs (<[l := Leg (f b) e]>) w).
Proof. intros Hl. unfold upd_base. by rewrite (upd_leg_eq _ _ Hl). Qed.

Lemma upd_mncc_eq f b m : legs w !! l = Some (Leg b (XMncc m)) ->
  upd_mncc l f w = Ret tt (set_legs (<[l := Leg b (XMncc (f m))]>) w).
Proof.
  intros Hl. unfold upd_mncc. rewrite (bind_returns _ _ _ _ _ (as_mncc_eq _ _ Hl)). by rewrite (upd_leg_eq _ _ Hl).
Qed.

Lemma upd_sip_eq f b m : legs w !! l = Some (Leg b (XSip m)) ->
  upd_sip l f w = Ret tt (set_legs (<[l := Leg b (XSip (f m))]>) w).
Proof.
  intros Hl. unfold upd_sip. rewrite (bind_returns _ _ _ _ _ (as_sip_eq _ _ Hl)). by rewrite (upd_leg_eq _ _ Hl).
Qed.

Lemma deref_call_eq c x : calls w !! c = Some x -> deref_call c w = Ret x w.
Proof. intros Hc. unfold deref_call, bind, gets, some_or, ret. simpl. by rewrite Hc. Qed.

Lemma upd_call_run c f x : calls w !! c = Some x -> upd_call c f w = Ret tt (set_calls (<[c := f x]>) w).
Proof. intros Hc. unfold upd_call. by rewrite (bind_returns _ _ _ _ _ (deref_call_eq _ _ Hc)). Qed.

Lemma emit_eq a : emit a w = Ret tt (set_out (fun o => o ++ [a]) w).
Proof. done. Qed.

Lemma timer_schedule_eq x : legs w !! l = Some x ->
  timer_schedule l w = Ret tt (set_timers (fun t => {[l]} ∪ t) w).
Proof. intros Hl. unfold timer_schedule. by rewrite (bind_returns _ _ _ _ _ (deref_leg_eq _ Hl)). Qed.
End exact.

(** Rewrite the first operation of a sequence by its result. *)
Ltac run_step H := erewrite (bind_returns _ _ _ _ _ H).

(** The rules state exactly what a proof needs about a base update: the three
    identity fields stay. *)
#[export] Hint Extern 1 (_ = _ /\ _ = _) => (split; reflexivity) : wpdb.
#[export] Hint Extern 1 (_ = _ /\ _ = _ /\ _ = _) => (split_and!; reflexivity) : wpdb.
#[export] Hint Extern 1 (is_mncc _) => (unfold is_mncc; simpl; congruence || done) : wpdb.
#[export] Hint Resolve deref_leg_st deref_call_st upd_base_st upd_call_st as_mncc_st as_sip_st
  upd_mncc_st upd_sip_st emit_st tick_st timer_schedule_st timer_del_st get_conn_st get_list_st
  get_cfg_st read_str_st talloc_str_st : wpdb.
