(* ===== verification/Call.v ===== *)
(** * Calls and call legs (src/call.c) *)
From S2P Require Import Prelude Effect Codec Protocol Lib State Skel Rules.

(** ** Definitions *)
Section call.
Context {E : Env}.

(** [talloc_zero] of a [struct call]. *)
Definition call0 : call := Call 0 None None None None [] false.

Definition call_leg_release (l : ptr) : MW unit :=
  x <- deref_leg l ;;
  let c := lg_call (base x) in
  cl <- deref_call c ;;
  let unlink (f : call -> call) : MW unit :=
    upd_call c f ;;
    free_leg l ;;
    cl' <- deref_call c ;;
    match initial cl', remote cl' with
    | None, None =>
        modify (set_g_call_list (filter (fun c' => c' <> c))) ;;
        free_call c
    | _, _ => ret tt
    end in
  if decide (initial cl = Some l) then unlink (set_initial None)
  else if decide (remote cl = Some l) then unlink (set_remote None)
  else ret tt.

(** The common text of [call_mncc_create] and [call_sip_create]. *)
Definition call_create (t : call_type) (x : leg_ext) : MW (option ptr) :=
  o <- talloc_call call0 ;;
  match o with
  | None => ret None
  | Some c =>
      modify (set_last_call_id (fun n => u32 (n + 1))) ;;
      n <- gets last_call_id ;;
      upd_call c (fun cl => Call n (initial cl) (remote cl) (source cl) (dest cl) (gcr cl) (gcr_present cl)) ;;
      o' <- talloc_leg (Leg (call_leg_new t c) x) ;;
      match o' with
      | None => free_call c ;; ret None
      | Some l =>
          upd_call c (set_initial (Some l)) ;;
          modify (set_g_call_list (fun cs => c :: cs)) ;;
          ret (Some c)
      end
  end.

Definition call_mncc_create : MW (option ptr) := call_create CALL_TYPE_MNCC (XMncc mncc_leg0).
Definition call_sip_create : MW (option ptr) := call_create CALL_TYPE_SIP (XSip sip_leg0).

Definition call_leg_other (l : ptr) : MW (option ptr) :=
  x <- deref_leg l ;;
  cl <- deref_call (lg_call (base x)) ;;
  if decide (initial cl = Some l) then ret (remote cl)
  else if decide (remote cl = Some l) then ret (initial cl)
  else ret None.

(** [call_leg_rx_sdp] on the structure it updates; [None] is a NULL string.  The SDP of
    a message that fills its array has no NUL: [osmo_strlcpy] measures it with strlen,
    which reads on in the buffer of [mncc_data].  What it copies, the first 1023
    characters, does not depend on what is found there; that read is not a fault of
    the model. *)
Definition rx_sdp_update (sdp : option string) (b : call_leg) : call_leg :=
  match sdp with
  | None => b
  | Some s =>
      if String.eqb s EmptyString || strncmp_eq 1024 (rx_sdp b) s then b
      else set_rx_sdp (osmo_strlcpy 1024 s) true b
  end.

Definition call_leg_rx_sdp (l : ptr) (sdp : option string) : MW unit :=
  upd_base l (rx_sdp_update sdp).

(** The value_string tables and the two functions that print from them. *)
Definition call_type_vals : list (call_type * string) :=
  [(CALL_TYPE_NONE, "NONE"); (CALL_TYPE_SIP, "SIP"); (CALL_TYPE_MNCC, "MNCC")]%string.
Definition mncc_state_vals : list (mncc_cc_state * string) :=
  [(MNCC_CC_INITIAL, "INITIAL"); (MNCC_CC_PROCEEDING, "PROCEEDING");
   (MNCC_CC_CONNECTED, "CONNECTED"); (MNCC_CC_HOLD, "ON HOLD")]%string.
Definition sip_state_vals : list (sip_cc_state * string) :=
  [(SIP_CC_INITIAL, "INITIAL"); (SIP_CC_DLG_CNFD, "CONFIRMED");
   (SIP_CC_CONNECTED, "CONNECTED"); (SIP_CC_HOLD, "ON HOLD")]%string.
Definition mncc_dir_vals : list (mncc_dir * string) :=
  [(MNCC_DIR_MO, "MO"); (MNCC_DIR_MT, "MT")]%string.
Definition sip_dir_vals : list (sip_dir * string) :=
  [(SIP_DIR_MO, "MO"); (SIP_DIR_MT, "MT")]%string.

(** The string of the first entry with the value. *)
Definition value_string {A} `{EqDecision A} (tbl : list (A * string)) (v : A) : option string :=
  snd <$> List.find (fun e => bool_decide (fst e = v)) tbl.

Definition call_leg_type (x : leg) : option string := value_string call_type_vals (lg_type (base x)).

(** The state is read from the structure that [type] announces. *)
Definition call_leg_state (l : ptr) : MW (option string) :=
  x <- deref_leg l ;;
  match lg_type (base x) with
  | CALL_TYPE_SIP => s <- as_sip l ;; ret (value_string sip_state_vals (s_state s))
  | CALL_TYPE_MNCC => m <- as_mncc l ;; ret (value_string mncc_state_vals (m_state m))
  | CALL_TYPE_NONE => ret (Some "Unknown call type")%string
  end.
End call.

(** ** Release of a leg

    The bindings of the leg are gone before it is released: [sk_unbind]. *)
Section release.
Context (s : skel) (cn : mncc_connection) (l : ptr) (sh : lshape).
Context (Hwf : wfsk s) (Hl : sk_legs s !! l = Some sh).

(** No other leg belongs to a call whose two pointers are gone. *)
Lemma release_last_leg i r l' sh' : sk_calls s !! sh_call sh = Some (i, r) ->
  unlink l i = None -> unlink l r = None ->
  sk_legs s !! l' = Some sh' -> l' <> l -> sh_call sh' <> sh_call sh.
Proof.
  intros Hc Hi Hr Hl' Hne Heq.
  destruct (wf_leg s Hwf l' sh' Hl') as (_ & _ & i' & r' & Hc' & Hir).
  rewrite Heq, Hc in Hc'. simplify_eq.
  destruct Hir as [-> | ->]; [rewrite (unlink_ne l _ l') in Hi | rewrite (unlink_ne l _ l') in Hr]; done.
Qed.

(** The store after unlinking with [f], freeing the leg and, when both pointers
    of the call are NULL, the call. *)
Lemma unlink_and_free_st w x cl f i r :
  st (sk_unbind l s) cn w -> l ∉ timers w -> legs w !! l = Some x -> shape x = sh ->
  calls w !! sh_call sh = Some cl -> initial cl = i -> remote cl = r ->
  initial (f cl) = unlink l i -> remote (f cl) = unlink l r ->
  wp (upd_call (sh_call sh) f ;; free_leg l ;; cl' <- deref_call (sh_call sh) ;;
      match initial cl', remote cl' with
      | None, None =>
          modify (set_g_call_list (filter (fun c' => c' <> sh_call sh))) ;;
          free_call (sh_call sh)
      | _, _ => ret tt
      end)
     (fun _ w' => st (sk_release l s) cn w' /\ timers w' = timers w) w.
Proof.
  intros Hst Ht Hx Hsh Hcl <- <- Hfi Hfr.
  assert (sk_calls s !! sh_call sh = Some (initial cl, remote cl)) as Hc.
  { change (sk_calls (sk_unbind l s) !! sh_call sh = Some (initial cl, remote cl)).
    rewrite <- (st_sk _ _ _ Hst). simpl. by rewrite lookup_fmap, Hcl. }
  assert (sk_calls s = call_shape <$> calls w) as Hcs.
  { change (sk_calls (sk_unbind l s) = call_shape <$> calls w). by rewrite <- (st_sk _ _ _ Hst). }
  assert (sk_legs s = shape <$> legs w) as Hls.
  { change (sk_legs (sk_unbind l s) = shape <$> legs w). by rewrite <- (st_sk _ _ _ Hst). }
  assert (timers_ok (sk_release l s) (timers w)) as Hok.
  { intros l' Hl'. destruct (st_timers _ _ _ Hst l' Hl') as (sh' & ? & ?).
    exists sh'. rewrite (sk_release_other_leg s l sh) by (done || congruence). done. }
  unfold wp, upd_call, free_leg, free_call, deref_leg, deref_call, bind, gets, modify, some_or, ret, crash.
  simpl. rewrite Hcl. simpl. rewrite Hx. simpl. rewrite lookup_insert_eq. rewrite Hfi, Hfr.
  destruct (sk_release_cases s l sh Hwf Hl) as (i0 & r0 & Hc0 & _ & Hcase).
  assert (i0 = initial cl /\ r0 = remote cl) as [-> ->] by (split; congruence).
  destruct Hcase as [(Hui & Hur & Heq) | [Hn Heq]].
  - rewrite Hui, Hur. simpl. rewrite lookup_insert_eq. simpl. split; [|done].
    rewrite Heq in *. split; [|apply Hst|done].
    unfold sk. simpl. f_equal.
    + by rewrite Hcs, fmap_delete, fmap_insert, delete_insert_eq.
    + rewrite Hls, <- fmap_delete. f_equal.
      apply map_filter_id. intros l' y Hy. simpl.
      apply lookup_delete_Some in Hy as [Hne Hy].
      apply (release_last_leg (initial cl) (remote cl) l' (shape y)); try done.
      by rewrite Hls, lookup_fmap, Hy.
    + by rewrite (st_list Hst).
    + by rewrite (st_nua Hst).
    + apply (st_next Hst).
  - assert (sk (set_legs (delete l) (set_calls (<[sh_call sh := f cl]>) w)) = sk_release l s) as Hsk.
    { rewrite Heq. unfold sk. simpl. f_equal.
      + rewrite Hcs, fmap_insert. unfold call_shape at 1. by rewrite Hfi, Hfr.
      + by rewrite Hls, fmap_delete.
      + apply (st_list Hst).
      + by rewrite (st_nua Hst).
      + apply (st_next Hst). }
    destruct (unlink l (initial cl)) eqn:Hui, (unlink l (remote cl)) eqn:Hur; try (destruct Hn; done);
      (split; [|done]; split; [exact Hsk|apply Hst|done]).
Qed.

Lemma call_leg_release_st w : st (sk_unbind l s) cn w -> l ∉ timers w ->
  wp (call_leg_release l) (fun _ w' => st (sk_release l s) cn w' /\ timers w' = timers w) w.
Proof.
  intros Hst Ht.
  destruct (wf_leg s Hwf l sh Hl) as (_ & _ & i & r & Hc & Hir).
  unfold call_leg_release. wp_seq x w1 (_ & -> & Hx & Hsh).
  assert (lg_call (base x) = sh_call sh) as -> by by rewrite <- Hsh.
  wp_seq cl w2 (_ & -> & Hcl & Hi & Hr).
  destruct (decide (initial cl = Some l)) as [Hil|Hil]; [|destruct (decide (remote cl = Some l)) as [Hrl|Hrl]].
  - eapply unlink_and_free_st; eauto; simpl.
    + unfold unlink. rewrite decide_True; congruence.
    + unfold unlink. rewrite decide_False; [done|]. intros ->.
      destruct (wf_initial s Hwf (sh_call sh) l (Some l)) as (sh1 & ? & _ & Hmo & _); [congruence|].
      destruct (wf_remote s Hwf (sh_call sh) (Some l) l) as (sh2 & ? & _ & Hmt & _); [congruence|].
      assert (sh1 = sh) as -> by congruence. assert (sh2 = sh) as -> by congruence.
      unfold is_mo, is_mt in *. destruct (sh_ext sh); congruence.
  - eapply unlink_and_free_st; eauto; simpl.
    + unfold unlink. rewrite decide_False; congruence.
    + unfold unlink. rewrite decide_True; congruence.
  - exfalso. destruct Hir; congruence.
Qed.
End release.

(** ** The other leg *)

(** What is known of the other leg of a call. *)
Definition other_leg (s : skel) (l : ptr) (sh : lshape) (l' : ptr) : Prop :=
  exists sh', sk_legs s !! l' = Some sh' /\ l' <> l /\ sh_call sh' = sh_call sh /\
    established sh /\ established sh' /\ sh_type sh' <> sh_type sh /\
    ((is_mo sh /\ is_mt sh' /\ sk_calls s !! sh_call sh = Some (Some l, Some l'))
     \/ (is_mt sh /\ is_mo sh' /\ sk_calls s !! sh_call sh = Some (Some l', Some l))).

Lemma call_leg_other_st s cn w l sh : wfsk s -> st s cn w -> sk_legs s !! l = Some sh ->
  wp (call_leg_other l)
     (fun o w' => st s cn w' /\ w' = w /\ match o with None => True | Some l' => other_leg s l sh l' end) w.
Proof.
  intros Hwf Hst Hl.
  destruct (wf_leg s Hwf l sh Hl) as (_ & _ & i & r & Hc & Hir).
  unfold call_leg_other. wp_seq x w1 (_ & -> & Hx & Hsh).
  assert (lg_call (base x) = sh_call sh) as -> by by rewrite <- Hsh.
  wp_seq cl w2 (_ & -> & Hcl & Hi & Hr). subst i r.
  destruct (decide (initial cl = Some l)) as [Hil|Hil]; [|destruct (decide (remote cl = Some l)) as [Hrl|Hrl]].
  - apply wp_ret. split_and!; [done|done|]. destruct (remote cl) as [l'|] eqn:Hr; [|done].
    rewrite Hil in Hc. destruct (wf_initial s Hwf _ _ _ Hc) as (sh1 & ? & _ & Hmo & Hest).
    destruct (wf_remote s Hwf _ _ _ Hc) as (sh2 & Hl2 & ? & Hmt & ?). simplify_eq.
    pose proof (wf_types s Hwf _ _ _ _ _ Hc Hl Hl2) as Hty.
    exists sh2. split_and!; auto; congruence.
  - apply wp_ret. split_and!; [done|done|]. destruct (initial cl) as [l'|] eqn:Hi; [|done].
    rewrite Hrl in Hc. destruct (wf_initial s Hwf _ _ _ Hc) as (sh1 & Hl1 & ? & Hmo & Hest).
    destruct (wf_remote s Hwf _ _ _ Hc) as (sh2 & Hl2 & ? & Hmt & ?). simplify_eq.
    pose proof (wf_types s Hwf _ _ _ _ _ Hc Hl1 Hl) as Hty.
    exists sh1. split_and!; auto; congruence.
  - exfalso. destruct Hir; congruence.
Qed.

(** The relation is symmetric, and [call_leg_other] finds the leg it names. *)
Lemma other_leg_sym s l sh l' sh' : other_leg s l sh l' -> sk_legs s !! l = Some sh ->
  sk_legs s !! l' = Some sh' -> other_leg s l' sh' l.
Proof.
  intros (sh1 & Hl1 & Hne & Hc & He & He' & Ht & Hor) Hl Hl'. simplify_eq.
  exists sh. rewrite Hc. split_and!; auto. destruct Hor as [(?&?&?)|(?&?&?)]; auto.
Qed.

Lemma call_leg_other_Some s cn w l sh l' : st s cn w -> sk_legs s !! l = Some sh ->
  other_leg s l sh l' ->
  wp (call_leg_other l) (fun o w' => st s cn w' /\ w' = w /\ o = Some l') w.
Proof.
  intros Hst Hl (sh' & Hl' & Hne & _ & _ & _ & _ & Hor).
  unfold call_leg_other. wp_seq x w1 (_ & -> & Hx & Hsh).
  assert (lg_call (base x) = sh_call sh) as -> by by rewrite <- Hsh.
  destruct Hor as [(_ & _ & Hc)|(_ & _ & Hc)]; wp_seq cl w2 (_ & -> & _ & -> & ->).
  - by rewrite decide_True.
  - rewrite decide_False by congruence. by rewrite decide_True.
Qed.

(** The two legs of a call name each other; a leg of a call with one leg has
    no other. *)
Lemma other_leg_pair s c i r : wfsk s -> sk_calls s !! c = Some (Some i, Some r) ->
  exists shi shr, sk_legs s !! i = Some shi /\ sk_legs s !! r = Some shr /\
    other_leg s i shi r /\ other_leg s r shr i.
Proof.
  intros Hwf Hc. destruct (wf_initial s Hwf _ _ _ Hc) as (sh1 & Hl1 & <- & Hmo & Hest).
  destruct (wf_remote s Hwf _ _ _ Hc) as (sh2 & Hl2 & Hc2 & Hmt & Hest2).
  pose proof (wf_types s Hwf _ _ _ _ _ Hc Hl1 Hl2) as Hty.
  assert (i <> r) by congruence.
  assert (other_leg s i sh1 r) as Ho.
  { exists sh2. split_and!; auto; congruence. }
  exists sh1, sh2. split_and!; auto. by eapply other_leg_sym.
Qed.

Lemma call_leg_other_initial w l x cl : legs w !! l = Some x ->
  calls w !! lg_call (base x) = Some cl -> initial cl = Some l -> call_leg_other l w = Ret (remote cl) w.
Proof.
  intros Hl Hc Hi. unfold call_leg_other. run_step (deref_leg_eq w l x Hl).
  run_step (deref_call_eq w _ _ Hc). by rewrite decide_True.
Qed.

Lemma call_leg_other_remote w l x cl : legs w !! l = Some x ->
  calls w !! lg_call (base x) = Some cl -> initial cl <> Some l -> remote cl = Some l ->
  call_leg_other l w = Ret (initial cl) w.
Proof.
  intros Hl Hc Hi Hr. unfold call_leg_other. run_step (deref_leg_eq w l x Hl).
  run_step (deref_call_eq w _ _ Hc). rewrite decide_False by done. by rewrite decide_True.
Qed.

(** Release of a leg whose call keeps another one. *)
Definition unlinked (l : ptr) (cl : call) : call :=
  if decide (initial cl = Some l) then set_initial None cl else set_remote None cl.

Lemma call_leg_release_kept w l x cl l' : legs w !! l = Some x -> calls w !! lg_call (base x) = Some cl ->
  initial cl = Some l /\ remote cl = Some l' \/ initial cl = Some l' /\ remote cl = Some l -> l <> l' ->
  call_leg_release l w
  = Ret tt (set_legs (delete l) (set_calls (<[lg_call (base x) := unlinked l cl]>) w)).
Proof.
  intros Hl Hc Hor Hne. unfold call_leg_release, unlinked. run_step (deref_leg_eq w l x Hl). cbv zeta.
  run_step (deref_call_eq w _ _ Hc).
  assert (forall cl', initial cl' <> None \/ remote cl' <> None ->
    (upd_call (lg_call (base x)) (fun _ => cl') ;; free_leg l ;; cl2 <- deref_call (lg_call (base x)) ;;
     match initial cl2, remote cl2 with
     | None, None => modify (set_g_call_list (filter (fun c' => c' <> lg_call (base x)))) ;; free_call (lg_call (base x))
     | _, _ => ret tt
     end) w = Ret tt (set_legs (delete l) (set_calls (<[lg_call (base x) := cl']>) w))) as Hrun.
  { intros cl' Hn. run_step (upd_call_run w (lg_call (base x)) (fun _ => cl') cl Hc). set (w1 := set_calls _ w).
    unfold free_leg. rewrite bind_assoc. run_step (deref_leg_eq w1 l x Hl). unfold modify at 1. unfold bind at 1.
    set (w2 := set_legs _ w1). assert (calls w2 !! lg_call (base x) = Some cl') as Hc2 by apply lookup_insert_eq.
    run_step (deref_call_eq w2 _ _ Hc2). destruct (initial cl'), (remote cl'); try done. by destruct Hn. }
  destruct Hor as [[Hi Hr]|[Hi Hr]].
  - rewrite !decide_True by done. rewrite <- (Hrun (set_initial None cl)) by (simpl; rewrite Hr; auto).
    run_step (upd_call_run w _ (set_initial None) cl Hc). by run_step (upd_call_run w _ (fun _ => set_initial None cl) cl Hc).
  - rewrite decide_False by congruence. rewrite decide_True by done. rewrite decide_False by congruence.
    rewrite <- (Hrun (set_remote None cl)) by (simpl; rewrite Hi; auto).
    run_step (upd_call_run w _ (set_remote None) cl Hc). by run_step (upd_call_run w _ (fun _ => set_remote None cl) cl Hc).
Qed.

(** ** Received SDP *)
Section rx_sdp.
Context {E : Env}.

Lemma rx_sdp_update_shape o b :
  lg_type (rx_sdp_update o b) = lg_type b /\ lg_call (rx_sdp_update o b) = lg_call b
  /\ ops (rx_sdp_update o b) = ops b.
Proof. unfold rx_sdp_update. destruct o as [t|]; [|done]. by destruct (_ || _). Qed.

Lemma call_leg_rx_sdp_st s cn w l sh o : st s cn w -> sk_legs s !! l = Some sh ->
  wp (call_leg_rx_sdp l o) (fun _ w' => st s cn w') w.
Proof. intros Hst Hl. eapply upd_base_st; eauto. apply rx_sdp_update_shape. Qed.
End rx_sdp.

(** ** Creation of a call *)
Section create.
Context {E : Env} (s : skel) (cn : mncc_connection) (w : world).
Context (Hwf : wfsk s) (Hst : st s cn w).

(** A call without legs that is freed again leaves the store as it was. *)
Lemma create_undone_legs : filter (fun kv => lg_call (base kv.2) <> next_ptr w) (legs w) = legs w.
Proof.
  apply map_filter_id. intros l x Hx. simpl. intros Heq.
  assert (sk_legs s !! l = Some (shape x)) as Hl.
  { rewrite <- (st_sk _ _ _ Hst). simpl. by rewrite lookup_fmap, Hx. }
  destruct (wf_leg s Hwf _ _ Hl) as (_ & _ & i & r & Hc & _).
  pose proof (wf_next_calls s Hwf _ ltac:(eauto)) as Hlt.
  simpl in Hlt. rewrite Heq, (st_next Hst) in Hlt. lia.
Qed.

Lemma create_fresh_call : calls w !! next_ptr w = None.
Proof.
  pose proof (wf_fresh_call s (sk_next s) Hwf ltac:(lia)) as Hc.
  rewrite <- (st_sk _ _ _ Hst) in Hc. simpl in Hc. rewrite lookup_fmap in Hc.
  by destruct (calls w !! next_ptr w).
Qed.

(** On success the call is new, at the head of the list, and its initial leg is
    as allocated; on failure only the allocation pointer moved. *)
Lemma call_create_st t x :
  wp (call_create t x)
     (fun o w' =>
        match o with
        | None => alloc_ok (n_io w) && alloc_ok (S (n_io w)) = false /\
            exists n, (sk_next s <= n)%positive /\
            st (Skel (sk_calls s) (sk_legs s) (sk_list s) (sk_nua s) n) cn w'
        | Some c =>
            c = sk_next s /\ timers w' = timers w /\
            st (sk_new (LShape t c leg_ops0 (ext_shape_of x)) s) cn w' /\
            legs w' = <[Pos.succ c := Leg (call_leg_new t c) x]> (legs w)
        end) w.
Proof using Hwf Hst.
  pose proof create_undone_legs as Hundo. pose proof create_fresh_call as Hfresh.
  pose proof (wf_fresh_leg s (Pos.succ (sk_next s)) Hwf ltac:(lia)) as Hfl.
  pose proof (st_next Hst) as Hn.
  unfold call_create, talloc_call, talloc_leg, tick, upd_call, free_call, deref_call,
    wp, bind, gets, modify, some_or, ret, crash.
  simpl. destruct (alloc_ok (n_io w)); simpl.
  2: { split; [done|]. exists (sk_next s). split; [lia|]. destruct s. apply (st_set_n_io Hst). }
  rewrite lookup_insert_eq. simpl. destruct (alloc_ok (S (n_io w))); simpl.
  - rewrite lookup_insert_eq. simpl. split_and!; [done|done| |by rewrite Hn].
    split; [|apply Hst|].
    + rewrite <- (st_sk _ _ _ Hst). unfold sk, sk_new. simpl.
      rewrite !fmap_insert, !insert_insert_eq. done.
    + intros l Hl. destruct (st_timers _ _ _ Hst l Hl) as (sh & Hsh & ?). exists sh. simpl.
      rewrite lookup_insert_ne by congruence. done.
  - rewrite lookup_insert_eq. simpl. split; [done|]. exists (Pos.succ (sk_next s)). split; [lia|].
    split; [|apply Hst|apply Hst]. unfold sk. simpl.
    rewrite !insert_insert_eq, delete_insert_eq, delete_id, Hundo by done.
    rewrite <- (st_sk _ _ _ Hst). done.
Qed.
End create.

(** ** What the operations of call.c do *)
Lemma call_leg_release_keeps {F} (f : world -> F) l :
  (forall g w, f (set_calls g w) = f w) -> (forall g w, f (set_legs g w) = f w) ->
  (forall g w, f (set_g_call_list g w) = f w) -> keeps f (call_leg_release l).
Proof.
  intros H1 H2 H3. unfold call_leg_release, upd_call, free_leg, free_call, deref_leg, deref_call. cbv zeta.
  repeat first [progress keeps | apply keeps_modify; auto].
Qed.

Lemma call_create_keeps {E : Env} {F} (f : world -> F) t x :
  (forall g w, f (set_calls g w) = f w) -> (forall g w, f (set_legs g w) = f w) ->
  (forall g w, f (set_g_call_list g w) = f w) -> (forall g w, f (set_last_call_id g w) = f w) ->
  (forall g w, f (set_n_io g w) = f w) -> (forall g w, f (set_next_ptr g w) = f w) ->
  keeps f (call_create t x).
Proof.
  intros H1 H2 H3 H4 H5 H6.
  unfold call_create, talloc_call, talloc_leg, tick, upd_call, free_call, deref_call.
  repeat first [progress keeps | apply keeps_modify; auto].
Qed.

#[export] Hint Extern 0 (keeps _ (call_leg_release _)) => (by apply call_leg_release_keeps) : keepsdb.

Section spec.
Context {E : Env}.

(** The SDP buffer of a leg takes the first 1023 bytes of a text that is not
    empty, never more; the changed mark is set when the text is new and is never
    cleared here; nothing else of the leg changes. *)
Lemma call_leg_rx_sdp_spec {HE : EnvLaws E} w l x t : legs w !! l = Some x ->
  (String.length (rx_sdp (base x)) <= 1023)%nat ->
  exists b', call_leg_rx_sdp l (Some t) w = Ret tt (set_legs (<[l := Leg b' (ext x)]>) w)
    /\ rx_sdp b' = (if String.eqb t EmptyString then rx_sdp (base x) else str_take 1023 t)
    /\ rx_sdp_changed b' = rx_sdp_changed (base x)
         || negb (String.eqb t EmptyString) && negb (String.eqb t (rx_sdp (base x)))
    /\ b' = set_rx_sdp (rx_sdp b') (rx_sdp_changed b') (base x)
    /\ (String.length (rx_sdp b') <= 1023)%nat.
Proof using.
  intros Hl Hlen. exists (rx_sdp_update (Some t) (base x)). split.
  { unfold call_leg_rx_sdp, upd_base, upd_leg, deref_leg, bind, gets, modify, some_or, ret. simpl. by rewrite Hl. }
  unfold rx_sdp_update. destruct (String.eqb_spec t EmptyString) as [->|Hne]; simpl.
  { rewrite orb_false_r. split_and!; [done|done| |done]. by destruct (base x). }
  destruct (strncmp_eq 1024 (rx_sdp (base x)) t) eqn:Hcmp.
  - apply strncmp_eq_short in Hcmp; [|lia]. rewrite <- Hcmp, String.eqb_refl, orb_false_r, str_take_small by done.
    split_and!; [done|done| |done]. by destruct (base x).
  - assert (t <> rx_sdp (base x)) as Hd.
    { intros ->. apply not_true_iff_false in Hcmp. apply Hcmp, strncmp_eq_short; [lia|done]. }
    apply String.eqb_neq in Hd. rewrite Hd, orb_true_r. simpl. rewrite osmo_strlcpy_spec.
    split_and!; [done|done|done|]. apply str_take_length.
Qed.

Lemma call_create_run w t x : wf w ->
  exists o w', (call_create t x w = Ret o w') /\
    match o with
    | Some c => exists l,
        calls w !! c = None /\ legs w !! l = None /\ (c ∉ g_call_list w) /\
        calls w' = <[c := Call (u32 (last_call_id w + 1)) (Some l) None None None [] false]> (calls w) /\
        legs w' = <[l := Leg (call_leg_new t c) x]> (legs w) /\
        g_call_list w' = c :: g_call_list w
    | None => alloc_ok (n_io w) && alloc_ok (S (n_io w)) = false /\
        calls w' = calls w /\ legs w' = legs w /\ g_call_list w' = g_call_list w
    end.
Proof using.
  intros Hw. pose proof (wf_st w Hw) as Hst. destruct Hw as [Hwf _ _].
  pose proof (create_undone_legs (sk w) (conn w) w Hwf Hst) as Hundo.
  pose proof (create_fresh_call (sk w) (conn w) w Hwf Hst) as Hfresh.
  pose proof (st_leg_None Hst _ (wf_fresh_leg (sk w) (Pos.succ (next_ptr w)) Hwf ltac:(simpl; lia))) as Hfl.
  assert (next_ptr w ∉ g_call_list w) as Hnl.
  { intros Hin. apply (wf_list _ Hwf) in Hin as [y Hy]. simpl in Hy. by rewrite lookup_fmap, Hfresh in Hy. }
  unfold call_create, talloc_call, talloc_leg, tick, upd_call, free_call, deref_call,
    bind, gets, modify, some_or, ret, crash.
  simpl. destruct (alloc_ok (n_io w)); simpl; [|by eexists None, _].
  rewrite lookup_insert_eq. simpl. destruct (alloc_ok (S (n_io w))); simpl.
  - rewrite lookup_insert_eq. simpl. eexists (Some _), _. split; [reflexivity|]. exists (Pos.succ (next_ptr w)).
    simpl. by rewrite !insert_insert_eq.
  - rewrite lookup_insert_eq. simpl. eexists None, _. split; [reflexivity|]. simpl.
    by rewrite !insert_insert_eq, delete_insert_eq, delete_id, Hundo by done.
Qed.

(** A new call gets the next 32-bit id, one initial leg of the requested type
    that no store object had before, and the head of the call list; when either
    allocation fails no object and no list entry is left behind. *)
Lemma call_create_spec w t x : wf w ->
  exists o w', (call_create t x w = Ret o w') /\
    match o with
    | Some c => exists l,
        calls w !! c = None /\ legs w !! l = None /\ (c ∉ g_call_list w) /\
        calls w' = <[c := Call (u32 (last_call_id w + 1)) (Some l) None None None [] false]> (calls w) /\
        legs w' = <[l := Leg (call_leg_new t c) x]> (legs w) /\
        g_call_list w' = c :: g_call_list w
    | None => alloc_ok (n_io w) && alloc_ok (S (n_io w)) = false /\
        calls w' = calls w /\ legs w' = legs w /\ g_call_list w' = g_call_list w
    end.
Proof using. apply call_create_run. Qed.

(** Releasing a leg removes it and its link; the call and its list entry go
    exactly when it was the last leg; no other leg and no other call changes. *)
Lemma call_leg_release_spec w l x : wf w -> legs w !! l = Some x -> l ∉ timers w ->
  (forall h, nua w !! h <> Some l) ->
  exists cl w', calls w !! lg_call (base x) = Some cl /\ call_leg_release l w = Ret tt w' /\
    sk w' = sk_release l (sk w) /\
    sk_legs (sk w') = delete l (sk_legs (sk w)) /\
    (lg_call (base x) ∈ g_call_list w' <->
       exists l', l' <> l /\ (initial cl = Some l' \/ remote cl = Some l')) /\
    (forall c, c <> lg_call (base x) -> sk_calls (sk w') !! c = sk_calls (sk w) !! c) /\
    out w' = out w.
Proof using.
  intros Hw Hx Ht Hn. pose proof (wf_st w Hw) as Hst. destruct Hw as [Hwf _ _].
  assert (sk_legs (sk w) !! l = Some (shape x)) as Hl by (simpl; by rewrite lookup_fmap, Hx).
  assert (sk_unbind l (sk w) = sk w) as Hub.
  { unfold sk_unbind. destruct (sk w) as [a b c d e] eqn:Hs. simpl. f_equal. apply map_filter_id.
    intros h l' Hh. simpl. intros ->. apply (Hn h). by injection Hs as ? ? ? <- ?. }
  rewrite <- Hub in Hst. pose proof (call_leg_release_st (sk w) (conn w) l (shape x) Hwf Hl w Hst Ht) as H.
  apply (wp_keeps out) in H.
  2: by apply call_leg_release_keeps.
  apply wp_returns in H as ([] & w' & Heq & [Hst' _] & Hout).
  destruct (wf_leg _ Hwf l (shape x) Hl) as (_ & _ & i & r & Hc & Hir).
  pose proof Hc as Hc'. simpl in Hc'. apply fmap_lookup_inv in Hc' as (cl & Hcl & [= -> ->]).
  exists cl, w'. rewrite (st_sk _ _ _ Hst'). split_and!; try done.
  - by apply (sk_release_legs (sk w) l (shape x)).
  - change (g_call_list w') with (sk_list (sk w')). rewrite (st_sk _ _ _ Hst').
    pose proof (sk_release_wf _ l _ Hwf Hl) as Hwf'. rewrite (wf_list _ Hwf').
    assert (forall o l', unlink l o = Some l' <-> o = Some l' /\ l' <> l) as Hu.
    { intros o l'. split; [apply unlink_Some|]. intros []. by apply unlink_ne. }
    change (lg_call (base x)) with (sh_call (shape x)). split.
    + intros [[i' r'] Hc2]. destruct (sk_release_call _ l _ Hwf Hl _ _ _ Hc2) as (i0 & r0 & Hc0 & -> & -> & Hor).
      rewrite Hc in Hc0. injection Hc0 as <- <-.
      destruct Hor as [Hi|[Hr|Hne]]; [| |done].
      * destruct (unlink l (initial cl)) as [l'|] eqn:Hu'; [|done]. apply Hu in Hu' as []. eauto.
      * destruct (unlink l (remote cl)) as [l'|] eqn:Hu'; [|done]. apply Hu in Hu' as []. eauto.
    + intros (l' & Hne & Hor). rewrite (sk_release_call_kept _ l _ Hwf Hl _ _ _ Hc); [eauto|].
      destruct Hor as [Hor|Hor]; [left|right]; rewrite (unlink_ne l _ l' Hor Hne); done.
  - intros c Hc2. by apply (sk_release_other_call _ l _ Hwf Hl).
Qed.
End spec.
