(* ===== verification/Sdp.v ===== *)
(** * SDP handling (src/sdp.c) and the codec names of src/app.c

    Parsing and printing are sofia-sip's; the decisions taken on the parsed
    session, and the session text composed when the other leg sent none, are
    the program's. *)
From S2P Require Import Prelude Effect Codec Protocol Lib State Skel Rules Call.

(** ** Definitions *)
Definition app_media_name (ptmsg : Z) : string :=
  if ptmsg =? GSM_TCHF_FRAME then "GSM"
  else if ptmsg =? GSM_TCHF_FRAME_EFR then "GSM-EFR"
  else if ptmsg =? GSM_TCHH_FRAME then "GSM-HR-08"
  else if ptmsg =? GSM_TCH_FRAME_AMR then "AMR"
  else "unknown".

Section sdp.
Context {E : Env}.

Definition sip_get_sdp (sip : option sip_t) : option string :=
  match sip with Some m => sip_payload m | None => None end.

(** The session of a payload, when sofia-sip returns a parser and a session. *)
Definition sdp_session_of (fl : sdp_flags) (data : string) : option sdp_session :=
  match sdp_parse fl data with
  | Some (Some s) => Some s
  | _ => None
  end.

(** [Some mode] when the function returns true and stores [mode]. *)
Definition sdp_get_sdp_mode (sip : sip_t) : option sdp_mode :=
  match sip_payload sip with
  | None => None
  | Some data =>
      match sdp_session_of sdp_f_mode_0000 data with
      | None => None
      | Some s =>
          match s_media s with
          | [] => None
          | m :: _ => if sdp_mode_val (m_mode m) =? 0 then None else Some (m_mode m)
          end
      end
  end.

(** The media lines that the loops do not skip. *)
Definition rtp_audio (m : sdp_media) : bool :=
  match m_proto m, m_type m with
  | sdp_proto_rtp, sdp_media_audio => true
  | _, _ => false
  end.

Definition supported_codec (enc : string) : bool :=
  strcasecmp_eq enc "GSM" || strcasecmp_eq enc "GSM-EFR"
  || strcasecmp_eq enc "GSM-HR-08" || strcasecmp_eq enc "AMR".

(** The two nested loops of [sdp_screen_sdp]. *)
Fixpoint screen_media (ms : list sdp_media) : bool :=
  match ms with
  | [] => false
  | m :: ms' =>
      if rtp_audio m && existsb (fun r => supported_codec (rm_encoding r)) (m_rtpmaps m)
      then true else screen_media ms'
  end.

Definition sdp_screen_sdp (sip : sip_t) : bool :=
  match sip_payload sip with
  | None => false
  | Some data =>
      match sdp_session_of sdp_f_none data with
      | None => false
      | Some s => screen_media (s_media s)
      end
  end.

(** The connection loop of [sdp_extract_sdp]: [addr] is updated in place. *)
Fixpoint extract_conn (cs : list sdp_connection) (a : sockaddr) : sockaddr * bool :=
  match cs with
  | [] => (a, false)
  | c :: cs' =>
      match c_addrtype c with
      | sdp_addr_ip4 =>
          match inet_pton AF_INET (c_address c) with
          | Some b => (Sockaddr AF_INET (sin_port a) b (sin6_addr a) (ss_rest a), true)
          | None => extract_conn cs' a
          end
      | sdp_addr_ip6 =>
          match inet_pton AF_INET6 (c_address c) with
          | Some b => (Sockaddr AF_INET6 (sin_port a) (sin_addr a) b (ss_rest a), true)
          | None => extract_conn cs' a
          end
      | sdp_addr_other _ => extract_conn cs' a
      end
  end.

(** An rtpmap the inner loop accepts. *)
Definition accept_map (any_codec : bool) (wanted : option string) (r : sdp_rtpmap) : bool :=
  match any_codec, wanted with
  | false, Some w => strcasecmp_eq (rm_encoding r) w
  | _, _ => true
  end.

(** The media loop: the port (a [uint16_t]) and payload type of the first
    acceptable rtpmap of an RTP audio line. *)
Fixpoint extract_media (any_codec : bool) (wanted : option string) (ms : list sdp_media)
  : option (Z * Z) :=
  match ms with
  | [] => None
  | m :: ms' =>
      if rtp_audio m then
        match List.find (accept_map any_codec wanted) (m_rtpmaps m) with
        | Some r => Some (u16 (m_port m), rm_pt r)
        | None => extract_media any_codec wanted ms'
        end
      else extract_media any_codec wanted ms'
  end.

Definition set_port (p : Z) (a : sockaddr) : sockaddr :=
  Sockaddr (ss_family a) p (sin_addr a) (sin6_addr a) (ss_rest a).

Definition sdp_extract_sdp (l : ptr) (sip : sip_t) (any_codec : bool) : MW bool :=
  s <- as_sip l ;;
  match sip_payload sip with
  | None => ret false
  | Some data =>
      match sdp_session_of sdp_f_none data with
      | None => ret false
      | Some sess =>
          x <- deref_leg l ;;
          let '(a, found_conn) := extract_conn (s_connection sess) (addr (base x)) in
          upd_base l (set_addr a) ;;
          match extract_media any_codec (s_wanted_codec s) (s_media sess) with
          | None => ret false
          | Some (port, pt) =>
              upd_base l (set_payload_type pt) ;;
              if negb found_conn then ret false
              else
                assert ((ss_family a =? AF_INET) || (ss_family a =? AF_INET6)) ;;
                upd_base l (set_addr (set_port port a)) ;;
                ret true
          end
      end
  end.

Definition mode_attribute (m : sdp_mode) : string :=
  match m with
  | sdp_inactive => "a=inactive"
  | sdp_sendrecv => "a=sendrecv"
  | sdp_sendonly => "a=sendonly"
  | sdp_recvonly => "a=recvonly"
  end +:+ str_crlf.

(** The text composed from the RTP fields of [other]. *)
Definition legacy_sdp (other : call_leg) (codec : string) (mode : sdp_mode) : string :=
  let ip := osmo_sockaddr_ntop (addr other) in
  let ipv := if ss_family (addr other) =? AF_INET6 then "6"%string else "4"%string in
  let fmtp := if String.eqb codec "AMR"
              then "a=fmtp:" +:+ fmt_d (payload_type other) +:+ " octet-align=1" +:+ str_crlf
              else ""%string in
  "v=0" +:+ str_crlf
  +:+ "o=Osmocom 0 0 IN IP" +:+ ipv +:+ " " +:+ ip +:+ str_crlf
  +:+ "s=GSM Call" +:+ str_crlf
  +:+ "c=IN IP" +:+ ipv +:+ " " +:+ ip +:+ str_crlf
  +:+ "t=0 0" +:+ str_crlf
  +:+ "m=audio " +:+ fmt_d (osmo_sockaddr_port (addr other))
  +:+ " RTP/AVP " +:+ fmt_d (payload_type other) +:+ str_crlf
  +:+ fmtp
  +:+ "a=rtpmap:" +:+ fmt_d (payload_type other) +:+ " " +:+ codec +:+ "/8000" +:+ str_crlf
  +:+ mode_attribute mode.

Definition set_mode (mode : sdp_mode) (m : sdp_media) : sdp_media :=
  Media (m_proto m) (m_type m) (m_port m) mode (m_rtpmaps m) (m_rest m).

(** The text forwarded when [other] received SDP. *)
Definition forward_sdp (data : string) (mode : sdp_mode) : string :=
  match sdp_session_of sdp_f_none data with
  | None => data
  | Some s =>
      match sdp_print (Session (s_connection s) (map (set_mode mode) (s_media s)) (s_rest s)) with
      | Some (Some t) => t
      | _ => data
      end
  end.

Definition sdp_create_file (l other : ptr) (mode : sdp_mode) : MW string :=
  o <- deref_leg other ;;
  let data := rx_sdp (base o) in
  if String.eqb data EmptyString then
    let codec := app_media_name (int32 (payload_msg_type (base o))) in
    upd_sip l (set_s_wanted_codec (Some codec)) ;;
    ret (legacy_sdp (base o) codec mode)
  else
    _ <- deref_leg l ;;       (* the talloc context of the copy *)
    ret (forward_sdp data mode).
End sdp.

(** ** The resource view is unchanged *)
Section sdp_st.
Context {E : Env}.

(** The connection loop succeeds only with a family it has set. *)
Lemma extract_conn_family cs a a' : extract_conn cs a = (a', true) ->
  ss_family a' = AF_INET \/ ss_family a' = AF_INET6.
Proof.
  revert a. induction cs as [|c cs IH]; intros a; simpl; [done|].
  destruct (c_addrtype c); [destruct (inet_pton AF_INET _) | destruct (inet_pton AF_INET6 _) | ];
    try apply IH; intros [= <-]; simpl; auto.
Qed.

Lemma sdp_extract_sdp_st s cn w l sh d h sip any : st s cn w -> sk_legs s !! l = Some sh ->
  sh_ext sh = ShSip d h ->
  wp (sdp_extract_sdp l sip any) (fun _ w' => st s cn w') w.
Proof.
  intros Hst Hl He. unfold sdp_extract_sdp. wp_seq m w1 (Hst1 & _).
  destruct (sip_payload sip) as [data|]; [|done].
  destruct (sdp_session_of sdp_f_none data) as [sess|]; [|done].
  wp_seq x w2 (Hst2 & _). destruct (extract_conn _ _) as [a found] eqn:Hconn.
  wp_seq u w3 Hst3. destruct (extract_media _ _ _) as [[port pt]|]; [|done].
  wp_seq u4 w4 Hst4. destruct found; simpl; [|done].
  apply wp_bind, wp_assert.
  { apply extract_conn_family in Hconn as [-> | ->]; done. }
  wp_seq u5 w5 Hst5. done.
Qed.

Lemma sdp_create_file_st s cn w l other sh sh' d h mode : st s cn w ->
  sk_legs s !! l = Some sh -> sh_ext sh = ShSip d h -> sk_legs s !! other = Some sh' ->
  wp (sdp_create_file l other mode) (fun _ w' => st s cn w') w.
Proof.
  intros Hst Hl He Ho. unfold sdp_create_file. wp_seq o w1 (Hst1 & _).
  destruct (String.eqb _ _).
  - wp_seq u w2 Hst2. done.
  - wp_seq u w2 (Hst2 & _). done.
Qed.
End sdp_st.
#[export] Hint Resolve sdp_extract_sdp_st sdp_create_file_st call_leg_rx_sdp_st : wpdb.

(** ** Reference definitions of the searches, as list comprehensions *)
Section spec.
Context {E : Env}.

(** The address of a connection line the program can use. *)
Definition usable_conn (c : sdp_connection) : option (Z * list Z) :=
  match c_addrtype c with
  | sdp_addr_ip4 => (fun b => (AF_INET, b)) <$> inet_pton AF_INET (c_address c)
  | sdp_addr_ip6 => (fun b => (AF_INET6, b)) <$> inet_pton AF_INET6 (c_address c)
  | sdp_addr_other _ => None
  end.
Definition usable_conns (sess : sdp_session) : list (Z * list Z) := omap usable_conn (s_connection sess).

(** Port and payload type of every acceptable rtpmap of every RTP audio line. *)
Definition usable_media (any_codec : bool) (wanted : option string) (sess : sdp_session) : list (Z * Z) :=
  flat_map (fun m => if rtp_audio m
                     then map (fun r => (u16 (m_port m), rm_pt r))
                              (List.filter (accept_map any_codec wanted) (m_rtpmaps m))
                     else []) (s_media sess).

(** An address with the family and bytes of a connection line written into it. *)
Definition write_conn (f : Z * list Z) (a : sockaddr) : sockaddr :=
  if fst f =? AF_INET then Sockaddr AF_INET (sin_port a) (snd f) (sin6_addr a) (ss_rest a)
  else Sockaddr (fst f) (sin_port a) (sin_addr a) (snd f) (ss_rest a).

Lemma extract_conn_usable sess a :
  extract_conn (s_connection sess) a =
    match head (usable_conns sess) with Some f => (write_conn f a, true) | None => (a, false) end.
Proof.
  unfold usable_conns. induction (s_connection sess) as [|c cs IH]; simpl; [done|].
  unfold usable_conn at 1. destruct (c_addrtype c); simpl.
  - destruct (inet_pton AF_INET _); simpl; auto.
  - destruct (inet_pton AF_INET6 _); simpl; auto.
  - auto.
Qed.

Lemma find_filter {A} (f : A -> bool) xs : List.find f xs = head (List.filter f xs).
Proof. induction xs as [|x xs IH]; simpl; [done|]. by destruct (f x). Qed.

Lemma extract_media_usable any_codec wanted sess :
  extract_media any_codec wanted (s_media sess) = head (usable_media any_codec wanted sess).
Proof.
  unfold usable_media. induction (s_media sess) as [|m ms IH]; simpl; [done|].
  destruct (rtp_audio m); [|done]. rewrite find_filter.
  by destruct (List.filter _ (m_rtpmaps m)).
Qed.

(** C32: an INVITE passes the screen exactly when sofia-sip finds in it a session with an
    RTP audio line that offers GSM, GSM-EFR, GSM-HR-08 or AMR, in any case of
    the letters. *)
Theorem sdp_screen_iff sip :
  sdp_screen_sdp sip = true <->
  exists data sess m r, sip_payload sip = Some data /\ sdp_parse sdp_f_none data = Some (Some sess) /\
    In m (s_media sess) /\ m_proto m = sdp_proto_rtp /\ m_type m = sdp_media_audio /\
    In r (m_rtpmaps m) /\
    Exists (fun c => strcasecmp_eq (rm_encoding r) c = true) ["GSM"; "GSM-EFR"; "GSM-HR-08"; "AMR"]%string.
Proof.
  assert (forall e, supported_codec e = true <->
    Exists (fun c => strcasecmp_eq e c = true) ["GSM"; "GSM-EFR"; "GSM-HR-08"; "AMR"]%string) as Hsup.
  { intros e. unfold supported_codec. rewrite !Exists_cons, Exists_nil, !orb_true_iff. tauto. }
  assert (forall ms, screen_media ms = true <-> exists m r, In m ms /\ rtp_audio m = true /\
    In r (m_rtpmaps m) /\ supported_codec (rm_encoding r) = true) as Hms.
  { induction ms as [|m ms IH]; simpl; [split; [done|naive_solver]|].
    destruct (rtp_audio m && existsb _ _) eqn:Hb.
    - split; [|done]. intros _. apply andb_true_iff in Hb as [Ha Hr].
      apply existsb_exists in Hr as (r & ? & ?). eauto 10.
    - rewrite IH. split; [intros (m' & r & ? & ?); eauto 10|].
      intros (m' & r & [->|?] & Ha & Hr & Hc); [|eauto 10].
      rewrite Ha in Hb. apply not_true_iff_false in Hb. destruct Hb. apply existsb_exists. eauto. }
  assert (forall m, rtp_audio m = true <-> m_proto m = sdp_proto_rtp /\ m_type m = sdp_media_audio) as Hra.
  { intros m. unfold rtp_audio. destruct (m_proto m), (m_type m); naive_solver. }
  unfold sdp_screen_sdp, sdp_session_of. split.
  - destruct (sip_payload sip) as [data|]; [|done]. destruct (sdp_parse _ data) as [[sess|]|] eqn:Hp; [|done..].
    intros (m & r & ? & Ha & ? & ?)%Hms. apply Hra in Ha as []. exists data, sess, m, r. split_and!; auto. by apply Hsup.
  - intros (data & sess & m & r & -> & -> & ? & ? & ? & ? & ?). apply Hms. exists m, r.
    split_and!; auto; [by apply Hra|by apply Hsup].
Qed.

(** What a failed extraction may leave behind: an address with the port of before, and a
    payload type. *)
Definition media_kept (b b' : call_leg) : Prop :=
  exists a p, b' = set_addr a (set_payload_type p b) /\ sin_port a = sin_port (addr b).

Lemma media_kept_refl b : media_kept b b.
Proof. exists (addr b), (payload_type b). by destruct b. Qed.

Lemma sdp_extract_run w l b x sip any_codec data sess :
  legs w !! l = Some (Leg b (XSip x)) -> sip_payload sip = Some data ->
  sdp_parse sdp_f_none data = Some (Some sess) ->
  exists ok b', sdp_extract_sdp l sip any_codec w = Ret ok (set_legs (<[l := Leg b' (XSip x)]>) w) /\
    match head (usable_conns sess), head (usable_media any_codec (s_wanted_codec x) sess) with
    | Some f, Some (port, pt) => ok = true /\
        b' = set_addr (set_port port (write_conn f (addr b))) (set_payload_type pt b)
    | _, _ => ok = false /\ media_kept b b'
    end.
Proof.
  intros Hl Hp Hs. unfold sdp_extract_sdp, sdp_session_of, as_sip, upd_base, upd_leg, deref_leg, bind, gets, modify,
    some_or, ret. simpl. rewrite Hl. simpl. rewrite Hp, Hs, Hl. simpl.
  rewrite extract_conn_usable, extract_media_usable.
  assert (forall f a, sin_port (write_conn f a) = sin_port a) as Hport.
  { intros f a. unfold write_conn. by destruct (_ =? _). }
  destruct (head (usable_conns sess)) as [f|] eqn:Hf; rewrite Hl; simpl;
    destruct (head (usable_media any_codec _ sess)) as [[port pt]|]; simpl;
    rewrite ?lookup_insert_eq; simpl.
  - assert ((ss_family (write_conn f (addr b)) =? AF_INET) || (ss_family (write_conn f (addr b)) =? AF_INET6) = true) as ->.
    { apply head_Some in Hf as [fs Hf]. assert (f ∈ usable_conns sess) as Hin by (rewrite Hf; left).
      unfold usable_conns in Hin. apply list_elem_of_omap in Hin as (c & _ & Hc). unfold usable_conn in Hc.
      destruct (c_addrtype c); [destruct (inet_pton AF_INET _)|destruct (inet_pton AF_INET6 _)|];
        simpl in Hc; try done; injection Hc as <-; reflexivity. }
    simpl. rewrite lookup_insert_eq. simpl.
    eexists true, _. split; [unfold set_legs; simpl; by rewrite !insert_insert_eq|]. done.
  - eexists false, _. split; [reflexivity|]. split; [done|]. exists (write_conn f (addr b)), (payload_type b). by destruct b.
  - eexists false, _. split; [unfold set_legs; simpl; by rewrite insert_insert_eq|].
    split; [done|]. exists (addr b), pt. by destruct b.
  - eexists false, _. split; [reflexivity|]. split; [done|]. exists (addr b), (payload_type b). by destruct b.
Qed.

(** The session of a message, if sofia-sip finds one. *)
Definition message_session (sip : sip_t) : option sdp_session :=
  data ← sip_payload sip; sdp_session_of sdp_f_none data.

(** What can be taken from a message: an address and a port with a payload type. *)
Definition usable (any_codec : bool) (wanted : option string) (sip : sip_t) : option (Z * list Z * (Z * Z)) :=
  sess ← message_session sip;
  f ← head (usable_conns sess);
  mp ← head (usable_media any_codec wanted sess);
  Some (f, mp).

Lemma sdp_extract_eq w l b x sip any_codec : legs w !! l = Some (Leg b (XSip x)) ->
  exists b', sdp_extract_sdp l sip any_codec w
      = Ret (bool_decide (is_Some (usable any_codec (s_wanted_codec x) sip)))
            (set_legs (<[l := Leg b' (XSip x)]>) w) /\
    match usable any_codec (s_wanted_codec x) sip with
    | Some (f, (port, pt)) => b' = set_addr (set_port port (write_conn f (addr b))) (set_payload_type pt b)
    | None => media_kept b b'
    end.
Proof.
  intros Hl. unfold usable, message_session.
  assert (forall w1 : world, w1 = set_legs <[l:=Leg b (XSip x)]> w <-> w1 = w) as Hid.
  { intros w1. destruct w. unfold set_legs. simpl in *. by rewrite insert_id. }
  destruct (sip_payload sip) as [data|] eqn:Hp; simpl.
  2: { exists b. split; [|apply media_kept_refl]. unfold sdp_extract_sdp. run_step (as_sip_eq w l b x Hl). rewrite Hp.
       unfold ret. f_equal. by apply Hid. }
  unfold sdp_session_of. destruct (sdp_parse sdp_f_none data) as [[sess|]|] eqn:Hs; simpl.
  2, 3: exists b; split; [|apply media_kept_refl]; unfold sdp_extract_sdp, sdp_session_of; run_step (as_sip_eq w l b x Hl);
        rewrite Hp, Hs; unfold ret; f_equal; by apply Hid.
  destruct (sdp_extract_run w l b x sip any_codec data sess Hl Hp Hs) as (ok & b' & Hrun & Hok). exists b'.
  rewrite Hrun. destruct (head (usable_conns sess)) as [f|]; simpl; [|by destruct Hok as [-> ?]].
  destruct (head (usable_media _ _ _)) as [[port pt]|]; simpl; by destruct Hok as [-> ?].
Qed.
(** C31: the RTP address of a leg is taken from the first usable connection line of the
    session in the message, with the port and payload type of the first
    acceptable rtpmap of an RTP audio line, in document order; the function
    succeeds exactly when both exist; when it fails the port of the leg is as before,
    though its address or payload type may have been written; nothing else of the
    store is touched. *)
Theorem sdp_extract_spec w l b x sip any_codec : legs w !! l = Some (Leg b (XSip x)) ->
  exists b', sdp_extract_sdp l sip any_codec w
      = Ret (bool_decide (is_Some (usable any_codec (s_wanted_codec x) sip)))
            (set_legs (<[l := Leg b' (XSip x)]>) w) /\
    match usable any_codec (s_wanted_codec x) sip with
    | Some (f, (port, pt)) => b' = set_addr (set_port port (write_conn f (addr b))) (set_payload_type pt b)
    | None => media_kept b b'
    end.
Proof. apply sdp_extract_eq. Qed.
End spec.
