(* ===== verification/SipLeg.v ===== *)
(** * SIP call legs (src/sip.c): cause mapping and the leg callbacks *)
From S2P Require Import Prelude Effect Codec Protocol Lib State Call Sdp Skel Rules.

(** ** Definitions *)

(** One row of [cause_map]; the phrase is sofia-sip's for the status. *)
Record cause_row := Row { sip_status : Z; gsm48 : gsm48_cause; q850_reason : string }.

Definition cause_map : list cause_row :=
  [ Row 200 GSM48_CC_CAUSE_NORM_CALL_CLEAR "Normal Call Clearing";
    Row 403 GSM48_CC_CAUSE_CALL_REJECTED "Call Rejected";
    Row 401 GSM48_CC_CAUSE_CALL_REJECTED "Call Rejected";
    Row 402 GSM48_CC_CAUSE_CALL_REJECTED "Call Rejected";
    Row 407 GSM48_CC_CAUSE_CALL_REJECTED "Call Rejected";
    Row 603 GSM48_CC_CAUSE_CALL_REJECTED "Call Rejected";
    Row 406 GSM48_CC_CAUSE_CHAN_UNACCEPT "Channel Unacceptable";
    Row 404 GSM48_CC_CAUSE_UNASSIGNED_NR "Unallocated Number";
    Row 485 GSM48_CC_CAUSE_NO_ROUTE "No Route to Destination";
    Row 604 GSM48_CC_CAUSE_NO_ROUTE "No Route to Destination";
    Row 504 GSM48_CC_CAUSE_RECOVERY_TIMER "Recovery on Timer Expiry";
    Row 408 GSM48_CC_CAUSE_RECOVERY_TIMER "Recovery on Timer Expiry";
    Row 410 GSM48_CC_CAUSE_NUMBER_CHANGED "Number Changed";
    Row 416 GSM48_CC_CAUSE_INVAL_TRANS_ID "Invalid Call Reference Value";
    Row 420 GSM48_CC_CAUSE_INTERWORKING "Interworking, Unspecified";
    Row 414 GSM48_CC_CAUSE_INTERWORKING "Interworking, Unspecified";
    Row 413 GSM48_CC_CAUSE_INTERWORKING "Interworking, Unspecified";
    Row 421 GSM48_CC_CAUSE_INTERWORKING "Interworking, Unspecified";
    Row 423 GSM48_CC_CAUSE_INTERWORKING "Interworking, Unspecified";
    Row 505 GSM48_CC_CAUSE_INTERWORKING "Interworking, Unspecified";
    Row 513 GSM48_CC_CAUSE_INTERWORKING "Interworking, Unspecified";
    Row 480 GSM48_CC_CAUSE_USER_NOTRESPOND "No User Responding";
    Row 503 GSM48_CC_CAUSE_RESOURCE_UNAVAIL "Resource Unavailable, Unspecified";
    Row 503 GSM48_CC_CAUSE_TEMP_FAILURE "Temporary Failure";
    Row 503 GSM48_CC_CAUSE_SWITCH_CONG "Switching Equipment Congestion";
    Row 400 GSM48_CC_CAUSE_TEMP_FAILURE "Temporary Failure";
    Row 481 GSM48_CC_CAUSE_TEMP_FAILURE "Temporary Failure";
    Row 500 GSM48_CC_CAUSE_TEMP_FAILURE "Temporary Failure";
    Row 486 GSM48_CC_CAUSE_USER_BUSY "User Busy";
    Row 600 GSM48_CC_CAUSE_USER_BUSY "User Busy";
    Row 484 GSM48_CC_CAUSE_INV_NR_FORMAT "Invalid Number Format (addr incomplete)";
    Row 488 GSM48_CC_CAUSE_INCOMPAT_DEST "Incompatible Destination";
    Row 606 GSM48_CC_CAUSE_INCOMPAT_DEST "Incompatible Destination";
    Row 502 GSM48_CC_CAUSE_DEST_OOO "Destination Out of Order";
    Row 503 GSM48_CC_CAUSE_NETWORK_OOO "Network Out of Order";
    Row 405 GSM48_CC_CAUSE_SERV_OPT_UNAVAIL "Service or Option Not Implemented";
    Row 501 GSM48_CC_CAUSE_SERV_OPT_UNIMPL "Service or Option Not Implemented";
    Row 415 GSM48_CC_CAUSE_SERV_OPT_UNIMPL "Service or Option Not Implemented";
    Row 406 GSM48_CC_CAUSE_SERV_OPT_UNIMPL "Service or Option Not Implemented";
    Row 482 GSM48_CC_CAUSE_PRE_EMPTION "Exchange Routing Error";
    Row 483 GSM48_CC_CAUSE_PRE_EMPTION "Exchange Routing Error";
    Row 503 GSM48_CC_CAUSE_BEARER_CA_UNAVAIL "Bearer Capability Not Available";
    Row 480 GSM48_CC_CAUSE_NORMAL_UNSPEC "Normal, Unspecified" ]%string.

(** [cause_map[i]]; the index is within the table wherever it is used. *)
Definition cause_row_at (i : nat) : cause_row :=
  nth i cause_map (Row 0 GSM48_CC_CAUSE_NORMAL_UNSPEC EmptyString).

(** [for (i = 0; i < ARRAY_SIZE(cause_map) - 1; i++)] with an early exit: the
    index at which the loop stops, and whether the test held there.  The index
    is a [uint8_t]; the table has fewer than 256 rows. *)
Fixpoint cause_loop (test : cause_row -> bool) (fuel i : nat) : nat * bool :=
  match fuel with
  | O => (i, false)
  | S fuel' =>
      if (i <? length cause_map - 1)%nat
      then if test (cause_row_at i) then (i, true) else cause_loop test fuel' (S i)
      else (i, false)
  end.

Section sip_leg.
Context {E : Env}.

Definition status2cause (status : Z) : Z :=
  match cause_loop (fun r => sip_status r =? status) (length cause_map) 0 with
  | (i, true) => cause_value (gsm48 (cause_row_at i))
  | (_, false) => cause_value GSM48_CC_CAUSE_NORMAL_UNSPEC
  end.

(** The status and the Q.850 reason text; the phrase follows from the status.
    Without a match the row at the final index is used. *)
Definition cause2status (c : Z) : Z * string :=
  let '(i, _) := cause_loop (fun r => cause_value (gsm48 r) =? c) (length cause_map) 0 in
  (sip_status (cause_row_at i), q850_reason (cause_row_at i)).

(** [snprintf (reason, sizeof reason, ...)] into 64 bytes. *)
Definition reason_header (c : Z) (text : string) : string :=
  str_take 63 ("Q.850;cause=" +:+ fmt_u c +:+ ";text=" +:+ str_quote +:+ text +:+ str_quote).

(** [OSMO_ASSERT (_leg->type == t)] *)
Definition assert_type (l : ptr) (t : call_type) : MW unit :=
  x <- deref_leg l ;; assert (bool_decide (lg_type (base x) = t)).

Definition sip_release_call (l : ptr) : MW unit :=
  assert_type l CALL_TYPE_SIP ;;
  x <- deref_leg l ;;
  s <- as_sip l ;;
  let '(sip_cause, reason_text) := cause2status (cause (base x)) in
  let reason := reason_header (cause (base x)) reason_text in
  match s_state s with
  | SIP_CC_INITIAL =>
      nua_handle_destroy (s_handle s) ;;
      call_leg_release l
  | SIP_CC_DLG_CNFD =>
      if decide (s_dir s = SIP_DIR_MT) then emit (NuaCancel (s_handle s))
      else
        emit (NuaRespond (s_handle s) sip_cause (sip_phrase sip_cause) (Some reason) None) ;;
        nua_handle_destroy (s_handle s) ;;
        call_leg_release l
  | SIP_CC_CONNECTED | SIP_CC_HOLD => emit (NuaBye (s_handle s))
  end.

Definition sip_ring_call (l : ptr) : MW unit :=
  assert_type l CALL_TYPE_SIP ;;
  s <- as_sip l ;;
  emit (NuaRespond (s_handle s) 180 (sip_phrase 180) None None).

Definition sip_connect_call (l : ptr) : MW unit :=
  assert_type l CALL_TYPE_SIP ;;
  o <- call_leg_other l ;;
  match o with
  | None => sip_release_call l
  | Some other =>
      sdp <- sdp_create_file l other sdp_sendrecv ;;
      upd_sip l (set_s_state SIP_CC_CONNECTED) ;;
      s <- as_sip l ;;
      emit (NuaRespond (s_handle s) 200 (sip_phrase 200) None (Some sdp))
  end.

Definition sip_dtmf_call (l : ptr) (keypad : Z) : MW unit :=
  assert_type l CALL_TYPE_SIP ;;
  s <- as_sip l ;;
  emit (NuaInfo (s_handle s)
          ("Signal=" +:+ fmt_c keypad +:+ str_nl +:+ "Duration=160" +:+ str_nl)).

(** The common text of [sip_hold_call] and [sip_retrieve_call]: a re-INVITE
    with the media mode, then the new state. *)
Definition sip_reinvite (l : ptr) (mode : sdp_mode) (st : sip_cc_state) : MW unit :=
  assert_type l CALL_TYPE_SIP ;;
  o <- call_leg_other l ;;
  match o with
  | None => sip_release_call l
  | Some other =>
      sdp <- sdp_create_file l other mode ;;
      s <- as_sip l ;;
      emit (NuaInvite (s_handle s) None None None sdp) ;;
      upd_sip l (set_s_state st)
  end.

Definition sip_hold_call (l : ptr) : MW unit := sip_reinvite l sdp_sendonly SIP_CC_HOLD.
Definition sip_retrieve_call (l : ptr) : MW unit := sip_reinvite l sdp_sendrecv SIP_CC_CONNECTED.

(** ** A SIP leg for a call that came from MNCC *)

(** [nua_handle]: a new handle bound to the leg, or NULL. *)
Definition new_nua_handle (l : ptr) : MW (option handle) :=
  n <- tick ;;
  if nua_handle_ok n then
    h <- gets (fun w => fresh (dom (nua w))) ;;
    nua_handle_bind h l ;; ret (Some h)
  else ret None.

(** [%s] of a string pointer; glibc prints a NULL one as (null). *)
Definition fmt_s (o : option string) : string :=
  match o with Some s => s | None => "(null)"%string end.

(** [sip:<user>@<host>:<port>] *)
Definition sip_uri (user : option string) (host : string) (port : Z) : string :=
  "sip:" +:+ fmt_s user +:+ "@" +:+ host +:+ ":" +:+ fmt_d port.

(** The X-Global-Call-Ref header, when the call has a GCR that encodes. *)
Definition gcr_header (cl : call) : MW (option string) :=
  if gcr_present cl then
    n <- tick ;;
    let '(rc, data) := osmo_enc_gcr (gcr cl) in
    ret (if alloc_ok n && (0 <? rc)
         then Some ("X-Global-Call-Ref: " +:+ msgb_hexdump data) else None)
  else ret None.

Definition send_invite (l : ptr) (calling_num called_num : option string) : MW Z :=
  x <- deref_leg l ;;
  let c := lg_call (base x) in
  cl <- deref_call c ;;
  other <- some_or NullDeref (initial cl) ;;
  g <- gets cfg ;;
  let from := sip_uri calling_num (sip_local_addr g) (sip_local_port g) in
  let to := sip_uri called_num (sip_remote_addr g) (sip_remote_port g) in
  sdp <- sdp_create_file l other sdp_sendrecv ;;
  x_gcr <- gcr_header cl ;;
  upd_sip l (fun s => SipLeg (s_handle s) SIP_CC_INITIAL SIP_DIR_MT
                             (s_wanted_codec s) (s_sdp_payload s)) ;;
  s <- as_sip l ;;
  emit (NuaInvite (s_handle s) (Some from) (Some to) x_gcr sdp) ;;
  upd_call c (set_remote (Some l)) ;;
  ret 0.

Definition sip_create_remote_leg (c : ptr) : MW Z :=
  cl <- deref_call c ;;
  o <- talloc_leg (Leg (set_ops sip_mt_ops (call_leg_new CALL_TYPE_SIP c)) (XSip sip_leg0)) ;;
  match o with
  | None => ret (-1)
  | Some l =>
      h <- new_nua_handle l ;;
      upd_sip l (fun s => SipLeg h (s_state s) (s_dir s) (s_wanted_codec s) (s_sdp_payload s)) ;;
      match h with
      | None => free_leg l ;; ret (-2)
      | Some _ =>
          src <- read_str (source cl) ;;
          dst <- read_str (dest cl) ;;
          send_invite l src dst
      end
  end.

(** [make_sip_uri]: the computed [hostname] is not used in the result. *)
Definition make_sip_uri (g : app_config) : string :=
  let hostname := if String.eqb (sip_local_addr g) "0.0.0.0" then "*"%string else sip_local_addr g in
  "sip:" +:+ sip_local_addr g +:+ ":" +:+ fmt_d (sip_local_port g).
End sip_leg.

(** ** The resource view *)
Section sip_leg_st.
Context {E : Env} (s : skel) (cn : mncc_connection) (l : ptr) (sh : lshape).
Context (Hl : sk_legs s !! l = Some sh).

Lemma assert_type_st w t : st s cn w -> sh_type sh = t ->
  wp (assert_type l t) (fun _ w' => st s cn w' /\ w' = w) w.
Proof using Hl.
  intros Hst Ht. unfold assert_type. wp_seq x w1 (_ & -> & _ & Hsh).
  apply wp_assert; [|done]. rewrite bool_decide_eq_true. by rewrite <- Ht, <- Hsh.
Qed.

(** A SIP leg has no timer. *)
Lemma sip_no_timer w d h : st s cn w -> sh_ext sh = ShSip d h -> l ∉ timers w.
Proof using Hl.
  intros Hst He Ht. destruct (st_timers _ _ _ Hst l Ht) as (sh' & ? & Hm).
  simplify_eq. unfold is_mncc in Hm. by rewrite He in Hm.
Qed.

Context (Hwf : wfsk s).

Lemma sip_type d h : sh_ext sh = ShSip d h -> sh_type sh = CALL_TYPE_SIP.
Proof using Hwf Hl.
  intros He. destruct (wf_leg s Hwf l sh Hl) as [Htag _]. unfold tag_ok in Htag. by rewrite He in Htag.
Qed.

(** Destroying the handle and releasing the leg. *)
Lemma destroy_release_st w d h : st s cn w -> sh_ext sh = ShSip d (Some h) ->
  wp (nua_handle_destroy (Some h) ;; call_leg_release l) (fun _ w' => st (sk_release l s) cn w') w.
Proof using Hwf Hl.
  intros Hst He. unfold nua_handle_destroy.
  apply wp_bind. wp_seq u w1 Hst1. apply wp_modify.
  pose proof (sip_no_timer _ _ _ Hst1 He) as Ht.
  eapply wp_mono.
  - eapply (call_leg_release_st s cn l sh Hwf Hl); [|exact Ht].
    unfold sk_unbind. rewrite (sk_unbind_handle s l sh d h Hwf Hl He).
    exact (st_set_nua Hst1 (delete h)).
  - intros [] w' [? _]. done.
Qed.

Lemma sip_release_call_st w d h : st s cn w -> sh_ext sh = ShSip d (Some h) ->
  wp (sip_release_call l) (fun _ w' => exists s', st s' cn w' /\ released s l s') w.
Proof using Hwf Hl.
  intros Hst He. unfold sip_release_call. apply wp_bind.
  eapply wp_mono; [by eapply assert_type_st, sip_type|]. intros u w0 [_ ->].
  wp_seq x w1 (_ & -> & _). wp_seq m w2 (_ & -> & Hd & Hh & _). rewrite Hh.
  destruct (cause2status _) as [st_code text].
  assert (forall w1, st s cn w1 ->
    wp (nua_handle_destroy (Some h) ;; call_leg_release l)
       (fun _ w' => exists s', st s' cn w' /\ released s l s') w1) as Hdrop.
  { intros w1 Hst1. eapply wp_mono; [by eapply destroy_release_st|].
    intros [] w' Hst'. exists (sk_release l s). unfold released. auto. }
  assert (forall a w1, st s cn w1 ->
    wp (emit a) (fun _ w' => exists s', st s' cn w' /\ released s l s') w1) as Hkeep.
  { intros a w1 Hst1. eapply wp_mono; [by eapply emit_st|]. intros [] w' Hst'. exists s. unfold released. auto. }
  destruct (s_state m); [| case_decide | | ]; auto.
  clear Hkeep. wp_seq u3 w3 Hst3. auto.
Qed.

Lemma sip_ring_call_st w d h : st s cn w -> sh_ext sh = ShSip d h ->
  wp (sip_ring_call l) (fun _ w' => st s cn w') w.
Proof using Hwf Hl.
  intros Hst He. unfold sip_ring_call. apply wp_bind.
  eapply wp_mono; [by eapply assert_type_st, sip_type|]. intros u w0 [_ ->].
  wp_seq m w2 (_ & -> & _). by eapply emit_st.
Qed.

Lemma sip_dtmf_call_st w d h k : st s cn w -> sh_ext sh = ShSip d h ->
  wp (sip_dtmf_call l k) (fun _ w' => st s cn w') w.
Proof using Hwf Hl.
  intros Hst He. unfold sip_dtmf_call. apply wp_bind.
  eapply wp_mono; [by eapply assert_type_st, sip_type|]. intros u w0 [_ ->].
  wp_seq m w2 (_ & -> & _). by eapply emit_st.
Qed.

Lemma sip_connect_call_st w d h : st s cn w -> sh_ext sh = ShSip d (Some h) ->
  wp (sip_connect_call l) (fun _ w' => exists s', st s' cn w' /\ released s l s') w.
Proof using Hwf Hl.
  intros Hst He. unfold sip_connect_call. apply wp_bind.
  eapply wp_mono; [by eapply assert_type_st, sip_type|]. intros u w0 [_ ->].
  apply wp_bind. eapply wp_mono; [by eapply call_leg_other_st|]. intros o w1 (_ & -> & Ho).
  destruct o as [other|]; [|by eapply sip_release_call_st].
  destruct Ho as (sh' & Hl' & _).
  wp_seq t w2 Hst2. wp_seq u3 w3 Hst3. wp_seq m w4 (_ & -> & _).
  eapply wp_mono; [by eapply emit_st|]. intros [] w' Hst'. exists s. unfold released. auto.
Qed.

Lemma sip_reinvite_st w d h mode stt : st s cn w -> sh_ext sh = ShSip d (Some h) ->
  wp (sip_reinvite l mode stt) (fun _ w' => exists s', st s' cn w' /\ released s l s') w.
Proof using Hwf Hl.
  intros Hst He. unfold sip_reinvite. apply wp_bind.
  eapply wp_mono; [by eapply assert_type_st, sip_type|]. intros u w0 [_ ->].
  apply wp_bind. eapply wp_mono; [by eapply call_leg_other_st|]. intros o w1 (_ & -> & Ho).
  destruct o as [other|]; [|by eapply sip_release_call_st].
  destruct Ho as (sh' & Hl' & _).
  wp_seq t w2 Hst2. wp_seq m w4 (_ & -> & _). wp_seq u5 w5 Hst5.
  eapply wp_mono; [eapply upd_sip_st; eauto with wpdb|].
  intros [] w' Hst'. exists s. unfold released. auto.
Qed.

(** With another leg in the call neither callback releases. *)
Lemma sip_connect_call_other w d h l' : st s cn w -> sh_ext sh = ShSip d h -> other_leg s l sh l' ->
  wp (sip_connect_call l) (fun _ w' => st s cn w') w.
Proof using Hwf Hl.
  intros Hst He Ho. pose proof Ho as (sh' & Hl' & _). unfold sip_connect_call.
  wp_use assert_type_st as u w0 [_ ->]; [by eapply sip_type|].
  wp_use call_leg_other_Some as o w1 (_ & -> & ->).
  wp_seq t w2 Hst2. wp_seq u3 w3 Hst3. wp_seq m w4 (_ & -> & _). by eapply emit_st.
Qed.

Lemma sip_reinvite_other w d h mode stt l' : st s cn w -> sh_ext sh = ShSip d h -> other_leg s l sh l' ->
  wp (sip_reinvite l mode stt) (fun _ w' => st s cn w') w.
Proof using Hwf Hl.
  intros Hst He Ho. pose proof Ho as (sh' & Hl' & _). unfold sip_reinvite.
  wp_use assert_type_st as u w0 [_ ->]; [by eapply sip_type|].
  wp_use call_leg_other_Some as o w1 (_ & -> & ->).
  wp_seq t w2 Hst2. wp_seq m w4 (_ & -> & _). wp_seq u5 w5 Hst5. wp_end.
Qed.
End sip_leg_st.

Lemma assert_type_eq w l x t : legs w !! l = Some x -> lg_type (base x) = t ->
  assert_type l t w = Ret tt w.
Proof.
  intros Hl Ht. unfold assert_type. run_step (deref_leg_eq w l x Hl). by rewrite bool_decide_eq_true_2.
Qed.

(** ** The remote leg towards SIP *)
Section remote_st.
Context {E : Env} (s : skel) (cn : mncc_connection) (Hwf : wfsk s).

Definition sip_mt_shape (c : ptr) (h : handle) : lshape :=
  LShape CALL_TYPE_SIP c sip_mt_ops (ShSip SIP_DIR_MT (Some h)).

Lemma new_nua_handle_st s' w l : st s' cn w ->
  wp (new_nua_handle l)
     (fun o w' => timers w' = timers w /\ calls w' = calls w /\
        match o with
        | None => st s' cn w'
        | Some h => sk_nua s' !! h = None /\
            st (Skel (sk_calls s') (sk_legs s') (sk_list s') (<[h := l]> (sk_nua s')) (sk_next s')) cn w'
        end) w.
Proof using.
  intros Hst. unfold new_nua_handle, tick, nua_handle_bind, wp, bind, gets, modify, ret. simpl.
  destruct (nua_handle_ok (n_io w)); simpl.
  - split_and!; [done|done| |].
    + rewrite <- (st_nua Hst). apply not_elem_of_dom, is_fresh.
    + apply (st_set_nua (st_set_n_io Hst S)).
  - split_and!; [done|done|]. apply (st_set_n_io Hst).
Qed.

Lemma gcr_header_st s' w cl : st s' cn w ->
  wp (gcr_header cl) (fun _ w' => st s' cn w') w.
Proof using.
  intros Hst. unfold gcr_header. destruct (gcr_present cl); [|done].
  wp_seq n w1 [Hst1 _]. by destruct (osmo_enc_gcr (gcr cl)).
Qed.

(** [send_invite] for a leg [l] that is not linked yet: it becomes the remote leg. *)
Lemma send_invite_st s' w l c i shi h a b : st s' cn w ->
  sk_legs s' !! l = Some (LShape CALL_TYPE_SIP c sip_mt_ops (ShSip SIP_DIR_MO (Some h))) ->
  sk_calls s' !! c = Some (Some i, None) -> sk_legs s' !! i = Some shi ->
  wp (send_invite l a b)
     (fun rc w' => rc = 0 /\
        st (Skel (<[c := (Some i, Some l)]> (sk_calls s')) (<[l := sip_mt_shape c h]> (sk_legs s'))
                 (sk_list s') (sk_nua s') (sk_next s')) cn w') w.
Proof using.
  intros Hst Hl Hc Hi. unfold send_invite. wp_use deref_leg_st as x w1 (_ & -> & _ & Hsh).
  assert (lg_call (base x) = c) as -> by by injection Hsh.
  wp_use deref_call_st as cl w1 (_ & -> & _ & -> & _).
  apply wp_bind, wp_some_or with (a := i); [done|]. apply wp_bind, wp_gets. cbv zeta.
  wp_use sdp_create_file_st as t w1 Hst1. wp_use gcr_header_st as g w2 Hst2.
  wp_use (upd_sip_shape_st s' cn w2 l _ _ _ _ (sip_mt_shape c h)) as u w3 [Hst3 _];
    [by eapply sip_no_timer| |].
  { intros bs m Hm. injection Hm as ? ? ? ? ?. unfold shape, sip_mt_shape. simpl. congruence. }
  wp_use as_sip_st as m w4 (_ & -> & _); [apply lookup_insert_eq|done|].
  wp_use emit_st as u4 w4 Hst4. apply wp_bind.
  unfold upd_call. wp_use deref_call_st as x' w5 (_ & -> & _ & Hi' & _).
  apply wp_modify, wp_ret. split; [done|].
  pose proof (st_set_call Hst4 c (set_remote (Some l) x')) as Hst'. unfold call_shape in Hst'.
  simpl in Hst'. rewrite Hi' in Hst'. exact Hst'.
Qed.

(** The leg is linked with a handle no other leg has, or nothing but the
    allocation pointer moved. *)
Lemma sip_create_remote_leg_st w c i cl : st s cn w -> calls w !! c = Some cl ->
  initial cl = Some i -> remote cl = None -> is_Some (sk_legs s !! i) ->
  (forall p t, source cl = Some (p, t) \/ dest cl = Some (p, t) -> is_Some (sk_legs s !! p)) ->
  wp (sip_create_remote_leg c)
     (fun rc w' => if rc =? 0
        then exists h, sk_nua s !! h = None /\ st (sk_attach c i (sip_mt_shape c h) (Some h) s) cn w'
        else st s cn w' \/ st (sk_skip s) cn w') w.
Proof using Hwf.
  intros Hst Hcl Hi Hr [shi Hli] Hroute.
  assert (sk_calls s !! c = Some (Some i, None)) as Hc.
  { rewrite <- (st_sk _ _ _ Hst). simpl. rewrite lookup_fmap, Hcl. simpl. unfold call_shape. congruence. }
  pose proof (wf_fresh_leg s (sk_next s) Hwf ltac:(lia)) as Hfresh.
  unfold sip_create_remote_leg. wp_use deref_call_st as cl' w1 (_ & -> & Hcl' & _). simplify_eq.
  wp_use talloc_leg_st as o w2 (_ & Hts & Ho). destruct o as [l|]; [|apply wp_ret; by left].
  destruct Ho as [-> Hst2].
  assert (forall t, t ∈ timers w -> t <> sk_next s) as Hnt.
  { intros t Ht ->. destruct (st_timers _ _ _ Hst _ Ht) as (? & ? & _). congruence. }
  wp_use new_nua_handle_st as h w3 (Hts3 & _ & Hh).
  destruct h as [h|].
  - destruct Hh as [Hfh Hst3]. set (s3 := Skel _ _ _ _ _) in Hst3.
    assert (sk_legs s3 !! sk_next s = Some (LShape CALL_TYPE_SIP c sip_mt_ops (ShSip SIP_DIR_MO None))) as Hl3
      by apply lookup_insert_eq.
    wp_use (upd_sip_shape_st s3 cn w3 (sk_next s) _ _ _ _
             (LShape CALL_TYPE_SIP c sip_mt_ops (ShSip SIP_DIR_MO (Some h)))) as u w4 [Hst4 _]; [| |].
    { rewrite Hts3, Hts. intros Ht. by apply (Hnt (sk_next s)). }
    { intros b m Hm. injection Hm as ? ? ? ? ?. unfold shape. simpl. congruence. }
    set (s4 := sk_setup _ _ _ _) in Hst4.
    assert (forall p, is_Some (sk_legs s !! p) -> is_Some (sk_legs s4 !! p)) as Hmono.
    { intros p [x Hp]. simpl. rewrite insert_insert_eq, lookup_insert_ne by congruence. eauto. }
    wp_use read_str_st as src w5 (_ & -> & _).
    wp_use read_str_st as dst w5 (_ & -> & _).
    wp_last (send_invite_st s4) as rc w5 [-> Hst5].
    { simpl. by rewrite insert_insert_eq, lookup_insert_eq. }
    { simpl. rewrite insert_insert_eq, lookup_insert_ne by congruence. exact Hli. }
    exists h. split; [done|]. simpl in Hst5. by rewrite !insert_insert_eq in Hst5.
  - wp_use (upd_sip_shape_st (sk_alloc _ s) cn w3 (sk_next s) _ _ _ _
             (LShape CALL_TYPE_SIP c sip_mt_ops (ShSip SIP_DIR_MO None))) as u w4 [Hst4 Ht4].
    { apply lookup_insert_eq. }
    { done. }
    { rewrite Hts3, Hts. intros Ht. by apply (Hnt (sk_next s)). }
    { intros b m Hm. injection Hm as ? ? ? ? ?. unfold shape. simpl. congruence. }
    wp_use free_alloc_st as u5 w5 Hst5.
    { unfold sk_setup, sk_alloc in Hst4 |- *. simpl in Hst4. rewrite insert_insert_eq in Hst4. exact Hst4. }
    { rewrite Ht4, Hts3, Hts. intros Ht. by apply (Hnt (sk_next s)). }
    apply wp_ret. by right.
Qed.
End remote_st.

(** ** The cause table *)
Section cause.
Context {E : Env} {HE : EnvLaws E}.

(** The loop stops at the first row, other than the last, that passes the test. *)
Lemma cause_loop_spec test n i : (length cause_map - 1 - i <= n)%nat -> (i <= length cause_map - 1)%nat ->
  cause_loop test n i =
    match List.find (fun j => test (cause_row_at j)) (seq i (length cause_map - 1 - i)) with
    | Some j => (j, true)
    | None => ((length cause_map - 1)%nat, false)
    end.
Proof using.
  remember (length cause_map - 1)%nat as m eqn:Hm. revert i.
  induction n as [|n IH]; intros i Hn Hi; cbn [cause_loop].
  - assert (i = m) as -> by lia. by rewrite Nat.sub_diag.
  - rewrite <- Hm. destruct (Nat.ltb_spec i m) as [Hlt|Hge].
    + assert (m - i = S (m - S i))%nat as -> by lia. cbn [seq List.find].
      destruct (test (cause_row_at i)); [done|]. apply IH; lia.
    + assert (i = m) as -> by lia. by rewrite Nat.sub_diag.
Qed.

(** [find] over the indices is [find] over the rows. *)
Lemma find_index_row test (k i : nat) :
  (i + k < length cause_map)%nat ->
  List.find test (take k (drop i cause_map))
  = cause_row_at <$> List.find (fun j => test (cause_row_at j)) (seq i k).
Proof using.
  revert i. induction k as [|k IH]; intros i Hi; [done|].
  destruct (lookup_lt_is_Some_2 cause_map i ltac:(lia)) as [r Hr].
  assert (cause_row_at i = r) as Hcr by (unfold cause_row_at; by apply nth_lookup_Some).
  rewrite (drop_S _ _ _ Hr). cbn [take seq List.find]. rewrite Hcr.
  destruct (test r); [|apply IH; lia]. change (Some r = Some (cause_row_at i)). by rewrite Hcr.
Qed.

(** The rows a search can return, and the row used without a match. *)
Definition searched_rows : list cause_row := take (length cause_map - 1) cause_map.
Definition default_row : cause_row := Row 480 GSM48_CC_CAUSE_NORMAL_UNSPEC "Normal, Unspecified".

Lemma cause_search test :
  let '(i, b) := cause_loop test (length cause_map) 0 in
  match List.find test searched_rows with
  | Some r => b = true /\ cause_row_at i = r
  | None => b = false /\ cause_row_at i = default_row
  end.
Proof using.
  rewrite cause_loop_spec by lia. unfold searched_rows. rewrite Nat.sub_0_r.
  pose proof (find_index_row test (length cause_map - 1) 0 ltac:(vm_compute; lia)) as Hf.
  rewrite drop_0 in Hf. rewrite Hf.
  destruct (List.find _ (seq 0 _)); simpl; auto.
Qed.

Lemma status2cause_first st :
  status2cause st = match List.find (fun r => sip_status r =? st) searched_rows with
    | Some r => cause_value (gsm48 r)
    | None => cause_value GSM48_CC_CAUSE_NORMAL_UNSPEC
    end.
Proof using.
  unfold status2cause. pose proof (cause_search (fun r => sip_status r =? st)) as H.
  destruct (cause_loop _ _ _) as [i b]. destruct (List.find _ _); destruct H as [-> Hr]; by rewrite ?Hr.
Qed.

Lemma cause2status_first c :
  cause2status c = match List.find (fun r => cause_value (gsm48 r) =? c) searched_rows with
    | Some r => (sip_status r, q850_reason r)
    | None => (480, "Normal, Unspecified"%string)
    end.
Proof using.
  unfold cause2status. pose proof (cause_search (fun r => cause_value (gsm48 r) =? c)) as H.
  destruct (cause_loop _ _ _) as [i b]. destruct (List.find _ _); destruct H as [-> Hr]; by rewrite ?Hr.
Qed.

(** The mapping from a SIP status to a GSM cause, and back, takes the first row of
    the table that matches; without one a status becomes Normal Unspecified and
    a cause becomes 480. *)
Lemma cause_map_first st c :
  status2cause st = match List.find (fun r => sip_status r =? st) searched_rows with
    | Some r => cause_value (gsm48 r)
    | None => cause_value GSM48_CC_CAUSE_NORMAL_UNSPEC
    end
  /\ cause2status c = match List.find (fun r => cause_value (gsm48 r) =? c) searched_rows with
    | Some r => (sip_status r, q850_reason r)
    | None => (480, "Normal, Unspecified"%string)
    end.
Proof using. split; [apply status2cause_first|apply cause2status_first]. Qed.

Lemma cause_value_eqb a b : (cause_value a =? cause_value b) = bool_decide (a = b).
Proof using HE.
  destruct (Z.eqb_spec (cause_value a) (cause_value b)) as [He|He].
  - apply (inj cause_value) in He as ->. by rewrite bool_decide_eq_true_2.
  - rewrite bool_decide_eq_false_2; [done|]. by intros ->.
Qed.

Lemma find_ext {A} (f g : A -> bool) xs : (forall x, f x = g x) -> List.find f xs = List.find g xs.
Proof using. intros Hfg. induction xs as [|x xs IH]; simpl; [done|]. rewrite Hfg. by destruct (g x). Qed.

(** The two searches on the names, which compute. *)
Definition cause_of_status (st : Z) : gsm48_cause :=
  match List.find (fun r => sip_status r =? st) searched_rows with
  | Some r => gsm48 r
  | None => GSM48_CC_CAUSE_NORMAL_UNSPEC
  end.
Definition status_of_cause (c : gsm48_cause) : Z :=
  match List.find (fun r => bool_decide (gsm48 r = c)) searched_rows with
  | Some r => sip_status r
  | None => 480
  end.

Lemma status2cause_named st : status2cause st = cause_value (cause_of_status st).
Proof using.
  rewrite status2cause_first. unfold cause_of_status. by destruct (List.find _ _).
Qed.

Lemma cause2status_named c : fst (cause2status (cause_value c)) = status_of_cause c.
Proof using HE.
  rewrite cause2status_first. unfold status_of_cause.
  rewrite (find_ext _ (fun r => bool_decide (gsm48 r = c))) by (intros r; apply cause_value_eqb).
  by destruct (List.find _ _).
Qed.

(** C29: a release cause survives the translation to a SIP status and back, for
    every status of the table except 400, 481 and 500: these mean Temporary
    Failure, which is sent as 503, and 503 is read as Resource Unavailable. *)
Theorem cause_roundtrip st : In st (map sip_status searched_rows) ->
  status2cause (fst (cause2status (status2cause st)))
  = if existsb (Z.eqb st) [400; 481; 500] then cause_value GSM48_CC_CAUSE_RESOURCE_UNAVAIL
    else status2cause st.
Proof using HE.
  intros Hin. rewrite !status2cause_named, cause2status_named.
  assert (forallb (fun st => bool_decide (cause_of_status (status_of_cause (cause_of_status st))
            = if existsb (Z.eqb st) [400; 481; 500] then GSM48_CC_CAUSE_RESOURCE_UNAVAIL else cause_of_status st))
          (map sip_status searched_rows) = true) as Hall by (vm_compute; reflexivity).
  rewrite forallb_forall in Hall. specialize (Hall st Hin). apply bool_decide_eq_true in Hall.
  rewrite Hall. by destruct (existsb _ _).
Qed.
End cause.

(** ** What the callbacks of a SIP leg send *)
Section actions.
Context {E : Env}.

(** What [sip_release_call] sends, by the state of the dialog. *)
Definition sip_release_actions (b : call_leg) (x : sip_leg) : list action :=
  let '(status, text) := cause2status (cause b) in
  match s_state x, s_dir x with
  | SIP_CC_INITIAL, _ => [NuaDestroy (s_handle x)]
  | SIP_CC_DLG_CNFD, SIP_DIR_MT => [NuaCancel (s_handle x)]
  | SIP_CC_DLG_CNFD, SIP_DIR_MO =>
      [NuaRespond (s_handle x) status (sip_phrase status) (Some (reason_header (cause b) text)) None;
       NuaDestroy (s_handle x)]
  | SIP_CC_CONNECTED, _ | SIP_CC_HOLD, _ => [NuaBye (s_handle x)]
  end.

(** Whether the leg goes at once; otherwise it waits for sofia-sip. *)
Definition sip_release_drops (x : sip_leg) : bool :=
  match s_state x, s_dir x with
  | SIP_CC_INITIAL, _ | SIP_CC_DLG_CNFD, SIP_DIR_MO => true
  | _, _ => false
  end.

Lemma destroy_release_out s cn w l sh d h : wfsk s -> st s cn w -> sk_legs s !! l = Some sh ->
  sh_ext sh = ShSip d h ->
  wp (nua_handle_destroy h ;; call_leg_release l)
     (fun _ w' => st (sk_release l s) cn w' /\ out w' = out w ++ [NuaDestroy h]) w.
Proof using.
  intros Hwf Hst Hl He. pose proof (sip_no_timer s cn l sh Hl w d h Hst He) as Ht.
  assert (wp (nua_handle_destroy h)
            (fun _ w1 => st (sk_unbind l s) cn w1 /\ timers w1 = timers w /\ out w1 = out w ++ [NuaDestroy h]) w) as Hd.
  { unfold nua_handle_destroy, emit. destruct h as [h|]; apply wp_bind, wp_modify.
    - apply wp_modify. split_and!; [|done|done]. unfold sk_unbind. rewrite (sk_unbind_handle s l sh d h Hwf Hl He).
      apply (st_set_nua (st_set_out Hst _)).
    - apply wp_ret. split_and!; [|done|done].
      rewrite (sk_unbind_none s l sh Hwf Hl) by (intros ? ?; congruence). apply (st_set_out Hst). }
  apply wp_bind. eapply wp_mono; [exact Hd|]. cbv beta. intros _ w1 (Hst1 & Hts & Hout).
  eapply wp_mono.
  - apply (wp_keeps out); [by apply call_leg_release_keeps|].
    eapply (call_leg_release_st s cn l sh Hwf Hl w1 Hst1). by rewrite Hts.
  - cbv beta. intros _ w2 [[Hst2 _] Hout2]. split; [done|congruence].
Qed.

Lemma sip_release_call_out s cn w l b x : wfsk s -> st s cn w -> legs w !! l = Some (Leg b (XSip x)) ->
  wp (sip_release_call l) (fun _ w' => out w' = out w ++ sip_release_actions b x /\
    st (if sip_release_drops x then sk_release l s else s) cn w') w.
Proof using.
  intros Hwf Hst Hx. set (sh := shape (Leg b (XSip x))).
  assert (sk_legs s !! l = Some sh) as Hl.
  { rewrite <- (st_sk _ _ _ Hst). simpl. by rewrite lookup_fmap, Hx. }
  unfold sip_release_call. wp_use assert_type_st as u w0 [_ ->]; [by eapply sip_type|].
  wp_use deref_leg_st as y w1 (_ & -> & Hy & _). wp_use as_sip_st as m w1 (_ & -> & _ & _ & b' & Hm).
  assert (y = Leg b (XSip x)) as -> by congruence. assert (m = x) as -> by congruence.
  unfold sip_release_actions, sip_release_drops. simpl. destruct (cause2status (cause b)) as [status text].
  destruct (s_state x) eqn:Hs; [|case_decide as Hdir| |].
  - wp_last destroy_release_out as u2 w2 [? ?]. done.
  - rewrite Hdir. apply wp_modify. split; [done|apply (st_set_out Hst)].
  - destruct (s_dir x); [|done]. apply wp_bind, wp_modify.
    wp_last (destroy_release_out s cn) as u2 w2 [Hst2 Hout]; [apply (st_set_out Hst)|].
    split; [|done]. rewrite Hout. simpl. by rewrite <- app_assoc.
  - apply wp_modify. split; [done|apply (st_set_out Hst)].
  - apply wp_modify. split; [done|apply (st_set_out Hst)].
Qed.

(** C28: releasing a SIP leg sends what its dialog state calls for: nothing but the end
    of the handle before a dialog, a final response with the mapped status and a
    Q.850 Reason for a call that came in, CANCEL for one we placed, BYE once
    connected; the leg goes at once in the first two cases and stays otherwise. *)
Theorem sip_release_call_spec w l b x : wf w -> legs w !! l = Some (Leg b (XSip x)) ->
  exists w', sip_release_call l w = Ret tt w' /\
    out w' = out w ++ sip_release_actions b x /\
    sk w' = (if sip_release_drops x then sk_release l (sk w) else sk w) /\ wf w'.
Proof using.
  intros Hw Hx. pose proof (wf_st w Hw) as Hst. destruct Hw as [Hwf Ht Hok].
  pose proof (sip_release_call_out (sk w) (conn w) w l b x Hwf Hst Hx) as H.
  apply wp_returns in H as ([] & w' & Heq & Hout & Hst'). exists w'.
  rewrite (st_sk _ _ _ Hst'). split_and!; try done. eapply st_wf; [done| |done].
  destruct (sip_release_drops x); [|done]. apply (sk_release_wf _ l (shape (Leg b (XSip x))) Hwf).
  simpl. by rewrite lookup_fmap, Hx.
Qed.

(** The SDP text for a leg that is to receive the media of [other]. *)
Definition sdp_file (other : call_leg) (mode : sdp_mode) : string :=
  if String.eqb (rx_sdp other) EmptyString
  then legacy_sdp other (app_media_name (int32 (payload_msg_type other))) mode
  else forward_sdp (rx_sdp other) mode.
Definition sdp_file_codec (other : call_leg) (x : sip_leg) : sip_leg :=
  if String.eqb (rx_sdp other) EmptyString
  then set_s_wanted_codec (Some (app_media_name (int32 (payload_msg_type other)))) x else x.

Lemma sdp_create_file_eq w l o b x y mode : legs w !! l = Some (Leg b (XSip x)) -> legs w !! o = Some y ->
  sdp_create_file l o mode w
  = Ret (sdp_file (base y) mode) (set_legs (<[l := Leg b (XSip (sdp_file_codec (base y) x))]>) w).
Proof using.
  intros Hl Ho. unfold sdp_create_file, sdp_file, sdp_file_codec. run_step (deref_leg_eq w o y Ho). cbv zeta.
  destruct (String.eqb (rx_sdp (base y)) EmptyString).
  - by run_step (upd_sip_eq w l (set_s_wanted_codec (Some (app_media_name (int32 (payload_msg_type (base y)))))) b x Hl).
  - run_step (deref_leg_eq w l _ Hl). unfold ret. f_equal. destruct w. unfold set_legs. simpl in *.
    by rewrite insert_id.
Qed.

(** A leg [l] whose call names [l'] as the other leg. *)
Definition bridged (w : world) (l l' : ptr) : Prop :=
  l <> l' /\ exists x cl, legs w !! l = Some x /\ calls w !! lg_call (base x) = Some cl /\
    (initial cl = Some l /\ remote cl = Some l' \/ initial cl = Some l' /\ remote cl = Some l).

Lemma bridged_other w l l' : bridged w l l' -> call_leg_other l w = Ret (Some l') w.
Proof using.
  intros (Hne & x & cl & Hl & Hc & [[Hi Hr]|[Hi Hr]]).
  - by rewrite (call_leg_other_initial w l x cl), Hr.
  - rewrite (call_leg_other_remote w l x cl), Hi; try done. congruence.
Qed.

(** Writing a leg without moving it to another call. *)
Lemma bridged_set_leg w l l' k x y : bridged w l l' -> legs w !! k = Some x ->
  lg_call (base y) = lg_call (base x) -> bridged (set_legs (<[k := y]>) w) l l'.
Proof using.
  intros (Hne & z & cl & Hl & Hc & Hor) Hk Hcall. split; [done|]. simpl.
  destruct (decide (k = l)) as [->|Hkl].
  - exists y, cl. rewrite lookup_insert_eq. simplify_eq. rewrite Hcall. done.
  - exists z, cl. by rewrite lookup_insert_ne.
Qed.

Lemma bridged_other_leg w l l' x : wf w -> bridged w l l' -> legs w !! l = Some x ->
  other_leg (sk w) l (shape x) l'.
Proof using.
  intros [Hwf _ _] (Hne & y & cl & Hl & Hc & Hor) Hx. assert (y = x) as -> by congruence.
  assert (sk_calls (sk w) !! lg_call (base x) = Some (initial cl, remote cl)) as Hsc
    by (simpl; by rewrite lookup_fmap, Hc).
  assert (sk_legs (sk w) !! l = Some (shape x)) as Hsl by (simpl; by rewrite lookup_fmap, Hx).
  destruct Hor as [[Hi Hr]|[Hi Hr]]; rewrite Hi, Hr in Hsc;
    destruct (other_leg_pair _ _ _ _ Hwf Hsc) as (shi & shr & Hl1 & Hl2 & Ho1 & Ho2); congruence.
Qed.

Lemma bridged_sym w l l' : wf w -> bridged w l l' -> bridged w l' l.
Proof using.
  intros Hw Hb. pose proof Hb as (Hne & x & cl & Hl & Hc & Hor). split; [done|].
  destruct (bridged_other_leg w l l' x Hw Hb Hl) as (sh' & Hl' & _ & Hcall & _).
  simpl in Hl'. apply fmap_lookup_inv in Hl' as (y & Hy & ->). simpl in Hcall.
  exists y, cl. rewrite Hcall. split_and!; auto. tauto.
Qed.

Lemma bridged_established w l l' x : wf w -> bridged w l l' -> legs w !! l = Some x -> established (shape x).
Proof using. intros Hw Hb Hx. by destruct (bridged_other_leg w l l' x Hw Hb Hx) as (? & _ & _ & _ & ? & _). Qed.

(** The callbacks of a SIP leg of a bridged call. *)
Lemma bridged_sip_ops w l l' b x : wf w -> bridged w l l' -> legs w !! l = Some (Leg b (XSip x)) ->
  lg_type b = CALL_TYPE_SIP /\ release_call (ops b) = Some FN_sip_release_call /\
  dtmf (ops b) = Some FN_sip_dtmf_call /\ hold_call (ops b) = Some FN_sip_hold_call /\
  retrieve_call (ops b) = Some FN_sip_retrieve_call.
Proof using.
  intros Hw Hb Hx. pose proof (bridged_established w l l' _ Hw Hb Hx) as He.
  destruct (wf_leg _ (w_sk w Hw) l (shape (Leg b (XSip x)))) as [Htag _]; [simpl; by rewrite lookup_fmap, Hx|].
  unfold established, tag_ok in *. simpl in *. destruct (s_dir x); destruct He as [-> _]; done.
Qed.

Lemma sip_dtmf_call_eq w l b x k : legs w !! l = Some (Leg b (XSip x)) -> lg_type b = CALL_TYPE_SIP ->
  sip_dtmf_call l k w = Ret tt (set_out (fun o => o ++ [NuaInfo (s_handle x)
     ("Signal=" +:+ fmt_c k +:+ str_nl +:+ "Duration=160" +:+ str_nl)]) w).
Proof using.
  intros Hl Ht. unfold sip_dtmf_call. run_step (assert_type_eq w l _ _ Hl Ht). by run_step (as_sip_eq w l b x Hl).
Qed.

Lemma sip_reinvite_eq w l l' b x y mode stt : legs w !! l = Some (Leg b (XSip x)) -> lg_type b = CALL_TYPE_SIP ->
  bridged w l l' -> legs w !! l' = Some y ->
  sip_reinvite l mode stt w
  = Ret tt (set_legs (<[l := Leg b (XSip (set_s_state stt (sdp_file_codec (base y) x)))]>)
      (set_out (fun o => o ++ [NuaInvite (s_handle x) None None None (sdp_file (base y) mode)]) w)).
Proof using.
  intros Hl Ht Hb Hy. unfold sip_reinvite. run_step (assert_type_eq w l _ _ Hl Ht).
  run_step (bridged_other w l l' Hb). run_step (sdp_create_file_eq w l l' b x y mode Hl Hy).
  set (x1 := sdp_file_codec _ _). set (w1 := set_legs _ w).
  assert (legs w1 !! l = Some (Leg b (XSip x1))) as Hl1 by apply lookup_insert_eq.
  run_step (as_sip_eq w1 l b x1 Hl1). run_step (emit_eq w1 (NuaInvite (s_handle x1) None None None (sdp_file (base y) mode))).
  set (w2 := set_out _ w1). assert (legs w2 !! l = Some (Leg b (XSip x1))) as Hl2 by exact Hl1.
  rewrite (upd_sip_eq w2 l _ b x1 Hl2). unfold w2, w1, set_legs, set_out. simpl. rewrite insert_insert_eq.
  assert (s_handle x1 = s_handle x) as -> by (unfold x1, sdp_file_codec; by destruct (String.eqb _ _)). done.
Qed.

(** ** Placing a call towards SIP, when nothing is short *)

(** Memory and handles are available. *)
Record resources : Prop := {
  res_alloc : forall n, alloc_ok n = true;
  res_handle : forall n, nua_handle_ok n = true }.

(** The header with the call's GCR. *)
Definition gcr_text (cl : call) : option string :=
  if gcr_present cl then
    let '(rc, data) := osmo_enc_gcr (gcr cl) in
    if 0 <? rc then Some ("X-Global-Call-Ref: " +:+ msgb_hexdump data) else None
  else None.

Lemma gcr_header_eq w cl : resources ->
  exists w', gcr_header cl w = Ret (gcr_text cl) w' /\ legs w' = legs w /\ calls w' = calls w /\
    out w' = out w /\ nua w' = nua w /\ conn w' = conn w /\ timers w' = timers w.
Proof using.
  intros [Ha _]. unfold gcr_header, gcr_text, tick, bind, gets, modify, ret. destruct (gcr_present cl); [|by exists w].
  simpl. destruct (osmo_enc_gcr (gcr cl)) as [rc data]. rewrite Ha. simpl.
  eexists. split; [reflexivity|]. done.
Qed.

Lemma send_invite_eq w c i l cl x y from to : resources ->
  legs w !! l = Some (Leg (set_ops sip_mt_ops (call_leg_new CALL_TYPE_SIP c)) (XSip x)) ->
  calls w !! c = Some cl -> initial cl = Some i -> legs w !! i = Some y -> i <> l ->
  exists w', send_invite l from to w = Ret 0 w' /\
    out w' = out w ++ [NuaInvite (s_handle x)
      (Some (sip_uri from (sip_local_addr (cfg w)) (sip_local_port (cfg w))))
      (Some (sip_uri to (sip_remote_addr (cfg w)) (sip_remote_port (cfg w))))
      (gcr_text cl) (sdp_file (base y) sdp_sendrecv)] /\
    calls w' = <[c := set_remote (Some l) cl]> (calls w) /\ nua w' = nua w /\ conn w' = conn w /\ timers w' = timers w /\
    legs w' = <[l := Leg (set_ops sip_mt_ops (call_leg_new CALL_TYPE_SIP c))
        (XSip (sdp_file_codec (base y) (SipLeg (s_handle x) SIP_CC_INITIAL SIP_DIR_MT (s_wanted_codec x)
           (s_sdp_payload x))))]> (legs w).
Proof using.
  intros Hres Hl Hc Hi Hy Hne. set (b := set_ops _ _) in *. unfold send_invite. run_step (deref_leg_eq w l _ Hl).
  change (lg_call (base (Leg b (XSip x)))) with c. cbv zeta. run_step (deref_call_eq w c cl Hc). rewrite Hi.
  run_step (some_or_Some NullDeref i w). unfold gets at 1. unfold bind at 1.
  run_step (sdp_create_file_eq w l i b x y sdp_sendrecv Hl Hy). set (x1 := sdp_file_codec _ x). set (w1 := set_legs _ w).
  destruct (gcr_header_eq w1 cl Hres) as (w2 & Hrun2 & Hl2 & Hc2 & Ho2 & Hn2 & Hcn2 & Ht2). run_step Hrun2.
  assert (legs w2 !! l = Some (Leg b (XSip x1))) as Hl2' by (rewrite Hl2; apply lookup_insert_eq).
  run_step (upd_sip_eq w2 l (fun s => SipLeg (s_handle s) SIP_CC_INITIAL SIP_DIR_MT (s_wanted_codec s) (s_sdp_payload s)) b x1 Hl2').
  set (x3 := SipLeg _ _ _ _ _). set (w3 := set_legs _ w2).
  assert (legs w3 !! l = Some (Leg b (XSip x3))) as Hl3 by apply lookup_insert_eq.
  run_step (as_sip_eq w3 l b x3 Hl3).
  match goal with |- context [emit ?a] => run_step (emit_eq w3 a) end. set (w4 := set_out _ w3).
  assert (calls w4 !! c = Some cl) as Hc4 by (simpl; by rewrite Hc2).
  run_step (upd_call_run w4 c (set_remote (Some l)) cl Hc4). eexists. split; [reflexivity|]. simpl.
  rewrite Ho2, Hc2, Hl2, Hn2, Hcn2, Ht2. simpl. rewrite insert_insert_eq.
  assert (s_handle x1 = s_handle x /\ x3 = sdp_file_codec (base y) (SipLeg (s_handle x) SIP_CC_INITIAL SIP_DIR_MT
    (s_wanted_codec x) (s_sdp_payload x))) as [-> <-].
  { unfold x3, x1, sdp_file_codec. by destruct (String.eqb _ _). }
  done.
Qed.

Lemma read_str_eq w o p t : o = Some (p, t) -> is_Some (legs w !! p) -> read_str o w = Ret (Some t) w.
Proof using. intros -> [x Hx]. unfold read_str. by run_step (deref_leg_eq w p x Hx). Qed.

Lemma sip_create_remote_leg_eq w c i cl y ps src pd dst : wf w -> resources ->
  calls w !! c = Some cl -> initial cl = Some i -> legs w !! i = Some y ->
  source cl = Some (ps, src) -> dest cl = Some (pd, dst) ->
  is_Some (legs w !! ps) -> is_Some (legs w !! pd) ->
  exists h l w', sip_create_remote_leg c w = Ret 0 w' /\ legs w !! l = None /\ nua w !! h = None /\
    out w' = out w ++ [NuaInvite (Some h)
      (Some (sip_uri (Some src) (sip_local_addr (cfg w)) (sip_local_port (cfg w))))
      (Some (sip_uri (Some dst) (sip_remote_addr (cfg w)) (sip_remote_port (cfg w))))
      (gcr_text cl) (sdp_file (base y) sdp_sendrecv)] /\
    calls w' = <[c := set_remote (Some l) cl]> (calls w) /\ nua w' = <[h := l]> (nua w) /\
    conn w' = conn w /\ timers w' = timers w /\
    legs w' = <[l := Leg (set_ops sip_mt_ops (call_leg_new CALL_TYPE_SIP c))
        (XSip (sdp_file_codec (base y) (SipLeg (Some h) SIP_CC_INITIAL SIP_DIR_MT None None)))]> (legs w).
Proof using.
  intros Hw Hres Hc Hi Hy Hsrc Hdst Hps Hpd. pose proof Hres as [Ha Hh]. pose proof (wf_st w Hw) as Hst.
  pose proof (st_leg_None Hst _ (wf_fresh_leg _ (next_ptr w) (w_sk w Hw) ltac:(simpl; lia))) as Hfl.
  set (l := next_ptr w) in *. set (h := fresh (dom (nua w))).
  assert (nua w !! h = None) as Hnh by (apply not_elem_of_dom, is_fresh).
  set (b := set_ops sip_mt_ops (call_leg_new CALL_TYPE_SIP c)).
  set (w2 := set_nua <[h := l]> (set_n_io S (set_legs <[l := Leg b (XSip sip_leg0)]> (set_next_ptr Pos.succ (set_n_io S w))))).
  assert (sip_create_remote_leg c w = (upd_sip l (fun s => SipLeg (Some h) (s_state s) (s_dir s) (s_wanted_codec s)
      (s_sdp_payload s)) ;; src <- read_str (source cl) ;; dst <- read_str (dest cl) ;; send_invite l src dst) w2) as ->.
  { unfold sip_create_remote_leg. run_step (deref_call_eq w c cl Hc).
    assert (talloc_leg (Leg b (XSip sip_leg0)) w = Ret (Some l) (set_legs <[l := Leg b (XSip sip_leg0)]> (set_next_ptr Pos.succ (set_n_io S w)))) as Ht.
    { unfold talloc_leg, tick, bind, gets, modify, ret. simpl. by rewrite Ha. }
    run_step Ht.
    assert (new_nua_handle l (set_legs <[l := Leg b (XSip sip_leg0)]> (set_next_ptr Pos.succ (set_n_io S w))) = Ret (Some h) w2) as Hn.
    { unfold new_nua_handle, tick, nua_handle_bind, bind, gets, modify, ret. simpl. by rewrite Hh. }
    by run_step Hn. }
  assert (legs w2 !! l = Some (Leg b (XSip sip_leg0))) as Hl2 by apply lookup_insert_eq.
  run_step (upd_sip_eq w2 l (fun s => SipLeg (Some h) (s_state s) (s_dir s) (s_wanted_codec s) (s_sdp_payload s)) b sip_leg0 Hl2).
  set (w3 := set_legs _ w2).
  assert (forall p, is_Some (legs w !! p) -> is_Some (legs w3 !! p)) as Hmono.
  { intros p [z Hz]. simpl. rewrite insert_insert_eq, lookup_insert_ne by congruence. eauto. }
  run_step (read_str_eq w3 _ ps src Hsrc (Hmono _ Hps)). run_step (read_str_eq w3 _ pd dst Hdst (Hmono _ Hpd)).
  assert (i <> l) by congruence.
  destruct (send_invite_eq w3 c i l cl (SipLeg (Some h) SIP_CC_INITIAL SIP_DIR_MO None None) y (Some src) (Some dst))
    as (w4 & Hrun & Hout & Hcs & Hnu & Hcn & Ht & Hls); try done.
  { apply lookup_insert_eq. }
  { simpl. by rewrite insert_insert_eq, lookup_insert_ne. }
  exists h, l, w4. split_and!; try done. simpl in Hls. by rewrite !insert_insert_eq in Hls.
Qed.
End actions.
