(* ===== verification/MnccConn.v ===== *)
(** * The MNCC connection and MNCC call legs (src/mncc.c, sending side)

    Sending a message may fail, which closes the connection and runs the
    [on_disconnect] callback; that callback releases call legs.  The section
    takes the callback as a parameter; App.v ties the knot. *)
From S2P Require Import Prelude Effect Codec Protocol Lib State Call Sdp SipLeg Skel Rules.

(** ** Definitions *)
Section mncc_conn.
Context {E : Env}.

Definition mncc_leg_release (l : ptr) : MW unit :=
  timer_del l ;; call_leg_release l.

Definition start_cmd_timer (l : ptr) (expected_next : Z) : MW unit :=
  upd_mncc l (set_m_rsp_wanted expected_next) ;; timer_schedule l.

Definition stop_cmd_timer (l : ptr) (got_res : Z) : MW unit :=
  m <- as_mncc l ;;
  if u32 (m_rsp_wanted m) =? got_res then timer_del l else ret tt.

(** Is the pointer a leg of type MNCC with the callref?  [None] is NULL. *)
Definition mncc_leg_matches (callref : Z) (o : option ptr) : MW bool :=
  match o with
  | None => ret false
  | Some l =>
      x <- deref_leg l ;;
      match lg_type (base x) with
      | CALL_TYPE_MNCC => m <- as_mncc l ;; ret (m_callref m =? callref)
      | _ => ret false
      end
  end.

(** The loop over [g_call_list]. *)
Fixpoint mncc_find_leg_in (cs : list ptr) (callref : Z) : MW (option ptr) :=
  match cs with
  | [] => ret None
  | c :: cs' =>
      cl <- deref_call c ;;
      b <- mncc_leg_matches callref (initial cl) ;;
      if b : bool then ret (initial cl)
      else
        b' <- mncc_leg_matches callref (remote cl) ;;
        if b' : bool then ret (remote cl) else mncc_find_leg_in cs' callref
  end.

Definition mncc_find_leg (callref : Z) : MW (option ptr) :=
  cs <- gets g_call_list ;; mncc_find_leg_in cs callref.

Definition mncc_find_leg_not_released (callref : Z) : MW (option ptr) :=
  o <- mncc_find_leg callref ;;
  match o with
  | None => ret None
  | Some l => x <- deref_leg l ;; ret (if in_release (base x) then None else Some l)
  end.

(** [mncc->fields |= flag] *)
Definition add_field (flag : Z) (m : gsm_mncc) : gsm_mncc :=
  Mncc (mn_msg_type m) (mn_callref m) (Z.lor (mn_fields m) flag) (mn_called m) (mn_calling m)
       (mn_cause m) (mn_progress m) (mn_keypad m) (mn_emergency m) (mn_imsi m) (mn_gcr m) (mn_sdp m).
Definition set_mn_header (t callref : Z) (m : gsm_mncc) : gsm_mncc :=
  Mncc t callref (mn_fields m) (mn_called m) (mn_calling m)
       (mn_cause m) (mn_progress m) (mn_keypad m) (mn_emergency m) (mn_imsi m) (mn_gcr m) (mn_sdp m).
Definition set_mn_cause (c : gsm_mncc_cause) (m : gsm_mncc) : gsm_mncc :=
  Mncc (mn_msg_type m) (mn_callref m) (mn_fields m) (mn_called m) (mn_calling m)
       c (mn_progress m) (mn_keypad m) (mn_emergency m) (mn_imsi m) (mn_gcr m) (mn_sdp m).
Definition set_mn_progress (p : gsm_mncc_progress) (m : gsm_mncc) : gsm_mncc :=
  Mncc (mn_msg_type m) (mn_callref m) (mn_fields m) (mn_called m) (mn_calling m)
       (mn_cause m) p (mn_keypad m) (mn_emergency m) (mn_imsi m) (mn_gcr m) (mn_sdp m).
Definition set_mn_keypad (k : Z) (m : gsm_mncc) : gsm_mncc :=
  Mncc (mn_msg_type m) (mn_callref m) (mn_fields m) (mn_called m) (mn_calling m)
       (mn_cause m) (mn_progress m) k (mn_emergency m) (mn_imsi m) (mn_gcr m) (mn_sdp m).

Definition mncc_fill_header (m : gsm_mncc) (msg_type callref : Z) : MW gsm_mncc :=
  let m := set_mn_header msg_type callref m in
  if (MNCC_DISC_REQ =? msg_type) || (MNCC_REL_REQ =? msg_type) then
    o <- mncc_find_leg callref ;;
    l <- some_or NullDeref o ;;
    x <- deref_leg l ;;
    ret (set_mn_cause (Cause GSM48_CAUSE_CODING_GSM GSM48_CAUSE_LOC_PUN_S_LU (cause (base x)))
           (add_field MNCC_F_CAUSE m))
  else ret m.

(** [conn->on_disconnect] *)
Context (on_disconnect : MW unit).

Definition close_connection : MW unit :=
  cn <- gets conn ;;
  if cn_fd cn <? 0 then ret tt
  else
    emit (CloseFd (cn_fd cn)) ;;
    modify (set_conn (fun c => Conn MNCC_DISCONNECTED (-1) (Some 5) (cn_on_disconnect c))) ;;
    when (cn_on_disconnect cn) on_disconnect.

Definition mncc_write (m : gsm_mncc) : MW Z :=
  n <- tick ;;
  cn <- gets conn ;;
  let rc := write_rc n (cn_fd cn) sizeof_gsm_mncc in
  emit (TxMncc m rc) ;;
  when (negb (rc =? sizeof_gsm_mncc)) close_connection ;;
  ret rc.

Definition mncc_send (msg_type callref : Z) : MW Z :=
  m <- mncc_fill_header gsm_mncc0 msg_type callref ;; mncc_write m.

Definition mncc_rtp_write (r : gsm_mncc_rtp) : MW Z :=
  n <- tick ;;
  cn <- gets conn ;;
  let rc := write_rc n (cn_fd cn) sizeof_rtp in
  emit (TxRtp r rc) ;;
  when (negb (rc =? sizeof_rtp)) close_connection ;;
  ret rc.

Definition mncc_rtp_send (msg_type callref : Z) (sdp : option string) : MW Z :=
  let text := match sdp with Some s => osmo_strlcpy 1024 s | None => EmptyString end in
  mncc_rtp_write (Rtp msg_type callref sockaddr0 0 0 text).

Definition send_rtp_connect (l other : ptr) : MW bool :=
  m <- as_mncc l ;;
  o <- deref_leg other ;;
  rc <- mncc_rtp_write
          (Rtp MNCC_RTP_CONNECT (m_callref m) (addr (base o)) (payload_type (base o)) 0
               (osmo_strlcpy 1024 (rx_sdp (base o)))) ;;
  if negb (rc =? sizeof_rtp) then
    _ <- deref_leg l ;;        (* leg->callref and leg->conn are read again *)
    close_connection ;; ret false
  else ret true.

(** ** Callbacks of an MNCC leg *)
Definition mncc_call_leg_connect (l : ptr) : MW unit :=
  assert_type l CALL_TYPE_MNCC ;;
  o <- call_leg_other l ;;
  other <- some_or AssertFail o ;;
  ok <- send_rtp_connect l other ;;
  if negb ok then ret tt
  else
    start_cmd_timer l MNCC_SETUP_COMPL_IND ;;
    m <- as_mncc l ;;
    _ <- mncc_send MNCC_SETUP_RSP (m_callref m) ;;
    ret tt.

Definition mncc_call_leg_ring (l : ptr) : MW unit :=
  assert_type l CALL_TYPE_MNCC ;;
  m <- as_mncc l ;;
  h <- mncc_fill_header gsm_mncc0 MNCC_ALERT_REQ (m_callref m) ;;
  _ <- mncc_write (set_mn_progress
         (Progress GSM48_CAUSE_CODING_GSM GSM48_CAUSE_LOC_PRN_S_LU GSM48_PROGR_IN_BAND_AVAIL)
         (add_field MNCC_F_PROGRESS h)) ;;
  o <- call_leg_other l ;;
  match o with
  | None => ret tt
  | Some other =>
      x <- deref_leg other ;;
      if negb (ss_family (addr (base x)) =? AF_UNSPEC)
         && negb (osmo_sockaddr_port (addr (base x)) =? 0)
      then _ <- send_rtp_connect l other ;; ret tt
      else ret tt
  end.

(** The two branches of [mncc_call_leg_release] that ask the MSC to release:
    mark the leg, await the answer, send the request. *)
Definition request_release (l : ptr) (await msg : Z) : MW unit :=
  upd_base l (set_in_release true) ;;
  start_cmd_timer l await ;;
  m <- as_mncc l ;;
  _ <- mncc_send msg (m_callref m) ;;
  ret tt.

Definition mncc_call_leg_release (l : ptr) : MW unit :=
  assert_type l CALL_TYPE_MNCC ;;
  m <- as_mncc l ;;
  cn <- gets conn ;;
  if negb (bool_decide (cn_state cn = MNCC_READY)) then mncc_leg_release l
  else
    match m_state m with
    | MNCC_CC_INITIAL =>
        if decide (m_dir m = MNCC_DIR_MO) then
          _ <- mncc_send MNCC_REJ_REQ (m_callref m) ;;
          timer_del l ;;
          mncc_leg_release l
        else request_release l MNCC_REL_CNF MNCC_REL_REQ
    | MNCC_CC_PROCEEDING | MNCC_CC_CONNECTED | MNCC_CC_HOLD =>
        request_release l MNCC_REL_IND MNCC_DISC_REQ
    end.

(** ** An MNCC leg for a call that came from SIP *)
Definition str_hd_is (c : string) (s : string) : bool := String.prefix c s.
Definition str_tl (s : string) : string :=
  match s with EmptyString => EmptyString | String _ t => t end.

(** The [calling] number of the SETUP_REQ. *)
Definition setup_calling (source : option string) : gsm_mncc_number :=
  match source with
  | Some s =>
      if str_hd_is "+" s
      then Number GSM48_TON_INTERNATIONAL GSM48_NPI_ISDN_E164 (osmo_strlcpy sizeof_number (str_tl s))
      else Number GSM48_TON_UNKNOWN GSM48_NPI_ISDN_E164 (osmo_strlcpy sizeof_number s)
  | None => Number GSM48_TON_UNKNOWN GSM48_NPI_ISDN_E164 (osmo_strlcpy sizeof_number EmptyString)
  end.

(** The SETUP_REQ up to the GCR: [called] or [imsi] depending on [use_imsi].
    [osmo_strlcpy] takes NULL for the empty string. *)
Definition setup_req (use_imsi : bool) (callref : Z) (source dest : option string) : gsm_mncc :=
  if use_imsi
  then Mncc MNCC_SETUP_REQ callref MNCC_F_CALLING number0 (setup_calling source)
            (Cause 0 0 0) (Progress 0 0 0) 0 0 (str_take 14 (fmt_s dest)) (replicate 16 0) EmptyString
  else Mncc MNCC_SETUP_REQ callref (Z.lor MNCC_F_CALLING MNCC_F_CALLED)
            (Number GSM48_TON_UNKNOWN GSM48_NPI_ISDN_E164 (osmo_strlcpy sizeof_number (default EmptyString dest)))
            (setup_calling source)
            (Cause 0 0 0) (Progress 0 0 0) 0 0 EmptyString (replicate 16 0) EmptyString.
Definition set_mn_gcr (g : list Z) (m : gsm_mncc) : gsm_mncc :=
  Mncc (mn_msg_type m) (mn_callref m) (mn_fields m) (mn_called m) (mn_calling m)
       (mn_cause m) (mn_progress m) (mn_keypad m) (mn_emergency m) (mn_imsi m) g (mn_sdp m).
Definition set_mn_sdp (s : string) (m : gsm_mncc) : gsm_mncc :=
  Mncc (mn_msg_type m) (mn_callref m) (mn_fields m) (mn_called m) (mn_calling m)
       (mn_cause m) (mn_progress m) (mn_keypad m) (mn_emergency m) (mn_imsi m) (mn_gcr m) s.

(** [memcpy (&mncc.gcr[0], msg->data, rc)] for a length within the array *)
Definition copy_gcr (rc : Z) (data : list Z) (m : gsm_mncc) : gsm_mncc :=
  set_mn_gcr (take (Z.to_nat rc) data ++ drop (Z.to_nat rc) (mn_gcr m)) m.

(** Encode the GCR into the message; [msgb_alloc] or the encoder may fail. *)
Definition add_gcr (cl : call) (m : gsm_mncc) : MW gsm_mncc :=
  if gcr_present cl then
    n <- tick ;;
    let '(rc, data) := osmo_enc_gcr (gcr cl) in
    if alloc_ok n && negb (rc =? 0)
    then
      if (0 <=? rc) && (rc <=? 16) then ret (add_field MNCC_F_GCR (copy_gcr rc data m))
      else crash OutOfBounds
    else ret m
  else ret m.

Definition mncc_create_remote_leg (c : ptr) : MW Z :=
  cl <- deref_call c ;;
  o <- talloc_leg (Leg (set_ops mncc_leg_ops (call_leg_new CALL_TYPE_MNCC c))
                       (XMncc (MnccLeg MNCC_CC_INITIAL MNCC_DIR_MT (call_id cl)
                                       number0 number0 EmptyString 0 0))) ;;
  match o with
  | None => ret (-1)
  | Some l =>
      g <- gets cfg ;;
      src <- read_str (source cl) ;;
      dst <- read_str (dest cl) ;;
      m <- add_gcr cl (setup_req (use_imsi_as_id g) (call_id cl) src dst) ;;
      m' <- match initial cl with
            | None => ret m
            | Some i =>
                x <- deref_leg i ;;
                if rx_sdp_changed (base x) then
                  upd_base i (fun b => set_rx_sdp (rx_sdp b) false b) ;;
                  ret (set_mn_sdp (osmo_strlcpy 1024 (rx_sdp (base x))) m)
                else ret m
            end ;;
      rc <- mncc_write m' ;;
      if negb (rc =? sizeof_gsm_mncc) then
        free_leg l ;; ret (-1)
      else
        upd_call c (set_remote (Some l)) ;; ret 0
  end.

(** ** Connecting *)
Definition mncc_reconnect : MW unit :=
  n <- tick ;;
  match unix_connect n with
  | None =>
      modify (set_conn (fun c => Conn MNCC_DISCONNECTED (-1) (Some 5) (cn_on_disconnect c)))
  | Some fd =>
      modify (set_conn (fun c => Conn MNCC_WAIT_VERSION fd (cn_reconnect c) (cn_on_disconnect c)))
  end.

(** [mncc_connection_init]: no descriptor, disconnected; the callback is
    installed later, by [app_setup]. *)
Definition mncc_connection_init : MW unit :=
  modify (set_conn (fun c => Conn MNCC_DISCONNECTED (-1) (cn_reconnect c) (cn_on_disconnect c))).

Definition mncc_connection_start : MW unit :=
  modify (set_conn (fun c => Conn (cn_state c) (cn_fd c) (Some 0) (cn_on_disconnect c))).

Definition check_hello (buf : list Z) (rc : Z) : MW unit :=
  if negb (rc =? sizeof_hello) then close_connection
  else if negb (he_version (view_hello buf) =? MNCC_SOCK_VERSION) then close_connection
  else modify (set_conn (set_cn_state MNCC_READY)).
End mncc_conn.

(** ** Finding a leg by its callref *)
Section find.
Context {E : Env} (s : skel) (cn : mncc_connection) (Hwf : wfsk s) (callref : Z).

(** Leg [l] is an MNCC leg with the callref. *)
Definition has_callref (l : ptr) : Prop :=
  exists sh d, sk_legs s !! l = Some sh /\ sh_ext sh = ShMncc d callref.

Lemma mncc_leg_matches_st w c i r o : st s cn w -> sk_calls s !! c = Some (i, r) -> o = i \/ o = r ->
  wp (mncc_leg_matches callref o)
     (fun b w' => w' = w /\ (b = true <-> exists l, o = Some l /\ has_callref l)) w.
Proof using Hwf.
  intros Hst Hc Ho. destruct o as [l|]; [|split; [done|]; split; [done|by intros (? & ? & _)]].
  destruct (wf_linked s c i r l Hwf Hc) as (sh & Hl & _); [destruct Ho; auto|].
  destruct (wf_leg s Hwf l sh Hl) as [Htag _]. simpl.
  wp_seq x w1 (_ & -> & _ & Hsh).
  assert (lg_type (base x) = sh_type sh) as -> by by rewrite <- Hsh.
  destruct (tag_type sh Htag) as [[-> (d & cr & He)] | [-> (d & h & He)]].
  - wp_seq m w2 (_ & -> & _ & Hcr & _). rewrite Hcr. apply wp_ret. split; [done|].
    rewrite Z.eqb_eq. split.
    + intros Heq. exists l. split; [done|]. exists sh, d. split; [done|]. by rewrite He, Heq.
    + intros (l' & [= <-] & sh' & d' & ? & ?). simplify_eq. congruence.
  - apply wp_ret. split; [done|]. split; [done|].
    intros (l' & [= <-] & sh' & d' & ? & ?). congruence.
Qed.

Lemma mncc_find_leg_in_st w cs : st s cn w -> (forall c, c ∈ cs -> is_Some (sk_calls s !! c)) ->
  wp (mncc_find_leg_in cs callref)
     (fun o w' => w' = w /\
        match o with
        | Some l => has_callref l
        | None => forall c i r l, c ∈ cs -> sk_calls s !! c = Some (i, r) -> i = Some l \/ r = Some l -> ~ has_callref l
        end) w.
Proof using Hwf.
  intros Hst. induction cs as [|c cs IH]; intros Hcs; simpl.
  { split; [done|]. intros c i r l Hin. by apply elem_of_nil in Hin. }
  destruct (Hcs c) as [[i r] Hc]; [by left|].
  wp_seq cl w1 (_ & -> & _ & -> & ->).
  apply wp_bind. eapply wp_mono; [eapply (mncc_leg_matches_st w c i r); eauto|]. intros b w1 (-> & Hb).
  destruct b.
  { destruct Hb as [Hb _]. destruct (Hb eq_refl) as (l & -> & ?). by apply wp_ret. }
  apply wp_bind. eapply wp_mono; [eapply (mncc_leg_matches_st w c i r); eauto|]. intros b w1 (-> & Hb').
  destruct b.
  { destruct Hb' as [Hb' _]. destruct (Hb' eq_refl) as (l & -> & ?). by apply wp_ret. }
  eapply wp_mono; [apply IH; intros c' ?; apply Hcs; by right|].
  intros o w' (-> & Ho). split; [done|]. destruct o; [done|].
  intros c' i' r' l [->|Hin]%elem_of_cons Hc' Hir; [|by eapply Ho].
  simplify_eq. intros Hl. destruct Hir as [-> | ->]; naive_solver.
Qed.

(** The search finds a leg with the callref, unless no live leg has it. *)
Lemma mncc_find_leg_st w : st s cn w ->
  wp (mncc_find_leg callref)
     (fun o w' => w' = w /\
        match o with Some l => has_callref l | None => forall l, ~ has_callref l end) w.
Proof using Hwf.
  intros Hst. unfold mncc_find_leg. wp_seq cs w1 (_ & -> & ->).
  eapply wp_mono; [apply mncc_find_leg_in_st; [done|]|].
  { intros c. apply (wf_list s Hwf). }
  intros o w' (-> & Ho). split; [done|]. destruct o; [done|].
  intros l Hl. pose proof Hl as (sh & d & Hsh & _).
  destruct (wf_leg s Hwf l sh Hsh) as (_ & _ & i & r & Hc & Hir).
  eapply (Ho (sh_call sh) i r l); eauto. apply (wf_list s Hwf). eauto.
Qed.

Lemma mncc_find_leg_not_released_st w : st s cn w ->
  wp (mncc_find_leg_not_released callref)
     (fun o w' => w' = w /\ match o with
        | Some l => has_callref l /\ exists x, legs w !! l = Some x /\ in_release (base x) = false
        | None => True end) w.
Proof using Hwf.
  intros Hst. unfold mncc_find_leg_not_released. apply wp_bind.
  eapply wp_mono; [by apply mncc_find_leg_st|]. intros [l|] w1 (-> & Ho); [|done].
  pose proof Ho as (sh & d & Hsh & _). wp_seq x w1 (_ & -> & Hx & _).
  apply wp_ret. split; [done|]. destruct (in_release (base x)) eqn:?; eauto.
Qed.
End find.

(** ** Sending, while a write on an open socket succeeds *)
Section send_st.
Context {E : Env} {HW : WritesOk E} (disc : MW unit).
Context (s : skel) (cn : mncc_connection).

Lemma close_closed_st w : st s cn w -> cn_fd cn < 0 ->
  wp (close_connection disc) (fun _ w' => st s cn w') w.
Proof using.
  intros Hst Hfd. unfold close_connection. wp_seq c w1 (_ & -> & ->).
  destruct (Z.ltb_spec (cn_fd cn) 0); [done|lia].
Qed.

(** The store after a write: the message in the trace, one decision taken. *)
Definition wrote (a : action) (w : world) : world := set_out (fun o => o ++ [a]) (set_n_io S w).

Lemma wrote_st a w : st s cn w -> st s cn (wrote a w).
Proof using. intros Hst. exact (st_set_out (st_set_n_io Hst S) _). Qed.

(** The common text of the two write functions: a failing write is on a closed
    connection, so nothing else happens. *)
Lemma write_and_check {A} w (a : Z -> action) (sz : Z) (k : Z -> MW A) (Q : A -> world -> Prop) :
  (forall rc, (0 <= cn_fd (conn w) -> rc = sz) -> wp (k rc) Q (wrote (a rc) w)) ->
  wp (n <- tick ;; c <- gets conn ;;
      let rc := write_rc n (cn_fd c) sz in
      emit (a rc) ;; when (negb (rc =? sz)) (close_connection disc) ;; k rc) Q w.
Proof using HW.
  intros Hk. unfold tick, close_connection. apply wp_bind. cbn. apply wp_bind. cbn.
  apply wp_bind. cbn. apply wp_bind.
  destruct (Z.eqb_spec (write_rc (n_io w) (cn_fd (conn w)) sz) sz) as [Heq|Hne]; simpl.
  - by apply Hk.
  - assert (cn_fd (conn w) < 0) as Hfd.
    { destruct (Z.ltb_spec (cn_fd (conn w)) 0); [done|]. destruct Hne. by apply write_open. }
    apply wp_bind, wp_gets. simpl. destruct (Z.ltb_spec (cn_fd (conn w)) 0); [|lia].
    apply wp_ret, Hk. lia.
Qed.

Lemma mncc_write_wrote w m :
  wp (mncc_write disc m)
     (fun rc w' => w' = wrote (TxMncc m rc) w /\ (0 <= cn_fd (conn w) -> rc = sizeof_gsm_mncc)) w.
Proof using HW. unfold mncc_write. apply write_and_check. intros. by apply wp_ret. Qed.

Lemma mncc_rtp_write_wrote w r :
  wp (mncc_rtp_write disc r)
     (fun rc w' => w' = wrote (TxRtp r rc) w /\ (0 <= cn_fd (conn w) -> rc = sizeof_rtp)) w.
Proof using HW. unfold mncc_rtp_write. apply write_and_check. intros. by apply wp_ret. Qed.

Lemma mncc_write_st w m : st s cn w ->
  wp (mncc_write disc m) (fun rc w' => st s cn w' /\ (0 <= cn_fd cn -> rc = sizeof_gsm_mncc)) w.
Proof using HW.
  intros Hst. eapply wp_mono; [apply mncc_write_wrote|]. cbv beta. intros rc w' [-> Hrc].
  rewrite (st_conn _ _ _ Hst) in Hrc. split; [by apply wrote_st|done].
Qed.

Lemma mncc_rtp_write_st w r : st s cn w ->
  wp (mncc_rtp_write disc r) (fun rc w' => st s cn w' /\ (0 <= cn_fd cn -> rc = sizeof_rtp)) w.
Proof using HW.
  intros Hst. eapply wp_mono; [apply mncc_rtp_write_wrote|]. cbv beta. intros rc w' [-> Hrc].
  rewrite (st_conn _ _ _ Hst) in Hrc. split; [by apply wrote_st|done].
Qed.

Lemma mncc_rtp_send_st w t cr sdp : st s cn w ->
  wp (mncc_rtp_send disc t cr sdp) (fun _ w' => st s cn w') w.
Proof using HW. intros Hst. eapply wp_mono; [by apply mncc_rtp_write_st|]. by intros ? ? []. Qed.

Lemma send_rtp_connect_st w l other sh sh' d cr : st s cn w ->
  sk_legs s !! l = Some sh -> sh_ext sh = ShMncc d cr -> sk_legs s !! other = Some sh' ->
  wp (send_rtp_connect disc l other) (fun _ w' => st s cn w') w.
Proof using HW.
  intros Hst Hl He Ho. unfold send_rtp_connect. wp_seq m w1 (_ & -> & _).
  wp_seq o w2 (_ & -> & _). apply wp_bind. eapply wp_mono; [by apply mncc_rtp_write_st|].
  intros rc w3 [Hst3 Hrc]. destruct (Z.eqb_spec rc sizeof_rtp) as [|Hne]; simpl; [done|].
  wp_seq x w4 (_ & -> & _). apply wp_bind. eapply wp_mono; [apply close_closed_st; [done|lia]|].
  by intros.
Qed.

Lemma start_cmd_timer_st w l sh d cr n : st s cn w -> sk_legs s !! l = Some sh -> sh_ext sh = ShMncc d cr ->
  wp (start_cmd_timer l n) (fun _ w' => st s cn w') w.
Proof using.
  intros Hst Hl He. unfold start_cmd_timer. wp_seq u w1 Hst1.
  eapply timer_schedule_st; eauto. unfold is_mncc. by rewrite He.
Qed.

Lemma stop_cmd_timer_st w l sh d cr n : st s cn w -> sk_legs s !! l = Some sh -> sh_ext sh = ShMncc d cr ->
  wp (stop_cmd_timer l n) (fun _ w' => st s cn w') w.
Proof using.
  intros Hst Hl He. unfold stop_cmd_timer. wp_seq m w1 (_ & -> & _).
  destruct (_ =? _); [|done]. eapply wp_mono; [by eapply timer_del_st|]. by intros ? ? [].
Qed.

Context (Hwf : wfsk s).

Lemma mncc_fill_header_st w m t cr : st s cn w ->
  (t = MNCC_DISC_REQ \/ t = MNCC_REL_REQ -> exists l, has_callref s cr l) ->
  wp (mncc_fill_header m t cr) (fun _ w' => st s cn w') w.
Proof using Hwf.
  intros Hst Ht. unfold mncc_fill_header.
  destruct ((MNCC_DISC_REQ =? t) || (MNCC_REL_REQ =? t)) eqn:Hb; [|done].
  destruct Ht as [l Hl].
  { apply orb_true_iff in Hb as [Hb|Hb]; apply Z.eqb_eq in Hb; auto. }
  apply wp_bind. eapply wp_mono; [by apply (mncc_find_leg_st s cn)|].
  intros [l'|] w1 (-> & Ho); [|by edestruct Ho].
  destruct Ho as (sh & d & Hsh & _).
  apply wp_bind. eapply wp_some_or; [done|]. wp_seq x w2 (_ & -> & _). done.
Qed.

Lemma mncc_send_st w t cr : st s cn w ->
  (t = MNCC_DISC_REQ \/ t = MNCC_REL_REQ -> exists l, has_callref s cr l) ->
  wp (mncc_send disc t cr) (fun _ w' => st s cn w') w.
Proof using HW Hwf.
  intros Hst Ht. unfold mncc_send. apply wp_bind.
  eapply wp_mono; [by apply mncc_fill_header_st|]. intros m w1 Hst1.
  eapply wp_mono; [by apply mncc_write_st|]. by intros ? ? [].
Qed.

(** Messages other than the two that carry a cause need no leg. *)
Lemma mncc_send_plain_st w t cr : st s cn w -> t <> MNCC_DISC_REQ -> t <> MNCC_REL_REQ ->
  wp (mncc_send disc t cr) (fun _ w' => st s cn w') w.
Proof using HW Hwf. intros Hst H1 H2. apply mncc_send_st; [done|]. intros [?|?]; done. Qed.
End send_st.

(** ** The MNCC leg's callbacks *)
Section leg_st.
Context {E : Env} {HW : WritesOk E} (disc : MW unit).
Context (s : skel) (cn : mncc_connection) (Hwf : wfsk s).
Context (l : ptr) (sh : lshape) (d : mncc_dir) (cr : Z).
Context (Hl : sk_legs s !! l = Some sh) (He : sh_ext sh = ShMncc d cr).

Lemma mncc_type : sh_type sh = CALL_TYPE_MNCC.
Proof using Hwf Hl He.
  destruct (wf_leg s Hwf l sh Hl) as [Htag _]. unfold tag_ok in Htag. by rewrite He in Htag.
Qed.

Lemma mncc_self : has_callref s cr l.
Proof using Hl He. exists sh, d. auto. Qed.

Lemma mncc_leg_release_st w : st s cn w ->
  wp (mncc_leg_release l) (fun _ w' => st (sk_release l s) cn w') w.
Proof using Hwf Hl He.
  intros Hst. unfold mncc_leg_release. wp_seq u w1 (Hst1 & Ht).
  eapply wp_mono; [eapply (call_leg_release_st s cn l sh Hwf Hl); [|exact Ht]|].
  - erewrite sk_unbind_none; [done|done|done|]. intros ? ?. by rewrite He.
  - by intros ? ? [].
Qed.

Lemma request_release_st w await msg : st s cn w ->
  wp (request_release disc l await msg) (fun _ w' => st s cn w') w.
Proof using HW Hwf Hl He.
  intros Hst. unfold request_release. wp_seq u w1 Hst1.
  wp_use start_cmd_timer_st as u2 w2 Hst2.
  wp_seq m w3 (_ & -> & _ & -> & _).
  wp_use (mncc_send_st disc) as rc w4 Hst4; eauto using mncc_self.
Qed.

(** Without a usable connection the leg is gone at once, and nothing is sent. *)
Lemma mncc_call_leg_release_down w : st s cn w -> cn_state cn <> MNCC_READY ->
  wp (mncc_call_leg_release disc l) (fun _ w' => st (sk_release l s) cn w') w.
Proof using Hwf Hl He.
  intros Hst Hn. unfold mncc_call_leg_release.
  wp_use assert_type_st as u w0 [_ ->]; [by apply mncc_type|].
  wp_seq m w1 (_ & -> & _). wp_seq c w2 (_ & -> & ->).
  rewrite bool_decide_eq_false_2 by done. simpl. by apply mncc_leg_release_st.
Qed.

(** The leg is asked to release, or gone; without a connection it is gone. *)
Lemma mncc_call_leg_release_st w : st s cn w ->
  wp (mncc_call_leg_release disc l)
     (fun _ w' => exists s', st s' cn w' /\ released s l s'
        /\ (cn_state cn <> MNCC_READY -> s' = sk_release l s)) w.
Proof using HW Hwf Hl He.
  intros Hst. unfold mncc_call_leg_release. wp_use assert_type_st as u w0 [_ ->]; [by apply mncc_type|].
  wp_seq m w1 (_ & -> & Hd & -> & _). wp_seq c w2 (_ & -> & ->).
  assert (forall w1, st s cn w1 -> wp (mncc_leg_release l) (fun _ w' => exists s', st s' cn w'
    /\ released s l s' /\ (cn_state cn <> MNCC_READY -> s' = sk_release l s)) w1) as Hdrop.
  { intros w1 Hst1. eapply wp_mono; [by apply mncc_leg_release_st|].
    intros u1 w' ?. exists (sk_release l s). unfold released. auto. }
  destruct (bool_decide (cn_state cn = MNCC_READY)) eqn:Hready; simpl; [|by apply Hdrop].
  apply bool_decide_eq_true in Hready.
  assert (forall w1 a b, st s cn w1 -> wp (request_release disc l a b) (fun _ w' => exists s', st s' cn w'
    /\ released s l s' /\ (cn_state cn <> MNCC_READY -> s' = sk_release l s)) w1) as Hreq.
  { intros w1 a b Hst1. eapply wp_mono; [by apply request_release_st|].
    intros u1 w' ?. exists s. unfold released. split_and!; auto. by intros []. }
  destruct (m_state m); [case_decide|..]; auto.
  wp_use (mncc_send_plain_st disc) as rc w3 Hst3; [discriminate..|].
  wp_use timer_del_st as u4 w4 [Hst4 _]. by apply Hdrop.
Qed.

Lemma mncc_call_leg_connect_st w l' : st s cn w -> other_leg s l sh l' ->
  wp (mncc_call_leg_connect disc l) (fun _ w' => st s cn w') w.
Proof using HW Hwf Hl He.
  intros Hst Ho. pose proof Ho as (sh' & Hl' & _). unfold mncc_call_leg_connect. wp_use assert_type_st as u w0 [_ ->]; [by apply mncc_type|].
  wp_use call_leg_other_Some as o w1 (_ & -> & ->).
  apply wp_bind, wp_some_or with (a := l'); [done|].
  wp_use (send_rtp_connect_st disc) as ok w2 Hst2. destruct ok; [|done].
  wp_use start_cmd_timer_st as u3 w3 Hst3.
  wp_seq m w4 (_ & -> & _).
  wp_use (mncc_send_plain_st disc) as rc w5 Hst5; [discriminate..|done].
Qed.

Lemma mncc_call_leg_ring_st w : st s cn w ->
  wp (mncc_call_leg_ring disc l) (fun _ w' => st s cn w') w.
Proof using HW Hwf Hl He.
  intros Hst. unfold mncc_call_leg_ring. wp_use assert_type_st as u w0 [_ ->]; [by apply mncc_type|].
  wp_seq m w1 (_ & -> & _). apply wp_bind.
  eapply wp_mono; [apply (mncc_fill_header_st s cn Hwf); [done|]; intros [?|?]; discriminate|].
  cbv beta. intros h w2 Hst2. wp_use (mncc_write_st disc s cn) as rc w3 [Hst3 _].
  wp_use call_leg_other_st as o w4 (_ & -> & Ho). destruct o as [other|]; [|done].
  destruct Ho as (sh' & Hl' & _). wp_seq x w5 (_ & -> & _).
  destruct (_ && _); [|done]. by wp_use (send_rtp_connect_st disc) as ok w6 Hst6.
Qed.
End leg_st.

(** ** The remote leg towards the MSC *)
Section remote_st.
Context {E : Env} {HE : EnvLaws E} {HW : WritesOk E} (disc : MW unit).
Context (s : skel) (cn : mncc_connection) (Hwf : wfsk s).

Lemma add_gcr_st s' w cl m : st s' cn w ->
  wp (add_gcr cl m) (fun _ w' => st s' cn w' /\ timers w' = timers w) w.
Proof using HE.
  intros Hst. unfold add_gcr, tick, wp, bind, gets, modify, ret.
  destruct (gcr_present cl); simpl; [|done].
  pose proof (osmo_enc_gcr_fits (gcr cl)) as [Hlo Hhi].
  destruct (osmo_enc_gcr (gcr cl)) as [rc data]. simpl in *.
  rewrite (proj2 (Z.leb_le _ _) Hlo), (proj2 (Z.leb_le _ _) Hhi). destruct (_ && _); simpl;
    (split; [|done]); apply (st_set_n_io Hst).
Qed.

(** The owners of the route strings are live legs, and the number is there. *)
Definition route_ok (cl : call) : Prop :=
  (forall p t, source cl = Some (p, t) -> is_Some (sk_legs s !! p)) /\
  (exists p t, dest cl = Some (p, t) /\ is_Some (sk_legs s !! p)).

(** The shape of the new leg. *)
Definition mncc_mt_shape (c : ptr) (n : Z) : lshape :=
  LShape CALL_TYPE_MNCC c mncc_leg_ops (ShMncc MNCC_DIR_MT n).

(** Linking the new leg. *)
Lemma link_remote_st s0 w c i sh : st (sk_alloc sh s0) cn w -> sk_calls s0 !! c = Some (Some i, None) ->
  wp (upd_call c (set_remote (Some (sk_next s0)))) (fun _ w' => st (sk_attach c i sh None s0) cn w') w.
Proof using.
  intros Hst Hc. unfold upd_call. wp_use deref_call_st as x w1 (_ & -> & _ & Hi & _).
  apply wp_modify. pose proof (st_set_call Hst c (set_remote (Some (sk_next s0)) x)) as Hst'.
  unfold call_shape in Hst'. simpl in Hst'. by rewrite Hi in Hst'.
Qed.

(** The SDP of the initial leg goes into the SETUP_REQ once. *)
Lemma take_initial_sdp_st s' w i sh m : st s' cn w -> sk_legs s' !! i = Some sh ->
  wp (x <- deref_leg i ;;
      if rx_sdp_changed (base x) then
        upd_base i (fun b => set_rx_sdp (rx_sdp b) false b) ;;
        ret (set_mn_sdp (osmo_strlcpy 1024 (rx_sdp (base x))) m)
      else ret m) (fun _ w' => st s' cn w' /\ timers w' = timers w) w.
Proof using.
  intros Hst Hl. wp_seq x w1 (_ & -> & Hx & Hsh). destruct (rx_sdp_changed _); [|done].
  unfold upd_base, upd_leg, deref_leg, wp, bind, gets, modify, some_or, ret. simpl.
  rewrite Hx. simpl. split; [|done]. eapply st_upd_leg; [done..|]. by rewrite <- Hsh.
Qed.

Lemma mncc_create_remote_leg_st w c i cl : st s cn w -> calls w !! c = Some cl ->
  initial cl = Some i -> remote cl = None -> route_ok cl -> is_Some (sk_legs s !! i) ->
  wp (mncc_create_remote_leg disc c)
     (fun rc w' => if rc =? 0 then exists n, st (sk_attach c i (mncc_mt_shape c n) None s) cn w'
                   else st s cn w' \/ st (sk_skip s) cn w') w.
Proof using HE HW Hwf.
  intros Hst Hcl Hi Hr [Hsrc (pd & td & Hdst & Hpd)] [shi Hli].
  assert (sk_calls s !! c = Some (Some i, None)) as Hc.
  { rewrite <- (st_sk _ _ _ Hst). simpl. rewrite lookup_fmap, Hcl. simpl. unfold call_shape. congruence. }
  pose proof (wf_fresh_leg s (sk_next s) Hwf ltac:(lia)) as Hfresh.
  unfold mncc_create_remote_leg. wp_use deref_call_st as cl' w1 (_ & -> & Hcl' & _). simplify_eq.
  wp_use talloc_leg_st as o w2 (_ & Hts & Ho). destruct o as [l|]; [|apply wp_ret; by left].
  destruct Ho as [-> Hst2]. set (s2 := sk_alloc _ s) in *.
  assert (forall p, is_Some (sk_legs s !! p) -> is_Some (sk_legs s2 !! p)) as Hmono.
  { intros p Hp. simpl. destruct (decide (sk_next s = p)) as [<-|]; [rewrite lookup_insert_eq; eauto|].
    by rewrite lookup_insert_ne. }
  assert (sk_next s ∉ timers w2) as Hnt.
  { rewrite Hts. intros Ht. destruct (st_timers _ _ _ Hst _ Ht) as (? & ? & _). congruence. }
  apply wp_bind, wp_gets. wp_use read_str_st as src w3 (_ & -> & _).
  wp_use read_str_st as dst w3 (_ & -> & ->); [intros p t ?; simplify_eq; eauto|].
  wp_use add_gcr_st as m w3 (Hst3 & Hts3). rewrite Hi.
  wp_use take_initial_sdp_st as m' w4 (Hst4 & Hts4); [simpl; rewrite lookup_insert_ne; [exact Hli|congruence]|].
  apply wp_bind. eapply wp_mono; [apply mncc_write_wrote|]. cbv beta. intros rc w5 [-> Hrc].
  assert (st s2 cn (wrote (TxMncc m' rc) w4)) as Hst5 by by apply wrote_st.
  destruct (Z.eqb_spec rc sizeof_gsm_mncc); simpl.
  - wp_use link_remote_st as u w6 Hst6. apply wp_ret.
    by exists (call_id cl).
  - wp_use free_alloc_st as u w6 Hst6; [simpl; congruence|].
    apply wp_ret. simpl. auto.
Qed.
End remote_st.

(** ** What the MNCC side sends *)
Section spec.
Context {E : Env} {HW : WritesOk E}.

(** A message with the cause of a leg. *)
Definition with_cause (t cr v : Z) : gsm_mncc :=
  set_mn_cause (Cause GSM48_CAUSE_CODING_GSM GSM48_CAUSE_LOC_PUN_S_LU v)
    (add_field MNCC_F_CAUSE (set_mn_header t cr gsm_mncc0)).

(** What a release sends, and the answer it then waits for ([None]: the leg is
    gone). *)
Definition release_message (b : call_leg) (m : mncc_leg) : gsm_mncc :=
  match m_state m, m_dir m with
  | MNCC_CC_INITIAL, MNCC_DIR_MO => set_mn_header MNCC_REJ_REQ (m_callref m) gsm_mncc0
  | MNCC_CC_INITIAL, MNCC_DIR_MT => with_cause MNCC_REL_REQ (m_callref m) (cause b)
  | _, _ => with_cause MNCC_DISC_REQ (m_callref m) (cause b)
  end.
Definition release_await (m : mncc_leg) : option Z :=
  match m_state m, m_dir m with
  | MNCC_CC_INITIAL, MNCC_DIR_MO => None
  | MNCC_CC_INITIAL, MNCC_DIR_MT => Some MNCC_REL_CNF
  | _, _ => Some MNCC_REL_IND
  end.

(** No other live MNCC leg has the callref. *)
Definition callref_unique (w : world) (l : ptr) (cr : Z) : Prop :=
  forall l' b m, legs w !! l' = Some (Leg b (XMncc m)) -> m_callref m = cr -> l' = l.

Lemma unique_has_callref w l cr l' : callref_unique w l cr -> has_callref (sk w) cr l' -> l' = l.
Proof.
  intros Hu (sh & d & Hl' & He). simpl in Hl'. apply fmap_lookup_inv in Hl' as ([b [m|x]] & Hx & ->); simpl in He.
  - injection He as _ Hcr. by eapply Hu.
  - done.
Qed.

Lemma find_leg_unique w l b m : wf w -> legs w !! l = Some (Leg b (XMncc m)) ->
  callref_unique w l (m_callref m) -> mncc_find_leg (m_callref m) w = Ret (Some l) w.
Proof.
  intros Hw Hl Hu. pose proof (mncc_find_leg_st (sk w) (conn w) (w_sk w Hw) (m_callref m) w (wf_st w Hw)) as H.
  apply wp_returns in H as (o & w' & -> & -> & Ho). f_equal. destruct o as [l'|].
  - f_equal. by eapply unique_has_callref.
  - destruct (Ho l). exists (shape (Leg b (XMncc m))), (m_dir m). simpl. by rewrite lookup_fmap, Hl.
Qed.

(** Writing the header of a message that carries the cause of leg [l]. *)
Lemma fill_header_cause w l b m t : wf w -> legs w !! l = Some (Leg b (XMncc m)) ->
  callref_unique w l (m_callref m) -> t = MNCC_DISC_REQ \/ t = MNCC_REL_REQ ->
  mncc_fill_header gsm_mncc0 t (m_callref m) w = Ret (with_cause t (m_callref m) (cause b)) w.
Proof.
  intros Hw Hl Hu Ht. unfold mncc_fill_header.
  assert ((MNCC_DISC_REQ =? t) || (MNCC_REL_REQ =? t) = true) as -> by by destruct Ht as [-> | ->].
  run_step (find_leg_unique w l b m Hw Hl Hu). unfold some_or at 1.
  rewrite bind_ret_l. by run_step (deref_leg_eq w l _ Hl).
Qed.

Lemma wf_same_sk w w' : wf w -> sk w' = sk w -> conn w' = conn w -> timers w' ⊆ timers w ->
  wf w'.
Proof.
  intros [Hwf Ht Hok] Hs Hc Hts. split; [by rewrite Hs| |by rewrite Hc].
  intros l Hl. rewrite Hs. apply Ht. set_solver.
Qed.

Lemma sk_upd_leg w l x y : legs w !! l = Some x -> shape y = shape x ->
  sk (set_legs (<[l := y]>) w) = sk w.
Proof. intros Hl Hs. unfold sk. simpl. f_equal. by eapply fmap_insert_same. Qed.

(** Marking a leg and arming its timer. *)
Lemma mark_run w l b m await : wf w -> legs w !! l = Some (Leg b (XMncc m)) ->
  exists w', (forall A (k : MW A), (upd_base l (set_in_release true) ;; start_cmd_timer l await ;; k) w = k w') /\
    st (sk w) (conn w) w' /\ out w' = out w /\ calls w' = calls w /\ n_io w' = n_io w /\
    timers w' = {[l]} ∪ timers w /\
    legs w' = <[l := Leg (set_in_release true b) (XMncc (set_m_rsp_wanted await m))]> (legs w).
Proof using.
  intros Hw Hl. set (b1 := set_in_release true b). set (m1 := set_m_rsp_wanted await m).
  assert (sk_legs (sk w) !! l = Some (shape (Leg b (XMncc m)))) as Hsl by (simpl; by rewrite lookup_fmap, Hl).
  pose proof (st_upd_leg _ _ w l (Leg b1 (XMncc m)) _ (wf_st w Hw) Hsl eq_refl) as Hst1.
  set (w1 := set_legs _ w) in *. assert (legs w1 !! l = Some (Leg b1 (XMncc m))) as Hl1 by apply lookup_insert_eq.
  pose proof (st_upd_leg _ _ w1 l (Leg b1 (XMncc m1)) _ Hst1 Hsl eq_refl) as Hst2.
  set (w2 := set_legs _ w1) in *. assert (legs w2 !! l = Some (Leg b1 (XMncc m1))) as Hl2 by apply lookup_insert_eq.
  exists (set_timers (fun t => {[l]} ∪ t) w2). split_and!; try done.
  - intros A k. unfold start_cmd_timer. run_step (upd_base_eq w l (set_in_release true) b _ Hl).
    rewrite bind_assoc. run_step (upd_mncc_eq w1 l (set_m_rsp_wanted await) b1 m Hl1).
    by run_step (timer_schedule_eq w2 l _ Hl2).
  - apply st_set_timers; [done|]. intros l' [->%elem_of_singleton|Hl']%elem_of_union; [eexists; by split|].
    by apply (st_timers _ _ _ Hst2).
  - simpl. by rewrite insert_insert_eq.
Qed.

Lemma request_release_run disc w l b m await t : wf w -> legs w !! l = Some (Leg b (XMncc m)) ->
  0 <= cn_fd (conn w) -> callref_unique w l (m_callref m) -> t = MNCC_DISC_REQ \/ t = MNCC_REL_REQ ->
  exists w', request_release disc l await t w = Ret tt w' /\
    out w' = out w ++ [TxMncc (with_cause t (m_callref m) (cause b)) sizeof_gsm_mncc] /\
    legs w' = <[l := Leg (set_in_release true b) (XMncc (set_m_rsp_wanted await m))]> (legs w) /\
    calls w' = calls w /\ timers w' = {[l]} ∪ timers w.
Proof.
  intros Hw Hl Hfd Hu Ht. destruct (mark_run w l b m await Hw Hl) as (w1 & Hrun & Hst & Hout & Hc & _ & Hts & Hls).
  unfold request_release. rewrite Hrun. set (b1 := set_in_release true b) in *. set (m1 := set_m_rsp_wanted await m) in *.
  assert (legs w1 !! l = Some (Leg b1 (XMncc m1))) as Hl1 by by rewrite Hls, lookup_insert_eq.
  pose proof (st_wf _ _ _ Hst (w_sk w Hw) (w_conn w Hw)) as Hw1.
  assert (callref_unique w1 l (m_callref m1)) as Hu1.
  { intros l' b' m' Hl'. rewrite Hls in Hl'. destruct (decide (l' = l)) as [->|]; [done|].
    rewrite lookup_insert_ne in Hl' by done. by apply (Hu l' b' m' Hl'). }
  run_step (as_mncc_eq w1 l b1 m1 Hl1). unfold mncc_send. rewrite bind_assoc.
  run_step (fill_header_cause w1 l b1 m1 t Hw1 Hl1 Hu1 Ht).
  pose proof (mncc_write_wrote disc w1 (with_cause t (m_callref m1) (cause b1))) as Hwr.
  apply wp_returns in Hwr as (rc & w' & Hrun1 & -> & Hrc). run_step Hrun1.
  rewrite Hrc by by rewrite (st_conn _ _ _ Hst). eexists. split; [reflexivity|]. simpl. by rewrite Hout.
Qed.

Lemma mncc_release_run disc w l b m : wf w -> legs w !! l = Some (Leg b (XMncc m)) ->
  cn_state (conn w) = MNCC_READY -> callref_unique w l (m_callref m) ->
  exists w', mncc_call_leg_release disc l w = Ret tt w' /\
    out w' = out w ++ [TxMncc (release_message b m) sizeof_gsm_mncc] /\
    match release_await m with
    | None => sk w' = sk_release l (sk w)
    | Some t =>
        legs w' = <[l := Leg (set_in_release true b) (XMncc (set_m_rsp_wanted t m))]> (legs w) /\
        calls w' = calls w /\ timers w' = {[l]} ∪ timers w
    end.
Proof.
  intros Hw Hl Hr Hu. pose proof (wf_st w Hw) as Hst. pose proof Hw as [Hwf _ Hok].
  set (sh := shape (Leg b (XMncc m))).
  assert (sk_legs (sk w) !! l = Some sh) as Hsl by (simpl; by rewrite lookup_fmap, Hl).
  assert (0 <= cn_fd (conn w)) as Hfd.
  { destruct (Z.leb_spec 0 (cn_fd (conn w))) as [|Hn]; [done|]. apply (co_state _ Hok) in Hn. congruence. }
  assert (lg_type b = CALL_TYPE_MNCC) as Hty.
  { destruct (wf_leg _ Hwf l sh Hsl) as [Htag _]. exact Htag. }
  unfold mncc_call_leg_release. run_step (assert_type_eq w l _ CALL_TYPE_MNCC Hl Hty).
  run_step (as_mncc_eq w l b m Hl). unfold gets at 1. unfold bind at 1. rewrite bool_decide_eq_true_2 by done. simpl negb. cbv iota.
  unfold release_message, release_await. destruct (m_state m); [destruct (m_dir m) eqn:Hd|..]; simpl;
    try (eapply request_release_run; eauto).
  pose proof (mncc_write_wrote disc w (set_mn_header MNCC_REJ_REQ (m_callref m) gsm_mncc0)) as Hwr.
  apply wp_returns in Hwr as (rc & w1 & Hrun & -> & Hrc). rewrite (Hrc Hfd) in Hrun.
  set (w1 := wrote _ w) in *. assert (st (sk w) (conn w) w1) as Hst1 by by apply wrote_st.
  unfold mncc_send. rewrite bind_assoc. unfold mncc_fill_header. simpl orb. cbv iota. rewrite bind_ret_l.
  run_step Hrun.
  assert (wp (timer_del l ;; mncc_leg_release l) (fun _ w' => st (sk_release l (sk w)) (conn w) w') w1) as H.
  { wp_use timer_del_st as u w2 [Hst2 _]. by eapply mncc_leg_release_st. }
  apply (wp_keeps out) in H.
  2: { unfold mncc_leg_release, timer_del, deref_leg. keeps. }
  apply wp_returns in H as ([] & w' & Heq & Hst' & Hout). exists w'.
  split_and!; [exact Heq|done|apply (st_sk _ _ _ Hst')].
Qed.
End spec.
