(* ===== verification/App.v ===== *)
(** * Application glue (src/app.c) and the dispatch through leg callbacks

    Losing the MNCC connection releases every call with an MNCC leg, and
    releasing a leg may send on (and so lose) the connection: the recursion is
    unrolled [n] times by [on_disconnect].  One unrolling is enough, because the
    connection is marked disconnected before the callback runs. *)
From S2P Require Import Prelude Effect Codec Protocol Lib State Call Sdp SipLeg MnccConn Skel Rules.

(** ** Definitions *)

(** The element after [c] in the list. *)
Fixpoint next_in (cs : list ptr) (c : ptr) : option ptr :=
  match cs with
  | [] => None
  | c' :: cs' => if decide (c' = c) then head cs' else next_in cs' c
  end.

Section app.
Context {E : Env}.

Definition is_mncc_leg (o : option ptr) : MW bool :=
  match o with
  | None => ret false
  | Some l => x <- deref_leg l ;; ret (bool_decide (lg_type (base x) = CALL_TYPE_MNCC))
  end.

(** [if (leg) leg->release_call (leg)] *)
Definition release_opt (release : ptr -> MW unit) (o : option ptr) : MW unit :=
  match o with None => ret tt | Some l => release l end.

(** The body of the loop of [app_mncc_disconnected]. *)
Definition disconnect_call (release : ptr -> MW unit) (c : ptr) : MW unit :=
  cl <- deref_call c ;;
  mi <- is_mncc_leg (initial cl) ;;
  mr <- is_mncc_leg (remote cl) ;;
  if mi || mr then
    release_opt release (initial cl) ;; release_opt release (remote cl)
  else ret tt.

(** [llist_for_each_entry_safe]: the successor is read before the body runs. *)
Fixpoint disconnect_loop (release : ptr -> MW unit) (fuel : nat) (cur : option ptr) : MW unit :=
  match cur with
  | None => ret tt
  | Some c =>
      match fuel with
      | O => crash OutOfFuel
      | S fuel' =>
          _ <- deref_call c ;;
          cs <- gets g_call_list ;;
          disconnect_call release c ;;
          disconnect_loop release fuel' (next_in cs c)
      end
  end.

Definition app_mncc_disconnected (release : ptr -> MW unit) : MW unit :=
  cs <- gets g_call_list ;;
  disconnect_loop release (length cs) (head cs).

(** [leg->release_call (leg)], given what [conn->on_disconnect] does. *)
Definition release_leg (on_disconnect : MW unit) (l : ptr) : MW unit :=
  x <- deref_leg l ;;
  f <- some_or NullCall (release_call (ops (base x))) ;;
  match f with
  | FN_mncc_call_leg_release => mncc_call_leg_release on_disconnect l
  | FN_sip_release_call => sip_release_call l
  | _ => crash TypeConfusion
  end.

Fixpoint on_disconnect (n : nat) : MW unit :=
  match n with
  | O => crash OutOfFuel
  | S n' => app_mncc_disconnected (release_leg (on_disconnect n'))
  end.

(** The callback [app_setup] installs, with enough unrollings. *)
Definition disconnected : MW unit := on_disconnect 1.

Definition app_setup : MW unit :=
  modify (set_conn (fun c => Conn (cn_state c) (cn_fd c) (cn_reconnect c) true)).

(** [leg->release_call (leg)] *)
Definition call_release (l : ptr) : MW unit := release_leg disconnected l.

(** [update_rtp] (src/mncc.c) *)
Definition update_rtp (l : ptr) : MW unit :=
  x <- deref_leg l ;;
  o <- call_leg_other l ;;
  match lg_type (base x) with
  | CALL_TYPE_MNCC =>
      match o with
      | None => call_release l
      | Some other => _ <- send_rtp_connect disconnected l other ;; ret tt
      end
  | CALL_TYPE_SIP =>
      match o with
      | None => call_release l
      | Some m => _ <- send_rtp_connect disconnected m l ;; ret tt
      end
  | CALL_TYPE_NONE => crash AssertFail
  end.

(** A call through one of the [void (*) (struct call_leg *)] members. *)
Definition invoke (f : option leg_fn) (l : ptr) : MW unit :=
  g <- some_or NullCall f ;;
  match g with
  | FN_mncc_call_leg_connect => mncc_call_leg_connect disconnected l
  | FN_mncc_call_leg_ring => mncc_call_leg_ring disconnected l
  | FN_mncc_call_leg_release => mncc_call_leg_release disconnected l
  | FN_update_rtp => update_rtp l
  | FN_sip_release_call => sip_release_call l
  | FN_sip_ring_call => sip_ring_call l
  | FN_sip_connect_call => sip_connect_call l
  | FN_sip_hold_call => sip_hold_call l
  | FN_sip_retrieve_call => sip_retrieve_call l
  | FN_sip_dtmf_call => crash TypeConfusion
  end.

(** [other->ring_call (other)] and so on: the pointer is read from the leg. *)
Definition invoke_member (member : leg_ops -> option leg_fn) (l : ptr) : MW unit :=
  x <- deref_leg l ;; invoke (member (ops (base x))) l.

(** [if (other->dtmf) other->dtmf (other, keypad)] *)
Definition invoke_dtmf (l : ptr) (keypad : Z) : MW unit :=
  x <- deref_leg l ;;
  match dtmf (ops (base x)) with
  | None => ret tt
  | Some FN_sip_dtmf_call => sip_dtmf_call l keypad
  | Some _ => crash TypeConfusion
  end.

(** ** Routing *)

(** [call->initial->release_call (call->initial)] *)
Definition release_initial (c : ptr) : MW unit :=
  cl <- deref_call c ;;
  i <- some_or NullDeref (initial cl) ;;
  call_release i.

Definition route_to_sip (c : ptr) : MW unit :=
  rc <- sip_create_remote_leg c ;;
  if negb (rc =? 0) then release_initial c else ret tt.

Definition route_to_mncc (c : ptr) : MW unit :=
  rc <- mncc_create_remote_leg disconnected c ;;
  if negb (rc =? 0) then release_initial c else ret tt.

Definition app_route_call (c : ptr) (src dst : option (ptr * string)) : MW unit :=
  match src, dst with
  | Some _, Some _ =>
      upd_call c (set_route src dst) ;;
      cl <- deref_call c ;;
      i <- some_or NullDeref (initial cl) ;;
      x <- deref_leg i ;;
      if decide (lg_type (base x) = CALL_TYPE_MNCC) then route_to_sip c else route_to_mncc c
  | _, _ => release_initial c
  end.
End app.

(** ** Releasing a leg through its callback *)
Section release_st.
Context {E : Env} (disc : MW unit) (s : skel) (cn : mncc_connection) (Hwf : wfsk s).
Context (l : ptr) (sh : lshape) (Hl : sk_legs s !! l = Some sh) (Hest : established sh).

Lemma established_release :
  (is_mncc sh /\ release_call (sh_ops sh) = Some FN_mncc_call_leg_release)
  \/ (~ is_mncc sh /\ release_call (sh_ops sh) = Some FN_sip_release_call
      /\ exists d h, sh_ext sh = ShSip d (Some h)).
Proof using Hest.
  unfold established, is_mncc in *. destruct (sh_ext sh) as [d cr|[] h].
  - left. by rewrite Hest.
  - right. destruct Hest as [-> [h' ->]]. split_and!; eauto.
  - right. destruct Hest as [-> [h' ->]]. split_and!; eauto.
Qed.

(** While the connection is down. *)
Lemma release_leg_down w : st s cn w -> cn_state cn <> MNCC_READY ->
  wp (release_leg disc l)
     (fun _ w' => exists s', st s' cn w' /\ released s l s' /\ (is_mncc sh -> s' = sk_release l s)) w.
Proof using Hwf Hl Hest.
  intros Hst Hn. unfold release_leg. wp_seq x w1 (_ & -> & _ & Hsh).
  assert (ops (base x) = sh_ops sh) as -> by by rewrite <- Hsh.
  destruct established_release as [[Hm ->]|(Hm & -> & d & h & He)]; apply wp_bind;
    (eapply wp_some_or; [reflexivity|]); simpl.
  - assert (exists d cr, sh_ext sh = ShMncc d cr) as (d & cr & He).
    { unfold is_mncc in Hm. destruct (sh_ext sh); [eauto|done]. }
    wp_last mncc_call_leg_release_down as u w2 Hst2. exists (sk_release l s). unfold released. auto.
  - wp_last sip_release_call_st as u w2 (s' & Hst2 & Hrel). exists s'. split_and!; auto. done.
Qed.

Lemma release_leg_st {HW : WritesOk E} w : st s cn w ->
  wp (release_leg disc l)
     (fun _ w' => exists s', st s' cn w' /\ released s l s') w.
Proof using Hwf Hl Hest.
  intros Hst. unfold release_leg. wp_seq x w1 (_ & -> & _ & Hsh).
  assert (ops (base x) = sh_ops sh) as -> by by rewrite <- Hsh.
  destruct established_release as [[Hm ->]|(Hm & -> & d & h & He)]; apply wp_bind;
    (eapply wp_some_or; [reflexivity|]); simpl.
  - assert (exists d cr, sh_ext sh = ShMncc d cr) as (d & cr & He).
    { unfold is_mncc in Hm. destruct (sh_ext sh); [eauto|done]. }
    wp_last mncc_call_leg_release_st as u w2 (s' & ? & ? & _). eauto.
  - wp_last sip_release_call_st as u w2 (s' & ? & ?). eauto.
Qed.
End release_st.

(** ** Losing the MNCC connection *)

(** No leg of call [c] is an MNCC leg. *)
Definition no_mncc (s : skel) (c : ptr) : Prop :=
  forall l sh, sk_legs s !! l = Some sh -> sh_call sh = c -> ~ is_mncc sh.

(** Calls without an MNCC leg are as before. *)
Definition untouched (s s' : skel) : Prop :=
  forall c, no_mncc s c ->
    sk_calls s' !! c = sk_calls s !! c /\
    forall l sh, sk_legs s !! l = Some sh -> sh_call sh = c -> sk_legs s' !! l = Some sh.

Lemma untouched_refl s : untouched s s.
Proof. by split. Qed.

Lemma no_mncc_drops s s' c : wfsk s -> drops s s' -> no_mncc s c -> no_mncc s' c.
Proof. intros Hwf Hd Hn l sh Hl. eapply Hn. by eapply drops_legs. Qed.

Lemma untouched_trans s1 s2 s3 : wfsk s1 -> drops s1 s2 ->
  untouched s1 s2 -> untouched s2 s3 -> untouched s1 s3.
Proof.
  intros Hwf Hd H12 H23 c Hc. destruct (H12 c Hc) as [Hc1 Hl1].
  destruct (H23 c (no_mncc_drops _ _ _ Hwf Hd Hc)) as [Hc2 Hl2].
  split; [congruence|]. intros l sh Hl Hcl. apply Hl2; [by apply Hl1|done].
Qed.

(** Releasing a leg of a call that has an MNCC leg. *)
Lemma released_untouched s l sh s' : wfsk s -> sk_legs s !! l = Some sh -> released s l s' ->
  ~ no_mncc s (sh_call sh) -> untouched s s'.
Proof.
  intros Hwf Hl [-> | ->] Hm; [apply untouched_refl|]. intros c Hc.
  assert (c <> sh_call sh) by congruence. split.
  - by apply (sk_release_other_call s l sh Hwf Hl).
  - intros l' sh' Hl' <-. rewrite (sk_release_other_leg s l sh Hwf Hl); [done|]. congruence.
Qed.

Lemma next_in_app pre c post : c ∉ pre -> next_in (pre ++ c :: post) c = head post.
Proof.
  induction pre as [|c' pre IH]; intros Hn; simpl.
  - by rewrite decide_True.
  - rewrite decide_False by (intros ->; apply Hn; left). apply IH. intros ?. apply Hn. by right.
Qed.

Section disconnect.
Context {E : Env} (disc : MW unit) (cn : mncc_connection) (Hdown : cn_state cn <> MNCC_READY).

Lemma is_mncc_leg_st s w o : wfsk s -> st s cn w ->
  (forall l, o = Some l -> is_Some (sk_legs s !! l)) ->
  wp (is_mncc_leg o) (fun b w' => w' = w /\
     (b = true <-> exists l sh, o = Some l /\ sk_legs s !! l = Some sh /\ is_mncc sh)) w.
Proof using.
  intros Hwf Hst Ho. destruct o as [l|]; simpl; [|split; [done|]; split; [done|by intros (? & ? & ? & _)]].
  destruct (Ho l eq_refl) as [sh Hl]. wp_seq x w1 (_ & -> & _ & Hsh).
  apply wp_ret. split; [done|]. rewrite bool_decide_eq_true.
  assert (lg_type (base x) = sh_type sh) as -> by by rewrite <- Hsh.
  destruct (wf_leg s Hwf l sh Hl) as [Htag _].
  unfold is_mncc in *. destruct (tag_type sh Htag) as [[-> (d & cr & He)]|[-> (d & h & He)]].
  - split; [|done]. intros _. exists l, sh. by rewrite He.
  - split; [done|]. intros (l' & sh' & ? & ? & Hm). simplify_eq. by rewrite He in Hm.
Qed.

(** Releasing the leg in a variable that may be NULL. *)
Lemma release_opt_down s w o c : wfsk s -> st s cn w ->
  (forall l, o = Some l -> exists sh, sk_legs s !! l = Some sh /\ established sh /\ sh_call sh = c) ->
  wp (release_opt (release_leg disc) o)
     (fun _ w' => exists s', st s' cn w' /\ wfsk s' /\ drops s s' /\
        (forall l, o = Some l -> released s l s') /\ (o = None -> s' = s) /\
        (forall l sh, o = Some l -> sk_legs s !! l = Some sh -> is_mncc sh -> s' = sk_release l s)) w.
Proof using Hdown.
  intros Hwf Hst Ho. destruct o as [l|]; simpl.
  - destruct (Ho l eq_refl) as (sh & Hl & Hest & _).
    wp_last (release_leg_down disc s cn Hwf l sh) as u w' (s' & Hst' & Hrel & Hm).
    exists s'. split_and!; eauto using released_drops, released_wf; try congruence.
    intros l' sh' [= <-] Hl' Hm'. simplify_eq. auto.
  - apply wp_ret. exists s. split_and!; auto; try done.
Qed.

(** In a call with an MNCC leg both legs are complete. *)
Lemma mncc_call_established s c i r l : wfsk s -> sk_calls s !! c = Some (i, r) ->
  (exists lm shm, (i = Some lm \/ r = Some lm) /\ sk_legs s !! lm = Some shm /\ is_mncc shm) ->
  i = Some l \/ r = Some l ->
  exists sh, sk_legs s !! l = Some sh /\ established sh /\ sh_call sh = c.
Proof using.
  intros Hwf Hc (lm & shm & Hlm & Hshm & Hm) [-> | ->].
  - destruct (wf_initial s Hwf _ _ _ Hc) as (sh & Hl & Hsc & _ & Hest). exists sh. split_and!; auto.
    destruct r as [lr|]; [by apply Hest|]. destruct Hlm as [Hlm|]; [|done].
    assert (sh = shm) as -> by congruence.
    destruct (wf_leg s Hwf _ _ Hl) as (_ & [?|[_ He]] & _); [done|].
    unfold is_mncc in Hm. by rewrite He in Hm.
  - destruct (wf_remote s Hwf _ _ _ Hc) as (sh & Hl & Hsc & _ & Hest). eauto.
Qed.

Definition list_shorter (c : ptr) (s s' : skel) : Prop :=
  forall pre post, sk_list s = pre ++ post -> c ∉ post ->
    exists pre', sk_list s' = pre' ++ post /\ (forall c', c' ∈ pre' -> c' ∈ pre).

Lemma released_opt_list s o c s' : wfsk s ->
  (forall l, o = Some l -> exists sh, sk_legs s !! l = Some sh /\ established sh /\ sh_call sh = c) ->
  (forall l, o = Some l -> released s l s') -> (o = None -> s' = s) -> list_shorter c s s'.
Proof using.
  intros Hwf Ho Hrel Hn pre post Hl Hc. destruct o as [l|]; [|rewrite Hn by done; eauto].
  destruct (Ho l eq_refl) as (sh & Hsh & _ & <-). eapply released_list; eauto.
Qed.

Lemma released_opt_untouched s o c s' : wfsk s ->
  (forall l, o = Some l -> exists sh, sk_legs s !! l = Some sh /\ established sh /\ sh_call sh = c) ->
  (forall l, o = Some l -> released s l s') -> (o = None -> s' = s) ->
  forall c', c' <> c -> sk_calls s' !! c' = sk_calls s !! c' /\
    forall l sh, sk_legs s !! l = Some sh -> sh_call sh = c' -> sk_legs s' !! l = Some sh.
Proof using.
  intros Hwf Ho Hrel Hn c' Hne. destruct o as [l|]; [|by rewrite Hn by done].
  destruct (Ho l eq_refl) as (sh & Hsh & _ & Hc). destruct (Hrel l eq_refl) as [-> | ->]; [done|].
  split; [apply (sk_release_other_call s l sh Hwf Hsh); congruence|].
  intros l' sh' Hl' Hc'. rewrite (sk_release_other_leg s l sh Hwf Hsh); [done|]. congruence.
Qed.

Lemma list_shorter_trans c s1 s2 s3 : list_shorter c s1 s2 -> list_shorter c s2 s3 -> list_shorter c s1 s3.
Proof using.
  intros H12 H23 pre post Hl Hc. destruct (H12 pre post Hl Hc) as (pre1 & Hl1 & Hin1).
  destruct (H23 pre1 post Hl1 Hc) as (pre2 & Hl2 & Hin2). exists pre2. auto.
Qed.

Lemma disconnect_call_st s w c i r : wfsk s -> st s cn w -> sk_calls s !! c = Some (i, r) ->
  wp (disconnect_call (release_leg disc) c)
     (fun _ w' => exists s', st s' cn w' /\ wfsk s' /\ drops s s' /\ no_mncc s' c /\ untouched s s'
        /\ list_shorter c s s') w.
Proof using Hdown.
  intros Hwf Hst Hc. unfold disconnect_call. wp_use deref_call_st as cl w1 (_ & -> & _ & -> & ->).
  assert (forall l, i = Some l \/ r = Some l -> is_Some (sk_legs s !! l)) as Hex.
  { intros l Hl. destruct (wf_linked s c i r l Hwf Hc Hl) as (? & ? & _). eauto. }
  wp_use is_mncc_leg_st as mi w1 (-> & Hmi). wp_use is_mncc_leg_st as mr w1 (-> & Hmr).
  destruct (mi || mr) eqn:Hor.
  - assert (exists lm shm, (i = Some lm \/ r = Some lm) /\ sk_legs s !! lm = Some shm /\ is_mncc shm) as Hm.
    { apply orb_true_iff in Hor as [->| ->].
      - destruct Hmi as [Hmi _]. destruct (Hmi eq_refl) as (l & sh & ? & ? & ?). eauto 6.
      - destruct Hmr as [Hmr _]. destruct (Hmr eq_refl) as (l & sh & ? & ? & ?). eauto 6. }
    pose proof (fun l => mncc_call_established s c i r l Hwf Hc Hm) as Hest.
    wp_use (release_opt_down s w i c) as u1 w1 (s1 & Hst1 & Hwf1 & Hd1 & Hrel1 & Hn1 & Hgone1).
    assert (forall l, r = Some l -> exists sh, sk_legs s1 !! l = Some sh /\ established sh /\ sh_call sh = c) as Hest1.
    { intros l ->. destruct (Hest l) as (sh & Hl & ? & ?); [by right|]. exists sh. split_and!; auto.
      destruct i as [li|]; [|by rewrite Hn1]. destruct (Hest li) as (shi & Hli & _); [by left|].
      rewrite (released_other s li shi s1 l); auto. intros ->.
      destruct (other_leg_pair s c li li Hwf Hc) as (? & ? & _ & _ & (? & _ & ? & _) & _). done. }
    wp_last (release_opt_down s1 w1 r c) as u2 w2 (s2 & Hst2 & Hwf2 & Hd2 & Hrel2 & Hn2 & Hgone2).
    exists s2. split_and!; auto.
    + by etransitivity.
    + intros l sh Hl Hcl Hml. pose proof (drops_legs s1 s2 l sh Hwf1 Hd2 Hl) as Hl1.
      pose proof (drops_legs s s1 l sh Hwf Hd1 Hl1) as Hl0.
      destruct (wf_leg s Hwf l sh Hl0) as (_ & _ & i' & r' & Hc' & Hir). rewrite Hcl in Hc'. simplify_eq.
      destruct Hir as [Hi|Hr].
      * rewrite (Hgone1 l sh) in Hl1 by done. by rewrite (sk_release_gone s l sh Hwf Hl0) in Hl1.
      * rewrite (Hgone2 l sh) in Hl by done. by rewrite (sk_release_gone s1 l sh Hwf1 Hl1) in Hl.
    + intros c' Hc'. assert (c' <> c) as Hne.
      { intros ->. destruct Hm as (lm & shm & Hlm & Hshm & Hm). destruct (Hest lm Hlm) as (sh & ? & _ & ?).
        simplify_eq. by apply (Hc' lm shm). }
      destruct (released_opt_untouched s i c s1 Hwf ltac:(auto) Hrel1 Hn1 c' Hne) as [Hc1 Hl1].
      destruct (released_opt_untouched s1 r c s2 Hwf1 Hest1 Hrel2 Hn2 c' Hne) as [Hc2 Hl2].
      split; [congruence|auto].
    + eapply list_shorter_trans; [apply (released_opt_list s i c s1)|apply (released_opt_list s1 r c s2)]; auto.
  - apply wp_ret. exists s. split_and!; auto using untouched_refl.
    + apply rtc_refl.
    + intros l sh Hl Hcl Hml. destruct (wf_leg s Hwf l sh Hl) as (_ & _ & i' & r' & Hc' & Hir).
      rewrite Hcl in Hc'. simplify_eq. apply orb_false_iff in Hor as [-> ->].
      destruct Hir as [Hi|Hr].
      * destruct Hmi as [_ Hmi]. discriminate Hmi. eauto.
      * destruct Hmr as [_ Hmr]. discriminate Hmr. eauto.
    + intros pre post ? ?. eauto.
Qed.

(** The loop: the calls before the cursor have no MNCC leg any more. *)
Lemma disconnect_loop_st n pre post s w : wfsk s -> st s cn w -> sk_list s = pre ++ post ->
  (length post <= n)%nat -> (forall c, c ∈ pre -> no_mncc s c) ->
  wp (disconnect_loop (release_leg disc) n (head post))
     (fun _ w' => exists s', st s' cn w' /\ wfsk s' /\ drops s s' /\ untouched s s'
        /\ forall c, c ∈ sk_list s' -> no_mncc s' c) w.
Proof using Hdown.
  revert pre post s w. induction n as [|n IH]; intros pre post s w Hwf Hst Hlist Hlen Hpre.
  - destruct post; [|simpl in Hlen; lia]. apply wp_ret. exists s.
    split_and!; auto using untouched_refl; [apply rtc_refl|]. by rewrite Hlist, app_nil_r.
  - destruct post as [|c post].
    { apply wp_ret. exists s. split_and!; auto using untouched_refl; [apply rtc_refl|].
      by rewrite Hlist, app_nil_r. }
    simpl. pose proof (wf_nodup s Hwf) as Hnd. rewrite Hlist in Hnd.
    apply NoDup_app in Hnd as (_ & Hdisj & [Hcp _]%NoDup_cons).
    destruct (proj1 (wf_list s Hwf c)) as [[i r] Hc].
    { rewrite Hlist. apply elem_of_app. right. left. }
    wp_use deref_call_st as cl w1 (_ & -> & _). wp_use get_list_st as cs w1 (_ & -> & ->).
    wp_use disconnect_call_st as u w1 (s1 & Hst1 & Hwf1 & Hd1 & Hno1 & Hun1 & Hsh1).
    rewrite Hlist, next_in_app by (intros Hin; apply (Hdisj c Hin); left).
    destruct (Hsh1 (pre ++ [c]) post) as (pre' & Hlist1 & Hin1); [by rewrite Hlist, <- app_assoc|done|].
    wp_last (IH pre' post s1) as u2 w2 (s2 & Hst2 & Hwf2 & Hd2 & Hun2 & Hall); [simpl in Hlen; lia| |].
    { intros c' Hc'. apply Hin1, elem_of_app in Hc' as [Hc'| ->%list_elem_of_singleton]; [|done].
      apply (no_mncc_drops s); auto. }
    exists s2. split_and!; eauto using untouched_trans. by etransitivity.
Qed.

(** Every MNCC leg goes when the connection is lost; calls without one stay. *)
Lemma app_mncc_disconnected_st s w : wfsk s -> st s cn w ->
  wp (app_mncc_disconnected (release_leg disc))
     (fun _ w' => exists s', st s' cn w' /\ wfsk s' /\ drops s s' /\ untouched s s'
        /\ forall l sh, sk_legs s' !! l = Some sh -> ~ is_mncc sh) w.
Proof using Hdown.
  intros Hwf Hst. unfold app_mncc_disconnected. wp_use get_list_st as cs w1 (_ & -> & ->).
  wp_last (disconnect_loop_st (length (sk_list s)) [] (sk_list s)) as u w1 (s1 & Hst1 & Hwf1 & Hd1 & Hun1 & Hall).
  { by intros c Hc%elem_of_nil. }
  exists s1. split_and!; auto. intros l sh Hl.
  destruct (wf_leg s1 Hwf1 l sh Hl) as (_ & _ & i & r & Hc & _).
  eapply Hall; [|done|done]. apply (wf_list s1 Hwf1). eauto.
Qed.
End disconnect.

(** ** Closing the connection *)

(** The connection after [close_connection]. *)
Definition closed (cn : mncc_connection) : mncc_connection :=
  if cn_fd cn <? 0 then cn else Conn MNCC_DISCONNECTED (-1) (Some 5) (cn_on_disconnect cn).

Lemma closed_ok cn : conn_ok cn -> conn_ok (closed cn).
Proof.
  intros [Hs Ht Hc]. unfold closed. destruct (Z.ltb_spec (cn_fd cn) 0); [by split|].
  split; simpl; [|split; [done|lia]|done]. split; [done|lia].
Qed.

(** What an event handler leaves: a view reached by steps of the abstract
    machine, and a consistent connection. *)
Definition ok (s : skel) (w : world) : Prop :=
  exists s' cn, st s' cn w /\ evolves s s' /\ conn_ok cn.

Lemma ok_st s s' cn w : st s' cn w -> evolves s s' -> conn_ok cn -> ok s w.
Proof. unfold ok. eauto. Qed.

Lemma ok_refl s cn w : st s cn w -> conn_ok cn -> ok s w.
Proof. intros. eapply ok_st; eauto. apply rtc_refl. Qed.

Lemma ok_evolves s s' w : evolves s s' -> ok s' w -> ok s w.
Proof. intros Hev (s2 & cn & ? & ? & ?). exists s2, cn. split_and!; auto. by etransitivity. Qed.

Section close.
Context {E : Env} (s : skel) (cn : mncc_connection) (Hwf : wfsk s) (Hok : conn_ok cn).

Lemma close_connection_st n w : st s cn w ->
  wp (close_connection (on_disconnect (S n)))
     (fun _ w' => exists s', st s' (closed cn) w' /\ wfsk s' /\ drops s s' /\ untouched s s'
        /\ (0 <= cn_fd cn -> forall l sh, sk_legs s' !! l = Some sh -> ~ is_mncc sh)) w.
Proof using Hwf Hok.
  intros Hst. unfold close_connection, closed. wp_use get_conn_st as c w1 (_ & -> & ->).
  destruct (Z.ltb_spec (cn_fd cn) 0).
  - apply wp_ret. exists s. split_and!; auto using untouched_refl; [apply rtc_refl|].
    intros ?. lia.
  - wp_use emit_st as u w1 Hst1. apply wp_bind, wp_modify.
    pose proof (st_set_conn Hst1 (fun c => Conn MNCC_DISCONNECTED (-1) (Some 5) (cn_on_disconnect c))) as Hst2.
    simpl in Hst2. rewrite (co_callback cn Hok) in Hst2 |- *. simpl.
    wp_last (app_mncc_disconnected_st (on_disconnect n)) as u2 w2 (s' & ? & ? & ? & ? & ?); [done|].
    exists s'. split_and!; auto.
Qed.

Lemma close_conn_ok w : st s cn w -> wp (close_connection disconnected) (fun _ => ok s) w.
Proof using Hwf Hok.
  intros Hst. wp_last (close_connection_st 0) as u w1 (s' & ? & ? & ? & _).
  eapply ok_st; eauto using drops_evolves, closed_ok.
Qed.
End close.

(** ** Callbacks and routing *)
Section callbacks.
Context {E : Env} {HE : EnvLaws E} {HW : WritesOk E} (s : skel) (cn : mncc_connection) (Hwf : wfsk s) (Hok : conn_ok cn).

Lemma call_release_ok w l sh : st s cn w -> sk_legs s !! l = Some sh -> established sh ->
  wp (call_release l) (fun _ => ok s) w.
Proof using Hwf Hok HW.
  intros Hst Hl Hest. wp_last release_leg_st as u w' (s' & ? & ?).
  eapply ok_st; eauto using released_evolves.
Qed.

Lemma update_rtp_st w l sh l' : st s cn w -> sk_legs s !! l = Some sh -> other_leg s l sh l' ->
  wp (update_rtp l) (fun _ w' => st s cn w') w.
Proof using Hwf HW.
  intros Hst Hl Ho. unfold update_rtp. wp_use deref_leg_st as x w1 (_ & -> & _ & Hsh).
  wp_use call_leg_other_Some as o w1 (_ & -> & ->).
  assert (lg_type (base x) = sh_type sh) as -> by by rewrite <- Hsh.
  pose proof Ho as (sh' & Hl' & _ & _ & _ & _ & Hty & _).
  destruct (wf_leg s Hwf l sh Hl) as [Htag _], (wf_leg s Hwf l' sh' Hl') as [Htag' _].
  destruct (tag_type sh Htag) as [[Ht (d & cr & He)]|[Ht (d & h & He)]]; rewrite Ht.
  - by wp_use (send_rtp_connect_st disconnected) as b w2 Hst2.
  - destruct (tag_type sh' Htag') as [[_ (d' & cr & He')]|[? _]]; [|congruence].
    by wp_use (send_rtp_connect_st disconnected) as b w2 Hst2.
Qed.

Lemma release_initial_ok s' w c i r shi : evolves s s' -> wfsk s' -> st s' cn w ->
  sk_calls s' !! c = Some (Some i, r) ->
  sk_legs s' !! i = Some shi -> established shi -> wp (release_initial c) (fun _ => ok s) w.
Proof using Hok HW.
  intros Hev Hwf' Hst Hc Hi Hest. unfold release_initial. wp_use deref_call_st as cl w1 (_ & -> & _ & -> & _).
  apply wp_bind, wp_some_or with (a := i); [done|].
  wp_last release_leg_st as u w' (s'' & ? & ?).
  eapply ok_st; eauto. etransitivity; [done|]. by eapply released_evolves.
Qed.

(** The initial leg of a call that is about to be routed. *)
Definition routable (s' : skel) (c i : ptr) (shi : lshape) : Prop :=
  sk_calls s' !! c = Some (Some i, None) /\ sk_legs s' !! i = Some shi /\ established shi.

Lemma route_to_sip_ok s' w c i shi cl : evolves s s' -> wfsk s' -> st s' cn w ->
  routable s' c i shi -> sh_type shi = CALL_TYPE_MNCC -> calls w !! c = Some cl ->
  (forall p t, source cl = Some (p, t) \/ dest cl = Some (p, t) -> is_Some (sk_legs s' !! p)) ->
  wp (route_to_sip c) (fun _ => ok s) w.
Proof using Hok HW.
  intros Hev Hwf' Hst (Hc & Hi & Hest) Hty Hcl Hsrc.
  destruct (st_call Hst c _ _ Hc) as (cl' & Hcl' & Hii & Hrr). simplify_eq.
  unfold route_to_sip. wp_use (sip_create_remote_leg_st s' cn Hwf' w c i) as rc w1 Hrc.
  destruct (Z.eqb_spec rc 0); simpl.
  - destruct Hrc as (h & Hh & Hst1). apply wp_ret. eapply ok_st; [done| |done].
    etransitivity; [done|]. eapply rtc_once, step_attach; eauto; simpl; try done; [congruence|].
    by intros x [= <-].
  - destruct Hrc as [Hst1|Hst1].
    + by eapply release_initial_ok.
    + eapply (release_initial_ok (sk_skip s')); eauto.
      * etransitivity; [done|apply evolves_skip].
      * eapply evolves_wf; [done|apply evolves_skip].
Qed.

Lemma route_to_mncc_ok s' w c i shi cl : evolves s s' -> wfsk s' -> st s' cn w ->
  routable s' c i shi -> sh_type shi = CALL_TYPE_SIP -> calls w !! c = Some cl ->
  route_ok s' cl -> wp (route_to_mncc c) (fun _ => ok s) w.
Proof using HE Hok HW.
  intros Hev Hwf' Hst (Hc & Hi & Hest) Hty Hcl Hsrc.
  destruct (st_call Hst c _ _ Hc) as (cl' & Hcl' & Hii & Hrr). simplify_eq.
  unfold route_to_mncc. wp_use (mncc_create_remote_leg_st disconnected s' cn Hwf' w c i) as rc w1 Hrc.
  destruct (Z.eqb_spec rc 0); simpl.
  - destruct Hrc as (n & Hst1). apply wp_ret. eapply ok_st; [done| |done].
    etransitivity; [done|]. eapply rtc_once, step_attach; eauto; simpl; try done. congruence.
  - destruct Hrc as [Hst1|Hst1].
    + by eapply release_initial_ok.
    + eapply (release_initial_ok (sk_skip s')); eauto.
      * etransitivity; [done|apply evolves_skip].
      * eapply evolves_wf; [done|apply evolves_skip].
Qed.

(** Routing a call whose initial leg owns the two strings. *)
Lemma app_route_call_ok s' w c i shi src dst : evolves s s' -> wfsk s' -> st s' cn w ->
  routable s' c i shi ->
  (forall p t, src = Some (p, t) \/ dst = Some (p, t) -> p = i) ->
  wp (app_route_call c src dst) (fun _ => ok s) w.
Proof using HE Hok HW.
  intros Hev Hwf' Hst Hr Hown. pose proof Hr as (Hc & Hi & Hest). unfold app_route_call.
  destruct src as [[ps ts]|], dst as [[pd td]|]; try by eapply release_initial_ok.
  assert (ps = i) as -> by eauto. assert (pd = i) as -> by eauto.
  wp_use (upd_call_eq s') as u w1 (x & Hx & Hxi & Hxr & ->).
  set (cl := set_route _ _ x). set (w1 := set_calls _ w).
  assert (st s' cn w1) as Hst1 by by eapply st_upd_call.
  assert (calls w1 !! c = Some cl) as Hcl by apply lookup_insert_eq.
  wp_use (deref_call_st s') as cl' w2 (_ & -> & Hcl' & Hii & _).
  assert (cl' = cl) as -> by congruence. rewrite Hii.
  apply wp_bind, wp_some_or with (a := i); [done|].
  wp_use (deref_leg_st s') as y w2 (_ & -> & _ & Hsh).
  assert (lg_type (base y) = sh_type shi) as -> by by rewrite <- Hsh.
  destruct (decide (sh_type shi = CALL_TYPE_MNCC)) as [Hty|Hty].
  - eapply route_to_sip_ok; eauto. simpl. intros p t [[= -> _]|[= -> _]]; eauto.
  - eapply route_to_mncc_ok; eauto.
    + destruct (wf_leg s' Hwf' i shi Hi) as [Htag _].
      destruct (tag_type shi Htag) as [[? _]|[? _]]; done.
    + split; simpl; [|eauto]. intros p t [= -> _]. eauto.
Qed.

(** [ring_call], [connect_call], [hold_call] and [retrieve_call] of a leg [l]
    that has another leg; a SIP leg created towards SIP lacks the first two. *)
Definition no_ring (sh : lshape) : Prop :=
  match sh_ext sh with ShSip SIP_DIR_MT _ => True | _ => False end.

Lemma invoke_member_st w l sh l' member : st s cn w -> sk_legs s !! l = Some sh ->
  other_leg s l sh l' ->
  match member with
  | FN_mncc_call_leg_ring | FN_mncc_call_leg_connect => is_mncc sh
  | FN_sip_ring_call | FN_sip_connect_call | FN_sip_hold_call | FN_sip_retrieve_call => ~ is_mncc sh
  | _ => False
  end ->
  wp (invoke (Some member) l) (fun _ w' => st s cn w') w.
Proof using Hwf HW.
  intros Hst Hl Ho Hm. unfold invoke. apply wp_bind. eapply wp_some_or; [reflexivity|].
  destruct (sh_ext sh) as [d cr|d h] eqn:He; unfold is_mncc in Hm; rewrite He in Hm;
    destruct member; try done; try (by destruct Hm); cbv beta iota.
  - by eapply (mncc_call_leg_connect_st disconnected s cn Hwf).
  - by eapply (mncc_call_leg_ring_st disconnected s cn Hwf).
  - by eapply sip_ring_call_st.
  - by eapply sip_connect_call_other.
  - by eapply sip_reinvite_other.
  - by eapply sip_reinvite_other.
Qed.

(** The members, for a leg with its callbacks in place. *)
Lemma invoke_member_sel w l sh l' (sel : leg_ops -> option leg_fn) : st s cn w ->
  sk_legs s !! l = Some sh -> other_leg s l sh l' ->
  (sel = ring_call \/ sel = connect_call) /\ ~ no_ring sh
  \/ (sel = hold_call \/ sel = retrieve_call) /\ ~ is_mncc sh ->
  wp (invoke_member sel l) (fun _ w' => st s cn w') w.
Proof using Hwf HW.
  intros Hst Hl Ho Hsel. unfold invoke_member. wp_use deref_leg_st as x w1 (_ & -> & _ & Hsh).
  assert (ops (base x) = sh_ops sh) as -> by by rewrite <- Hsh.
  pose proof Ho as (sh' & _ & _ & _ & Hest & _). unfold established, no_ring, is_mncc in *.
  destruct (sh_ext sh) as [d cr|[] h] eqn:He;
    [rewrite Hest | destruct Hest as [-> _] | destruct Hest as [-> _]];
    (destruct Hsel as [[[-> | ->] Hn]|[[-> | ->] Hn]]; try done; try (by destruct Hn));
    (eapply invoke_member_st; eauto; unfold is_mncc; rewrite He; auto).
Qed.
End callbacks.

(** ** How deep the callback recurs

    Below [conn->on_disconnect] the connection is not ready, so no release sends
    and the callback is not entered again: any number of unrollings gives the
    same computation. *)
Section fuel.
Context {E : Env}.

Lemma mncc_leg_release_keeps l : keeps conn (mncc_leg_release l).
Proof using.
  unfold mncc_leg_release, timer_del, deref_leg. keeps.
Qed.

Lemma sip_release_call_keeps l : keeps conn (sip_release_call l).
Proof using.
  unfold sip_release_call, assert_type, as_sip, nua_handle_destroy, emit, deref_leg.
  keeps.
Qed.

(** Two computations that agree while the connection is not ready, and leave it so. *)
Definition down (w : world) : Prop := cn_state (conn w) <> MNCC_READY.
Definition agree {A} (m1 m2 : MW A) : Prop :=
  forall w, down w -> m1 w = m2 w /\ match m2 w with Ret _ w' => down w' | Crash _ _ => True end.

Lemma agree_keeps {A} (m : MW A) : keeps conn m -> agree m m.
Proof using.
  intros Hk w Hd. split; [done|]. specialize (Hk w). destruct (m w); [|done]. unfold down. by rewrite Hk.
Qed.

Lemma agree_bind {A B} (m1 m2 : MW A) (k1 k2 : A -> MW B) :
  agree m1 m2 -> (forall a, agree (k1 a) (k2 a)) -> agree (bind m1 k1) (bind m2 k2).
Proof using.
  intros Hm Hk w Hd. destruct (Hm w Hd) as [Heq Hd2]. unfold bind. rewrite Heq.
  destruct (m2 w) as [a w'|]; [by apply Hk|done].
Qed.

Lemma mncc_release_agree d1 d2 l : agree (mncc_call_leg_release d1 l) (mncc_call_leg_release d2 l).
Proof using.
  intros w Hd. unfold mncc_call_leg_release. revert w Hd.
  apply agree_bind; [apply agree_keeps; unfold assert_type, deref_leg; keeps|]. intros _.
  apply agree_bind; [apply agree_keeps; unfold as_mncc, deref_leg; keeps|]. intros m w Hd.
  unfold bind, gets. cbv beta iota. rewrite !bool_decide_eq_false_2 by done. simpl.
  apply agree_keeps; [apply mncc_leg_release_keeps|done].
Qed.

Lemma release_leg_agree d1 d2 l : agree (release_leg d1 l) (release_leg d2 l).
Proof using.
  unfold release_leg. apply agree_bind; [apply agree_keeps; unfold deref_leg; keeps|]. intros x.
  apply agree_bind; [apply agree_keeps; keeps|]. intros []; try (by intros w Hd).
  - apply mncc_release_agree.
  - apply agree_keeps, sip_release_call_keeps.
Qed.

Lemma disconnect_call_agree d1 d2 c :
  agree (disconnect_call (release_leg d1) c) (disconnect_call (release_leg d2) c).
Proof using.
  assert (forall o, agree (release_opt (release_leg d1) o) (release_opt (release_leg d2) o)) as Ho.
  { intros [l|]; simpl; [apply release_leg_agree|apply agree_keeps, keeps_ret]. }
  assert (forall o, keeps conn (is_mncc_leg o)) as Hi.
  { intros [l|]; simpl; unfold deref_leg; keeps. }
  unfold disconnect_call. apply agree_bind; [apply agree_keeps; unfold deref_call; keeps|]. intros cl.
  apply agree_bind; [by apply agree_keeps|]. intros mi. apply agree_bind; [by apply agree_keeps|]. intros mr.
  destruct (mi || mr); [|apply agree_keeps, keeps_ret]. by apply agree_bind.
Qed.

Lemma disconnect_loop_agree d1 d2 n cur :
  agree (disconnect_loop (release_leg d1) n cur) (disconnect_loop (release_leg d2) n cur).
Proof using.
  revert cur. induction n as [|n IH]; intros [c|]; simpl; try (apply agree_keeps, keeps_ret).
  - by intros w Hd.
  - apply agree_bind; [apply agree_keeps; unfold deref_call; keeps|]. intros _.
    apply agree_bind; [apply agree_keeps, keeps_gets|]. intros cs.
    apply agree_bind; [apply disconnect_call_agree|]. intros _. apply IH.
Qed.

Lemma app_mncc_disconnected_agree d1 d2 :
  agree (app_mncc_disconnected (release_leg d1)) (app_mncc_disconnected (release_leg d2)).
Proof using.
  unfold app_mncc_disconnected. apply agree_bind; [apply agree_keeps, keeps_gets|].
  intros cs. apply disconnect_loop_agree.
Qed.

(** One unrolling of the mutual recursion between releasing legs and losing
    the connection is enough: once the connection is not ready, more give the
    same computation, in every store. *)
Lemma on_disconnect_fuel n w : cn_state (conn w) <> MNCC_READY -> on_disconnect (S n) w = disconnected w.
Proof using. intros Hd. apply (app_mncc_disconnected_agree (on_disconnect n) (on_disconnect 0)), Hd. Qed.
End fuel.
