(* ===== verification/Unroll.v ===== *)
(** * The recursion through the disconnect callback

    In the C code [close_connection] calls [app_mncc_disconnected], which releases
    legs, which writes, which may call [close_connection].  App.v unrolls this
    once.  Here the functions that write are shown to be the same computations
    for every depth of the unrolling, and to satisfy the equation of the code, in
    which the callback is the function itself. *)
From S2P Require Import Prelude Effect Codec Protocol Lib State Call Sdp SipLeg MnccConn App.

Section unroll.
Context {E : Env}.

(** Two callbacks that [close_connection] cannot tell apart. *)
Definition same_close (d1 d2 : MW unit) : Prop := close_connection d1 ≈ close_connection d2.

#[export] Instance same_close_equivalence : Equivalence same_close.
Proof using.
  unfold same_close. split; [by intros d|by intros d1 d2 H|]. intros d1 d2 d3 H1 H2. by rewrite H1.
Qed.

(** By the time the callback runs the connection is down. *)
Lemma close_connection_down d1 d2 : (forall w, cn_state (conn w) <> MNCC_READY -> d1 w = d2 w) -> same_close d1 d2.
Proof using.
  intros Hd w. unfold close_connection, bind, gets, emit, modify.
  destruct (cn_fd (conn w) <? 0); [done|]. cbn. destruct (cn_on_disconnect (conn w)); [|done]. by apply Hd.
Qed.

Lemma on_disconnect_same n : same_close (on_disconnect (S n)) disconnected.
Proof using. apply close_connection_down. intros w. apply on_disconnect_fuel. Qed.

(** ** The functions that write respect [same_close] *)
#[export] Instance close_connection_proper : Proper (same_close ==> meq) close_connection.
Proof using. by intros d1 d2 H. Qed.
#[export] Instance mncc_write_proper : Proper (same_close ==> eq ==> meq) mncc_write.
Proof using. intros d1 d2 H m ? <-. unfold mncc_write. meq. Qed.
#[export] Instance mncc_rtp_write_proper : Proper (same_close ==> eq ==> meq) mncc_rtp_write.
Proof using. intros d1 d2 H r ? <-. unfold mncc_rtp_write. meq. Qed.
#[export] Instance mncc_send_proper : Proper (same_close ==> eq ==> eq ==> meq) mncc_send.
Proof using. intros d1 d2 H t ? <- cr ? <-. unfold mncc_send. meq. Qed.
#[export] Instance mncc_rtp_send_proper : Proper (same_close ==> eq ==> eq ==> eq ==> meq) mncc_rtp_send.
Proof using. intros d1 d2 H t ? <- cr ? <- s ? <-. unfold mncc_rtp_send. meq. Qed.
#[export] Instance send_rtp_connect_proper : Proper (same_close ==> eq ==> eq ==> meq) send_rtp_connect.
Proof using. intros d1 d2 H l ? <- o ? <-. unfold send_rtp_connect. meq. Qed.
#[export] Instance mncc_call_leg_connect_proper : Proper (same_close ==> eq ==> meq) mncc_call_leg_connect.
Proof using. intros d1 d2 H l ? <-. unfold mncc_call_leg_connect. meq. Qed.
#[export] Instance mncc_call_leg_ring_proper : Proper (same_close ==> eq ==> meq) mncc_call_leg_ring.
Proof using. intros d1 d2 H l ? <-. unfold mncc_call_leg_ring. meq. Qed.
#[export] Instance mncc_call_leg_release_proper : Proper (same_close ==> eq ==> meq) mncc_call_leg_release.
Proof using. intros d1 d2 H l ? <-. unfold mncc_call_leg_release, request_release. meq. Qed.
#[export] Instance mncc_create_remote_leg_proper : Proper (same_close ==> eq ==> meq) mncc_create_remote_leg.
Proof using. intros d1 d2 H c ? <-. unfold mncc_create_remote_leg. meq. Qed.
#[export] Instance check_hello_proper : Proper (same_close ==> eq ==> eq ==> meq) check_hello.
Proof using. intros d1 d2 H b ? <- rc ? <-. unfold check_hello. meq. Qed.
#[export] Instance release_leg_proper : Proper (same_close ==> eq ==> meq) release_leg.
Proof using. intros d1 d2 H l ? <-. unfold release_leg. meq. Qed.
#[export] Instance disconnect_loop_proper :
  Proper (pointwise_relation ptr meq ==> eq ==> eq ==> meq) disconnect_loop.
Proof using.
  intros r1 r2 H n ? <-. induction n as [|n IH]; intros c ? <-; simpl; [done|].
  pose proof (fun c => IH c c eq_refl). unfold disconnect_call, release_opt. meq.
Qed.
#[export] Instance app_mncc_disconnected_proper : Proper (pointwise_relation ptr meq ==> meq) app_mncc_disconnected.
Proof using. intros r1 r2 H. unfold app_mncc_disconnected. meq. Qed.

(** C16: unrolling the recursion through the callback once is exact.  The callback
    that is installed satisfies the equation of the code wherever it is called,
    releasing a leg and losing the connection are the same computations for every
    depth, and any function of the callback that respects [same_close], as all
    that write do, is too. *)
Theorem unrolling_exact n :
  close_connection disconnected ≈ close_connection (app_mncc_disconnected (fun l => release_leg disconnected l))
  /\ (forall l, release_leg (on_disconnect (S n)) l ≈ call_release l)
  /\ app_mncc_disconnected (release_leg (on_disconnect (S n))) ≈ app_mncc_disconnected call_release
  /\ (forall (A : Type) (f : MW unit -> MW A), Proper (same_close ==> meq) f ->
        f (on_disconnect (S n)) ≈ f disconnected).
Proof using.
  pose proof (on_disconnect_same n) as Hn. pose proof (on_disconnect_same 1) as H1. split_and!.
  - symmetry. exact H1.
  - intros l. by rewrite Hn.
  - apply app_mncc_disconnected_proper. intros l. by rewrite Hn.
  - intros A f Hf. by rewrite Hn.
Qed.
End unroll.
