(* ===== verification/MnccRx.v ===== *)
(** * Messages from the MSC (src/mncc.c, receiving side) *)
From S2P Require Import Prelude Effect Codec Protocol Lib State Call Sdp SipLeg MnccConn App Skel Rules.

(** ** Definitions *)
Section mncc_rx.
Context {E : Env}.

(** The callback is installed from here on. *)
Definition close_conn : MW unit := close_connection disconnected.
Definition send (msg_type callref : Z) : MW unit :=
  _ <- mncc_send disconnected msg_type callref ;; ret tt.

Definition cmd_timeout (l : ptr) : MW unit :=
  o <- call_leg_other l ;;
  match o with
  | None => ret tt
  | Some other => call_release other
  end ;;
  mncc_leg_release l.

(** The number dialled: a plus sign for an international number. *)
Definition mo_dest (m : mncc_leg) : string :=
  if nr_type (m_called m) =? GSM340_TYPE_INTERNATIONAL
  then "+" +:+ str_take 32 (nr_number (m_called m))
  else str_take 32 (nr_number (m_called m)).
Definition mo_source (use_imsi : bool) (m : mncc_leg) : string :=
  if use_imsi then str_take 16 (m_imsi m) else str_take 32 (nr_number (m_calling m)).

Definition continue_mo_call (l : ptr) : MW unit :=
  m <- as_mncc l ;;
  send MNCC_CALL_PROC_REQ (m_callref m) ;;
  upd_mncc l (set_m_state MNCC_CC_PROCEEDING) ;;
  m' <- as_mncc l ;;
  dst <- talloc_str l (mo_dest m') ;;
  g <- gets cfg ;;
  src <- talloc_str l (mo_source (use_imsi_as_id g) m') ;;
  x <- deref_leg l ;;
  app_route_call (lg_call (base x)) src dst.

Definition continue_mt_call (l : ptr) : MW unit :=
  o <- call_leg_other l ;;
  match o with
  | None => ret tt
  | Some other =>
      x <- deref_leg l ;;
      upd_base other (set_payload_type (payload_type (base x)))
  end.

Definition continue_call (l : ptr) : MW unit :=
  m <- as_mncc l ;;
  if decide (m_dir m = MNCC_DIR_MO) then continue_mo_call l else continue_mt_call l.

Definition check_rtp_connect (buf : list Z) (rc : Z) : MW unit :=
  if rc <? sizeof_rtp then close_conn
  else
    let r := view_rtp buf in
    o <- mncc_find_leg_not_released (rtp_callref r) ;;
    match o with
    | None => send MNCC_REJ_REQ (rtp_callref r)
    | Some l =>
        call_leg_rx_sdp l (Some (rtp_sdp r)) ;;
        if negb (ss_family (rtp_addr r) =? AF_UNSPEC)
           || negb (osmo_sockaddr_port (rtp_addr r) =? 0)
           || negb (rtp_payload_type r =? 0)
        then ret tt
        else
          o' <- call_leg_other l ;;
          match o' with
          | None => ret tt
          | Some other => call_release other
          end ;;
          call_release l
    end.

Definition check_rtp_create (buf : list Z) (rc : Z) : MW unit :=
  if rc <? sizeof_rtp then close_conn
  else
    let r := view_rtp buf in
    o <- mncc_find_leg_not_released (rtp_callref r) ;;
    match o with
    | None => send MNCC_REJ_REQ (rtp_callref r)
    | Some l =>
        upd_base l (fun b => set_payload_msg_type (rtp_payload_msg_type r)
                     (set_payload_type (rtp_payload_type r) (set_addr (rtp_addr r) b))) ;;
        call_leg_rx_sdp l (Some (rtp_sdp r)) ;;
        stop_cmd_timer l MNCC_RTP_CREATE ;;
        continue_call l
    end.

Definition continue_setup (m : gsm_mncc) : bool :=
  (nr_plan (mn_called m) =? GSM340_PLAN_UNKNOWN) || (nr_plan (mn_called m) =? GSM340_PLAN_ISDN).

(** [.type = CALL_TYPE_MNCC], which is 2 in the enumeration of call.h *)
Definition emergency_number : gsm_mncc_number := Number 2 GSM48_NPI_UNKNOWN "emergency".

(** The SDP to forward with an RTP_CREATE: what the other leg received since
    it was last forwarded; the mark is cleared. *)
Definition take_changed_sdp (l : ptr) : MW (option string) :=
  o <- call_leg_other l ;;
  match o with
  | None => ret None
  | Some other =>
      x <- deref_leg other ;;
      if negb (String.eqb (rx_sdp (base x)) EmptyString) && rx_sdp_changed (base x) then
        upd_base other (fun b => set_rx_sdp (rx_sdp b) false b) ;;
        ret (Some (rx_sdp (base x)))
      else ret None
  end.

(** [start_cmd_timer (leg, MNCC_RTP_CREATE)] and [mncc_rtp_send] *)
Definition request_rtp_create (l : ptr) (callref : Z) (sdp : option string) : MW unit :=
  start_cmd_timer l MNCC_RTP_CREATE ;;
  _ <- mncc_rtp_send disconnected MNCC_RTP_CREATE callref sdp ;;
  ret tt.

(** The part of [check_setup] after screening: [called] is the dialled number,
    [g] the decoded GCR. *)
Definition setup_call (d : gsm_mncc) (called : gsm_mncc_number) (g : option osmo_gcr) : MW unit :=
  o <- call_mncc_create ;;
  match o with
  | None => send MNCC_REJ_REQ (mn_callref d)
  | Some c =>
      cl <- deref_call c ;;
      l <- some_or NullDeref (initial cl) ;;
      upd_base l (set_ops mncc_leg_ops) ;;
      upd_mncc l (fun m => MnccLeg MNCC_CC_INITIAL MNCC_DIR_MO (mn_callref d) called
                                   (mn_calling d) (mn_imsi d) (m_rsp_wanted m) (m_cause m)) ;;
      call_leg_rx_sdp l (Some (mn_sdp d)) ;;
      match g with
      | Some v => upd_call c (set_gcr v)
      | None => ret tt
      end ;;
      sdp <- take_changed_sdp l ;;
      request_rtp_create l (mn_callref d) sdp
  end.

Definition check_setup (buf : list Z) (rc : Z) : MW unit :=
  if rc <? sizeof_gsm_mncc then close_conn
  else
    let d := view_gsm_mncc buf in
    let has_called := has_flag (mn_fields d) MNCC_F_CALLED in
    if negb has_called && (mn_emergency d =? 0) then send MNCC_REJ_REQ (mn_callref d)
    else
      let called := if has_called then mn_called d else emergency_number in
      if negb (has_flag (mn_fields d) MNCC_F_CALLING) then send MNCC_REJ_REQ (mn_callref d)
      else if negb (continue_setup d) then send MNCC_REJ_REQ (mn_callref d)
      else if has_flag (mn_fields d) MNCC_F_GCR then
        match osmo_dec_gcr (mn_gcr d) with
        | None => send MNCC_REJ_REQ (mn_callref d)
        | Some g => setup_call d called (Some g)
        end
      else setup_call d called None.

(** [find_leg]: the message and the leg, unless the buffer is too short or no
    leg has the callref. *)
Definition find_leg (buf : list Z) (rc : Z) : MW (option (gsm_mncc * ptr)) :=
  if rc <? sizeof_gsm_mncc then close_conn ;; ret None
  else
    let d := view_gsm_mncc buf in
    o <- mncc_find_leg (mn_callref d) ;;
    ret (match o with Some l => Some (d, l) | None => None end).

(** [leg = find_leg (...); if (!leg) return;] *)
Definition with_leg (buf : list Z) (rc : Z) (k : gsm_mncc -> ptr -> MW unit) : MW unit :=
  o <- find_leg buf rc ;;
  match o with
  | None => ret tt
  | Some (d, l) => k d l
  end.

(** [if (other_leg) { other_leg->cause = v; other_leg->release_call (other_leg); }] *)
Definition release_other_with_cause (l : ptr) (v : Z) : MW unit :=
  o <- call_leg_other l ;;
  match o with
  | None => ret tt
  | Some other => upd_base other (set_cause v) ;; call_release other
  end.

(** [mncc_send (leg->conn, t, leg->callref)] *)
Definition send_for (l : ptr) (t : Z) : MW unit :=
  m <- as_mncc l ;; send t (m_callref m).

Definition check_disc_ind (buf : list Z) (rc : Z) : MW unit :=
  with_leg buf rc (fun d l =>
    upd_base l (set_in_release true) ;;
    start_cmd_timer l MNCC_REL_CNF ;;
    send_for l MNCC_REL_REQ ;;
    release_other_with_cause l (ca_value (mn_cause d))).

Definition check_rel_ind (buf : list Z) (rc : Z) : MW unit :=
  with_leg buf rc (fun d l =>
    x <- deref_leg l ;;
    (if in_release (base x) then stop_cmd_timer l MNCC_REL_IND
     else release_other_with_cause l (ca_value (mn_cause d))) ;;
    mncc_leg_release l).

Definition check_rel_cnf (buf : list Z) (rc : Z) : MW unit :=
  with_leg buf rc (fun _ l =>
    stop_cmd_timer l MNCC_REL_CNF ;;
    mncc_leg_release l).

Definition check_stp_cmpl_ind (buf : list Z) (rc : Z) : MW unit :=
  with_leg buf rc (fun d l =>
    call_leg_rx_sdp l (Some (mn_sdp d)) ;;
    stop_cmd_timer l MNCC_SETUP_COMPL_IND ;;
    upd_mncc l (set_m_state MNCC_CC_CONNECTED)).

Definition check_rej_ind (buf : list Z) (rc : Z) : MW unit :=
  with_leg buf rc (fun d l =>
    upd_mncc l (set_m_cause (ca_value (mn_cause d))) ;;
    release_other_with_cause l (ca_value (mn_cause d)) ;;
    mncc_leg_release l).

Definition check_cnf_ind (buf : list Z) (rc : Z) : MW unit :=
  with_leg buf rc (fun d l =>
    call_leg_rx_sdp l (Some (mn_sdp d)) ;;
    sdp <- take_changed_sdp l ;;
    request_rtp_create l (mn_callref d) sdp).

Definition check_alrt_ind (buf : list Z) (rc : Z) : MW unit :=
  with_leg buf rc (fun d l =>
    call_leg_rx_sdp l (Some (mn_sdp d)) ;;
    o <- call_leg_other l ;;
    match o with
    | None => mncc_call_leg_release disconnected l
    | Some other => invoke_member ring_call other
    end).

Definition check_hold_ind (buf : list Z) (rc : Z) : MW unit :=
  with_leg buf rc (fun d l =>
    o <- call_leg_other l ;;
    match o with
    | None => send_for l MNCC_HOLD_REJ
    | Some other =>
        invoke_member hold_call other ;;
        send_for l MNCC_HOLD_CNF ;;
        upd_mncc l (set_m_state MNCC_CC_HOLD)
    end).

Definition check_retrieve_ind (buf : list Z) (rc : Z) : MW unit :=
  with_leg buf rc (fun d l =>
    o <- call_leg_other l ;;
    match o with
    | None =>
        send_for l MNCC_RETRIEVE_CNF ;;
        mncc_call_leg_release disconnected l
    | Some other =>
        invoke_member retrieve_call other ;;
        send_for l MNCC_RETRIEVE_CNF ;;
        upd_mncc l (set_m_state MNCC_CC_CONNECTED) ;;
        _ <- send_rtp_connect disconnected l other ;;
        ret tt
    end).

Definition check_stp_cnf (buf : list Z) (rc : Z) : MW unit :=
  with_leg buf rc (fun d l =>
    call_leg_rx_sdp l (Some (mn_sdp d)) ;;
    o <- call_leg_other l ;;
    match o with
    | None => mncc_call_leg_release disconnected l
    | Some other =>
        ok <- send_rtp_connect disconnected l other ;;
        if negb ok then ret tt
        else
          upd_mncc l (set_m_state MNCC_CC_CONNECTED) ;;
          send_for l MNCC_SETUP_COMPL_REQ ;;
          invoke_member connect_call other
    end).

(** The answer to a DTMF message, with the key echoed. *)
Definition dtmf_rsp (l : ptr) (t keypad : Z) : MW unit :=
  m <- as_mncc l ;;
  h <- mncc_fill_header gsm_mncc0 t (m_callref m) ;;
  _ <- mncc_write disconnected (set_mn_keypad keypad (add_field MNCC_F_KEYPAD h)) ;;
  ret tt.

Definition check_dtmf_start (buf : list Z) (rc : Z) : MW unit :=
  with_leg buf rc (fun d l =>
    call_leg_rx_sdp l (Some (mn_sdp d)) ;;
    o <- call_leg_other l ;;
    match o with
    | None => ret tt
    | Some other => invoke_dtmf other (mn_keypad d)
    end ;;
    dtmf_rsp l MNCC_START_DTMF_RSP (mn_keypad d)).

Definition check_dtmf_stop (buf : list Z) (rc : Z) : MW unit :=
  with_leg buf rc (fun d l =>
    call_leg_rx_sdp l (Some (mn_sdp d)) ;;
    dtmf_rsp l MNCC_STOP_DTMF_RSP (mn_keypad d)).

(** The switch of [mncc_data]. *)
Definition mncc_dispatch (msg_type : Z) (buf : list Z) (rc : Z) : MW unit :=
  if msg_type =? MNCC_SOCKET_HELLO then check_hello disconnected buf rc
  else if msg_type =? MNCC_SETUP_IND then check_setup buf rc
  else if msg_type =? MNCC_RTP_CREATE then check_rtp_create buf rc
  else if msg_type =? MNCC_RTP_CONNECT then check_rtp_connect buf rc
  else if msg_type =? MNCC_DISC_IND then check_disc_ind buf rc
  else if msg_type =? MNCC_REL_IND then check_rel_ind buf rc
  else if msg_type =? MNCC_REJ_IND then check_rej_ind buf rc
  else if msg_type =? MNCC_REL_CNF then check_rel_cnf buf rc
  else if msg_type =? MNCC_SETUP_COMPL_IND then check_stp_cmpl_ind buf rc
  else if msg_type =? MNCC_SETUP_CNF then check_stp_cnf buf rc
  else if msg_type =? MNCC_CALL_CONF_IND then check_cnf_ind buf rc
  else if msg_type =? MNCC_ALERT_IND then check_alrt_ind buf rc
  else if msg_type =? MNCC_HOLD_IND then check_hold_ind buf rc
  else if msg_type =? MNCC_RETRIEVE_IND then check_retrieve_ind buf rc
  else if msg_type =? MNCC_START_DTMF_IND then check_dtmf_start buf rc
  else if msg_type =? MNCC_STOP_DTMF_IND then check_dtmf_stop buf rc
  else ret tt.

(** [mncc_data]: [None] is a [read] that returned 0 or an error, [Some buf] the
    bytes it returned (at most 4096). *)
Definition mncc_data (rd : option (list Z)) : MW unit :=
  match rd with
  | None => close_conn
  | Some buf =>
      let rc := Z.of_nat (length buf) in
      if rc <=? 4 then close_conn
      else mncc_dispatch (rd32 buf 0) buf rc
  end.
End mncc_rx.

(** ** Every message leaves a consistent store *)
Section rx_ok.
Context {E : Env} {HE : EnvLaws E} {HW : WritesOk E} (s : skel) (cn : mncc_connection) (Hwf : wfsk s) (Hok : conn_ok cn).

(** Messages that carry no cause. *)
Lemma send_st s' w t cr : wfsk s' -> st s' cn w -> t <> MNCC_DISC_REQ -> t <> MNCC_REL_REQ ->
  wp (send t cr) (fun _ w' => st s' cn w') w.
Proof using HW.
  intros Hwf' Hst H1 H2. unfold send.
  by wp_use (mncc_send_plain_st disconnected s' cn Hwf') as rc w' Hst'.
Qed.

Lemma send_ok w t cr : st s cn w -> t <> MNCC_DISC_REQ -> t <> MNCC_REL_REQ ->
  wp (send t cr) (fun _ => ok s) w.
Proof using HW Hwf Hok.
  intros Hst H1 H2. wp_last send_st as u w' Hst'. by eapply ok_refl.
Qed.

(** A leg given to a handler. *)
Section leg.
Context (l : ptr) (sh : lshape) (d : mncc_dir) (cr : Z).
Context (Hl : sk_legs s !! l = Some sh) (He : sh_ext sh = ShMncc d cr).

Lemma leg_established : established sh.
Proof using Hwf Hl He.
  destruct (wf_leg s Hwf l sh Hl) as (_ & [?|[_ He']] & _); [done|]. by rewrite He' in He.
Qed.

Lemma leg_is_mncc : is_mncc sh.
Proof using He. unfold is_mncc. by rewrite He. Qed.

Lemma send_for_st w t : st s cn w -> wp (send_for l t) (fun _ w' => st s cn w') w.
Proof using HW Hwf Hl He.
  intros Hst. unfold send_for, send. wp_seq m w1 (_ & -> & _ & -> & _).
  wp_use (mncc_send_st disconnected s cn Hwf) as rc w2 Hst2; [|done].
  intros _. exists l. by eapply mncc_self.
Qed.

(** Releasing the other leg leaves this one. *)
Lemma release_other_st w l' : st s cn w -> other_leg s l sh l' ->
  wp (call_release l') (fun _ w' => exists s', st s' cn w' /\ evolves s s' /\ wfsk s'
        /\ sk_legs s' !! l = Some sh) w.
Proof using HW Hwf Hl.
  intros Hst (sh' & Hl' & Hne & _ & _ & Hest' & _).
  wp_last (release_leg_st disconnected s cn Hwf l' sh') as u w' (s' & Hst' & Hrel).
  exists s'. split_and!; eauto using released_evolves, released_wf.
  rewrite (released_other s l' sh' s' l); auto.
Qed.

Lemma release_other_with_cause_st w v : st s cn w ->
  wp (release_other_with_cause l v)
     (fun _ w' => exists s', st s' cn w' /\ evolves s s' /\ wfsk s' /\ sk_legs s' !! l = Some sh) w.
Proof using HW Hwf Hl.
  intros Hst. unfold release_other_with_cause. wp_use call_leg_other_st as o w1 (_ & -> & Ho).
  destruct o as [l'|]; [|apply wp_ret; exists s; split_and!; auto; apply rtc_refl].
  pose proof Ho as (sh' & Hl' & _). wp_seq u w1 Hst1. by apply release_other_st.
Qed.

Lemma mncc_leg_release_ok s' w : evolves s s' -> wfsk s' -> st s' cn w -> sk_legs s' !! l = Some sh ->
  wp (mncc_leg_release l) (fun _ => ok s) w.
Proof using Hok He.
  intros Hev Hwf' Hst Hl'. wp_last (mncc_leg_release_st s' cn Hwf' l sh) as u w' Hst'.
  eapply ok_st; [done| |done]. etransitivity; [done|]. by eapply rtc_once, step_release.
Qed.

Lemma mncc_release_ok w : st s cn w -> wp (mncc_call_leg_release disconnected l) (fun _ => ok s) w.
Proof using HW Hwf Hok Hl He.
  intros Hst. wp_last mncc_call_leg_release_st as u w' (s' & ? & ? & _).
  eapply ok_st; eauto using released_evolves.
Qed.

Lemma take_changed_sdp_st w : st s cn w -> wp (take_changed_sdp l) (fun _ w' => st s cn w') w.
Proof using Hwf Hl.
  intros Hst. unfold take_changed_sdp. wp_use call_leg_other_st as o w1 (_ & -> & Ho).
  destruct o as [l'|]; [|done]. destruct Ho as (sh' & Hl' & _).
  wp_seq x w1 (_ & -> & _). destruct (_ && _); [|done]. by wp_seq u w1 Hst1.
Qed.

Lemma request_rtp_create_st w cr' sdp : st s cn w ->
  wp (request_rtp_create l cr' sdp) (fun _ w' => st s cn w') w.
Proof using HW Hl He.
  intros Hst. unfold request_rtp_create. wp_use start_cmd_timer_st as u w1 Hst1.
  by wp_use (mncc_rtp_send_st disconnected) as rc w2 Hst2.
Qed.

Lemma dtmf_rsp_st w t k : t <> MNCC_DISC_REQ -> t <> MNCC_REL_REQ -> st s cn w ->
  wp (dtmf_rsp l t k) (fun _ w' => st s cn w') w.
Proof using HW Hwf Hl He.
  intros H1 H2 Hst. unfold dtmf_rsp. wp_seq m w1 (_ & -> & _).
  wp_use (mncc_fill_header_st s cn Hwf) as h w1 Hst1; [by intros [?|?]|].
  by wp_use (mncc_write_st disconnected s cn) as rc w2 [Hst2 _].
Qed.
End leg.

(** [find_leg] and the handlers built on it. *)
Lemma with_leg_ok buf rc k w : st s cn w ->
  (forall l sh d, sk_legs s !! l = Some sh -> sh_ext sh = ShMncc d (mn_callref (view_gsm_mncc buf)) ->
     wp (k (view_gsm_mncc buf) l) (fun _ => ok s) w) ->
  wp (with_leg buf rc k) (fun _ => ok s) w.
Proof using Hwf Hok.
  intros Hst Hk. unfold with_leg, find_leg. destruct (rc <? sizeof_gsm_mncc).
  - apply wp_bind. wp_use close_conn_ok as u w1 Hw1. by apply wp_ret.
  - apply wp_bind. wp_use (mncc_find_leg_st s cn Hwf) as o w1 (-> & Ho). apply wp_ret.
    destruct o as [l|]; [|apply wp_ret; by eapply ok_refl]. destruct Ho as (sh & d & ? & ?). eauto.
Qed.

Ltac handler := intros Hst; apply with_leg_ok; [done|]; intros l sh d Hl He.

Lemma check_disc_ind_ok buf rc w : st s cn w -> wp (check_disc_ind buf rc) (fun _ => ok s) w.
Proof using HW Hwf Hok.
  handler. wp_seq u w1 Hst1. wp_use start_cmd_timer_st as u2 w2 Hst2. wp_use send_for_st as u3 w3 Hst3.
  wp_last release_other_with_cause_st as u4 w4 (s' & ? & ? & _). by eapply ok_st.
Qed.

Lemma check_rel_ind_ok buf rc w : st s cn w -> wp (check_rel_ind buf rc) (fun _ => ok s) w.
Proof using HW Hwf Hok.
  handler. wp_seq x w1 (_ & -> & _). destruct (in_release (base x)).
  - wp_use stop_cmd_timer_st as u w1 Hst1. eapply mncc_leg_release_ok; eauto. apply rtc_refl.
  - wp_use release_other_with_cause_st as u w1 (s' & ? & ? & ? & ?). by eapply mncc_leg_release_ok.
Qed.

Lemma check_rel_cnf_ok buf rc w : st s cn w -> wp (check_rel_cnf buf rc) (fun _ => ok s) w.
Proof using Hwf Hok.
  handler. wp_use stop_cmd_timer_st as u w1 Hst1. eapply mncc_leg_release_ok; eauto. apply rtc_refl.
Qed.

Lemma check_stp_cmpl_ind_ok buf rc w : st s cn w -> wp (check_stp_cmpl_ind buf rc) (fun _ => ok s) w.
Proof using Hwf Hok.
  handler. wp_use call_leg_rx_sdp_st as u w1 Hst1. wp_use stop_cmd_timer_st as u2 w2 Hst2.
  wp_last upd_mncc_st as u3 w3 Hst3. by eapply ok_refl.
Qed.

Lemma check_rej_ind_ok buf rc w : st s cn w -> wp (check_rej_ind buf rc) (fun _ => ok s) w.
Proof using HW Hwf Hok.
  handler. wp_use upd_mncc_st as u w1 Hst1.
  wp_use release_other_with_cause_st as u2 w2 (s' & ? & ? & ? & ?). by eapply mncc_leg_release_ok.
Qed.

Lemma check_cnf_ind_ok buf rc w : st s cn w -> wp (check_cnf_ind buf rc) (fun _ => ok s) w.
Proof using HW Hwf Hok.
  handler. wp_use call_leg_rx_sdp_st as u w1 Hst1. wp_use take_changed_sdp_st as o w2 Hst2.
  wp_last request_rtp_create_st as u3 w3 Hst3. by eapply ok_refl.
Qed.

(** The initial leg of a call with a remote leg does not have the callref. *)
Definition no_remote_for (cr : Z) : Prop :=
  forall c l r, sk_calls s !! c = Some (Some l, Some r) -> ~ has_callref s cr l.

(** What the MSC must not do for a MO call that is already routed: the SIP leg
    then has no [ring_call] and no [connect_call]. *)
Lemma no_remote_other l sh d cr l' : no_remote_for cr -> sk_legs s !! l = Some sh ->
  sh_ext sh = ShMncc d cr -> other_leg s l sh l' ->
  exists sh', sk_legs s !! l' = Some sh' /\ other_leg s l' sh' l /\ ~ no_ring sh' /\ ~ is_mncc sh'.
Proof using Hwf.
  intros Hn Hl He Ho. pose proof Ho as (sh' & Hl' & _ & _ & _ & Hest' & Hty & Hor).
  exists sh'. split; [done|]. split; [by eapply other_leg_sym|].
  destruct (wf_leg s Hwf l sh Hl) as [Htag _], (wf_leg s Hwf l' sh' Hl') as [Htag' _].
  unfold tag_ok in *. rewrite He in Htag.
  destruct Hor as [(_ & _ & Hc)|(_ & Hmo & _)].
  - destruct (Hn _ _ _ Hc). exists sh, d. auto.
  - unfold no_ring, is_mncc, is_mo in *. destruct (sh_ext sh') as [d' cr'|[] h']; [congruence| |done].
    split; by intros [].
Qed.

Lemma check_alrt_ind_ok buf rc w : st s cn w -> no_remote_for (mn_callref (view_gsm_mncc buf)) ->
  wp (check_alrt_ind buf rc) (fun _ => ok s) w.
Proof using HW Hwf Hok.
  intros Hst Hn. revert Hst. handler. wp_use call_leg_rx_sdp_st as u w1 Hst1.
  wp_use call_leg_other_st as o w2 (_ & -> & Ho). destruct o as [l'|]; [|by eapply mncc_release_ok].
  destruct (no_remote_other l sh d _ l' Hn Hl He Ho) as (sh' & Hl' & Ho' & Hr & _).
  wp_last (invoke_member_sel s cn Hwf) as u2 w2 Hst2. by eapply ok_refl.
Qed.

(** A leg's other leg is of the other kind. *)
Lemma other_not_mncc l sh d cr l' : sk_legs s !! l = Some sh -> sh_ext sh = ShMncc d cr ->
  other_leg s l sh l' -> exists sh', sk_legs s !! l' = Some sh' /\ other_leg s l' sh' l /\ ~ is_mncc sh'.
Proof using Hwf.
  intros Hl He Ho. pose proof Ho as (sh' & Hl' & _ & _ & _ & Hest' & Hty & Hor).
  exists sh'. split; [done|]. split; [by eapply other_leg_sym|].
  destruct (wf_leg s Hwf l sh Hl) as [Htag _], (wf_leg s Hwf l' sh' Hl') as [Htag' _].
  unfold tag_ok, is_mncc in *. rewrite He in Htag. destruct (sh_ext sh'); congruence.
Qed.

Lemma check_hold_ind_ok buf rc w : st s cn w -> wp (check_hold_ind buf rc) (fun _ => ok s) w.
Proof using HW Hwf Hok.
  handler. wp_use call_leg_other_st as o w1 (_ & -> & Ho). destruct o as [l'|].
  - destruct (other_not_mncc l sh d _ l' Hl He Ho) as (sh' & Hl' & Ho' & Hr).
    wp_use (invoke_member_sel s cn Hwf) as u w1 Hst1. wp_use send_for_st as u2 w2 Hst2.
    wp_last upd_mncc_st as u3 w3 Hst3. by eapply ok_refl.
  - wp_last send_for_st as u w1 Hst1. by eapply ok_refl.
Qed.

Lemma check_retrieve_ind_ok buf rc w : st s cn w -> wp (check_retrieve_ind buf rc) (fun _ => ok s) w.
Proof using HW Hwf Hok.
  handler. wp_use call_leg_other_st as o w1 (_ & -> & Ho). destruct o as [l'|].
  - destruct (other_not_mncc l sh d _ l' Hl He Ho) as (sh' & Hl' & Ho' & Hr).
    wp_use (invoke_member_sel s cn Hwf) as u w1 Hst1. wp_use send_for_st as u2 w2 Hst2.
    wp_use upd_mncc_st as u3 w3 Hst3.
    wp_use (send_rtp_connect_st disconnected) as b w4 Hst4. by eapply ok_refl.
  - wp_use send_for_st as u w1 Hst1. by eapply mncc_release_ok.
Qed.

Lemma check_stp_cnf_ok buf rc w : st s cn w -> no_remote_for (mn_callref (view_gsm_mncc buf)) ->
  wp (check_stp_cnf buf rc) (fun _ => ok s) w.
Proof using HW Hwf Hok.
  intros Hst Hn. revert Hst. handler. wp_use call_leg_rx_sdp_st as u w1 Hst1.
  wp_use call_leg_other_st as o w2 (_ & -> & Ho). destruct o as [l'|]; [|by eapply mncc_release_ok].
  destruct (no_remote_other l sh d _ l' Hn Hl He Ho) as (sh' & Hl' & Ho' & Hr & _).
  wp_use (send_rtp_connect_st disconnected) as b w2 Hst2.
  destruct b; simpl; [|by eapply ok_refl].
  wp_use upd_mncc_st as u3 w3 Hst3. wp_use send_for_st as u4 w4 Hst4.
  wp_last (invoke_member_sel s cn Hwf) as u5 w5 Hst5. by eapply ok_refl.
Qed.

Lemma invoke_dtmf_st l sh w k : st s cn w -> sk_legs s !! l = Some sh -> established sh ->
  wp (invoke_dtmf l k) (fun _ w' => st s cn w') w.
Proof using Hwf.
  intros Hst Hl Hest. unfold invoke_dtmf. wp_use deref_leg_st as x w1 (_ & -> & _ & Hsh).
  assert (ops (base x) = sh_ops sh) as -> by by rewrite <- Hsh.
  unfold established in Hest. destruct (sh_ext sh) as [d cr|[] h] eqn:He.
  - by rewrite Hest.
  - destruct Hest as [-> _]. by eapply sip_dtmf_call_st.
  - destruct Hest as [-> _]. by eapply sip_dtmf_call_st.
Qed.

Lemma check_dtmf_start_ok buf rc w : st s cn w -> wp (check_dtmf_start buf rc) (fun _ => ok s) w.
Proof using HW Hwf Hok.
  handler. wp_use call_leg_rx_sdp_st as u w1 Hst1. wp_use call_leg_other_st as o w2 (_ & -> & Ho).
  assert (forall w2, st s cn w2 ->
    wp (dtmf_rsp l MNCC_START_DTMF_RSP (mn_keypad (view_gsm_mncc buf))) (fun _ => ok s) w2) as Hrsp.
  { intros w2 Hst2. wp_last dtmf_rsp_st as u3 w3 Hst3; [done..|]. by eapply ok_refl. }
  destruct o as [l'|]; [|by apply wp_bind, Hrsp]. destruct Ho as (sh' & Hl' & _ & _ & _ & Hest & _).
  wp_use (invoke_dtmf_st l' sh') as u2 w2 Hst2. by apply Hrsp.
Qed.

Lemma check_dtmf_stop_ok buf rc w : st s cn w -> wp (check_dtmf_stop buf rc) (fun _ => ok s) w.
Proof using HW Hwf Hok.
  handler. wp_use call_leg_rx_sdp_st as u w1 Hst1.
  wp_last dtmf_rsp_st as u3 w3 Hst3; [done..|]. by eapply ok_refl.
Qed.

(** ** Hello and the media messages *)
Lemma check_hello_ok buf rc w : st s cn w -> 0 <= cn_fd cn ->
  wp (check_hello disconnected buf rc) (fun _ => ok s) w.
Proof using Hwf Hok.
  intros Hst Hfd. unfold check_hello. destruct (rc =? sizeof_hello); simpl; [|by eapply close_conn_ok].
  destruct (_ =? MNCC_SOCK_VERSION); simpl; [|by eapply close_conn_ok].
  apply wp_modify. eapply (ok_st s s); [apply (st_set_conn Hst)|apply rtc_refl|].
  destruct Hok as [Hs Ht Hc]. split; simpl; [|done|done]. split; [lia|done].
Qed.

Lemma check_rtp_connect_ok buf rc w : st s cn w -> wp (check_rtp_connect buf rc) (fun _ => ok s) w.
Proof using HW Hwf Hok.
  intros Hst. unfold check_rtp_connect. destruct (rc <? sizeof_rtp); [by eapply close_conn_ok|].
  wp_use (mncc_find_leg_not_released_st s cn Hwf) as o w1 (-> & Ho).
  destruct o as [l|]; [|by apply send_ok]. destruct Ho as [(sh & d & Hl & He) _].
  wp_use call_leg_rx_sdp_st as u w1 Hst1. destruct (_ || _); [by eapply ok_refl|].
  wp_use call_leg_other_st as o w2 (_ & -> & Ho).
  pose proof (leg_established l sh d _ Hl He) as Hest.
  destruct o as [l'|].
  - wp_use release_other_st as u2 w2 (s' & Hst2 & Hev & Hwf' & Hl').
    wp_last release_leg_st as u3 w3 (s2 & ? & ?). eapply ok_st; eauto.
    etransitivity; [done|]. by eapply released_evolves.
  - apply wp_bind, wp_ret. by eapply call_release_ok.
Qed.

Lemma continue_mo_call_ok l sh cr w : st s cn w -> sk_legs s !! l = Some sh ->
  sh_ext sh = ShMncc MNCC_DIR_MO cr -> no_remote_for cr -> wp (continue_mo_call l) (fun _ => ok s) w.
Proof using HE HW Hwf Hok.
  intros Hst Hl He Hn. unfold continue_mo_call. wp_use as_mncc_st as m w1 (_ & -> & _).
  wp_use send_st as u w1 Hst1; [discriminate..|]. wp_use upd_mncc_st as u2 w2 Hst2.
  wp_use as_mncc_st as m' w3 (_ & -> & _). wp_use talloc_str_st as dst w3 [Hst3 Hdst].
  apply wp_bind, wp_gets. wp_use talloc_str_st as src w4 [Hst4 Hsrc].
  wp_use deref_leg_st as x w5 (_ & -> & _ & Hsh).
  assert (lg_call (base x) = sh_call sh) as -> by by rewrite <- Hsh.
  destruct (wf_leg s Hwf l sh Hl) as (_ & _ & i & r & Hc & Hir).
  assert (i = Some l) as ->.
  { destruct Hir as [?| ->]; [done|]. destruct (wf_remote s Hwf _ _ _ Hc) as (sh' & ? & _ & Hmt & _).
    simplify_eq. unfold is_mt in Hmt. by rewrite He in Hmt. }
  destruct r as [r|]; [destruct (Hn _ _ _ Hc); by exists sh, MNCC_DIR_MO|].
  eapply app_route_call_ok; eauto.
  - apply rtc_refl.
  - split_and!; eauto using leg_established.
  - intros p t [-> | ->]; naive_solver.
Qed.

Lemma continue_call_ok l sh d cr w : st s cn w -> sk_legs s !! l = Some sh ->
  sh_ext sh = ShMncc d cr -> no_remote_for cr -> wp (continue_call l) (fun _ => ok s) w.
Proof using HE HW Hwf Hok.
  intros Hst Hl He Hn. unfold continue_call. wp_use as_mncc_st as m w1 (_ & -> & Hd & _).
  case_decide as Hdir; [eapply continue_mo_call_ok; eauto; congruence|].
  unfold continue_mt_call. wp_use call_leg_other_st as o w2 (_ & -> & Ho).
  destruct o as [l'|]; [|by eapply ok_refl]. destruct Ho as (sh' & Hl' & _).
  wp_seq x w2 (_ & -> & _). wp_last upd_base_st as u w3 Hst3. by eapply ok_refl.
Qed.

Lemma check_rtp_create_ok buf rc w : st s cn w -> no_remote_for (rtp_callref (view_rtp buf)) ->
  wp (check_rtp_create buf rc) (fun _ => ok s) w.
Proof using HE HW Hwf Hok.
  intros Hst Hn. unfold check_rtp_create. destruct (rc <? sizeof_rtp); [by eapply close_conn_ok|].
  wp_use (mncc_find_leg_not_released_st s cn Hwf) as o w1 (-> & Ho).
  destruct o as [l|]; [|by apply send_ok]. destruct Ho as [(sh & d & Hl & He) _].
  wp_use upd_base_st as u w1 Hst1. wp_use call_leg_rx_sdp_st as u2 w2 Hst2.
  wp_use stop_cmd_timer_st as u3 w3 Hst3. eapply continue_call_ok; eauto.
Qed.
End rx_ok.

(** ** Setup, timeout and dispatch *)
Section data_ok.
Context {E : Env} {HE : EnvLaws E} {HW : WritesOk E} (s : skel) (cn : mncc_connection) (Hwf : wfsk s) (Hok : conn_ok cn).

(** The initial leg of a call that came from the MSC. *)
Definition mncc_mo_shape (c : ptr) (cr : Z) : lshape :=
  LShape CALL_TYPE_MNCC c mncc_leg_ops (ShMncc MNCC_DIR_MO cr).

Lemma new_mncc_evolves cr : evolves s (sk_new (mncc_mo_shape (sk_next s) cr) s).
Proof using. apply rtc_once, step_new; try done. by left. Qed.

Lemma setup_call_ok d called g w : st s cn w -> wp (setup_call d called g) (fun _ => ok s) w.
Proof using HW Hwf Hok.
  intros Hst. unfold setup_call, call_mncc_create. wp_use (call_create_st s cn w Hwf) as o w1 Ho.
  destruct o as [c|].
  2: { destruct Ho as (_ & n & Hn & Hst1). wp_last (send_st cn (Skel _ _ _ _ n)) as u w2 Hst2; [by apply sk_next_wf|discriminate..|].
       eapply ok_st; [done| |done]. by apply rtc_once, step_next. }
  destruct Ho as (-> & Hts & Hst1 & _). set (s1 := sk_new _ s) in *.
  assert (Pos.succ (sk_next s) ∉ timers w1) as Hnt.
  { rewrite Hts. intros Ht. destruct (st_timers _ _ _ Hst _ Ht) as (sh & Hsh & _).
    pose proof (wf_fresh_leg s (Pos.succ (sk_next s)) Hwf ltac:(lia)). congruence. }
  wp_use (deref_call_st s1) as cl w2 (_ & -> & _ & -> & _); [apply lookup_insert_eq|].
  apply wp_bind, wp_some_or with (a := Pos.succ (sk_next s)); [done|].
  wp_use (upd_leg_shape_st s1 cn w1 (Pos.succ (sk_next s)) _ _ (mncc_mo_shape (sk_next s) 0)) as u w2 [Hst2 Hts2].
  { apply lookup_insert_eq. }
  { intros x Hx. injection Hx as ? ? ? He. unfold shape, mncc_mo_shape. simpl. rewrite He. congruence. }
  unfold s1 in Hst2. rewrite sk_setup_new in Hst2. clear s1 Hst1.
  wp_use (upd_mncc_shape_st _ cn w2 (Pos.succ (sk_next s)) _ _ _ _ (mncc_mo_shape (sk_next s) (mn_callref d))) as u3 w3 [Hst3 Hts3].
  { apply lookup_insert_eq. }
  { done. }
  { congruence. }
  { intros b m Hb. injection Hb as ? ? ? ? ?. unfold shape, mncc_mo_shape. simpl. congruence. }
  rewrite sk_setup_new in Hst3.
  pose proof (new_mncc_evolves (mn_callref d)) as Hev. pose proof (evolves_wf _ _ Hwf Hev) as Hwf3.
  clear Hst2. set (s3 := sk_new (mncc_mo_shape _ (mn_callref d)) s) in *.
  assert (sk_legs s3 !! Pos.succ (sk_next s) = Some (mncc_mo_shape (sk_next s) (mn_callref d))) as Hl by apply lookup_insert_eq.
  wp_use (call_leg_rx_sdp_st s3) as u4 w4 Hst4. apply wp_bind.
  eapply wp_mono with (P := fun _ w' => st s3 cn w').
  { destruct g; [|done]. eapply upd_call_st; [done|apply lookup_insert_eq|by intros x]. }
  intros u5 w5 Hst5. wp_use (take_changed_sdp_st s3 cn Hwf3) as sdp w6 Hst6.
  wp_last (request_rtp_create_st s3) as u7 w7 Hst7. by eapply ok_st.
Qed.

Lemma check_setup_ok buf rc w : st s cn w -> wp (check_setup buf rc) (fun _ => ok s) w.
Proof using HW Hwf Hok.
  intros Hst. unfold check_setup. destruct (rc <? sizeof_gsm_mncc); [by eapply close_conn_ok|].
  assert (forall cr, wp (send MNCC_REJ_REQ cr) (fun _ => ok s) w) as Hrej.
  { intros cr. by eapply send_ok. }
  destruct (_ && _); [done|]. destruct (has_flag _ MNCC_F_CALLING); simpl; [|done].
  destruct (continue_setup _); simpl; [|done].
  destruct (has_flag _ MNCC_F_GCR); [destruct (osmo_dec_gcr _); [|done]|]; by apply setup_call_ok.
Qed.

Lemma cmd_timeout_ok l sh w : st s cn w -> sk_legs s !! l = Some sh -> is_mncc sh ->
  wp (cmd_timeout l) (fun _ => ok s) w.
Proof using HW Hwf Hok.
  intros Hst Hl Hm. assert (exists d cr, sh_ext sh = ShMncc d cr) as (d & cr & He).
  { unfold is_mncc in Hm. destruct (sh_ext sh); [eauto|done]. }
  unfold cmd_timeout. wp_use call_leg_other_st as o w1 (_ & -> & Ho). destruct o as [l'|].
  - wp_use release_other_st as u w1 (s' & ? & ? & ? & ?). by eapply mncc_leg_release_ok.
  - apply wp_bind, wp_ret. eapply mncc_leg_release_ok; eauto. apply rtc_refl.
Qed.

(** What the MSC may send: ring, connect and media messages of a MO call come
    before the call is routed to SIP. *)
Definition rx_conforms (buf : list Z) : Prop :=
  let t := rd32 buf 0 in
  (t = MNCC_ALERT_IND \/ t = MNCC_SETUP_CNF -> no_remote_for s (mn_callref (view_gsm_mncc buf)))
  /\ (t = MNCC_RTP_CREATE -> no_remote_for s (rtp_callref (view_rtp buf))).

Lemma mncc_dispatch_ok buf rc w : st s cn w -> 0 <= cn_fd cn -> rx_conforms buf ->
  wp (mncc_dispatch (rd32 buf 0) buf rc) (fun _ => ok s) w.
Proof using HE HW Hwf Hok.
  intros Hst Hfd [Hc1 Hc2]. unfold mncc_dispatch.
  repeat match goal with |- wp (if ?a =? ?b then _ else _) _ _ => destruct (Z.eqb_spec a b) end;
    eauto using check_hello_ok, check_setup_ok, check_rtp_create_ok, check_rtp_connect_ok,
      check_disc_ind_ok, check_rel_ind_ok, check_rej_ind_ok, check_rel_cnf_ok, check_stp_cmpl_ind_ok,
      check_stp_cnf_ok, check_cnf_ind_ok, check_alrt_ind_ok, check_hold_ind_ok, check_retrieve_ind_ok,
      check_dtmf_start_ok, check_dtmf_stop_ok.
  by eapply ok_refl.
Qed.

Lemma mncc_data_ok rd w : st s cn w -> 0 <= cn_fd cn -> (forall buf, rd = Some buf -> rx_conforms buf) ->
  wp (mncc_data rd) (fun _ => ok s) w.
Proof using HE HW Hwf Hok.
  intros Hst Hfd Hc. destruct rd as [buf|]; [|by eapply close_conn_ok].
  unfold mncc_data. cbv zeta. destruct (Z.of_nat (length buf) <=? 4); [by eapply close_conn_ok|]. apply mncc_dispatch_ok; auto.
Qed.
End data_ok.

(** ** What the handlers answer *)
Section spec.
Context {E : Env} {HE : EnvLaws E} {HW : WritesOk E}.

(** The conditions under which a SETUP is refused before a call exists. *)
Definition setup_refused (d : gsm_mncc) : bool :=
  negb (has_flag (mn_fields d) MNCC_F_CALLED) && (mn_emergency d =? 0)
  || negb (has_flag (mn_fields d) MNCC_F_CALLING)
  || negb (continue_setup d)
  || has_flag (mn_fields d) MNCC_F_GCR && bool_decide (osmo_dec_gcr (mn_gcr d) = None).

(** The number a call is routed to. *)
Definition setup_called (d : gsm_mncc) : gsm_mncc_number :=
  if has_flag (mn_fields d) MNCC_F_CALLED then mn_called d else emergency_number.
Definition setup_gcr (d : gsm_mncc) : option osmo_gcr :=
  if has_flag (mn_fields d) MNCC_F_GCR then osmo_dec_gcr (mn_gcr d) else None.

Lemma send_plain_eq w t cr : 0 <= cn_fd (conn w) -> t <> MNCC_DISC_REQ -> t <> MNCC_REL_REQ ->
  send t cr w = Ret tt (wrote (TxMncc (set_mn_header t cr gsm_mncc0) sizeof_gsm_mncc) w).
Proof.
  intros Hfd H1 H2. unfold send, mncc_send, mncc_fill_header.
  assert ((MNCC_DISC_REQ =? t) || (MNCC_REL_REQ =? t) = false) as ->.
  { apply orb_false_iff. split; apply Z.eqb_neq; congruence. }
  rewrite bind_assoc, bind_ret_l.
  pose proof (mncc_write_wrote disconnected w (set_mn_header t cr gsm_mncc0)) as H.
  apply wp_returns in H as (rc & w' & Hrun & -> & Hrc). run_step Hrun. by rewrite (Hrc Hfd).
Qed.

Lemma check_setup_cases buf rc w : let d := view_gsm_mncc buf in sizeof_gsm_mncc <= rc ->
  check_setup buf rc w =
    if setup_refused d then send MNCC_REJ_REQ (mn_callref d) w
    else setup_call d (setup_called d) (setup_gcr d) w.
Proof.
  intros d Hlen. unfold check_setup, setup_refused, setup_called, setup_gcr. rewrite (proj2 (Z.ltb_ge _ _) Hlen). fold d.
  destruct (has_flag (mn_fields d) MNCC_F_CALLED), (mn_emergency d =? 0); simpl; try done;
    destruct (has_flag (mn_fields d) MNCC_F_CALLING); simpl; try done;
    destruct (continue_setup d); simpl; try done;
    destruct (has_flag (mn_fields d) MNCC_F_GCR); simpl; try done;
    destruct (osmo_dec_gcr (mn_gcr d)) eqn:Hg; simpl; try done.
Qed.

(** The leg a SETUP makes. *)
Definition setup_leg (c : ptr) (d : gsm_mncc) : leg :=
  Leg (rx_sdp_update (Some (mn_sdp d)) (set_ops mncc_leg_ops (call_leg_new CALL_TYPE_MNCC c)))
      (XMncc (MnccLeg MNCC_CC_INITIAL MNCC_DIR_MO (mn_callref d) (setup_called d) (mn_calling d)
                      (mn_imsi d) MNCC_RTP_CREATE 0)).

(** The GCR of the SETUP goes into the new call. *)
Lemma setup_gcr_run w c n l g : calls w !! c = Some (Call n (Some l) None None None [] false) ->
  exists w', (match g with Some v => upd_call c (set_gcr v) | None => ret tt end) w = Ret tt w' /\
    calls w' = <[c := Call n (Some l) None None None (default [] g) (bool_decide (is_Some g))]> (calls w) /\
    legs w' = legs w /\ conn w' = conn w /\ out w' = out w /\ timers w' = timers w /\
    g_call_list w' = g_call_list w.
Proof using.
  intros Hc. destruct g as [v|].
  - eexists. by split; [apply (upd_call_run w c _ _ Hc)|].
  - exists w. rewrite bool_decide_eq_false_2 by (by intros [? ?]). split_and!; try done.
    simpl. by rewrite insert_id.
Qed.

Lemma request_rtp_create_run w l b m cr sdp : legs w !! l = Some (Leg b (XMncc m)) -> 0 <= cn_fd (conn w) ->
  request_rtp_create l cr sdp w = Ret tt
    (wrote (TxRtp (Rtp MNCC_RTP_CREATE cr sockaddr0 0 0
                     (match sdp with Some s => osmo_strlcpy 1024 s | None => EmptyString end)) sizeof_rtp)
       (set_timers (fun t => {[l]} ∪ t)
         (set_legs (<[l := Leg b (XMncc (set_m_rsp_wanted MNCC_RTP_CREATE m))]>) w))).
Proof using HW.
  intros Hl Hfd. unfold request_rtp_create, start_cmd_timer. rewrite bind_assoc.
  run_step (upd_mncc_eq w l (set_m_rsp_wanted MNCC_RTP_CREATE) b m Hl). set (w1 := set_legs _ w).
  assert (legs w1 !! l = Some (Leg b (XMncc (set_m_rsp_wanted MNCC_RTP_CREATE m)))) as Hl1 by apply lookup_insert_eq.
  run_step (timer_schedule_eq w1 l _ Hl1). set (w2 := set_timers _ w1). unfold mncc_rtp_send.
  match goal with |- context [mncc_rtp_write disconnected ?r] =>
    pose proof (mncc_rtp_write_wrote disconnected w2 r) as H end.
  apply wp_returns in H as (rc & w3 & Hrun & -> & Hrc). run_step Hrun. by rewrite (Hrc Hfd).
Qed.

(** C33: a SETUP at least as long as its structure, when memory is there.  Without a
    called number and not for an emergency, without a calling number, with a numbering
    plan other than unknown or ISDN, or with a GCR that does not decode, it is answered
    by exactly one Reject for its callref, and nothing else changes.  Any other SETUP
    opens a call at the head of the list with the next id, the decoded GCR and one
    MNCC leg with the numbers, the IMSI and the SDP of the message; the only thing
    sent is a request for an RTP stream, and the leg's timer runs until it is
    answered.  The code takes emergency calls, which README.md says there are none of:
    one without a called number is a call to the number emergency. *)
Theorem check_setup_opens buf rc w : wf w -> 0 <= cn_fd (conn w) ->
  let d := view_gsm_mncc buf in
  sizeof_gsm_mncc <= rc -> alloc_ok (n_io w) && alloc_ok (S (n_io w)) = true ->
  if setup_refused d
  then check_setup buf rc w = Ret tt (wrote (TxMncc (set_mn_header MNCC_REJ_REQ (mn_callref d) gsm_mncc0) sizeof_gsm_mncc) w)
  else exists c l w', check_setup buf rc w = Ret tt w' /\
    calls w !! c = None /\ legs w !! l = None /\
    calls w' = <[c := Call (u32 (last_call_id w + 1)) (Some l) None None None
                        (default [] (setup_gcr d)) (bool_decide (is_Some (setup_gcr d)))]> (calls w) /\
    legs w' = <[l := setup_leg c d]> (legs w) /\
    g_call_list w' = c :: g_call_list w /\
    timers w' = {[l]} ∪ timers w /\
    out w' = out w ++ [TxRtp (Rtp MNCC_RTP_CREATE (mn_callref d) sockaddr0 0 0 EmptyString) sizeof_rtp].
Proof.
  intros Hw Hfd d Hlen Ha. rewrite check_setup_cases by done. fold d.
  destruct (setup_refused d) eqn:Hr; [by apply send_plain_eq|].
  destruct (call_create_run w CALL_TYPE_MNCC (XMncc mncc_leg0) Hw) as (o & w1 & Hrun & Ho).
  destruct o as [c|]; [|destruct Ho; congruence].
  destruct Ho as (l & Hc0 & Hl0 & _ & Hcs & Hls & Hlist).
  assert (out w1 = out w /\ timers w1 = timers w /\ conn w1 = conn w) as (Hout & Hts & Hcn).
  { split_and!; (eapply keeps_run; [|exact Hrun]); by apply call_create_keeps. }
  unfold setup_call, call_mncc_create. run_step Hrun.
  assert (calls w1 !! c = Some (Call (u32 (last_call_id w + 1)) (Some l) None None None [] false)) as Hc1
    by by rewrite Hcs, lookup_insert_eq.
  assert (legs w1 !! l = Some (Leg (call_leg_new CALL_TYPE_MNCC c) (XMncc mncc_leg0))) as Hl1
    by by rewrite Hls, lookup_insert_eq.
  run_step (deref_call_eq w1 c _ Hc1). simpl initial.
  run_step (some_or_Some NullDeref l w1).
  run_step (upd_base_eq w1 l (set_ops mncc_leg_ops) _ _ Hl1). set (w2 := set_legs _ w1).
  assert (legs w2 !! l = Some (Leg (set_ops mncc_leg_ops (call_leg_new CALL_TYPE_MNCC c)) (XMncc mncc_leg0))) as Hl2
    by apply lookup_insert_eq.
  run_step (upd_mncc_eq w2 l (fun m => MnccLeg MNCC_CC_INITIAL MNCC_DIR_MO (mn_callref d) (setup_called d)
              (mn_calling d) (mn_imsi d) (m_rsp_wanted m) (m_cause m)) _ _ Hl2). set (w3 := set_legs _ w2).
  set (m3 := MnccLeg _ _ _ _ _ _ _ _) in w3.
  assert (legs w3 !! l = Some (Leg (set_ops mncc_leg_ops (call_leg_new CALL_TYPE_MNCC c)) (XMncc m3))) as Hl3
    by apply lookup_insert_eq.
  unfold call_leg_rx_sdp. run_step (upd_base_eq w3 l (rx_sdp_update (Some (mn_sdp d))) _ _ Hl3).
  set (b4 := rx_sdp_update _ _). set (w4 := set_legs _ w3).
  assert (legs w4 !! l = Some (Leg b4 (XMncc m3))) as Hl4 by apply lookup_insert_eq.
  destruct (setup_gcr_run w4 c _ l (setup_gcr d) Hc1) as (w5 & Hrun5 & Hc5 & Hl5 & Hcn5 & Hout5 & Hts5 & Hg5).
  run_step Hrun5. set (cl := Call (u32 (last_call_id w + 1)) (Some l) None None None
    (default [] (setup_gcr d)) (bool_decide (is_Some (setup_gcr d)))) in *.
  assert (legs w5 !! l = Some (Leg b4 (XMncc m3))) as Hl5' by by rewrite Hl5.
  assert (lg_call b4 = c) as Hbc.
  { unfold b4. by destruct (rx_sdp_update_shape (Some (mn_sdp d)) (set_ops mncc_leg_ops (call_leg_new CALL_TYPE_MNCC c))) as (_ & -> & _). }
  assert (calls w5 !! lg_call b4 = Some cl) as Hc5' by by rewrite Hc5, Hbc, lookup_insert_eq.
  unfold take_changed_sdp. rewrite bind_assoc. run_step (call_leg_other_initial w5 l _ cl Hl5' Hc5' eq_refl).
  change (remote cl) with (@None ptr). cbv beta iota. rewrite bind_ret_l.
  rewrite (request_rtp_create_run w5 l b4 m3 _ None Hl5') by (by rewrite Hcn5; change (conn w4) with (conn w1); rewrite Hcn).
  exists c, l. eexists. split; [reflexivity|]. simpl.
  rewrite Hc5, Hl5, Hg5, Hts5, Hout5. simpl. rewrite Hout, Hts, Hlist, Hcs, Hls, !insert_insert_eq. done.
Qed.

Lemma str_tl_plus (s : string) : str_tl ("+" +:+ s) = s.
Proof. done. Qed.
Lemma str_hd_plus (s : string) : str_hd_is "+" ("+" +:+ s) = true.
Proof. destruct s; reflexivity. Qed.

(** A number the MSC dials keeps its digits and its international mark across SIP: the
    text put into the INVITE, read back as the calling number of a SETUP
    request, gives the number again, as an international number exactly when it
    was one. *)
Lemma number_roundtrip m :
  let n := nr_number (m_called m) in
  (String.length n < Nat.min 33 sizeof_number)%nat ->
  str_hd_is "+" n = false ->
  setup_calling (Some (mo_dest m)) =
    Number (if nr_type (m_called m) =? GSM340_TYPE_INTERNATIONAL
            then GSM48_TON_INTERNATIONAL else GSM48_TON_UNKNOWN) GSM48_NPI_ISDN_E164 n.
Proof.
  intros n Hlen Hplus. unfold mo_dest. fold n. rewrite (str_take_small 32 n) by lia.
  destruct (_ =? _); unfold setup_calling.
  - rewrite str_hd_plus, str_tl_plus, osmo_strlcpy_spec, str_take_small by lia. done.
  - rewrite Hplus, osmo_strlcpy_spec, str_take_small by lia. done.
Qed.

(** A hello makes the connection ready exactly when it has the size and the
    version of the protocol; any other closes the connection, and with it goes
    every MNCC leg. *)
Lemma check_hello_spec buf w : wf w -> 0 <= cn_fd (conn w) ->
  exists w', check_hello disconnected buf (Z.of_nat (length buf)) w = Ret tt w' /\
    if (Z.of_nat (length buf) =? sizeof_hello) && (he_version (view_hello buf) =? MNCC_SOCK_VERSION)
    then w' = set_conn (set_cn_state MNCC_READY) w
    else conn w' = Conn MNCC_DISCONNECTED (-1) (Some 5) true /\
         forall l b m, legs w' !! l <> Some (Leg b (XMncc m)).
Proof.
  intros Hw Hfd. pose proof (wf_st w Hw) as Hst. destruct Hw as [Hwf _ Hok]. unfold check_hello.
  assert (exists w', close_connection disconnected w = Ret tt w' /\
    conn w' = Conn MNCC_DISCONNECTED (-1) (Some 5) true /\
    forall l b m, legs w' !! l <> Some (Leg b (XMncc m))) as Hclose.
  { pose proof (close_connection_st (sk w) (conn w) Hwf Hok 0 w Hst) as H.
    apply wp_returns in H as ([] & w' & Heq & s' & Hst' & _ & _ & _ & Hno). exists w'.
    split_and!; [exact Heq| |].
    - rewrite (st_conn _ _ _ Hst'). unfold closed. destruct (Z.ltb_spec (cn_fd (conn w)) 0); [lia|].
      by rewrite (co_callback _ Hok).
    - intros l b m Hl. apply (Hno Hfd l (shape (Leg b (XMncc m)))); [|done].
      rewrite <- (st_sk _ _ _ Hst'). simpl. by rewrite lookup_fmap, Hl. }
  destruct (_ =? sizeof_hello); simpl; [|done]. destruct (_ =? MNCC_SOCK_VERSION); simpl; [|done].
  by eexists.
Qed.

(** The search by callref finds a live MNCC leg with that callref whenever there is
    one, in the order of the call list, and changes nothing. *)
Lemma mncc_find_leg_spec cr w : wf w ->
  exists o, mncc_find_leg cr w = Ret o w /\
    match o with
    | Some l => exists b m, legs w !! l = Some (Leg b (XMncc m)) /\ m_callref m = cr
    | None => forall l b m, legs w !! l = Some (Leg b (XMncc m)) -> m_callref m <> cr
    end.
Proof.
  intros Hw. pose proof (mncc_find_leg_st (sk w) (conn w) (w_sk w Hw) cr w (wf_st w Hw)) as H.
  apply wp_returns in H as (o & w' & Heq & -> & Ho). exists o. split; [done|]. destruct o as [l|].
  - destruct Ho as (sh & d & Hl & He). simpl in Hl. apply fmap_lookup_inv in Hl as ([b [m|x]] & Hl & ->); simpl in He.
    + injection He as _ ?. eauto.
    + done.
  - intros l b m Hl Hcr. apply (Ho l). exists (shape (Leg b (XMncc m))), (m_dir m).
    split; [simpl; by rewrite lookup_fmap, Hl|]. simpl. by rewrite Hcr.
Qed.

(** A call bridged between MNCC leg [lm] and SIP leg [ls]; the callref names [lm]. *)
Record mncc_sip_call (w : world) (cr : Z) (lm ls : ptr) (bm : call_leg) (m : mncc_leg)
    (bs : call_leg) (x : sip_leg) : Prop := {
  msc_wf : wf w;
  msc_fd : 0 <= cn_fd (conn w);
  msc_mncc : legs w !! lm = Some (Leg bm (XMncc m));
  msc_sip : legs w !! ls = Some (Leg bs (XSip x));
  msc_bridge : bridged w lm ls;
  msc_cr : m_callref m = cr;
  msc_unique : callref_unique w lm cr }.

Lemma with_leg_eq w buf lm b m k : wf w -> legs w !! lm = Some (Leg b (XMncc m)) ->
  m_callref m = mn_callref (view_gsm_mncc buf) -> callref_unique w lm (m_callref m) ->
  with_leg buf sizeof_gsm_mncc k w = k (view_gsm_mncc buf) lm w.
Proof.
  intros Hw Hl Hcr Hu. unfold with_leg, find_leg. rewrite Z.ltb_irrefl. cbv zeta. rewrite bind_assoc.
  rewrite <- Hcr. by run_step (find_leg_unique w lm b m Hw Hl Hu).
Qed.

Lemma send_for_eq w l b m t : legs w !! l = Some (Leg b (XMncc m)) -> 0 <= cn_fd (conn w) ->
  t <> MNCC_DISC_REQ -> t <> MNCC_REL_REQ ->
  send_for l t w = Ret tt (wrote (TxMncc (set_mn_header t (m_callref m) gsm_mncc0) sizeof_gsm_mncc) w).
Proof.
  intros Hl Hfd H1 H2. unfold send_for. run_step (as_mncc_eq w l b m Hl). by apply send_plain_eq.
Qed.

(** When the phone puts a bridged call on hold, the SIP side gets a re-INVITE whose
    session is send-only, the MSC an acknowledgement, and both legs are on hold. *)
Lemma check_hold_spec buf w lm ls bm m bs x :
  mncc_sip_call w (mn_callref (view_gsm_mncc buf)) lm ls bm m bs x ->
  exists w', check_hold_ind buf sizeof_gsm_mncc w = Ret tt w' /\
    out w' = out w ++ [NuaInvite (s_handle x) None None None (sdp_file bm sdp_sendonly);
                       TxMncc (set_mn_header MNCC_HOLD_CNF (m_callref m) gsm_mncc0) sizeof_gsm_mncc] /\
    legs w' = <[lm := Leg bm (XMncc (set_m_state MNCC_CC_HOLD m))]>
                (<[ls := Leg bs (XSip (set_s_state SIP_CC_HOLD (sdp_file_codec bm x)))]> (legs w)).
Proof.
  intros [Hw Hfd Hlm Hls Hb Hcr Hu]. rewrite <- Hcr in Hu.
  pose proof (bridged_sym _ _ _ Hw Hb) as Hb'. pose proof Hb as [Hne _].
  destruct (bridged_sip_ops w ls lm bs x Hw Hb' Hls) as (Hty & _ & _ & Hop & _).
  unfold check_hold_ind. rewrite (with_leg_eq w buf lm bm m _ Hw Hlm Hcr Hu).
  run_step (bridged_other w lm ls Hb). unfold invoke_member. rewrite bind_assoc.
  run_step (deref_leg_eq w ls _ Hls). simpl base. rewrite Hop.
  change (invoke (Some FN_sip_hold_call) ls) with (sip_hold_call ls).
  run_step (sip_reinvite_eq w ls lm bs x _ sdp_sendonly SIP_CC_HOLD Hls Hty Hb' Hlm). simpl base.
  set (w1 := set_legs _ _). assert (legs w1 !! lm = Some (Leg bm (XMncc m))) as Hlm1.
  { simpl. by rewrite lookup_insert_ne. }
  run_step (send_for_eq w1 lm bm m MNCC_HOLD_CNF Hlm1 Hfd ltac:(done) ltac:(done)). set (w2 := wrote _ w1).
  rewrite (upd_mncc_eq w2 lm _ bm m Hlm1). eexists. split; [reflexivity|]. simpl.
  by rewrite <- app_assoc.
Qed.

(** When the phone retrieves it, the re-INVITE is send-and-receive, the legs are
    connected again, and the MSC is told where the media of the SIP side is. *)
Lemma check_retrieve_spec buf w lm ls bm m bs x :
  mncc_sip_call w (mn_callref (view_gsm_mncc buf)) lm ls bm m bs x ->
  exists w', check_retrieve_ind buf sizeof_gsm_mncc w = Ret tt w' /\
    out w' = out w ++ [NuaInvite (s_handle x) None None None (sdp_file bm sdp_sendrecv);
                       TxMncc (set_mn_header MNCC_RETRIEVE_CNF (m_callref m) gsm_mncc0) sizeof_gsm_mncc;
                       TxRtp (Rtp MNCC_RTP_CONNECT (m_callref m) (addr bs) (payload_type bs) 0
                                  (osmo_strlcpy 1024 (rx_sdp bs))) sizeof_rtp] /\
    legs w' = <[lm := Leg bm (XMncc (set_m_state MNCC_CC_CONNECTED m))]>
                (<[ls := Leg bs (XSip (set_s_state SIP_CC_CONNECTED (sdp_file_codec bm x)))]> (legs w)).
Proof.
  intros [Hw Hfd Hlm Hls Hb Hcr Hu]. rewrite <- Hcr in Hu.
  pose proof (bridged_sym _ _ _ Hw Hb) as Hb'. pose proof Hb as [Hne _].
  destruct (bridged_sip_ops w ls lm bs x Hw Hb' Hls) as (Hty & _ & _ & _ & Hop).
  unfold check_retrieve_ind. rewrite (with_leg_eq w buf lm bm m _ Hw Hlm Hcr Hu).
  run_step (bridged_other w lm ls Hb). unfold invoke_member. rewrite bind_assoc.
  run_step (deref_leg_eq w ls _ Hls). simpl base. rewrite Hop.
  change (invoke (Some FN_sip_retrieve_call) ls) with (sip_retrieve_call ls).
  run_step (sip_reinvite_eq w ls lm bs x _ sdp_sendrecv SIP_CC_CONNECTED Hls Hty Hb' Hlm). simpl base.
  set (x1 := set_s_state _ _). set (w1 := set_legs _ _).
  assert (legs w1 !! lm = Some (Leg bm (XMncc m))) as Hlm1 by (simpl; by rewrite lookup_insert_ne).
  run_step (send_for_eq w1 lm bm m MNCC_RETRIEVE_CNF Hlm1 Hfd ltac:(done) ltac:(done)). set (w2 := wrote _ w1).
  run_step (upd_mncc_eq w2 lm (set_m_state MNCC_CC_CONNECTED) bm m Hlm1). set (w3 := set_legs _ w2).
  assert (legs w3 !! lm = Some (Leg bm (XMncc (set_m_state MNCC_CC_CONNECTED m)))) as Hlm3 by apply lookup_insert_eq.
  assert (legs w3 !! ls = Some (Leg bs (XSip x1))) as Hls3.
  { simpl. rewrite lookup_insert_ne by done. apply lookup_insert_eq. }
  unfold send_rtp_connect. rewrite bind_assoc. run_step (as_mncc_eq w3 lm bm _ Hlm3). rewrite bind_assoc.
  run_step (deref_leg_eq w3 ls _ Hls3). simpl base.
  pose proof (mncc_rtp_write_wrote disconnected w3 (Rtp MNCC_RTP_CONNECT (m_callref m) (addr bs)
    (payload_type bs) 0 (osmo_strlcpy 1024 (rx_sdp bs)))) as H.
  apply wp_returns in H as (rc & w4 & Hrun & -> & Hrc). rewrite (Hrc Hfd) in Hrun. rewrite bind_assoc.
  run_step Hrun. rewrite Z.eqb_refl. simpl. eexists. split; [reflexivity|]. simpl. by rewrite <- !app_assoc.
Qed.

(** A DTMF key pressed on the phone becomes a SIP INFO with that key on the other leg,
    and the MSC is answered with the key echoed; the SDP of the message is kept. *)
Lemma check_dtmf_start_spec buf w lm ls bm m bs x : let d := view_gsm_mncc buf in
  mncc_sip_call w (mn_callref d) lm ls bm m bs x ->
  exists w', check_dtmf_start buf sizeof_gsm_mncc w = Ret tt w' /\
    out w' = out w ++
      [NuaInfo (s_handle x) ("Signal=" +:+ fmt_c (mn_keypad d) +:+ str_nl +:+ "Duration=160" +:+ str_nl);
       TxMncc (set_mn_keypad (mn_keypad d) (add_field MNCC_F_KEYPAD
                 (set_mn_header MNCC_START_DTMF_RSP (m_callref m) gsm_mncc0))) sizeof_gsm_mncc] /\
    legs w' = <[lm := Leg (rx_sdp_update (Some (mn_sdp d)) bm) (XMncc m)]> (legs w).
Proof.
  intros d [Hw Hfd Hlm Hls Hb Hcr Hu]. rewrite <- Hcr in Hu.
  pose proof (bridged_sym _ _ _ Hw Hb) as Hb'. pose proof Hb as [Hne _].
  destruct (bridged_sip_ops w ls lm bs x Hw Hb' Hls) as (Hty & _ & Hop & _).
  unfold check_dtmf_start. rewrite (with_leg_eq w buf lm bm m _ Hw Hlm Hcr Hu). fold d.
  unfold call_leg_rx_sdp. run_step (upd_base_eq w lm (rx_sdp_update (Some (mn_sdp d))) bm _ Hlm).
  set (bm1 := rx_sdp_update _ bm). set (w1 := set_legs _ w).
  assert (bridged w1 lm ls) as Hb1.
  { eapply bridged_set_leg; [done..|]. exact (proj1 (proj2 (rx_sdp_update_shape (Some (mn_sdp d)) bm))). }
  run_step (bridged_other w1 lm ls Hb1).
  assert (legs w1 !! ls = Some (Leg bs (XSip x))) as Hls1 by (simpl; by rewrite lookup_insert_ne).
  unfold invoke_dtmf. rewrite bind_assoc. run_step (deref_leg_eq w1 ls _ Hls1). simpl base. rewrite Hop.
  run_step (sip_dtmf_call_eq w1 ls bs x (mn_keypad d) Hls1 Hty). set (w2 := set_out _ w1).
  assert (legs w2 !! lm = Some (Leg bm1 (XMncc m))) as Hlm2 by apply lookup_insert_eq.
  unfold dtmf_rsp. run_step (as_mncc_eq w2 lm bm1 m Hlm2).
  unfold mncc_fill_header. simpl orb. cbv iota. rewrite bind_ret_l.
  pose proof (mncc_write_wrote disconnected w2 (set_mn_keypad (mn_keypad d) (add_field MNCC_F_KEYPAD
    (set_mn_header MNCC_START_DTMF_RSP (m_callref m) gsm_mncc0)))) as H.
  apply wp_returns in H as (rc & w3 & Hrun & -> & Hrc). rewrite (Hrc Hfd) in Hrun.
  run_step Hrun. eexists. split; [reflexivity|]. simpl. by rewrite <- !app_assoc.
Qed.

Lemma msc_view w cr lm ls bm m bs x : mncc_sip_call w cr lm ls bm m bs x ->
  sk_legs (sk w) !! lm = Some (shape (Leg bm (XMncc m))) /\
  sk_legs (sk w) !! ls = Some (shape (Leg bs (XSip x))).
Proof. intros [_ _ Hlm Hls _ _ _]. simpl. by rewrite !lookup_fmap, Hlm, Hls. Qed.

(** What [check_disc_ind] does before it writes: the leg is marked and waits. *)
Lemma disc_mark w cr lm ls bm m bs x : mncc_sip_call w cr lm ls bm m bs x ->
  exists w', (forall A (k : MW A),
      (upd_base lm (set_in_release true) ;; start_cmd_timer lm MNCC_REL_CNF ;; k) w = k w') /\
    mncc_sip_call w' cr lm ls (set_in_release true bm) (set_m_rsp_wanted MNCC_REL_CNF m) bs x /\
    st (sk w) (conn w) w' /\ out w' = out w /\ n_io w' = n_io w /\ timers w' = {[lm]} ∪ timers w /\
    legs w' = <[lm := Leg (set_in_release true bm) (XMncc (set_m_rsp_wanted MNCC_REL_CNF m))]> (legs w).
Proof.
  intros [Hw Hfd Hlm Hls Hb Hcr Hu]. destruct (mark_run w lm bm m MNCC_REL_CNF Hw Hlm)
    as (w1 & Hrun & Hst & Hout & Hc & Hn & Ht & Hl). exists w1. split_and!; try done.
  set (bm1 := set_in_release true bm) in *. set (m1 := set_m_rsp_wanted MNCC_REL_CNF m) in *. pose proof Hb as [Hne _].
  split; try done.
  - by apply (st_wf _ _ _ Hst); apply Hw.
  - by rewrite (st_conn _ _ _ Hst).
  - by rewrite Hl, lookup_insert_eq.
  - by rewrite Hl, lookup_insert_ne.
  - pose proof (bridged_set_leg w lm ls lm _ (Leg bm1 (XMncc m1)) Hb Hlm eq_refl) as Hb1.
    unfold bridged in *. by rewrite Hl, Hc.
  - intros l' b' m' Hl'. rewrite Hl in Hl'. destruct (decide (l' = lm)) as [->|]; [done|].
    rewrite lookup_insert_ne in Hl' by done. by apply (Hu l' b' m' Hl').
Qed.

(** The Release that follows when the write succeeds. *)
Lemma disc_release_req w cr lm ls bm m bs x : mncc_sip_call w cr lm ls bm m bs x ->
  send_for lm MNCC_REL_REQ w
  = Ret tt (wrote (TxMncc (with_cause MNCC_REL_REQ cr (cause bm)) sizeof_gsm_mncc) w).
Proof.
  intros [Hw Hfd Hlm _ _ Hcr Hu]. rewrite <- Hcr in Hu. unfold send_for, send, mncc_send.
  run_step (as_mncc_eq w lm bm m Hlm). rewrite bind_assoc.
  run_step (fill_header_cause w lm bm m MNCC_REL_REQ Hw Hlm Hu ltac:(auto)). rewrite Hcr.
  pose proof (mncc_write_wrote disconnected w (with_cause MNCC_REL_REQ cr (cause bm))) as H.
  apply wp_returns in H as (rc & w4 & Hrun & -> & Hrc). rewrite (Hrc Hfd) in Hrun. by run_step Hrun.
Qed.

(** Releasing an MNCC leg while the connection is up sends the message its call
    state calls for, with the cause of the leg: Reject for a call of the MSC that
    is not answered yet, and the leg is gone; Release for a call of ours in its
    initial state, Disconnect afterwards, and then the leg stays, is marked, and
    waits for the answer with its timer armed. *)
Lemma mncc_release_spec w l b m : wf w -> legs w !! l = Some (Leg b (XMncc m)) ->
  cn_state (conn w) = MNCC_READY -> callref_unique w l (m_callref m) ->
  exists w', call_release l w = Ret tt w' /\
    out w' = out w ++ [TxMncc (release_message b m) sizeof_gsm_mncc] /\
    match release_await m with
    | None => sk w' = sk_release l (sk w)
    | Some t =>
        legs w' = <[l := Leg (set_in_release true b) (XMncc (set_m_rsp_wanted t m))]> (legs w) /\
        calls w' = calls w /\ timers w' = {[l]} ∪ timers w
    end.
Proof.
  intros Hw Hl Hr Hu. unfold call_release, release_leg. run_step (deref_leg_eq w l _ Hl). simpl base.
  assert (sk_legs (sk w) !! l = Some (shape (Leg b (XMncc m)))) as Hsl by (simpl; by rewrite lookup_fmap, Hl).
  pose proof (leg_established _ (w_sk w Hw) l _ (m_dir m) (m_callref m) Hsl eq_refl) as He.
  unfold established in He. simpl in He. rewrite He. run_step (some_or_Some NullCall FN_mncc_call_leg_release w).
  by apply mncc_release_run.
Qed.

(** ** A call of the MSC goes out to SIP *)

(** The address, payload and SDP of an RTP message taken over by a leg. *)
Definition rtp_leg (r : gsm_mncc_rtp) (b : call_leg) : call_leg :=
  rx_sdp_update (Some (rtp_sdp r))
    (set_payload_msg_type (rtp_payload_msg_type r) (set_payload_type (rtp_payload_type r) (set_addr (rtp_addr r) b))).

Lemma rtp_leg_shape r b : lg_type (rtp_leg r b) = lg_type b /\ lg_call (rtp_leg r b) = lg_call b /\
  ops (rtp_leg r b) = ops b.
Proof. unfold rtp_leg. destruct (rx_sdp_update_shape (Some (rtp_sdp r)) (set_payload_msg_type (rtp_payload_msg_type r)
  (set_payload_type (rtp_payload_type r) (set_addr (rtp_addr r) b)))) as (-> & -> & ->). done. Qed.

Lemma talloc_str_eq w p t : resources -> talloc_str p t w = Ret (Some (p, t)) (set_n_io S w).
Proof. intros [Ha _]. unfold talloc_str, tick, bind, gets, modify, ret. by rewrite Ha. Qed.

Lemma stop_cmd_timer_eq w l b m t : legs w !! l = Some (Leg b (XMncc m)) ->
  stop_cmd_timer l t w = Ret tt (if u32 (m_rsp_wanted m) =? t then set_timers (fun ts => ts ∖ {[l]}) w else w).
Proof.
  intros Hl. unfold stop_cmd_timer. run_step (as_mncc_eq w l b m Hl). destruct (_ =? _); [|done].
  unfold timer_del. by run_step (deref_leg_eq w l _ Hl).
Qed.

(** The SIP leg that is placed for a call of the MSC. *)
Definition placed_leg (c : ptr) (b : call_leg) (h : handle) : leg :=
  Leg (set_ops sip_mt_ops (call_leg_new CALL_TYPE_SIP c))
      (XSip (sdp_file_codec b (SipLeg (Some h) SIP_CC_INITIAL SIP_DIR_MT None None))).

(** Routing: the two texts are stored and the SIP leg is placed. *)
Lemma route_to_sip_eq w l c b m cl src dst : wf w -> resources -> legs w !! l = Some (Leg b (XMncc m)) ->
  lg_type b = CALL_TYPE_MNCC -> calls w !! c = Some cl -> initial cl = Some l -> remote cl = None ->
  exists h r w', app_route_call c (Some (l, src)) (Some (l, dst)) w = Ret tt w' /\ legs w !! r = None /\
    out w' = out w ++ [NuaInvite (Some h)
      (Some (sip_uri (Some src) (sip_local_addr (cfg w)) (sip_local_port (cfg w))))
      (Some (sip_uri (Some dst) (sip_remote_addr (cfg w)) (sip_remote_port (cfg w))))
      (gcr_text cl) (sdp_file b sdp_sendrecv)] /\
    calls w' = <[c := set_remote (Some r) (set_route (Some (l, src)) (Some (l, dst)) cl)]> (calls w) /\
    nua w' = <[h := r]> (nua w) /\ conn w' = conn w /\ timers w' = timers w /\
    legs w' = <[r := placed_leg c b h]> (legs w).
Proof.
  intros Hw Hres Hl Ht Hc Hi Hr. pose proof (wf_st w Hw) as Hst. unfold app_route_call.
  run_step (upd_call_run w c (set_route (Some (l, src)) (Some (l, dst))) cl Hc).
  set (cl1 := set_route _ _ cl). set (w1 := set_calls _ w).
  assert (calls w1 !! c = Some cl1) as Hc1 by apply lookup_insert_eq.
  run_step (deref_call_eq w1 c cl1 Hc1). change (initial cl1) with (initial cl). rewrite Hi.
  run_step (some_or_Some NullDeref l w1). run_step (deref_leg_eq w1 l _ Hl). simpl base.
  rewrite decide_True by done. unfold route_to_sip.
  assert (st (sk w) (conn w) w1) as Hst1.
  { eapply st_upd_call; [done|simpl; by rewrite lookup_fmap, Hc|done..]. }
  pose proof (st_wf _ _ _ Hst1 (w_sk w Hw) (w_conn w Hw)) as Hw1.
  destruct (sip_create_remote_leg_eq w1 c l cl1 _ l src l dst Hw1 Hres Hc1 Hi Hl eq_refl eq_refl ltac:(eauto) ltac:(eauto))
    as (h & r & w2 & Hrun & Hlr & Hnh & Hout & Hcs & Hn & Hcn & Ht2 & Hls).
  run_step Hrun. exists h, r, w2. split_and!; try done. simpl in Hcs. by rewrite insert_insert_eq in Hcs.
Qed.

(** The stores after RTP_CREATE for a call that the MSC set up. *)
Lemma check_rtp_create_run buf rc w l c b m cl : let r := view_rtp buf in sizeof_rtp <= rc ->
  wf w -> 0 <= cn_fd (conn w) -> resources ->
  legs w !! l = Some (Leg b (XMncc m)) -> m_dir m = MNCC_DIR_MO -> in_release b = false ->
  m_callref m = rtp_callref r -> callref_unique w l (m_callref m) ->
  lg_call b = c -> calls w !! c = Some cl -> initial cl = Some l -> remote cl = None ->
  exists h x w', check_rtp_create buf rc w = Ret tt w' /\
    out w' = out w ++
      [TxMncc (set_mn_header MNCC_CALL_PROC_REQ (m_callref m) gsm_mncc0) sizeof_gsm_mncc;
       NuaInvite (Some h)
         (Some (sip_uri (Some (mo_source (use_imsi_as_id (cfg w)) m)) (sip_local_addr (cfg w)) (sip_local_port (cfg w))))
         (Some (sip_uri (Some (mo_dest m)) (sip_remote_addr (cfg w)) (sip_remote_port (cfg w))))
         (gcr_text cl) (sdp_file (rtp_leg r b) sdp_sendrecv)] /\
    legs w !! x = None /\ nua w' = <[h := x]> (nua w) /\ conn w' = conn w /\
    timers w' = (if u32 (m_rsp_wanted m) =? MNCC_RTP_CREATE then timers w ∖ {[l]} else timers w) /\
    legs w' = <[x := placed_leg c (rtp_leg r b) h]>
                (<[l := Leg (rtp_leg r b) (XMncc (set_m_state MNCC_CC_PROCEEDING m))]> (legs w)) /\
    exists src dst, calls w' = <[c := set_remote (Some x) (set_route src dst cl)]> (calls w).
Proof.
  intros r Hlen Hw Hfd Hres Hl Hd Hrel Hcr Hu Hbc Hc Hi Hr. pose proof (wf_st w Hw) as Hst.
  assert (sk_legs (sk w) !! l = Some (shape (Leg b (XMncc m)))) as Hsl by (simpl; by rewrite lookup_fmap, Hl).
  destruct (rtp_leg_shape r b) as (Hbt & Hbcall & Hbops).
  assert (lg_type b = CALL_TYPE_MNCC) as Hty by apply (wf_leg _ (w_sk w Hw) l _ Hsl).
  unfold check_rtp_create. rewrite (proj2 (Z.ltb_ge _ _) Hlen). fold r. unfold mncc_find_leg_not_released. cbv zeta.
  rewrite bind_assoc, <- Hcr. run_step (find_leg_unique w l b m Hw Hl Hu). rewrite bind_assoc.
  run_step (deref_leg_eq w l _ Hl). simpl base. rewrite Hrel, bind_ret_l.
  run_step (upd_base_eq w l (fun b => set_payload_msg_type (rtp_payload_msg_type r)
    (set_payload_type (rtp_payload_type r) (set_addr (rtp_addr r) b))) b _ Hl). set (b1 := set_payload_msg_type _ _).
  set (w1 := set_legs _ w). assert (legs w1 !! l = Some (Leg b1 (XMncc m))) as Hl1 by apply lookup_insert_eq.
  unfold call_leg_rx_sdp. run_step (upd_base_eq w1 l (rx_sdp_update (Some (rtp_sdp r))) b1 _ Hl1).
  change (rx_sdp_update (Some (rtp_sdp r)) b1) with (rtp_leg r b). set (b2 := rtp_leg r b) in *.
  set (w2 := set_legs _ w1). assert (legs w2 !! l = Some (Leg b2 (XMncc m))) as Hl2 by apply lookup_insert_eq.
  run_step (stop_cmd_timer_eq w2 l b2 m MNCC_RTP_CREATE Hl2). 
  set (w3 := if u32 (m_rsp_wanted m) =? MNCC_RTP_CREATE then set_timers (fun ts => ts ∖ {[l]}) w2 else w2).
  assert (st (sk w) (conn w) w3 /\ legs w3 = legs w2 /\ calls w3 = calls w /\ cfg w3 = cfg w /\ nua w3 = nua w
    /\ out w3 = out w /\ timers w3 = if u32 (m_rsp_wanted m) =? MNCC_RTP_CREATE then timers w ∖ {[l]} else timers w)
    as (Hst3 & Hls3 & Hcs3 & Hcf3 & Hnu3 & Hout3 & Ht3).
  { assert (st (sk w) (conn w) w2) as Hst2.
    { eapply st_upd_leg; [eapply st_upd_leg|..]; [done..|]. unfold shape. simpl.
      change (base (Leg b2 (XMncc m))) with b2. by rewrite Hbt, Hbcall, Hbops. }
    unfold w3. destruct (_ =? _); [|done]. split; [|done]. apply st_set_timers; [done|].
    apply timers_ok_minus, (st_timers _ _ _ Hst2). }
  clearbody w3. assert (legs w3 !! l = Some (Leg b2 (XMncc m))) as Hl3 by by rewrite Hls3.
  assert (0 <= cn_fd (conn w3)) as Hfd3 by by rewrite (st_conn _ _ _ Hst3).
  unfold continue_call. run_step (as_mncc_eq w3 l b2 m Hl3). rewrite decide_True by done. unfold continue_mo_call.
  run_step (as_mncc_eq w3 l b2 m Hl3).
  run_step (send_plain_eq w3 MNCC_CALL_PROC_REQ (m_callref m) Hfd3 ltac:(done) ltac:(done)). set (w4 := wrote _ w3).
  run_step (upd_mncc_eq w4 l (set_m_state MNCC_CC_PROCEEDING) b2 m Hl3). set (m5 := set_m_state _ m).
  set (w5 := set_legs _ w4). assert (legs w5 !! l = Some (Leg b2 (XMncc m5))) as Hl5 by apply lookup_insert_eq.
  run_step (as_mncc_eq w5 l b2 m5 Hl5). run_step (talloc_str_eq w5 l (mo_dest m5) Hres).
  unfold gets at 1. unfold bind at 1.
  match goal with |- context [talloc_str l ?t] => run_step (talloc_str_eq (set_n_io S w5) l t Hres) end.
  set (w6 := set_n_io S (set_n_io S w5)). assert (legs w6 !! l = Some (Leg b2 (XMncc m5))) as Hl6 by exact Hl5.
  run_step (deref_leg_eq w6 l _ Hl6). simpl base. rewrite Hbcall, Hbc.
  assert (st (sk w) (conn w) w6) as Hst6.
  { apply st_set_n_io, st_set_n_io. eapply st_upd_leg; [by apply wrote_st|exact Hsl|].
    unfold shape. simpl. by rewrite Hbt, Hbcall, Hbops. }
  pose proof (st_wf _ _ _ Hst6 (w_sk w Hw) (w_conn w Hw)) as Hw6.
  destruct (route_to_sip_eq w6 l c b2 m5 cl (mo_source (use_imsi_as_id (cfg (set_n_io S w5))) m5) (mo_dest m5) Hw6 Hres Hl6)
    as (h & x & w7 & Hrun & Hnx & Hout & Hcs & Hnu & Hcn & Ht & Hls); try done; [by rewrite Hbt|simpl; by rewrite Hcs3|].
  assert (legs w6 = <[l := Leg b2 (XMncc m5)]> (legs w)) as Hls6.
  { simpl. rewrite Hls3. simpl. by rewrite !insert_insert_eq. }
  rewrite Hls6 in Hnx. apply lookup_insert_None in Hnx as [Hnx _].
  exists h, x, w7. split; [exact Hrun|]. rewrite Hout, Hnu, Hls, Hcs, Hcn, Ht, Hls6. simpl. rewrite Hcf3, Hnu3, Hcs3, Hout3, Ht3.
  split_and!; [by rewrite <- app_assoc|done..|apply (st_conn _ _ _ Hst3)|done|done|by eexists _, _].
Qed.

(** C21: when the MSC has created the RTP stream of a call it set up, it is told that the
    call proceeds, and one INVITE goes to the configured SIP peer: from the calling
    number (or the IMSI, when so configured), to the dialled number, with the GCR
    and the media description of the MNCC side. *)
Theorem check_rtp_create_spec buf w l c b m cl : let r := view_rtp buf in
  wf w -> 0 <= cn_fd (conn w) -> resources ->
  legs w !! l = Some (Leg b (XMncc m)) -> m_dir m = MNCC_DIR_MO -> in_release b = false ->
  m_callref m = rtp_callref r -> callref_unique w l (m_callref m) ->
  lg_call b = c -> calls w !! c = Some cl -> initial cl = Some l -> remote cl = None ->
  exists h x w', check_rtp_create buf sizeof_rtp w = Ret tt w' /\
    out w' = out w ++
      [TxMncc (set_mn_header MNCC_CALL_PROC_REQ (m_callref m) gsm_mncc0) sizeof_gsm_mncc;
       NuaInvite (Some h)
         (Some (sip_uri (Some (mo_source (use_imsi_as_id (cfg w)) m)) (sip_local_addr (cfg w)) (sip_local_port (cfg w))))
         (Some (sip_uri (Some (mo_dest m)) (sip_remote_addr (cfg w)) (sip_remote_port (cfg w))))
         (gcr_text cl) (sdp_file (rtp_leg r b) sdp_sendrecv)] /\
    nua w' = <[h := x]> (nua w) /\
    legs w' !! l = Some (Leg (rtp_leg r b) (XMncc (set_m_state MNCC_CC_PROCEEDING m))) /\
    exists cl', calls w' !! c = Some cl' /\ initial cl' = Some l /\ remote cl' = Some x.
Proof.
  intros r Hw Hfd Hres Hl Hd Hrel Hcr Hu Hbc Hc Hi Hr.
  destruct (check_rtp_create_run buf sizeof_rtp w l c b m cl ltac:(done) Hw Hfd Hres Hl Hd Hrel Hcr Hu Hbc Hc Hi Hr)
    as (h & x & w' & Hrun & Hout & Hnx & Hn & _ & _ & Hls & src & dst & Hcs).
  exists h, x, w'. split_and!; try done.
  - rewrite Hls, lookup_insert_ne by congruence. apply lookup_insert_eq.
  - eexists. rewrite Hcs, lookup_insert_eq. by split_and!.
Qed.
End spec.
