(* ===== verification/SipUa.v ===== *)
(** * Events from sofia-sip (src/sip.c) *)
From S2P Require Import Prelude Effect Codec Protocol Lib State Call Sdp SipLeg MnccConn App Skel Rules MnccRx.

(** ** Definitions *)
Section sip_ua.
Context {E : Env}.

(** Is the pointer a leg of type SIP with the handle? *)
Definition sip_leg_matches (nh : handle) (o : option ptr) : MW bool :=
  match o with
  | None => ret false
  | Some l =>
      x <- deref_leg l ;;
      match lg_type (base x) with
      | CALL_TYPE_SIP => s <- as_sip l ;; ret (bool_decide (s_handle s = Some nh))
      | _ => ret false
      end
  end.

Fixpoint sip_find_leg_in (cs : list ptr) (nh : handle) : MW (option ptr) :=
  match cs with
  | [] => ret None
  | c :: cs' =>
      cl <- deref_call c ;;
      b <- sip_leg_matches nh (initial cl) ;;
      if b : bool then ret (initial cl)
      else
        b' <- sip_leg_matches nh (remote cl) ;;
        if b' : bool then ret (remote cl) else sip_find_leg_in cs' nh
  end.

Definition sip_find_leg (nh : handle) : MW (option ptr) :=
  cs <- gets g_call_list ;; sip_find_leg_in cs nh.

(** An access through the [sip] argument of the event. *)
Definition the_sip (sip : option sip_t) : MW sip_t := some_or NullDeref sip.

Definition call_progress (l : ptr) (sip : option sip_t) (status : Z) : MW unit :=
  o <- call_leg_other l ;;
  match o with
  | None => ret tt
  | Some other =>
      (if (status =? 180) || (status =? 183) then
         m <- the_sip sip ;;
         match sip_payload m with
         | Some _ => _ <- sdp_extract_sdp l m false ;; ret tt
         | None => ret tt
         end
       else ret tt) ;;
      invoke_member ring_call other
  end.

Definition call_connect (l : ptr) (sip : option sip_t) : MW unit :=
  o <- call_leg_other l ;;
  match o with
  | None => s <- as_sip l ;; emit (NuaCancel (s_handle s))
  | Some other =>
      m <- the_sip sip ;;
      ok <- sdp_extract_sdp l m false ;;
      if negb ok then
        s <- as_sip l ;; emit (NuaCancel (s_handle s)) ;; call_release other
      else
        upd_sip l (set_s_state SIP_CC_CONNECTED) ;;
        invoke_member connect_call other ;;
        s <- as_sip l ;; emit (NuaAck (s_handle s))
  end.

(** The value of the first unknown header named X-Global-Call-Ref. *)
Fixpoint find_xgcr (hs : list (string * string)) : option string :=
  match hs with
  | [] => None
  | (name, value) :: hs' =>
      if String.eqb "X-Global-Call-Ref" name then Some value else find_xgcr hs'
  end.

(** [nua_respond (nh, SIP_406_NOT_ACCEPTABLE, ...); nua_handle_destroy (nh);] *)
Definition reject_406 (nh : handle) : MW unit :=
  emit (NuaRespond (Some nh) 406 (sip_phrase 406) None None) ;;
  nua_handle_destroy (Some nh).

(** [new_call] from the access to [call->initial] on. *)
Definition new_call_leg (nh : handle) (sip : sip_t) (c : ptr) (to from : string) : MW unit :=
  cl <- deref_call c ;;
  l <- some_or NullDeref (initial cl) ;;
  upd_sip l (fun s => SipLeg (s_handle s) SIP_CC_DLG_CNFD SIP_DIR_MO
                             (s_wanted_codec s) (s_sdp_payload s)) ;;
  ok <- sdp_extract_sdp l sip true ;;
  if negb ok then reject_406 nh ;; call_leg_release l
  else
    upd_base l (set_ops sip_mo_ops) ;;
    upd_sip l (fun s => SipLeg (Some nh) (s_state s) (s_dir s)
                               (s_wanted_codec s) (sip_payload sip)) ;;
    nua_handle_bind nh l ;;
    call_leg_rx_sdp l (sip_get_sdp (Some sip)) ;;
    dst <- talloc_str l to ;;
    src <- talloc_str l from ;;
    app_route_call c src dst.

(** [new_call] after the GCR: both users must be present. *)
Definition new_call_users (nh : handle) (sip : sip_t) (c : ptr) : MW unit :=
  match sip_to_user sip, sip_from_user sip with
  | Some to, Some from => new_call_leg nh sip c to from
  | _, _ => reject_406 nh
  end.

Definition new_call (nh : handle) (sip : sip_t) : MW unit :=
  let xgcr := (fun v => osmo_hexparse v 28) <$> find_xgcr (sip_unknown sip) in
  if negb (sdp_screen_sdp sip) then reject_406 nh
  else
    o <- call_sip_create ;;
    c <- some_or AssertFail o ;;
    match xgcr with
    | None => new_call_users nh sip c
    | Some hdr =>
        match osmo_dec_gcr hdr with
        | None => reject_406 nh
        | Some g => upd_call c (set_gcr g) ;; new_call_users nh sip c
        end
    end.

(** [nua_respond (nh, SIP_200_OK, ...)] with a session. *)
Definition respond_200 (nh : handle) (sdp : string) : MW unit :=
  emit (NuaRespond (Some nh) 200 (sip_phrase 200) None (Some sdp)).

(** [if (other->update_rtp) other->update_rtp (leg->base.call->remote);] *)
Definition invoke_update_rtp (l other : ptr) : MW unit :=
  y <- deref_leg other ;;
  match update_rtp_cb (ops (base y)) with
  | None => ret tt
  | Some f =>
      x <- deref_leg l ;;
      cl <- deref_call (lg_call (base x)) ;;
      r <- some_or NullDeref (remote cl) ;;
      invoke (Some f) r
  end.

Definition sip_handle_reinvite (l : ptr) (nh : handle) (sip : sip_t) : MW unit :=
  x <- deref_leg l ;;
  let prev_addr := addr (base x) in
  o <- call_leg_other l ;;
  match o with
  | None => sip_release_call l
  | Some other =>
      match sdp_get_sdp_mode sip with
      | None =>
          sdp <- sdp_create_file l other sdp_sendrecv ;; respond_200 nh sdp
      | Some mode =>
          call_leg_rx_sdp l (sip_get_sdp (Some sip)) ;;
          if decide (mode = sdp_sendonly) then
            sdp <- sdp_create_file l other sdp_recvonly ;; respond_200 nh sdp
          else
            ok <- sdp_extract_sdp l sip true ;;
            if negb ok then reject_406 nh ;; call_leg_release l
            else
              x' <- deref_leg l ;;
              (if negb (osmo_sockaddr_cmp prev_addr (addr (base x')) =? 0)
               then invoke_update_rtp l other else ret tt) ;;
              sdp <- sdp_create_file l other sdp_sendrecv ;; respond_200 nh sdp
      end
  end.

(** The leg in [hmagic]: NULL for a handle that is not bound. *)
Definition the_leg (nh : handle) : MW ptr :=
  w <- gets (fun w => nua w !! nh) ;; some_or NullDeref w.

(** The branch of [nua_r_invite] for a final failure status. *)
Definition invite_failed (l : ptr) (status : Z) : MW unit :=
  o <- call_leg_other l ;;
  s <- as_sip l ;;
  emit (NuaCancel (s_handle s)) ;;
  nua_handle_destroy (s_handle s) ;;
  call_leg_release l ;;
  match o with
  | None => ret tt
  | Some other => upd_base other (set_cause (status2cause status)) ;; call_release other
  end.

(** [nua_r_invite]: a response to an INVITE we sent. *)
Definition on_r_invite (status : Z) (nh : handle) (sip : option sip_t) : MW unit :=
  l <- the_leg nh ;;
  call_leg_rx_sdp l (sip_get_sdp sip) ;;
  s <- as_sip l ;;
  (if decide (s_state s = SIP_CC_INITIAL) then upd_sip l (set_s_state SIP_CC_DLG_CNFD) else ret tt) ;;
  if (status =? 180) || (status =? 183) then call_progress l sip status
  else if status =? 200 then
    s' <- as_sip l ;;
    match s_state s' with
    | SIP_CC_CONNECTED | SIP_CC_HOLD => emit (NuaAck (s_handle s'))
    | _ => call_connect l sip
    end
  else if 300 <=? status then invite_failed l status
  else ret tt.

(** The three branches that end a leg: its handle and the leg go. *)
Definition drop_leg (l : ptr) : MW unit :=
  s <- as_sip l ;; nua_handle_destroy (s_handle s) ;; call_leg_release l.

(** [nua_i_bye] and [nua_i_cancel] *)
Definition on_remote_hangup (nh : handle) : MW unit :=
  l <- the_leg nh ;;
  o <- call_leg_other l ;;
  drop_leg l ;;
  match o with
  | None => ret tt
  | Some other => call_release other
  end.

Definition on_i_invite (status : Z) (nh : handle) (sip : option sip_t) : MW unit :=
  if status =? 100 then
    o <- sip_find_leg nh ;;
    match o with
    | Some l =>
        call_leg_rx_sdp l (sip_get_sdp sip) ;;
        m <- the_sip sip ;; sip_handle_reinvite l nh m
    | None => m <- the_sip sip ;; new_call nh m
    end
  else ret tt.

Definition on_i_ack (nh : handle) (sip : option sip_t) : MW unit :=
  m <- the_sip sip ;;
  match sip_payload m with
  | None => ret tt
  | Some _ =>
      o <- sip_find_leg nh ;;
      match o with
      | None => ret tt
      | Some l => call_leg_rx_sdp l (sip_get_sdp sip) ;; sip_handle_reinvite l nh m
      end
  end.

Definition nua_callback (event : nua_event) (status : Z) (nh : handle) (sip : option sip_t) : MW unit :=
  match event with
  | nua_r_invite => on_r_invite status nh sip
  | nua_i_ack => on_i_ack nh sip
  | nua_r_bye | nua_r_cancel => l <- the_leg nh ;; drop_leg l
  | nua_i_bye | nua_i_cancel => on_remote_hangup nh
  | nua_i_invite => on_i_invite status nh sip
  | nua_e_other _ => ret tt
  end.
End sip_ua.

(** ** Finding a leg by its handle *)
Section find.
Context {E : Env} (s : skel) (cn : mncc_connection) (Hwf : wfsk s) (nh : handle).

Lemma sip_leg_matches_st w c i r o : st s cn w -> sk_calls s !! c = Some (i, r) -> o = i \/ o = r ->
  wp (sip_leg_matches nh o)
     (fun b w' => w' = w /\ (b = true <-> exists l, o = Some l /\ sk_nua s !! nh = Some l)) w.
Proof using Hwf.
  intros Hst Hc Ho. destruct o as [l|]; [|split; [done|]; split; [done|by intros (? & ? & _)]].
  destruct (wf_linked s c i r l Hwf Hc) as (sh & Hl & _); [destruct Ho; auto|].
  destruct (wf_leg s Hwf l sh Hl) as [Htag _]. simpl.
  wp_seq x w1 (_ & -> & _ & Hsh).
  assert (lg_type (base x) = sh_type sh) as -> by by rewrite <- Hsh.
  destruct (tag_type sh Htag) as [[-> (d & cr & He)] | [-> (d & h & He)]].
  - apply wp_ret. split; [done|]. split; [done|]. intros (l' & [= <-] & Hn).
    destruct (wf_nua s Hwf nh l Hn) as (sh' & d' & ? & ?). congruence.
  - wp_seq m w2 (_ & -> & _ & Hh & _). rewrite Hh. apply wp_ret. split; [done|].
    rewrite bool_decide_eq_true. split.
    + intros ->. exists l. split; [done|]. by eapply (wf_handle s Hwf).
    + intros (l' & [= <-] & Hn). destruct (wf_nua s Hwf nh l Hn) as (sh' & d' & ? & ?). congruence.
Qed.

Lemma sip_find_leg_in_st w cs : st s cn w -> (forall c, c ∈ cs -> is_Some (sk_calls s !! c)) ->
  wp (sip_find_leg_in cs nh)
     (fun o w' => w' = w /\
        match o with
        | Some l => sk_nua s !! nh = Some l
        | None => forall c i r l, c ∈ cs -> sk_calls s !! c = Some (i, r) -> i = Some l \/ r = Some l ->
                    sk_nua s !! nh <> Some l
        end) w.
Proof using Hwf.
  intros Hst. induction cs as [|c cs IH]; intros Hcs; simpl.
  { split; [done|]. intros c i r l Hin. by apply elem_of_nil in Hin. }
  destruct (Hcs c) as [[i r] Hc]; [by left|].
  wp_seq cl w1 (_ & -> & _ & -> & ->).
  wp_use (sip_leg_matches_st w c i r) as b w1 (-> & Hb). destruct b.
  { destruct Hb as [Hb _]. destruct (Hb eq_refl) as (l & -> & ?). by apply wp_ret. }
  wp_use (sip_leg_matches_st w c i r) as b w1 (-> & Hb'). destruct b.
  { destruct Hb' as [Hb' _]. destruct (Hb' eq_refl) as (l & -> & ?). by apply wp_ret. }
  eapply wp_mono; [apply IH; intros c' ?; apply Hcs; by right|].
  intros o w' (-> & Ho). split; [done|]. destruct o; [done|].
  intros c' i' r' l [->|Hin]%elem_of_cons Hc' Hir; [|by eapply Ho].
  simplify_eq. intros Hl. destruct Hir as [-> | ->]; naive_solver.
Qed.

(** The search over the calls agrees with the binding of the handle. *)
Lemma sip_find_leg_st w : st s cn w ->
  wp (sip_find_leg nh) (fun o w' => w' = w /\ o = sk_nua s !! nh) w.
Proof using Hwf.
  intros Hst. unfold sip_find_leg. wp_seq cs w1 (_ & -> & ->).
  wp_last sip_find_leg_in_st as o w' (-> & Ho).
  { intros c. apply (wf_list s Hwf). }
  split; [done|]. destruct o as [l|]; [done|].
  destruct (sk_nua s !! nh) as [l|] eqn:Hn; [|done]. exfalso.
  destruct (wf_nua s Hwf nh l Hn) as (sh & d & Hsh & _).
  destruct (wf_leg s Hwf l sh Hsh) as (_ & _ & i & r & Hc & Hir).
  eapply (Ho (sh_call sh) i r l); eauto. apply (wf_list s Hwf). eauto.
Qed.
End find.

(** ** Events on a bound handle *)
Section bound.
Context {E : Env} {HE : EnvLaws E} {HW : WritesOk E} (s : skel) (cn : mncc_connection) (Hwf : wfsk s) (Hok : conn_ok cn).
Context (nh : handle) (l : ptr) (sh : lshape) (d : sip_dir).
Context (Hl : sk_legs s !! l = Some sh) (He : sh_ext sh = ShSip d (Some nh)).

Lemma bound_established : established sh.
Proof using Hwf Hl He.
  destruct (wf_leg s Hwf l sh Hl) as (_ & [?|[_ He']] & _); [done|]. by rewrite He' in He.
Qed.

(** The other leg of a SIP leg is an MNCC leg; it can ring and connect. *)
Lemma bound_other l' : other_leg s l sh l' ->
  exists sh', sk_legs s !! l' = Some sh' /\ other_leg s l' sh' l /\ is_mncc sh' /\ ~ no_ring sh'
    /\ established sh'.
Proof using Hwf Hl He.
  intros Ho. pose proof Ho as (sh' & Hl' & _ & _ & _ & Hest' & Hty & _).
  exists sh'. split; [done|]. split; [by eapply other_leg_sym|].
  destruct (wf_leg s Hwf l sh Hl) as [Htag _], (wf_leg s Hwf l' sh' Hl') as [Htag' _].
  unfold tag_ok, is_mncc, no_ring in *. rewrite He in Htag. destruct (sh_ext sh'); [|congruence].
  split_and!; auto.
Qed.

Lemma the_leg_st w : st s cn w -> sk_nua s !! nh = Some l ->
  wp (the_leg nh) (fun x w' => w' = w /\ x = l) w.
Proof using.
  intros Hst Hn. unfold the_leg. apply wp_bind, wp_gets. rewrite (st_nua Hst), Hn. done.
Qed.

Lemma drop_leg_st w : st s cn w -> wp (drop_leg l) (fun _ w' => st (sk_release l s) cn w') w.
Proof using Hwf Hl He.
  intros Hst. unfold drop_leg. wp_use as_sip_st as m w1 (_ & -> & _ & -> & _).
  by eapply destroy_release_st.
Qed.

Lemma drop_evolves : evolves s (sk_release l s).
Proof using Hl. by eapply rtc_once, step_release. Qed.

(** The other leg is still there when [l] is gone. *)
Lemma release_other_after w l' v : st (sk_release l s) cn w -> other_leg s l sh l' ->
  wp (upd_base l' (set_cause v) ;; call_release l') (fun _ => ok s) w /\
  wp (call_release l') (fun _ => ok s) w.
Proof using HW Hwf Hok Hl.
  intros Hst (sh' & Hl' & Hne & _ & _ & Hest' & _).
  pose proof (sk_release_wf s l sh Hwf Hl) as Hwf1.
  assert (sk_legs (sk_release l s) !! l' = Some sh') as Hl1.
  { by rewrite (sk_release_other_leg s l sh Hwf Hl). }
  assert (forall w1, st (sk_release l s) cn w1 -> wp (call_release l') (fun _ => ok s) w1) as Hrel.
  { intros w1 Hst1. wp_last (call_release_ok (sk_release l s)) as u w2 Hw2.
    eapply ok_evolves; [apply drop_evolves|done]. }
  split; [|by apply Hrel]. wp_use (upd_base_st (sk_release l s)) as u w1 Hst1. by apply Hrel.
Qed.

Lemma on_remote_hangup_ok w : st s cn w -> sk_nua s !! nh = Some l ->
  wp (on_remote_hangup nh) (fun _ => ok s) w.
Proof using HW Hwf Hok Hl He.
  intros Hst Hn. unfold on_remote_hangup. wp_use the_leg_st as x w1 (-> & ->).
  wp_use call_leg_other_st as o w2 (_ & -> & Ho). wp_use drop_leg_st as u w3 Hst3.
  destruct o as [l'|]; [|eapply ok_st; eauto using drop_evolves].
  by apply (release_other_after w3 l' 0).
Qed.

Lemma invite_failed_ok w status : st s cn w -> wp (invite_failed l status) (fun _ => ok s) w.
Proof using HW Hwf Hok Hl He.
  intros Hst. unfold invite_failed.
  wp_use call_leg_other_st as o w2 (_ & -> & Ho). wp_use as_sip_st as m w1 (_ & -> & _ & -> & _).
  wp_use emit_st as u w1 Hst1.
  apply (wp_assoc (nua_handle_destroy (Some nh)) (fun _ => call_leg_release l)).
  wp_use destroy_release_st as u2 w2 Hst2.
  destruct o as [l'|]; [|eapply ok_st; eauto using drop_evolves].
  by apply (release_other_after w2 l').
Qed.

Lemma call_progress_ok w sip status : st s cn w -> is_Some sip ->
  wp (call_progress l sip status) (fun _ => ok s) w.
Proof using HW Hwf Hok Hl He.
  intros Hst [m ->]. unfold call_progress. wp_use call_leg_other_st as o w1 (_ & -> & Ho).
  destruct o as [l'|]; [|by eapply ok_refl].
  destruct (bound_other l' Ho) as (sh' & Hl' & Ho' & Hm & Hr & _).
  apply wp_bind, wp_mono with (P := fun _ w' => st s cn w').
  - destruct (_ || _); [|done]. apply wp_bind, wp_some_or with (a := m); [done|].
    destruct (sip_payload m); [|done]. by wp_use sdp_extract_sdp_st as b w1 Hst1.
  - intros u w1 Hst1. wp_last (invoke_member_sel s cn Hwf) as u2 w2 Hst2. by eapply ok_refl.
Qed.

Lemma call_connect_ok w sip : st s cn w -> is_Some sip ->
  wp (call_connect l sip) (fun _ => ok s) w.
Proof using HW Hwf Hok Hl He.
  intros Hst [m ->]. unfold call_connect. wp_use call_leg_other_st as o w1 (_ & -> & Ho).
  destruct o as [l'|].
  2: { wp_use as_sip_st as x w1 (_ & -> & _). wp_last emit_st as u w1 Hst1. by eapply ok_refl. }
  destruct (bound_other l' Ho) as (sh' & Hl' & Ho' & Hm & Hr & Hest').
  apply wp_bind, wp_some_or with (a := m); [done|]. wp_use sdp_extract_sdp_st as b w1 Hst1.
  destruct b; simpl.
  - wp_use upd_sip_st as u w2 Hst2. wp_use (invoke_member_sel s cn Hwf) as u2 w3 Hst3.
    wp_use as_sip_st as x w4 (_ & -> & _). wp_last emit_st as u3 w4 Hst4. by eapply ok_refl.
  - wp_use as_sip_st as x w2 (_ & -> & _). wp_use emit_st as u3 w4 Hst4.
    by eapply call_release_ok.
Qed.

Lemma on_r_invite_ok w status sip : st s cn w -> sk_nua s !! nh = Some l ->
  (status = 180 \/ status = 183 \/ status = 200 -> is_Some sip) ->
  wp (on_r_invite status nh sip) (fun _ => ok s) w.
Proof using HW Hwf Hok Hl He.
  intros Hst Hn Hsip. unfold on_r_invite. wp_use the_leg_st as x w1 (-> & ->).
  wp_use call_leg_rx_sdp_st as u w1 Hst1. wp_use as_sip_st as m w2 (_ & -> & _).
  apply wp_bind, wp_mono with (P := fun _ w' => st s cn w').
  { case_decide; [|done]. eapply upd_sip_st; eauto with wpdb. }
  intros u2 w2 Hst2. destruct (Z.eqb_spec status 180), (Z.eqb_spec status 183); simpl;
    try (apply call_progress_ok; auto; done).
  destruct (Z.eqb_spec status 200).
  - wp_use as_sip_st as m' w3 (_ & -> & _).
    destruct (s_state m'); try (apply call_connect_ok; auto; done);
      (wp_last emit_st as u3 w3 Hst3; by eapply ok_refl).
  - destruct (300 <=? status); [by apply invite_failed_ok|by eapply ok_refl].
Qed.

(** [reject_406] on the handle of [l], then the leg goes. *)
Lemma reject_release_ok w : st s cn w ->
  wp (reject_406 nh ;; call_leg_release l) (fun _ => ok s) w.
Proof using Hwf Hok Hl He.
  intros Hst. unfold reject_406. apply wp_bind. wp_use emit_st as u w1 Hst1.
  apply (wp_bind_inv (nua_handle_destroy (Some nh)) (fun _ => call_leg_release l)).
  wp_last destroy_release_st as u2 w2 Hst2. eapply ok_st; eauto using drop_evolves.
Qed.

Lemma invoke_update_rtp_st w l' sh' : st s cn w -> sk_legs s !! l' = Some sh' -> other_leg s l sh l' ->
  wp (invoke_update_rtp l l') (fun _ w' => st s cn w') w.
Proof using HW Hwf Hl He.
  intros Hst Hl' Ho. destruct (bound_other l' Ho) as (sh1 & Hl1 & Ho' & Hm & _ & Hest). simplify_eq.
  unfold invoke_update_rtp. wp_use (deref_leg_st s) as y w1 (_ & -> & _ & Hsh).
  assert (ops (base y) = mncc_leg_ops) as ->.
  { rewrite <- Hsh in Hest, Hm. unfold established, is_mncc in *. destruct (sh_ext (shape y)); [done|by destruct Hm]. }
  simpl. wp_use deref_leg_st as x w1 (_ & -> & _ & Hshx).
  assert (lg_call (base x) = sh_call sh) as -> by by rewrite <- Hshx.
  pose proof Ho as (sh2 & _ & _ & _ & _ & _ & _ & [(_ & _ & Hc)|(_ & _ & Hc)]);
    wp_use (deref_call_st s) as cl w1 (_ & -> & _ & _ & ->).
  - apply wp_bind, wp_some_or with (a := l'); [done|]. by eapply (update_rtp_st s cn Hwf w l' sh' l).
  - apply wp_bind, wp_some_or with (a := l); [done|]. by eapply (update_rtp_st s cn Hwf w l sh l').
Qed.

Lemma sip_handle_reinvite_ok w sip : st s cn w ->
  wp (sip_handle_reinvite l nh sip) (fun _ => ok s) w.
Proof using HW Hwf Hok Hl He.
  intros Hst. unfold sip_handle_reinvite. wp_use deref_leg_st as x w1 (_ & -> & _). cbv zeta.
  wp_use call_leg_other_st as o w1 (_ & -> & Ho). destruct o as [l'|].
  2: { wp_last sip_release_call_st as u w1 (s' & ? & ?). eapply ok_st; eauto using released_evolves. }
  destruct (bound_other l' Ho) as (sh' & Hl' & _).
  assert (forall m w1, st s cn w1 ->
    wp (sdp <- sdp_create_file l l' m ;; respond_200 nh sdp) (fun _ => ok s) w1) as Hanswer.
  { intros m w1 Hst1. wp_use sdp_create_file_st as t w2 Hst2. unfold respond_200.
    wp_last emit_st as u w3 Hst3. by eapply ok_refl. }
  destruct (sdp_get_sdp_mode sip) as [mode|]; [|by apply Hanswer].
  wp_use call_leg_rx_sdp_st as u w1 Hst1. case_decide; [by apply Hanswer|].
  wp_use sdp_extract_sdp_st as b w2 Hst2. destruct b; simpl; [|by apply reject_release_ok].
  wp_use deref_leg_st as y w3 (_ & -> & _). apply wp_bind, wp_mono with (P := fun _ w' => st s cn w').
  - destruct (negb _); [|done]. by eapply invoke_update_rtp_st.
  - intros u2 w3 Hst3. by apply Hanswer.
Qed.
End bound.

(** ** An INVITE that opens a call *)
Section new_call.
Context {E : Env} {HE : EnvLaws E} {HW : WritesOk E} (s : skel) (cn : mncc_connection) (Hwf : wfsk s) (Hok : conn_ok cn).
Context (nh : handle) (Hfresh : sk_nua s !! nh = None).

(** The initial leg before and after [new_call] completes it. *)
Definition embryo_shape (c : ptr) : lshape :=
  LShape CALL_TYPE_SIP c leg_ops0 (ShSip SIP_DIR_MO None).
Definition sip_mo_shape (c : ptr) (h : handle) : lshape :=
  LShape CALL_TYPE_SIP c sip_mo_ops (ShSip SIP_DIR_MO (Some h)).

(** Refusing touches no leg: the handle was not bound. *)
Lemma reject_406_st s' w : st s' cn w -> sk_nua s' !! nh = None ->
  wp (reject_406 nh) (fun _ w' => st s' cn w') w.
Proof using.
  intros Hst Hn. unfold reject_406, nua_handle_destroy.
  wp_use emit_st as u w1 Hst1. wp_use emit_st as u2 w2 Hst2. apply wp_modify.
  pose proof (st_set_nua Hst2 (delete nh)) as Hst3. simpl in Hst3. rewrite delete_id in Hst3 by done.
  by destruct s'.
Qed.

#[local] Abbreviation c := (sk_next s).
#[local] Abbreviation l := (Pos.succ (sk_next s)).
#[local] Abbreviation s1 := (sk_new (embryo_shape (sk_next s)) s).
#[local] Abbreviation s2 := (sk_setup (Pos.succ (sk_next s)) (sip_mo_shape (sk_next s) nh) (Some nh)
                               (sk_new (embryo_shape (sk_next s)) s)).

Lemma embryo_evolves : evolves s s1.
Proof using. apply rtc_once, step_new; try done. by right. Qed.

Lemma embryo_wf : wfsk s1.
Proof using Hwf. eapply evolves_wf; [done|apply embryo_evolves]. Qed.

Lemma embryo_setup : sk_step s1 s2.
Proof using Hfresh.
  eapply step_setup with (sh0 := embryo_shape c); try done. apply lookup_insert_eq.
Qed.

Lemma new_call_leg_ok w sip to from : st s1 cn w -> wp (new_call_leg nh sip c to from) (fun _ => ok s) w.
Proof using HE HW Hwf Hok Hfresh.
  intros Hst. pose proof embryo_wf as Hwf1. pose proof embryo_evolves as Hev1.
  assert (sk_legs s1 !! l = Some (embryo_shape c)) as Hl by apply lookup_insert_eq.
  assert (sk_calls s1 !! c = Some (Some l, None)) as Hc by apply lookup_insert_eq.
  unfold new_call_leg. wp_use (deref_call_st s1) as cl w1 (_ & -> & _ & -> & _).
  apply wp_bind, wp_some_or with (a := l); [done|].
  wp_use (upd_sip_shape_st s1 cn w l _ _ _ _ (embryo_shape c)) as u w1 [Hst1 _].
  { by eapply (sip_no_timer s1). }
  { intros b m Hb. injection Hb as ? ? ? ? ?. unfold shape, embryo_shape. simpl. congruence. }
  rewrite sk_setup_new in Hst1.
  wp_use (sdp_extract_sdp_st s1) as b w2 Hst2.
  destruct b; simpl.
  - wp_use (upd_leg_shape_st s1 cn w2 l _ _ (LShape CALL_TYPE_SIP c sip_mo_ops (ShSip SIP_DIR_MO None)))
      as u3 w3 [Hst3 _].
    { intros x Hx. injection Hx as ? ? ? He. unfold shape. simpl. rewrite He. congruence. }
    { by eapply (sip_no_timer s1). }
    rewrite sk_setup_new in Hst3.
    wp_use (upd_sip_shape_st (sk_new _ s) cn w3 l _ _ _ _ (sip_mo_shape c nh)) as u4 w4 [Hst4 _].
    { apply lookup_insert_eq. }
    { done. }
    { eapply (sip_no_timer (sk_new _ s) cn l); [apply lookup_insert_eq|done|done]. }
    { intros b m Hb. injection Hb as ? ? ? ? ?. unfold shape, sip_mo_shape. simpl. congruence. }
    rewrite sk_setup_new in Hst4. apply wp_bind, wp_modify.
    assert (st s2 cn (set_nua <[nh := l]> w4)) as Hst5.
    { pose proof (st_set_nua Hst4 <[nh := l]>) as Hx. unfold sk_setup. simpl in *.
      by rewrite insert_insert_eq. }
    pose proof embryo_setup as Hstep. pose proof (sk_step_wf _ _ Hwf1 Hstep) as Hwf2.
    assert (evolves s s2) as Hev2 by (eapply rtc_r; eauto).
    assert (sk_legs s2 !! l = Some (sip_mo_shape c nh)) as Hl2 by apply lookup_insert_eq.
    wp_use (call_leg_rx_sdp_st s2) as u6 w6 Hst6.
    wp_use (talloc_str_st s2) as dst w7 [Hst7 Hd]. wp_use (talloc_str_st s2) as src w8 [Hst8 Hs].
    eapply (app_route_call_ok s cn Hok s2); eauto.
    + split_and!; [apply lookup_insert_eq|done|by split].
    + intros p t [-> | ->]; naive_solver.
  - wp_use (reject_406_st s1) as u3 w3 Hst3.
    wp_last (call_leg_release_st s1 cn l (embryo_shape c) Hwf1) as u4 w4 [Hst4 _].
    + by rewrite (sk_unbind_none s1 l (embryo_shape c)).
    + by eapply (sip_no_timer s1).
    + eapply ok_st; [done| |done]. eapply rtc_r; [done|]. by eapply step_release.
Qed.

Lemma new_call_ok w sip : st s cn w ->
  alloc_ok (n_io w) && alloc_ok (S (n_io w)) = true ->
  wp (new_call nh sip) (fun _ => ok s) w.
Proof using HE HW Hwf Hok Hfresh.
  intros Hst Ha. unfold new_call. cbv zeta. destruct (sdp_screen_sdp sip); simpl.
  2: { wp_last reject_406_st as u w1 Hst1. by eapply ok_refl. }
  unfold call_sip_create. wp_use (call_create_st s cn w Hwf) as o w1 Ho.
  destruct o as [c'|]; [|destruct Ho; congruence]. destruct Ho as (-> & _ & Hst1 & _).
  change (st s1 cn w1) in Hst1. pose proof embryo_evolves as Hev1.
  apply wp_bind, wp_some_or with (a := c); [done|].
  assert (forall w2, st s1 cn w2 -> wp (reject_406 nh) (fun _ => ok s) w2) as Hrej.
  { intros w2 Hst2. wp_last (reject_406_st s1) as u w3 Hst3. by eapply ok_st. }
  assert (forall w2, st s1 cn w2 -> wp (new_call_users nh sip c) (fun _ => ok s) w2) as Husers.
  { intros w2 Hst2. unfold new_call_users. destruct (sip_to_user sip), (sip_from_user sip); auto.
    by apply new_call_leg_ok. }
  destruct (_ <$> _); [|by apply Husers]. destruct (osmo_dec_gcr _); [|by apply Hrej].
  wp_use (upd_call_st s1) as u w2 Hst2; [apply lookup_insert_eq|]. by apply Husers.
Qed.
End new_call.

(** ** Every event leaves a consistent store *)
Section nua_ok.
Context {E : Env} {HE : EnvLaws E} {HW : WritesOk E} (s : skel) (cn : mncc_connection) (Hwf : wfsk s) (Hok : conn_ok cn).

(** What sofia-sip may deliver: events of a dialog only for a bound handle, and
    a message with every response, INVITE and ACK.  A new INVITE also needs
    memory for the call: the code asserts it. *)
Definition nua_conforms (alloc : bool) (event : nua_event) (status : Z) (nh : handle) (sip : option sip_t) : Prop :=
  match event with
  | nua_r_invite =>
      is_Some (sk_nua s !! nh) /\ (status = 180 \/ status = 183 \/ status = 200 -> is_Some sip)
  | nua_i_ack => is_Some sip
  | nua_r_bye | nua_r_cancel | nua_i_bye | nua_i_cancel => is_Some (sk_nua s !! nh)
  | nua_i_invite => status = 100 -> is_Some sip /\ (sk_nua s !! nh = None -> alloc = true)
  | nua_e_other _ => True
  end.

Lemma on_i_invite_ok w status nh sip : st s cn w ->
  nua_conforms (alloc_ok (n_io w) && alloc_ok (S (n_io w))) nua_i_invite status nh sip ->
  wp (on_i_invite status nh sip) (fun _ => ok s) w.
Proof using HE HW Hwf Hok.
  intros Hst Hc. unfold on_i_invite. destruct (Z.eqb_spec status 100) as [Heq|]; [|by eapply ok_refl].
  destruct (Hc Heq) as [[m ->] Ha]. wp_use sip_find_leg_st as o w1 (-> & ->).
  destruct (sk_nua s !! nh) as [l|] eqn:Hn.
  - destruct (wf_nua s Hwf nh l Hn) as (sh & d & Hl & He).
    wp_use call_leg_rx_sdp_st as u w1 Hst1. apply wp_bind, wp_some_or with (a := m); [done|].
    by eapply sip_handle_reinvite_ok.
  - apply wp_bind, wp_some_or with (a := m); [done|]. eapply new_call_ok; eauto.
Qed.

Lemma on_i_ack_ok w nh sip : st s cn w -> is_Some sip -> wp (on_i_ack nh sip) (fun _ => ok s) w.
Proof using HW Hwf Hok.
  intros Hst [m ->]. unfold on_i_ack. apply wp_bind, wp_some_or with (a := m); [done|].
  destruct (sip_payload m); [|by eapply ok_refl]. wp_use sip_find_leg_st as o w1 (-> & ->).
  destruct (sk_nua s !! nh) as [l|] eqn:Hn; [|by eapply ok_refl].
  destruct (wf_nua s Hwf nh l Hn) as (sh & d & Hl & He).
  wp_use call_leg_rx_sdp_st as u w1 Hst1. by eapply sip_handle_reinvite_ok.
Qed.

Lemma nua_callback_ok w event status nh sip : st s cn w ->
  nua_conforms (alloc_ok (n_io w) && alloc_ok (S (n_io w))) event status nh sip ->
  wp (nua_callback event status nh sip) (fun _ => ok s) w.
Proof using HE HW Hwf Hok.
  intros Hst Hc.
  assert (forall l, sk_nua s !! nh = Some l -> wp (x <- the_leg nh ;; drop_leg x) (fun _ => ok s) w) as Hdrop.
  { intros l Hn. destruct (wf_nua s Hwf nh l Hn) as (sh & d & Hl & He).
    wp_use the_leg_st as x w1 (-> & ->). wp_last drop_leg_st as u w1 Hst1.
    eapply ok_st; eauto using drop_evolves. }
  destruct event; simpl.
  - destruct Hc as [[l Hn] Hsip]. destruct (wf_nua s Hwf nh l Hn) as (sh & d & Hl & He).
    by eapply on_r_invite_ok.
  - by apply on_i_ack_ok.
  - destruct Hc as [l Hn]. by apply (Hdrop l).
  - destruct Hc as [l Hn]. by apply (Hdrop l).
  - destruct Hc as [l Hn]. destruct (wf_nua s Hwf nh l Hn) as (sh & d & Hl & He).
    by eapply on_remote_hangup_ok.
  - by apply on_i_invite_ok.
  - destruct Hc as [l Hn]. destruct (wf_nua s Hwf nh l Hn) as (sh & d & Hl & He).
    by eapply on_remote_hangup_ok.
  - by eapply ok_refl.
Qed.
End nua_ok.

(** ** What the other side is told *)
Section spec.
Context {E : Env} {HE : EnvLaws E} {HW : WritesOk E}.

(** Dropping the SIP leg of a bridged call leaves the MNCC leg as it is. *)
Lemma drop_leg_run w cr lm ls bm m bs x nh : mncc_sip_call w cr lm ls bm m bs x -> s_handle x = Some nh ->
  exists w', (nua_handle_destroy (s_handle x) ;; call_leg_release ls) w = Ret tt w' /\ wf w' /\
    out w' = out w ++ [NuaDestroy (Some nh)] /\ conn w' = conn w /\
    legs w' = delete ls (legs w) /\ nua w' = delete nh (nua w).
Proof.
  intros [Hw Hfd Hlm Hls Hb Hcr Hu] Hnh. pose proof (bridged_sym _ _ _ Hw Hb) as Hb'.
  pose proof (wf_st w Hw) as Hst. pose proof Hw as [Hwf _ Hok].
  assert (sk_legs (sk w) !! ls = Some (shape (Leg bs (XSip x)))) as Hsl by (simpl; by rewrite lookup_fmap, Hls).
  assert (sh_ext (shape (Leg bs (XSip x))) = ShSip (s_dir x) (Some nh)) as He by (simpl; by rewrite Hnh).
  pose proof (destroy_release_st (sk w) (conn w) ls _ Hsl Hwf w _ _ Hst He) as Hd.
  rewrite Hnh. unfold nua_handle_destroy in *. rewrite bind_assoc in *. unfold wp in Hd. rewrite bind_assoc in Hd.
  run_step (emit_eq w (NuaDestroy (Some nh))). erewrite (bind_returns _ _ _ _ _ (emit_eq w _)) in Hd.
  unfold modify in *. unfold bind at 1. unfold bind at 1 in Hd. set (w1 := set_nua _ _) in *.
  destruct Hb' as (Hne & y & cl & Hy & Hcl & Hor). assert (y = Leg bs (XSip x)) as -> by congruence.
  rewrite (call_leg_release_kept w1 ls _ cl lm Hls Hcl Hor Hne) in *.
  eexists. split; [reflexivity|]. split; [|done]. eapply st_wf; [exact Hd| |done]. by eapply sk_release_wf.
Qed.

(** The MNCC leg after the SIP leg is gone, its cause perhaps set. *)
Lemma release_mncc_after w w1 cr lm ls bm m bs x bm1 : mncc_sip_call w cr lm ls bm m bs x ->
  cn_state (conn w) = MNCC_READY -> wf w1 -> conn w1 = conn w ->
  legs w1 = <[lm := Leg bm1 (XMncc m)]> (delete ls (legs w)) -> lg_call bm1 = lg_call bm ->
  exists w', call_release lm w1 = Ret tt w' /\
    out w' = out w1 ++ [TxMncc (release_message bm1 m) sizeof_gsm_mncc].
Proof.
  intros [Hw Hfd Hlm Hls Hb Hcr Hu] Hr Hw1 Hcn Hls1 Hc. pose proof Hb as [Hne _].
  assert (legs w1 !! lm = Some (Leg bm1 (XMncc m))) as Hlm1 by (rewrite Hls1; apply lookup_insert_eq).
  assert (callref_unique w1 lm (m_callref m)) as Hu1.
  { intros l' b' m' Hl'. rewrite Hls1 in Hl'. destruct (decide (l' = lm)) as [->|]; [done|].
    rewrite lookup_insert_ne in Hl' by done. apply lookup_delete_Some in Hl' as [_ Hl'].
    rewrite <- Hcr in Hu. by apply (Hu l' b' m'). }
  unfold call_release, release_leg. run_step (deref_leg_eq w1 lm _ Hlm1). simpl base.
  assert (sk_legs (sk w1) !! lm = Some (shape (Leg bm1 (XMncc m)))) as Hsl by (simpl; by rewrite lookup_fmap, Hlm1).
  pose proof (leg_established _ (w_sk w1 Hw1) lm _ (m_dir m) (m_callref m) Hsl eq_refl) as He.
  unfold established in He. simpl in He. rewrite He. run_step (some_or_Some NullCall FN_mncc_call_leg_release w1).
  assert (cn_state (conn w1) = MNCC_READY) as Hr1 by congruence.
  destruct (mncc_release_run disconnected w1 lm bm1 m Hw1 Hlm1 Hr1 Hu1) as (w' & Hrun & Hout & _). eauto.
Qed.

(** When the SIP peer ends a bridged call with BYE or CANCEL, the SIP leg and its
    handle are gone and the MSC is asked to release its leg. *)
Lemma on_remote_hangup_spec w cr lm ls bm m bs x nh : mncc_sip_call w cr lm ls bm m bs x ->
  s_handle x = Some nh -> cn_state (conn w) = MNCC_READY ->
  exists w', on_remote_hangup nh w = Ret tt w' /\
    out w' = out w ++ [NuaDestroy (Some nh); TxMncc (release_message bm m) sizeof_gsm_mncc].
Proof.
  intros Hm Hnh Hr. destruct (drop_leg_run w cr lm ls bm m bs x nh Hm Hnh) as (w1 & Hrun & Hw1 & Hout & Hcn & Hls1 & _).
  pose proof Hm as [Hw Hfd Hlm Hls Hb Hcr Hu]. pose proof Hb as [Hne _].
  assert (nua w !! nh = Some ls) as Hn.
  { apply (wf_handle _ (w_sk w Hw) ls (shape (Leg bs (XSip x))) (s_dir x) nh); simpl; [by rewrite lookup_fmap, Hls|].
    by rewrite Hnh. }
  assert (the_leg nh w = Ret ls w) as Hthe by (unfold the_leg, bind, gets, some_or, ret; by rewrite Hn).
  unfold on_remote_hangup. run_step Hthe. run_step (bridged_other w ls lm (bridged_sym _ _ _ Hw Hb)).
  assert (drop_leg ls w = Ret tt w1) as Hdrop by (unfold drop_leg; by run_step (as_sip_eq w ls bs x Hls)).
  run_step Hdrop. destruct (release_mncc_after w w1 cr lm ls bm m bs x bm Hm Hr Hw1 Hcn) as (w2 & Hrun2 & Hout2).
  - rewrite Hls1. symmetry. apply insert_id. by rewrite lookup_delete_ne.
  - done.
  - exists w2. split; [exact Hrun2|]. by rewrite Hout2, Hout, <- app_assoc.
Qed.

(** When the INVITE of a bridged call fails with a final status, the MSC is asked to
    release its leg with the cause the status maps to. *)
Lemma invite_failed_spec w cr lm ls bm m bs x nh status : mncc_sip_call w cr lm ls bm m bs x ->
  s_handle x = Some nh -> cn_state (conn w) = MNCC_READY ->
  exists w', invite_failed ls status w = Ret tt w' /\
    out w' = out w ++ [NuaCancel (Some nh); NuaDestroy (Some nh);
                       TxMncc (release_message (set_cause (status2cause status) bm) m) sizeof_gsm_mncc].
Proof.
  intros Hm Hnh Hr. pose proof Hm as [Hw Hfd Hlm Hls Hb Hcr Hu]. pose proof Hb as [Hne _].
  set (w1 := set_out (fun o => o ++ [NuaCancel (Some nh)]) w).
  assert (mncc_sip_call w1 cr lm ls bm m bs x) as Hm1.
  { split; try done. apply (st_wf (sk w) (conn w)); [apply (st_set_out (wf_st w Hw))|apply Hw..]. }
  destruct (drop_leg_run w1 cr lm ls bm m bs x nh Hm1 Hnh) as (w2 & Hrun & Hw2 & Hout & Hcn & Hls2 & _).
  unfold invite_failed. run_step (bridged_other w ls lm (bridged_sym _ _ _ Hw Hb)).
  run_step (as_sip_eq w ls bs x Hls). rewrite Hnh. run_step (emit_eq w (NuaCancel (Some nh))).
  rewrite Hnh in Hrun.
  assert (forall k, (nua_handle_destroy (Some nh) ;; call_leg_release ls ;; k) w1 = (k : MW unit) w2) as Hk.
  { intros k. rewrite <- (bind_assoc (nua_handle_destroy (Some nh)) (fun _ => call_leg_release ls) (fun _ => k)).
    by run_step Hrun. }
  rewrite Hk. assert (legs w2 !! lm = Some (Leg bm (XMncc m))) as Hlm2 by (rewrite Hls2; by rewrite lookup_delete_ne).
  run_step (upd_base_eq w2 lm (set_cause (status2cause status)) bm _ Hlm2). set (w3 := set_legs _ w2).
  assert (wf w3) as Hw3.
  { apply (st_wf (sk w2) (conn w2)); [|apply Hw2..]. eapply st_upd_leg; [by apply wf_st| |reflexivity].
    simpl. by rewrite lookup_fmap, Hlm2. }
  destruct (release_mncc_after w w3 cr lm ls bm m bs x (set_cause (status2cause status) bm) Hm Hr Hw3)
    as (w4 & Hrun4 & Hout4); [done| |done|].
  - simpl. by rewrite Hls2.
  - exists w4. split; [exact Hrun4|]. rewrite Hout4. simpl. rewrite Hout. simpl. by rewrite <- !app_assoc.
Qed.

Lemma send_rtp_connect_eq w lm ls bm m y : legs w !! lm = Some (Leg bm (XMncc m)) -> legs w !! ls = Some y ->
  0 <= cn_fd (conn w) ->
  send_rtp_connect disconnected lm ls w = Ret true (wrote (TxRtp (Rtp MNCC_RTP_CONNECT (m_callref m)
    (addr (base y)) (payload_type (base y)) 0 (osmo_strlcpy 1024 (rx_sdp (base y)))) sizeof_rtp) w).
Proof.
  intros Hlm Hls Hfd. unfold send_rtp_connect. run_step (as_mncc_eq w lm bm m Hlm). run_step (deref_leg_eq w ls y Hls).
  pose proof (mncc_rtp_write_wrote disconnected w (Rtp MNCC_RTP_CONNECT (m_callref m) (addr (base y))
    (payload_type (base y)) 0 (osmo_strlcpy 1024 (rx_sdp (base y))))) as H.
  apply wp_returns in H as (rc & w1 & Hrun & -> & Hrc). rewrite (Hrc Hfd) in Hrun. run_step Hrun.
  by rewrite Z.eqb_refl.
Qed.

(** Whichever leg [update_rtp] is called with, the MSC is told the SIP leg's media. *)
Lemma invoke_update_rtp_eq w cr lm ls bm m bs x : mncc_sip_call w cr lm ls bm m bs x ->
  invoke_update_rtp ls lm w = Ret tt (wrote (TxRtp (Rtp MNCC_RTP_CONNECT (m_callref m) (addr bs)
    (payload_type bs) 0 (osmo_strlcpy 1024 (rx_sdp bs))) sizeof_rtp) w).
Proof.
  intros [Hw Hfd Hlm Hls Hb Hcr Hu]. pose proof (bridged_sym _ _ _ Hw Hb) as Hb'.
  assert (lg_type bm = CALL_TYPE_MNCC /\ ops bm = mncc_leg_ops) as [Htm Hom].
  { assert (sk_legs (sk w) !! lm = Some (shape (Leg bm (XMncc m)))) as Hsl by (simpl; by rewrite lookup_fmap, Hlm).
    split; [apply (wf_leg _ (w_sk w Hw) lm _ Hsl)|].
    exact (bridged_established w lm ls _ Hw Hb Hlm). }
  destruct (bridged_sip_ops w ls lm bs x Hw Hb' Hls) as [Hts _].
  unfold invoke_update_rtp. run_step (deref_leg_eq w lm _ Hlm).
  change (ops (base (Leg bm (XMncc m)))) with (ops bm). rewrite Hom. cbn [update_rtp_cb mncc_leg_ops].
  run_step (deref_leg_eq w ls _ Hls). change (lg_call (base (Leg bs (XSip x)))) with (lg_call bs). pose proof Hb' as (_ & y & cl & Hy & Hcl & Hor).
  assert (y = Leg bs (XSip x)) as -> by congruence. run_step (deref_call_eq w _ cl Hcl).
  assert (forall r, r = lm \/ r = ls -> update_rtp r w = Ret tt (wrote (TxRtp (Rtp MNCC_RTP_CONNECT (m_callref m)
    (addr bs) (payload_type bs) 0 (osmo_strlcpy 1024 (rx_sdp bs))) sizeof_rtp) w)) as Hup.
  { intros r [-> | ->]; unfold update_rtp.
    - run_step (deref_leg_eq w lm _ Hlm). run_step (bridged_other w lm ls Hb).
      change (lg_type (base (Leg bm (XMncc m)))) with (lg_type bm). rewrite Htm.
      by run_step (send_rtp_connect_eq w lm ls bm m _ Hlm Hls Hfd).
    - run_step (deref_leg_eq w ls _ Hls). run_step (bridged_other w ls lm Hb').
      change (lg_type (base (Leg bs (XSip x)))) with (lg_type bs). rewrite Hts.
      by run_step (send_rtp_connect_eq w lm ls bm m _ Hlm Hls Hfd). }
  destruct Hor as [[_ ->]|[_ ->]].
  - run_step (some_or_Some NullDeref lm w). change (invoke (Some FN_update_rtp) lm) with (update_rtp lm). apply Hup. auto.
  - run_step (some_or_Some NullDeref ls w). change (invoke (Some FN_update_rtp) ls) with (update_rtp ls). apply Hup. auto.
Qed.

Lemma msc_set_sip w cr lm ls bm m bs x bs' x' : mncc_sip_call w cr lm ls bm m bs x ->
  shape (Leg bs' (XSip x')) = shape (Leg bs (XSip x)) ->
  mncc_sip_call (set_legs (<[ls := Leg bs' (XSip x')]>) w) cr lm ls bm m bs' x'.
Proof.
  intros [Hw Hfd Hlm Hls Hb Hcr Hu] Hsh. pose proof Hb as [Hne _]. split; simpl.
  - apply (st_wf (sk w) (conn w)); [|apply Hw..]. eapply st_upd_leg; [by apply wf_st|simpl; by rewrite lookup_fmap, Hls|done].
  - done.
  - by rewrite lookup_insert_ne.
  - apply lookup_insert_eq.
  - eapply bridged_set_leg; [done..|]. simpl. by injection Hsh.
  - done.
  - intros l' b' m' Hl'. destruct (decide (l' = ls)) as [->|].
    + simpl in Hl'. by rewrite lookup_insert_eq in Hl'.
    + simpl in Hl'. rewrite lookup_insert_ne in Hl' by done. by apply (Hu l' b' m').
Qed.

Lemma msc_set_out w cr lm ls bm m bs x f : mncc_sip_call w cr lm ls bm m bs x ->
  mncc_sip_call (set_out f w) cr lm ls bm m bs x.
Proof.
  intros [Hw Hfd Hlm Hls Hb Hcr Hu]. split; try done.
  apply (st_wf (sk w) (conn w)); [apply (st_set_out (wf_st w Hw))|apply Hw..].
Qed.

Lemma msc_wrote w cr lm ls bm m bs x a : mncc_sip_call w cr lm ls bm m bs x ->
  mncc_sip_call (wrote a w) cr lm ls bm m bs x.
Proof.
  intros [Hw Hfd Hlm Hls Hb Hcr Hu]. split; try done.
  apply (st_wf (sk w) (conn w)); [apply (wrote_st (sk w) (conn w)), wf_st, Hw|apply Hw..].
Qed.

(** The answer to a re-INVITE. *)
Lemma reinvite_answer w cr lm ls bm m bs x nh mode : mncc_sip_call w cr lm ls bm m bs x ->
  exists w', (sdp <- sdp_create_file ls lm mode ;; respond_200 nh sdp) w = Ret tt w' /\
    out w' = out w ++ [NuaRespond (Some nh) 200 (sip_phrase 200) None (Some (sdp_file bm mode))].
Proof.
  intros [Hw Hfd Hlm Hls Hb Hcr Hu]. run_step (sdp_create_file_eq w ls lm bs x _ mode Hls Hlm).
  by eexists.
Qed.

(** What [sip_handle_reinvite] does after a successful extraction. *)
Lemma reinvite_moved w cr lm ls bm m bs x nh prev : mncc_sip_call w cr lm ls bm m bs x ->
  exists w', (x' <- deref_leg ls ;;
      (if negb (osmo_sockaddr_cmp prev (addr (base x')) =? 0) then invoke_update_rtp ls lm else ret tt) ;;
      sdp <- sdp_create_file ls lm sdp_sendrecv ;; respond_200 nh sdp) w = Ret tt w' /\
    out w' = out w
      ++ (if osmo_sockaddr_cmp prev (addr bs) =? 0 then []
          else [TxRtp (Rtp MNCC_RTP_CONNECT (m_callref m) (addr bs) (payload_type bs) 0
                  (osmo_strlcpy 1024 (rx_sdp bs))) sizeof_rtp])
      ++ [NuaRespond (Some nh) 200 (sip_phrase 200) None (Some (sdp_file bm sdp_sendrecv))].
Proof.
  intros Hm. run_step (deref_leg_eq w ls _ (msc_sip _ _ _ _ _ _ _ _ Hm)).
  change (addr (base (Leg bs (XSip x)))) with (addr bs).
  destruct (osmo_sockaddr_cmp prev (addr bs) =? 0); cbn [negb].
  - destruct (reinvite_answer w cr lm ls bm m bs x nh sdp_sendrecv Hm) as (w' & Hrun & Hout).
    exists w'. split; [exact Hrun|]. by rewrite Hout.
  - run_step (invoke_update_rtp_eq w cr lm ls bm m bs x Hm).
    lazymatch goal with |- context [wrote ?a w] => pose proof (msc_wrote w cr lm ls bm m bs x a Hm) as Hm1 end.
    destruct (reinvite_answer _ cr lm ls bm m bs x nh sdp_sendrecv Hm1) as (w' & Hrun & Hout).
    exists w'. split; [exact Hrun|]. rewrite Hout. simpl. by rewrite <- app_assoc.
Qed.

Lemma reject_drop w cr lm ls bm m bs x nh : mncc_sip_call w cr lm ls bm m bs x -> s_handle x = Some nh ->
  exists w', (reject_406 nh ;; call_leg_release ls) w = Ret tt w' /\
    out w' = out w ++ [NuaRespond (Some nh) 406 (sip_phrase 406) None None; NuaDestroy (Some nh)] /\
    legs w' = delete ls (legs w).
Proof.
  intros Hm Hnh. unfold reject_406. rewrite bind_assoc. run_step (emit_eq w (NuaRespond (Some nh) 406 (sip_phrase 406) None None)).
  pose proof (msc_set_out w cr lm ls bm m bs x (fun o => o ++ [NuaRespond (Some nh) 406 (sip_phrase 406) None None]) Hm) as Hm1.
  destruct (drop_leg_run _ cr lm ls bm m bs x nh Hm1 Hnh)
    as (w' & Hrun & _ & Hout & _ & Hls & _).
  rewrite Hnh in Hrun. exists w'. split; [exact Hrun|]. split; [|done]. rewrite Hout. simpl. by rewrite <- app_assoc.
Qed.

Lemma reinvite_run w cr lm ls bm m bs x nh sip : mncc_sip_call w cr lm ls bm m bs x ->
  sip_handle_reinvite ls nh sip w =
    match sdp_get_sdp_mode sip with
    | None => (sdp <- sdp_create_file ls lm sdp_sendrecv ;; respond_200 nh sdp) w
    | Some mode =>
        (if decide (mode = sdp_sendonly) then sdp <- sdp_create_file ls lm sdp_recvonly ;; respond_200 nh sdp
         else ok <- sdp_extract_sdp ls sip true ;;
              if negb ok then reject_406 nh ;; call_leg_release ls
              else x' <- deref_leg ls ;;
                (if negb (osmo_sockaddr_cmp (addr bs) (addr (base x')) =? 0)
                 then invoke_update_rtp ls lm else ret tt) ;;
                sdp <- sdp_create_file ls lm sdp_sendrecv ;; respond_200 nh sdp)
        (set_legs (<[ls := Leg (rx_sdp_update (sip_payload sip) bs) (XSip x)]>) w)
    end.
Proof.
  intros Hm. pose proof Hm as [Hw Hfd Hlm Hls Hb Hcr Hu]. pose proof (bridged_sym _ _ _ Hw Hb) as Hb'.
  unfold sip_handle_reinvite. run_step (deref_leg_eq w ls _ Hls). cbv zeta.
  run_step (bridged_other w ls lm Hb'). destruct (sdp_get_sdp_mode sip) as [mode|]; [|done].
  unfold call_leg_rx_sdp. simpl sip_get_sdp. run_step (upd_base_eq w ls (rx_sdp_update (sip_payload sip)) bs _ Hls).
  by case_decide.
Qed.

(** C30: a re-INVITE of a bridged call is answered with 200 and the session of the MNCC
    side: receive-only to a peer that holds, send-and-receive otherwise; when it
    moves the media the MSC is told the new address first, with the SDP of the
    re-INVITE, and not otherwise.  A re-INVITE with nothing usable is refused with
    406 and the SIP leg is gone; the MNCC leg stays as it is. *)
Theorem reinvite_spec w cr lm ls bm m bs x nh sip : mncc_sip_call w cr lm ls bm m bs x -> s_handle x = Some nh ->
  let answer mode := NuaRespond (Some nh) 200 (sip_phrase 200) None (Some (sdp_file bm mode)) in
  exists w', sip_handle_reinvite ls nh sip w = Ret tt w' /\
  match sdp_get_sdp_mode sip, usable true (s_wanted_codec x) sip with
  | None, _ => out w' = out w ++ [answer sdp_sendrecv]
  | Some sdp_sendonly, _ => out w' = out w ++ [answer sdp_recvonly]
  | Some _, Some (f, (port, pt)) =>
      let a := set_port port (write_conn f (addr bs)) in
      let told := if osmo_sockaddr_cmp (addr bs) a =? 0 then []
                  else [TxRtp (Rtp MNCC_RTP_CONNECT (m_callref m) a pt 0
                          (osmo_strlcpy 1024 (rx_sdp (rx_sdp_update (sip_payload sip) bs)))) sizeof_rtp] in
      out w' = out w ++ told ++ [answer sdp_sendrecv]
  | Some _, None =>
      out w' = out w ++ [NuaRespond (Some nh) 406 (sip_phrase 406) None None; NuaDestroy (Some nh)] /\
      legs w' = delete ls (legs w)
  end.
Proof.
  intros Hm Hnh answer. rewrite (reinvite_run w cr lm ls bm m bs x nh sip Hm).
  set (bs1 := rx_sdp_update (sip_payload sip) bs).
  assert (shape (Leg bs1 (XSip x)) = shape (Leg bs (XSip x))) as Hsh1.
  { unfold shape, bs1. simpl. by destruct (rx_sdp_update_shape (sip_payload sip) bs) as (-> & -> & ->). }
  pose proof (msc_set_sip w cr lm ls bm m bs x bs1 x Hm Hsh1) as Hm1.
  destruct (sdp_get_sdp_mode sip) as [mode|]; [|by apply (reinvite_answer w cr lm ls bm m bs x)].
  destruct (decide (mode = sdp_sendonly)) as [->|Hmode].
  { by destruct (reinvite_answer _ cr lm ls bm m bs1 x nh sdp_recvonly Hm1) as (w' & Hrun & Hout); exists w'. }
  destruct (sdp_extract_eq _ ls bs1 x sip true (msc_sip _ _ _ _ _ _ _ _ Hm1)) as (b' & Hrun & Hb').
  run_step Hrun. clear Hrun. set (w2 := set_legs (<[ls:=Leg b' (XSip x)]>) _).
  assert (addr bs1 = addr bs) as Ha by (unfold bs1, rx_sdp_update; repeat case_match; done).
  assert (shape (Leg b' (XSip x)) = shape (Leg bs1 (XSip x))) as Hsh2.
  { destruct (usable _ _ _) as [[f [port pt]]|]; [by subst b'|]. by destruct Hb' as (a & p & -> & _). }
  pose proof (msc_set_sip _ cr lm ls bm m bs1 x b' x Hm1 Hsh2) as Hm2.
  destruct (usable true _ sip) as [[f [port pt]]|].
  - rewrite bool_decide_true by eauto. cbn [negb].
    destruct (reinvite_moved w2 cr lm ls bm m b' x nh (addr bs) Hm2) as (w' & Hrun & Hout).
    exists w'. split; [exact Hrun|]. rewrite Hb' in Hout. simpl in Hout. rewrite Ha in Hout.
    by destruct mode.
  - rewrite bool_decide_false by (intros [? ?]; done). cbn [negb].
    destruct (reject_drop w2 cr lm ls bm m b' x nh Hm2 Hnh) as (w' & Hrun & Hout & Hls').
    exists w'. split; [exact Hrun|].
    assert (legs w' = delete ls (legs w)) as Hd.
    { rewrite Hls'. simpl. by rewrite !delete_insert_eq. }
    by destruct mode.
Qed.
End spec.
