(* ===== verification/CallFlow.v ===== *)
(** * What one side does, told to the other

    Specifications of the handlers that carry a call from ringing to the
    connected state and back: the answers of a SIP peer to our INVITE
    (src/sip.c, [nua_r_invite]), the answers of a phone (src/mncc.c,
    [check_alrt_ind], [check_stp_cnf], [check_rel_ind], [check_rel_cnf]) and the
    expiry of a command timer.  Each is stated for a call bridged between an
    MNCC leg and a SIP leg ([mncc_sip_call]). *)
From S2P Require Import Prelude Effect Codec Protocol Lib State Skel Rules Call Sdp SipLeg MnccConn App MnccRx SipUa.

(** ** Definitions *)
Section defs.
Context {E : Env}.

(** The RTP_CONNECT that gives the MSC the media of leg [b]. *)
Definition rtp_connect (m : mncc_leg) (b : call_leg) : action :=
  TxRtp (Rtp MNCC_RTP_CONNECT (m_callref m) (addr b) (payload_type b) 0 (osmo_strlcpy 1024 (rx_sdp b))) sizeof_rtp.

(** A message that carries nothing but its type and callref. *)
Definition plain (t : Z) (m : mncc_leg) : action :=
  TxMncc (set_mn_header t (m_callref m) gsm_mncc0) sizeof_gsm_mncc.

(** The Alerting of a call whose SIP peer rings, with its progress indicator. *)
Definition alerting (m : mncc_leg) : action :=
  TxMncc (set_mn_progress
    (Progress GSM48_CAUSE_CODING_GSM GSM48_CAUSE_LOC_PRN_S_LU GSM48_PROGR_IN_BAND_AVAIL)
    (add_field MNCC_F_PROGRESS (set_mn_header MNCC_ALERT_REQ (m_callref m) gsm_mncc0))) sizeof_gsm_mncc.

(** The media of a leg is known. *)
Definition has_media (b : call_leg) : bool :=
  negb (ss_family (addr b) =? AF_UNSPEC) && negb (osmo_sockaddr_port (addr b) =? 0).
End defs.

(** The first response to our INVITE confirms the dialog. *)
Definition confirmed (x : sip_leg) : sip_leg :=
  if decide (s_state x = SIP_CC_INITIAL) then set_s_state SIP_CC_DLG_CNFD x else x.

(** ** Running the MNCC leg's callbacks *)
Section run.
Context {E : Env} {HE : EnvLaws E} {HW : WritesOk E}.

Lemma msc_mncc_ops w cr lm ls bm m bs x : mncc_sip_call w cr lm ls bm m bs x ->
  lg_type bm = CALL_TYPE_MNCC /\ ops bm = mncc_leg_ops.
Proof using.
  intros Hm. destruct (msc_view _ _ _ _ _ _ _ _ Hm) as [Hsl _]. pose proof Hm as [Hw _ Hlm _ Hb _ _].
  split; [apply (wf_leg _ (w_sk w Hw) lm _ Hsl)|exact (bridged_established w lm ls _ Hw Hb Hlm)].
Qed.

Lemma msc_set_mncc w cr lm ls bm m bs x bm' m' : mncc_sip_call w cr lm ls bm m bs x ->
  shape (Leg bm' (XMncc m')) = shape (Leg bm (XMncc m)) ->
  mncc_sip_call (set_legs (<[lm := Leg bm' (XMncc m')]>) w) cr lm ls bm' m' bs x.
Proof using.
  intros [Hw Hfd Hlm Hls Hb Hcr Hu] Hsh. pose proof Hb as [Hne _].
  assert (m_callref m' = m_callref m) as Hc by (by injection Hsh).
  split; simpl.
  - apply (st_wf (sk w) (conn w)); [|apply Hw..]. eapply st_upd_leg; [by apply wf_st|simpl; by rewrite lookup_fmap, Hlm|done].
  - done.
  - apply lookup_insert_eq.
  - by rewrite lookup_insert_ne.
  - eapply bridged_set_leg; [done..|]. simpl. by injection Hsh.
  - congruence.
  - intros l' b' y Hl'. destruct (decide (l' = lm)) as [->|]; [done|].
    simpl in Hl'. rewrite lookup_insert_ne in Hl' by done. by apply (Hu l' b' y).
Qed.

Lemma send_plain_wrote w m t : 0 <= cn_fd (conn w) -> t <> MNCC_DISC_REQ -> t <> MNCC_REL_REQ ->
  mncc_send disconnected t (m_callref m) w = Ret sizeof_gsm_mncc (wrote (plain t m) w).
Proof using HW.
  intros Hfd H1 H2. unfold mncc_send, mncc_fill_header.
  assert ((MNCC_DISC_REQ =? t) || (MNCC_REL_REQ =? t) = false) as -> by (rewrite orb_false_iff, !Z.eqb_neq; auto).
  rewrite bind_ret_l.
  pose proof (mncc_write_wrote disconnected w (set_mn_header t (m_callref m) gsm_mncc0)) as H.
  apply wp_returns in H as (rc & w1 & Hrun & -> & Hrc). by rewrite (Hrc Hfd) in Hrun.
Qed.

Lemma connect_run w cr lm ls bm m bs x : mncc_sip_call w cr lm ls bm m bs x ->
  mncc_call_leg_connect disconnected lm w = Ret tt
    (wrote (plain MNCC_SETUP_RSP m) (set_timers (fun t => {[lm]} ∪ t)
      (set_legs (<[lm := Leg bm (XMncc (set_m_rsp_wanted MNCC_SETUP_COMPL_IND m))]>)
        (wrote (rtp_connect m bs) w)))).
Proof using HW.
  intros Hm. destruct (msc_mncc_ops _ _ _ _ _ _ _ _ Hm) as [Hty _]. pose proof Hm as [Hw Hfd Hlm Hls Hb Hcr Hu].
  unfold mncc_call_leg_connect. run_step (assert_type_eq w lm _ CALL_TYPE_MNCC Hlm Hty).
  run_step (bridged_other w lm ls Hb). run_step (some_or_Some AssertFail ls w).
  run_step (send_rtp_connect_eq w lm ls bm m _ Hlm Hls Hfd). cbv beta iota delta [negb].
  fold (rtp_connect m bs). change (base (Leg bs (XSip x))) with bs. set (w1 := wrote (rtp_connect m bs) w).
  assert (legs w1 !! lm = Some (Leg bm (XMncc m))) as Hlm1 by exact Hlm.
  unfold start_cmd_timer. rewrite bind_assoc.
  run_step (upd_mncc_eq w1 lm (set_m_rsp_wanted MNCC_SETUP_COMPL_IND) bm m Hlm1). set (w2 := set_legs _ w1).
  assert (legs w2 !! lm = Some (Leg bm (XMncc (set_m_rsp_wanted MNCC_SETUP_COMPL_IND m)))) as Hlm2 by apply lookup_insert_eq.
  run_step (timer_schedule_eq w2 lm _ Hlm2). set (w3 := set_timers _ w2).
  run_step (as_mncc_eq w3 lm bm (set_m_rsp_wanted MNCC_SETUP_COMPL_IND m) Hlm2).
  by run_step (send_plain_wrote w3 m MNCC_SETUP_RSP Hfd ltac:(done) ltac:(done)).
Qed.

Lemma ring_run w cr lm ls bm m bs x : mncc_sip_call w cr lm ls bm m bs x ->
  exists w', mncc_call_leg_ring disconnected lm w = Ret tt w' /\
    out w' = out w ++ alerting m :: (if has_media bs then [rtp_connect m bs] else []) /\
    legs w' = legs w.
Proof using HW.
  intros Hm. destruct (msc_mncc_ops _ _ _ _ _ _ _ _ Hm) as [Hty _]. pose proof Hm as [Hw Hfd Hlm Hls Hb Hcr Hu].
  unfold mncc_call_leg_ring. run_step (assert_type_eq w lm _ CALL_TYPE_MNCC Hlm Hty).
  run_step (as_mncc_eq w lm bm m Hlm). unfold mncc_fill_header. simpl orb. cbv iota. rewrite bind_ret_l.
  match goal with |- context [mncc_write disconnected ?h] =>
    pose proof (mncc_write_wrote disconnected w h) as H end.
  apply wp_returns in H as (rc & w1 & Hrun & -> & Hrc). rewrite (Hrc Hfd) in Hrun. run_step Hrun.
  fold (alerting m). set (w1 := wrote (alerting m) w).
  assert (bridged w1 lm ls) as Hb1 by exact Hb. run_step (bridged_other w1 lm ls Hb1).
  assert (legs w1 !! lm = Some (Leg bm (XMncc m))) as Hlm1 by exact Hlm.
  assert (legs w1 !! ls = Some (Leg bs (XSip x))) as Hls1 by exact Hls.
  run_step (deref_leg_eq w1 ls _ Hls1). change (base (Leg bs (XSip x))) with bs. fold (has_media bs).
  destruct (has_media bs).
  - run_step (send_rtp_connect_eq w1 lm ls bm m _ Hlm1 Hls1 Hfd). fold (rtp_connect m bs).
    eexists. split; [reflexivity|]. split; [|done]. simpl. by rewrite <- app_assoc.
  - eexists. split; [reflexivity|]. done.
Qed.

(** Calling a member of the other leg. *)
Lemma invoke_member_eq w l x f member : legs w !! l = Some x -> member (ops (base x)) = Some f ->
  invoke_member member l w = invoke (Some f) l w.
Proof using. intros Hl Hf. unfold invoke_member. run_step (deref_leg_eq w l x Hl). by rewrite Hf. Qed.

Lemma release_mncc_run w cr lm ls bm m bs x : mncc_sip_call w cr lm ls bm m bs x ->
  cn_state (conn w) = MNCC_READY ->
  exists w', call_release lm w = Ret tt w' /\
    out w' = out w ++ [TxMncc (release_message bm m) sizeof_gsm_mncc].
Proof using HW.
  intros Hm Hr. destruct (msc_mncc_ops _ _ _ _ _ _ _ _ Hm) as [_ Hop]. pose proof Hm as [Hw Hfd Hlm Hls Hb Hcr Hu].
  unfold call_release, release_leg. run_step (deref_leg_eq w lm _ Hlm).
  change (ops (base (Leg bm (XMncc m)))) with (ops bm). rewrite Hop.
  run_step (some_or_Some NullCall FN_mncc_call_leg_release w). rewrite <- Hcr in Hu.
  destruct (mncc_release_run disconnected w lm bm m Hw Hlm Hr Hu) as (w' & Hrun & Hout & _). eauto.
Qed.
End run.

(** ** Responses to our INVITE *)
Section responses.
Context {E : Env} {HE : EnvLaws E} {HW : WritesOk E}.

Lemma msc_the_leg w cr lm ls bm m bs x nh : mncc_sip_call w cr lm ls bm m bs x -> s_handle x = Some nh ->
  the_leg nh w = Ret ls w.
Proof using.
  intros Hm Hnh. pose proof Hm as [Hw _ _ Hls _ _ _].
  assert (nua w !! nh = Some ls) as Hn.
  { apply (wf_handle _ (w_sk w Hw) ls (shape (Leg bs (XSip x))) (s_dir x) nh); simpl; [by rewrite lookup_fmap, Hls|].
    by rewrite Hnh. }
  unfold the_leg, bind, gets, some_or, ret. by rewrite Hn.
Qed.

Lemma confirmed_shape b x : shape (Leg b (XSip (confirmed x))) = shape (Leg b (XSip x)).
Proof using. unfold confirmed. by case_decide. Qed.

(** The store after the common part of [nua_r_invite]. *)
Definition response_world (w : world) (ls : ptr) (bs : call_leg) (x : sip_leg) (sdp : option string) : world :=
  set_legs (<[ls := Leg (rx_sdp_update sdp bs) (XSip (confirmed x))]>) w.

Lemma msc_response w cr lm ls bm m bs x sdp : mncc_sip_call w cr lm ls bm m bs x ->
  mncc_sip_call (response_world w ls bs x sdp) cr lm ls bm m (rx_sdp_update sdp bs) (confirmed x).
Proof using.
  intros Hm. eapply msc_set_sip; [done|]. rewrite confirmed_shape. unfold shape. simpl.
  by destruct (rx_sdp_update_shape sdp bs) as (-> & -> & ->).
Qed.

Lemma on_r_invite_run w cr lm ls bm m bs x nh status sip : mncc_sip_call w cr lm ls bm m bs x ->
  s_handle x = Some nh ->
  on_r_invite status nh sip w =
    (if (status =? 180) || (status =? 183) then call_progress ls sip status
     else if status =? 200 then
       match s_state (confirmed x) with
       | SIP_CC_CONNECTED | SIP_CC_HOLD => emit (NuaAck (Some nh))
       | _ => call_connect ls sip
       end
     else if 300 <=? status then invite_failed ls status
     else ret tt) (response_world w ls bs x (sip_get_sdp sip)).
Proof using.
  intros Hm Hnh. pose proof Hm as [Hw _ _ Hls _ _ _]. unfold on_r_invite.
  run_step (msc_the_leg w cr lm ls bm m bs x nh Hm Hnh). unfold call_leg_rx_sdp.
  run_step (upd_base_eq w ls (rx_sdp_update (sip_get_sdp sip)) bs _ Hls). set (w1 := set_legs _ w).
  assert (legs w1 !! ls = Some (Leg (rx_sdp_update (sip_get_sdp sip) bs) (XSip x))) as Hl1 by apply lookup_insert_eq.
  run_step (as_sip_eq w1 ls _ x Hl1). unfold confirmed, response_world.
  assert ((if decide (s_state x = SIP_CC_INITIAL) then upd_sip ls (set_s_state SIP_CC_DLG_CNFD) else ret tt) w1
          = Ret tt (set_legs (<[ls := Leg (rx_sdp_update (sip_get_sdp sip) bs) (XSip (confirmed x))]>) w)) as Hrun.
  { unfold confirmed. case_decide; [|done]. rewrite (upd_sip_eq w1 ls _ _ x Hl1). unfold w1, set_legs. simpl.
    by rewrite insert_insert_eq. }
  run_step Hrun. fold (confirmed x). set (w2 := set_legs _ w).
  destruct (_ || _); [done|]. destruct (status =? 200); [|done].
  assert (legs w2 !! ls = Some (Leg (rx_sdp_update (sip_get_sdp sip) bs) (XSip (confirmed x)))) as Hl2 by apply lookup_insert_eq.
  run_step (as_sip_eq w2 ls _ (confirmed x) Hl2).
  assert (s_handle (confirmed x) = Some nh) as -> by (unfold confirmed; by case_decide). done.
Qed.

(** Finding a SIP leg's media changes the leg only. *)
Lemma msc_extract w cr lm ls bm m bs x sip any : mncc_sip_call w cr lm ls bm m bs x ->
  exists b', sdp_extract_sdp ls sip any w
      = Ret (bool_decide (is_Some (usable any (s_wanted_codec x) sip))) (set_legs (<[ls := Leg b' (XSip x)]>) w) /\
    mncc_sip_call (set_legs (<[ls := Leg b' (XSip x)]>) w) cr lm ls bm m b' x /\
    match usable any (s_wanted_codec x) sip with
    | Some (f, (port, pt)) => b' = set_addr (set_port port (write_conn f (addr bs))) (set_payload_type pt bs)
    | None => media_kept bs b'
    end.
Proof using.
  intros Hm. destruct (sdp_extract_eq w ls bs x sip any (msc_sip _ _ _ _ _ _ _ _ Hm)) as (b' & Hrun & Hb').
  exists b'. split; [done|]. split; [|done]. eapply msc_set_sip; [done|].
  destruct (usable _ _ _) as [[f [port pt]]|]; [by subst b'|]. by destruct Hb' as (a & p & -> & _).
Qed.

(** The media of an answer written into a leg. *)
Definition answered_leg (f : Z * list Z) (port pt : Z) (b : call_leg) : call_leg :=
  set_addr (set_port port (write_conn f (addr b))) (set_payload_type pt b).

Lemma msc_schedule w cr lm ls bm m bs x : mncc_sip_call w cr lm ls bm m bs x ->
  mncc_sip_call (set_timers (fun t => {[lm]} ∪ t) w) cr lm ls bm m bs x.
Proof using.
  intros Hm. destruct (msc_view _ _ _ _ _ _ _ _ Hm) as [Hsl _]. pose proof Hm as [Hw Hfd Hlm Hls Hb Hcr Hu].
  split; try done. apply (st_wf (sk w) (conn w)); [|apply Hw..]. pose proof (wf_st w Hw) as Hst.
  apply st_set_timers; [done|]. intros l [->%elem_of_singleton|Hl]%elem_of_union; [by eexists|].
  by apply (st_timers _ _ _ Hst).
Qed.

(** [call_connect] with an answer that can be used. *)
Lemma call_connect_run w cr lm ls bm m bs x nh sip f port pt : mncc_sip_call w cr lm ls bm m bs x ->
  s_handle x = Some nh -> usable false (s_wanted_codec x) sip = Some (f, (port, pt)) ->
  exists w', call_connect ls (Some sip) w = Ret tt w' /\
    out w' = out w ++ [rtp_connect m (answered_leg f port pt bs); plain MNCC_SETUP_RSP m; NuaAck (Some nh)] /\
    timers w' = {[lm]} ∪ timers w /\
    legs w' = <[lm := Leg bm (XMncc (set_m_rsp_wanted MNCC_SETUP_COMPL_IND m))]>
                (<[ls := Leg (answered_leg f port pt bs) (XSip (set_s_state SIP_CC_CONNECTED x))]> (legs w)) /\
    nua w' = nua w /\
    mncc_sip_call w' cr lm ls bm (set_m_rsp_wanted MNCC_SETUP_COMPL_IND m)
      (answered_leg f port pt bs) (set_s_state SIP_CC_CONNECTED x).
Proof using HE HW.
  intros Hm Hnh Hus. pose proof Hm as [Hw _ _ _ Hb _ _]. pose proof Hb as [Hne _]. unfold call_connect.
  run_step (bridged_other w ls lm (bridged_sym _ _ _ Hw Hb)). run_step (some_or_Some NullDeref sip w).
  destruct (msc_extract w cr lm ls bm m bs x sip false Hm) as (b' & Hrun & Hm1 & Hb'). rewrite Hus in Hb'. subst b'.
  fold (answered_leg f port pt bs) in *. rewrite Hus, bool_decide_true in Hrun by eauto. run_step Hrun. clear Hrun.
  cbn [negb]. set (b1 := answered_leg f port pt bs) in *. set (w1 := set_legs _ w) in *.
  run_step (upd_sip_eq w1 ls (set_s_state SIP_CC_CONNECTED) b1 x (msc_sip _ _ _ _ _ _ _ _ Hm1)).
  set (x1 := set_s_state SIP_CC_CONNECTED x).
  pose proof (msc_set_sip w1 cr lm ls bm m b1 x b1 x1 Hm1 eq_refl) as Hm2. set (w2 := set_legs _ w1) in *.
  destruct (msc_mncc_ops _ _ _ _ _ _ _ _ Hm2) as [_ Hop].
  assert (invoke_member connect_call lm w2 = invoke (Some FN_mncc_call_leg_connect) lm w2) as Hinv.
  { eapply invoke_member_eq; [apply (msc_mncc _ _ _ _ _ _ _ _ Hm2)|]. simpl. by rewrite Hop. }
  change (invoke (Some FN_mncc_call_leg_connect) lm) with (mncc_call_leg_connect disconnected lm) in Hinv.
  rewrite (connect_run w2 cr lm ls bm m b1 x1 Hm2) in Hinv. run_step Hinv. clear Hinv.
  set (w3 := wrote _ _).
  assert (legs w3 !! ls = Some (Leg b1 (XSip x1))) as Hl3.
  { simpl. rewrite lookup_insert_ne by done. apply lookup_insert_eq. }
  run_step (as_sip_eq w3 ls b1 x1 Hl3). change (s_handle x1) with (s_handle x). rewrite Hnh.
  eexists. split; [reflexivity|]. split_and!; [simpl; by rewrite <- !app_assoc|done|simpl; by rewrite insert_insert_eq|done|].
  apply msc_set_out, msc_wrote, msc_schedule. eapply msc_set_mncc; [by apply msc_wrote|done].
Qed.

Lemma call_connect_unusable w cr lm ls bm m bs x nh sip : mncc_sip_call w cr lm ls bm m bs x ->
  s_handle x = Some nh -> cn_state (conn w) = MNCC_READY -> usable false (s_wanted_codec x) sip = None ->
  exists w', call_connect ls (Some sip) w = Ret tt w' /\
    out w' = out w ++ [NuaCancel (Some nh); TxMncc (release_message bm m) sizeof_gsm_mncc].
Proof using HE HW.
  intros Hm Hnh Hr Hus. pose proof Hm as [Hw _ _ _ Hb _ _]. unfold call_connect.
  run_step (bridged_other w ls lm (bridged_sym _ _ _ Hw Hb)). run_step (some_or_Some NullDeref sip w).
  destruct (msc_extract w cr lm ls bm m bs x sip false Hm) as (b' & Hrun & Hm1 & _).
  rewrite Hus, bool_decide_false in Hrun by (by intros [? ?]). run_step Hrun. cbn [negb]. set (w1 := set_legs _ w) in *.
  run_step (as_sip_eq w1 ls b' x (msc_sip _ _ _ _ _ _ _ _ Hm1)). rewrite Hnh. run_step (emit_eq w1 (NuaCancel (Some nh))).
  pose proof (msc_set_out w1 cr lm ls bm m b' x (fun o => o ++ [NuaCancel (Some nh)]) Hm1) as Hm2.
  destruct (release_mncc_run _ cr lm ls bm m b' x Hm2 Hr) as (w2 & Hrun2 & Hout2).
  exists w2. split; [exact Hrun2|]. rewrite Hout2. simpl. by rewrite <- app_assoc.
Qed.

(** C22: the 200 to our INVITE: when its session can be used, the MSC is given the media of
    the peer and told that the call is answered, the leg waits for its confirmation
    with the timer armed, and the peer gets its ACK; when it cannot, the INVITE is
    cancelled and the MSC asked to release; a 200 to a re-INVITE is just acknowledged. *)
Theorem answered_spec w cr lm ls bm m bs x nh sip : mncc_sip_call w cr lm ls bm m bs x ->
  s_handle x = Some nh -> cn_state (conn w) = MNCC_READY ->
  exists w', nua_callback nua_r_invite 200 nh (Some sip) w = Ret tt w' /\
  match s_state x, usable false (s_wanted_codec x) sip with
  | (SIP_CC_CONNECTED | SIP_CC_HOLD), _ => out w' = out w ++ [NuaAck (Some nh)]
  | _, Some (f, (port, pt)) =>
      let b := answered_leg f port pt (rx_sdp_update (sip_payload sip) bs) in
      out w' = out w ++ [rtp_connect m b; plain MNCC_SETUP_RSP m; NuaAck (Some nh)] /\
      timers w' = {[lm]} ∪ timers w /\
      legs w' = <[lm := Leg bm (XMncc (set_m_rsp_wanted MNCC_SETUP_COMPL_IND m))]>
                  (<[ls := Leg b (XSip (set_s_state SIP_CC_CONNECTED x))]> (legs w))
  | _, None => out w' = out w ++ [NuaCancel (Some nh); TxMncc (release_message bm m) sizeof_gsm_mncc]
  end.
Proof.
  intros Hm Hnh Hr. simpl nua_callback. rewrite (on_r_invite_run w cr lm ls bm m bs x nh 200 _ Hm Hnh).
  pose proof (msc_response w cr lm ls bm m bs x (sip_payload sip) Hm) as Hm1. cbn [Z.eqb orb sip_get_sdp].
  set (w1 := response_world w ls bs x (sip_payload sip)) in *. simpl Z.eqb. cbn [orb]. cbv iota.
  assert (s_handle (confirmed x) = Some nh) as Hnh1 by (unfold confirmed; by case_decide).
  assert (s_wanted_codec (confirmed x) = s_wanted_codec x) as Hc1 by (unfold confirmed; by case_decide).
  assert (set_s_state SIP_CC_CONNECTED (confirmed x) = set_s_state SIP_CC_CONNECTED x) as Hs1
    by (unfold confirmed; by case_decide).
  assert (forall st, s_state x = st -> s_state (confirmed x) = if decide (st = SIP_CC_INITIAL) then SIP_CC_DLG_CNFD else st)
    as Hst by (intros st <-; unfold confirmed; by case_decide).
  destruct (usable false (s_wanted_codec x) sip) as [[f [port pt]]|] eqn:Hus; rewrite <- Hc1 in Hus.
  - destruct (call_connect_run w1 cr lm ls bm m _ _ nh sip f port pt Hm1 Hnh1 Hus) as (w' & Hrun & Hout & Ht & Hl & _).
    rewrite Hs1 in Hl. simpl in Hl. rewrite insert_insert_eq in Hl.
    destruct (s_state x) eqn:Hsx; rewrite (Hst _ eq_refl); simpl; eauto.
  - destruct (call_connect_unusable w1 cr lm ls bm m _ _ nh sip Hm1 Hnh1 Hr Hus) as (w' & Hrun & Hout).
    destruct (s_state x) eqn:Hsx; rewrite (Hst _ eq_refl); simpl; eauto.
Qed.

(** Ringing (180) or progress (183) from the peer: the MSC is told to alert, and where
    the media of the peer is when that is known, from the response or from before. *)
Lemma ringing_spec w cr lm ls bm m bs x nh status sip : mncc_sip_call w cr lm ls bm m bs x ->
  s_handle x = Some nh -> status = 180 \/ status = 183 ->
  let b1 := rx_sdp_update (sip_payload sip) bs in
  exists w' b', nua_callback nua_r_invite status nh (Some sip) w = Ret tt w' /\
    legs w' = <[ls := Leg b' (XSip (confirmed x))]> (legs w) /\
    out w' = out w ++ alerting m :: (if has_media b' then [rtp_connect m b'] else []) /\
    match sip_payload sip, usable false (s_wanted_codec x) sip with
    | Some _, Some (f, (port, pt)) => b' = answered_leg f port pt b1
    | Some _, None => media_kept b1 b'
    | None, _ => b' = b1
    end.
Proof.
  intros Hm Hnh Hs b1. simpl nua_callback. rewrite (on_r_invite_run w cr lm ls bm m bs x nh status _ Hm Hnh).
  assert ((status =? 180) || (status =? 183) = true) as Hb by (rewrite orb_true_iff, !Z.eqb_eq; auto).
  rewrite Hb. pose proof (msc_response w cr lm ls bm m bs x (sip_payload sip) Hm) as Hm1. fold b1 in Hm1.
  change (sip_get_sdp (Some sip)) with (sip_payload sip).
  set (w1 := response_world w ls bs x (sip_payload sip)) in *.
  assert (s_wanted_codec (confirmed x) = s_wanted_codec x) as Hc1 by (unfold confirmed; by case_decide).
  assert (forall w2 b', mncc_sip_call w2 cr lm ls bm m b' (confirmed x) ->
    exists w', invoke_member ring_call lm w2 = Ret tt w' /\ legs w' = legs w2 /\
      out w' = out w2 ++ alerting m :: (if has_media b' then [rtp_connect m b'] else [])) as Hring.
  { intros w2 b' Hm2. destruct (msc_mncc_ops _ _ _ _ _ _ _ _ Hm2) as [_ Hop].
    rewrite (invoke_member_eq w2 lm _ FN_mncc_call_leg_ring ring_call (msc_mncc _ _ _ _ _ _ _ _ Hm2)) by (simpl; by rewrite Hop).
    destruct (ring_run w2 cr lm ls bm m b' (confirmed x) Hm2) as (w' & ? & ? & ?). eauto. }
  unfold call_progress. pose proof Hm1 as [Hw1 _ _ _ Hbr _ _].
  run_step (bridged_other w1 ls lm (bridged_sym _ _ _ Hw1 Hbr)). rewrite Hb, bind_assoc.
  run_step (some_or_Some NullDeref sip w1). destruct (sip_payload sip) as [data|] eqn:Hp.
  - destruct (msc_extract w1 cr lm ls bm m b1 _ sip false Hm1) as (b' & Hrun & Hm2 & Hb').
    rewrite bind_assoc. run_step Hrun. rewrite bind_ret_l. destruct (Hring _ b' Hm2) as (w' & Hr & Hl & Ho).
    exists w', b'. split; [exact Hr|]. rewrite Hl, Ho, <- Hc1. split_and!; [|done..].
    simpl. by rewrite insert_insert_eq.
  - rewrite bind_ret_l. destruct (Hring w1 b1 Hm1) as (w' & Hr & Hl & Ho).
    exists w', b1. split; [exact Hr|]. rewrite Hl, Ho. by split_and!.
Qed.
End responses.

(** ** The phone answers *)
Section phone.
Context {E : Env} {HE : EnvLaws E} {HW : WritesOk E}.

(** The callbacks of the SIP leg of a call that came in from SIP. *)
Lemma msc_mo_ops w cr lm ls bm m bs x : mncc_sip_call w cr lm ls bm m bs x -> s_dir x = SIP_DIR_MO ->
  lg_type bs = CALL_TYPE_SIP /\ ops bs = sip_mo_ops.
Proof using.
  intros [Hw _ Hlm Hls Hb _ _] Hd. pose proof (bridged_sym _ _ _ Hw Hb) as Hb'.
  destruct (bridged_sip_ops w ls lm bs x Hw Hb' Hls) as [Hty _]. split; [done|].
  pose proof (bridged_established w ls lm _ Hw Hb' Hls) as He. unfold established in He. simpl in He.
  rewrite Hd in He. apply He.
Qed.

(** The leg of a message takes its SDP. *)
Lemma msc_rx w cr lm ls bm m bs x t : mncc_sip_call w cr lm ls bm m bs x ->
  call_leg_rx_sdp lm t w = Ret tt (set_legs (<[lm := Leg (rx_sdp_update t bm) (XMncc m)]>) w) /\
  mncc_sip_call (set_legs (<[lm := Leg (rx_sdp_update t bm) (XMncc m)]>) w) cr lm ls (rx_sdp_update t bm) m bs x.
Proof using.
  intros Hm. split; [by apply (upd_base_eq w lm (rx_sdp_update t) bm), (msc_mncc _ _ _ _ _ _ _ _ Hm)|].
  eapply msc_set_mncc; [done|]. unfold shape. simpl.
  by destruct (rx_sdp_update_shape t bm) as (-> & -> & ->).
Qed.

Lemma msc_with_leg w lm ls bm m bs x buf k : mncc_sip_call w (mn_callref (view_gsm_mncc buf)) lm ls bm m bs x ->
  with_leg buf sizeof_gsm_mncc k w = k (view_gsm_mncc buf) lm w.
Proof using. intros [Hw _ Hlm _ _ Hcr Hu]. apply (with_leg_eq w buf lm bm m k Hw Hlm Hcr). by rewrite Hcr. Qed.

(** When the phone of a call from SIP rings, the caller gets a 180, and the leg of the
    phone keeps the SDP of the message. *)
Lemma check_alrt_ind_spec buf w lm ls bm m bs x : let d := view_gsm_mncc buf in
  mncc_sip_call w (mn_callref d) lm ls bm m bs x -> s_dir x = SIP_DIR_MO ->
  exists w', check_alrt_ind buf sizeof_gsm_mncc w = Ret tt w' /\
    out w' = out w ++ [NuaRespond (s_handle x) 180 (sip_phrase 180) None None] /\
    legs w' = <[lm := Leg (rx_sdp_update (Some (mn_sdp d)) bm) (XMncc m)]> (legs w).
Proof.
  intros d Hm Hd. unfold check_alrt_ind. rewrite (msc_with_leg w lm ls bm m bs x buf _ Hm). fold d.
  destruct (msc_rx _ _ _ _ _ _ _ _ (Some (mn_sdp d)) Hm) as [Hrx Hm1]. run_step Hrx. set (w1 := set_legs _ w) in *.
  destruct (msc_mo_ops _ _ _ _ _ _ _ _ Hm1 Hd) as [Hty Hop]. pose proof Hm1 as [Hw1 _ _ Hls Hb _ _].
  run_step (bridged_other w1 lm ls Hb).
  rewrite (invoke_member_eq w1 ls _ FN_sip_ring_call ring_call Hls) by (simpl; by rewrite Hop).
  change (invoke (Some FN_sip_ring_call) ls) with (sip_ring_call ls). unfold sip_ring_call.
  run_step (assert_type_eq w1 ls _ _ Hls Hty). run_step (as_sip_eq w1 ls bs x Hls).
  eexists. split; [reflexivity|]. done.
Qed.

Lemma sip_connect_run w cr lm ls bm m bs x : mncc_sip_call w cr lm ls bm m bs x -> s_dir x = SIP_DIR_MO ->
  sip_connect_call ls w = Ret tt
    (set_out (fun o => o ++ [NuaRespond (s_handle x) 200 (sip_phrase 200) None (Some (sdp_file bm sdp_sendrecv))])
      (set_legs (<[ls := Leg bs (XSip (set_s_state SIP_CC_CONNECTED (sdp_file_codec bm x)))]>) w)).
Proof using.
  intros Hm Hd. destruct (msc_mo_ops _ _ _ _ _ _ _ _ Hm Hd) as [Hty _]. pose proof Hm as [Hw _ Hlm Hls Hb _ _].
  unfold sip_connect_call. run_step (assert_type_eq w ls _ _ Hls Hty).
  run_step (bridged_other w ls lm (bridged_sym _ _ _ Hw Hb)).
  run_step (sdp_create_file_eq w ls lm bs x _ sdp_sendrecv Hls Hlm). cbn [base].
  set (x1 := sdp_file_codec bm x). set (w1 := set_legs _ w).
  assert (legs w1 !! ls = Some (Leg bs (XSip x1))) as Hl1 by apply lookup_insert_eq.
  run_step (upd_sip_eq w1 ls (set_s_state SIP_CC_CONNECTED) bs x1 Hl1).
  assert (set_legs (<[ls:=Leg bs (XSip (set_s_state SIP_CC_CONNECTED x1))]>) w1
          = set_legs (<[ls:=Leg bs (XSip (set_s_state SIP_CC_CONNECTED x1))]>) w) as ->.
  { unfold w1, set_legs. simpl. by rewrite insert_insert_eq. }
  set (w2 := set_legs _ w). assert (legs w2 !! ls = Some (Leg bs (XSip (set_s_state SIP_CC_CONNECTED x1)))) as Hl2
    by apply lookup_insert_eq.
  run_step (as_sip_eq w2 ls bs _ Hl2).
  assert (s_handle (set_s_state SIP_CC_CONNECTED x1) = s_handle x) as ->
    by (unfold x1, sdp_file_codec; by destruct (String.eqb _ _)).
  done.
Qed.

(** C27: when the phone of a call from SIP answers, the MSC is sent, in this order, the
    media of the caller in RTP_CONNECT and the confirmation of the answer, and the
    caller then a 200 with the session of the phone; both legs are then connected,
    the MNCC leg has the SDP of the message and the SIP leg the codec that the session
    was made of, and no other leg is touched. *)
Theorem check_stp_cnf_spec buf w lm ls bm m bs x : let d := view_gsm_mncc buf in
  let bm1 := rx_sdp_update (Some (mn_sdp d)) bm in
  mncc_sip_call w (mn_callref d) lm ls bm m bs x -> s_dir x = SIP_DIR_MO ->
  exists w', check_stp_cnf buf sizeof_gsm_mncc w = Ret tt w' /\
    out w' = out w ++
      [rtp_connect m bs; plain MNCC_SETUP_COMPL_REQ m;
       NuaRespond (s_handle x) 200 (sip_phrase 200) None (Some (sdp_file bm1 sdp_sendrecv))] /\
    legs w' = <[ls := Leg bs (XSip (set_s_state SIP_CC_CONNECTED (sdp_file_codec bm1 x)))]>
                (<[lm := Leg bm1 (XMncc (set_m_state MNCC_CC_CONNECTED m))]> (legs w)).
Proof.
  intros d bm1 Hm Hd. unfold check_stp_cnf. rewrite (msc_with_leg w lm ls bm m bs x buf _ Hm). fold d.
  destruct (msc_rx _ _ _ _ _ _ _ _ (Some (mn_sdp d)) Hm) as [Hrx Hm1]. run_step Hrx. fold bm1 in Hm1 |- *.
  set (w1 := set_legs _ w) in *. pose proof Hm1 as [Hw1 Hfd1 Hlm1 Hls1 Hb1 _ _].
  run_step (bridged_other w1 lm ls Hb1). run_step (send_rtp_connect_eq w1 lm ls bm1 m _ Hlm1 Hls1 Hfd1).
  cbn [negb base]. fold (rtp_connect m bs).
  pose proof (msc_wrote w1 _ lm ls bm1 m bs x (rtp_connect m bs) Hm1) as Hm2. set (w2 := wrote _ w1) in *.
  run_step (upd_mncc_eq w2 lm (set_m_state MNCC_CC_CONNECTED) bm1 m (msc_mncc _ _ _ _ _ _ _ _ Hm2)).
  pose proof (msc_set_mncc w2 _ lm ls bm1 m bs x bm1 (set_m_state MNCC_CC_CONNECTED m) Hm2 eq_refl) as Hm3.
  set (w3 := set_legs _ w2) in *.
  run_step (send_for_eq w3 lm bm1 _ MNCC_SETUP_COMPL_REQ (msc_mncc _ _ _ _ _ _ _ _ Hm3) Hfd1 ltac:(done) ltac:(done)).
  change (m_callref (set_m_state MNCC_CC_CONNECTED m)) with (m_callref m). fold (plain MNCC_SETUP_COMPL_REQ m).
  pose proof (msc_wrote w3 _ lm ls _ _ bs x (plain MNCC_SETUP_COMPL_REQ m) Hm3) as Hm4. set (w4 := wrote _ w3) in *.
  destruct (msc_mo_ops _ _ _ _ _ _ _ _ Hm4 Hd) as [_ Hop].
  rewrite (invoke_member_eq w4 ls _ FN_sip_connect_call connect_call (msc_sip _ _ _ _ _ _ _ _ Hm4)) by (simpl; by rewrite Hop).
  change (invoke (Some FN_sip_connect_call) ls) with (sip_connect_call ls).
  rewrite (sip_connect_run w4 _ lm ls bm1 _ bs x Hm4 Hd). eexists. split; [reflexivity|]. simpl. split.
  - by rewrite <- !app_assoc.
  - by rewrite insert_insert_eq.
Qed.
End phone.

(** ** The end of a call *)
Section ending.
Context {E : Env} {HE : EnvLaws E} {HW : WritesOk E}.

(** An MNCC leg that goes takes its timer with it, and nothing is sent. *)
Lemma mncc_gone s cn w l sh d cr : wfsk s -> st s cn w -> sk_legs s !! l = Some sh -> sh_ext sh = ShMncc d cr ->
  exists w', mncc_leg_release l w = Ret tt w' /\ st (sk_release l s) cn w' /\ out w' = out w.
Proof using.
  intros Hwf Hst Hl He. pose proof (mncc_leg_release_st s cn Hwf l sh d cr Hl He w Hst) as H.
  apply (wp_keeps out) in H; [|unfold mncc_leg_release, timer_del, deref_leg; keeps].
  apply wp_returns in H as ([] & w' & Hrun & Hst' & Hout). eauto.
Qed.

Lemma st_no_timer s cn w l : st s cn w -> sk_legs s !! l = None -> l ∉ timers w.
Proof using. intros Hst Hn Ht. destruct (st_timers _ _ _ Hst l Ht) as (sh & Hl & _). congruence. Qed.

Lemma stop_timer_run w l b m t : wf w -> legs w !! l = Some (Leg b (XMncc m)) ->
  exists w', stop_cmd_timer l t w = Ret tt w' /\ st (sk w) (conn w) w' /\ out w' = out w.
Proof using.
  intros Hw Hl. pose proof (wf_st w Hw) as Hst. rewrite (stop_cmd_timer_eq w l b m t Hl).
  destruct (_ =? _); eexists; (split; [reflexivity|]); [|done]. split; [|done].
  apply st_set_timers; [done|]. apply timers_ok_minus, (st_timers _ _ _ Hst).
Qed.

(** What is left of the two legs when both are released. *)
Definition both_released (lm ls : ptr) (x : sip_leg) (s : skel) : skel :=
  sk_release lm (if sip_release_drops x then sk_release ls s else s).

(** Releasing the SIP leg of a bridged call and dropping its MNCC leg. *)
Lemma release_both w cr lm ls bm m bs x : mncc_sip_call w cr lm ls bm m bs x ->
  exists w', (call_release ls ;; mncc_leg_release lm) w = Ret tt w' /\
    out w' = out w ++ sip_release_actions bs x /\
    sk w' = both_released lm ls x (sk w) /\ lm ∉ timers w'.
Proof using.
  intros Hm. destruct (msc_view _ _ _ _ _ _ _ _ Hm) as [Hslm Hsls]. pose proof Hm as [Hw Hfd Hlm Hls Hb Hcr Hu].
  pose proof (bridged_sym _ _ _ Hw Hb) as Hb'. pose proof Hb as [Hne _]. pose proof Hw as [Hwf _ _].
  destruct (bridged_sip_ops w ls lm bs x Hw Hb' Hls) as (_ & Hop & _).
  unfold call_release, release_leg. rewrite bind_assoc. run_step (deref_leg_eq w ls _ Hls).
  change (ops (base (Leg bs (XSip x)))) with (ops bs). rewrite Hop, bind_assoc.
  run_step (some_or_Some NullCall FN_sip_release_call w).
  pose proof (sip_release_call_out _ _ w ls bs x Hwf (wf_st w Hw) Hls) as H.
  apply wp_returns in H as ([] & w1 & Hrun & Hout & Hst1). run_step Hrun.
  set (s1 := if sip_release_drops x then sk_release ls (sk w) else sk w) in *.
  assert (wfsk s1 /\ sk_legs s1 !! lm = Some (shape (Leg bm (XMncc m)))) as [Hwf1 Hl1].
  { unfold s1. destruct (sip_release_drops x); [|done].
    split; [by eapply sk_release_wf|by rewrite (sk_release_other_leg (sk w) ls _ Hwf Hsls) by done]. }
  destruct (mncc_gone s1 _ w1 lm _ _ _ Hwf1 Hst1 Hl1 eq_refl) as (w2 & Hrun2 & Hst2 & Hout2).
  exists w2. split; [exact Hrun2|]. split; [by rewrite Hout2|]. split; [exact (st_sk _ _ _ Hst2)|].
  eapply st_no_timer; [exact Hst2|]. by eapply sk_release_gone.
Qed.

(** When the MSC does not answer in time, the SIP side of the call is released and the
    MNCC leg is gone, without a message to the MSC. *)
Lemma cmd_timeout_spec w cr lm ls bm m bs x : mncc_sip_call w cr lm ls bm m bs x ->
  exists w', cmd_timeout lm w = Ret tt w' /\
    out w' = out w ++ sip_release_actions bs x /\
    sk w' = both_released lm ls x (sk w) /\ lm ∉ timers w'.
Proof.
  intros Hm. unfold cmd_timeout. run_step (bridged_other w lm ls (msc_bridge _ _ _ _ _ _ _ _ Hm)).
  by apply (release_both w cr lm ls bm m bs x).
Qed.

(** A Release from the MSC that was not asked for releases the SIP side with the cause
    of the message; one that answers our own request does not touch it.  Either way
    the MNCC leg is gone, with its timer. *)
Lemma check_rel_ind_spec buf w lm ls bm m bs x : let d := view_gsm_mncc buf in
  mncc_sip_call w (mn_callref d) lm ls bm m bs x ->
  exists w', check_rel_ind buf sizeof_gsm_mncc w = Ret tt w' /\ (lm ∉ timers w') /\
    (if in_release bm then out w' = out w /\ sk w' = sk_release lm (sk w)
     else out w' = out w ++ sip_release_actions (set_cause (ca_value (mn_cause d)) bs) x /\
          sk w' = both_released lm ls x (sk w)).
Proof.
  intros d Hm. destruct (msc_view _ _ _ _ _ _ _ _ Hm) as [Hslm _]. pose proof Hm as [Hw _ Hlm Hls Hb _ _].
  unfold check_rel_ind. rewrite (msc_with_leg w lm ls bm m bs x buf _ Hm). fold d.
  run_step (deref_leg_eq w lm _ Hlm). cbn [base]. destruct (in_release bm).
  - destruct (stop_timer_run w lm bm m MNCC_REL_IND Hw Hlm) as (w1 & Hrun1 & Hst1 & Hout1). run_step Hrun1.
    destruct (mncc_gone _ _ w1 lm _ _ _ (w_sk w Hw) Hst1 Hslm eq_refl) as (w2 & Hrun2 & Hst2 & Hout2).
    exists w2. split; [exact Hrun2|]. rewrite Hout2, Hout1. split_and!; [|done|exact (st_sk _ _ _ Hst2)].
    eapply st_no_timer; [exact Hst2|]. eapply sk_release_gone; [apply Hw|exact Hslm].
  - unfold release_other_with_cause. rewrite bind_assoc. run_step (bridged_other w lm ls Hb). rewrite bind_assoc.
    run_step (upd_base_eq w ls (set_cause (ca_value (mn_cause d))) bs _ Hls).
    pose proof (msc_set_sip w _ lm ls bm m bs x (set_cause (ca_value (mn_cause d)) bs) x Hm eq_refl) as Hm1.
    assert (sk (set_legs (<[ls := Leg (set_cause (ca_value (mn_cause d)) bs) (XSip x)]>) w) = sk w) as Hsk
      by by eapply sk_upd_leg.
    destruct (release_both _ _ lm ls bm m _ x Hm1) as (w2 & Hrun & Hout & Hsk2 & Ht).
    exists w2. rewrite Hsk in Hsk2. by split_and!.
Qed.

(** The confirmation of a release takes the MNCC leg away, with its timer, and nothing
    is sent; the call goes with its last leg. *)
Lemma check_rel_cnf_spec buf w l b m : wf w -> legs w !! l = Some (Leg b (XMncc m)) ->
  m_callref m = mn_callref (view_gsm_mncc buf) -> callref_unique w l (m_callref m) ->
  exists w', check_rel_cnf buf sizeof_gsm_mncc w = Ret tt w' /\
    out w' = out w /\ sk w' = sk_release l (sk w) /\ l ∉ timers w'.
Proof.
  intros Hw Hl Hcr Hu. pose proof (wf_st w Hw) as Hst. pose proof Hw as [Hwf _ _].
  assert (sk_legs (sk w) !! l = Some (shape (Leg b (XMncc m)))) as Hsl by (simpl; by rewrite lookup_fmap, Hl).
  unfold check_rel_cnf. rewrite (with_leg_eq w buf l b m _ Hw Hl Hcr Hu).
  destruct (stop_timer_run w l b m MNCC_REL_CNF Hw Hl) as (w1 & Hrun1 & Hst1 & Hout1). run_step Hrun1.
  destruct (mncc_gone _ _ w1 l _ _ _ Hwf Hst1 Hsl eq_refl) as (w2 & Hrun2 & Hst2 & Hout2).
  exists w2. rewrite Hout2, Hout1. split_and!; [exact Hrun2|done|exact (st_sk _ _ _ Hst2)|].
  eapply st_no_timer; [exact Hst2|]. by eapply sk_release_gone.
Qed.
End ending.
