(* ===== verification/Replies.v ===== *)
(** * Finding legs, and the remaining answers of the MSC

    The two searches over the calls ([mncc_find_leg], [sip_find_leg]) are compared
    with a search in the list of all legs.  The second part specifies the
    handlers of src/mncc.c that CallFlow.v leaves: [check_stp_cmpl_ind],
    [check_cnf_ind] and [check_rej_ind]. *)
From S2P Require Import Prelude Effect Codec Protocol Lib State Skel Rules Call Sdp SipLeg MnccConn App MnccRx SipUa CallFlow.

(** ** Definitions *)

(** The legs, in the order of the call list: the initial leg of a call, then the
    remote one. *)
Definition legs_of (w : world) (c : ptr) : list ptr :=
  match calls w !! c with
  | Some cl => option_list (initial cl) ++ option_list (remote cl)
  | None => []
  end.
Definition all_legs (w : world) : list ptr := g_call_list w ≫= legs_of w.

Definition mncc_with (w : world) (cr : Z) (l : ptr) : bool :=
  match legs w !! l with Some (Leg _ (XMncc m)) => m_callref m =? cr | _ => false end.
Definition sip_with (w : world) (nh : handle) (l : ptr) : bool :=
  match legs w !! l with Some (Leg _ (XSip s)) => bool_decide (s_handle s = Some nh) | _ => false end.
Definition leaving (w : world) (l : ptr) : bool :=
  match legs w !! l with Some x => in_release (base x) | None => false end.

(** ** Both searches are one *)
Section search.
Context (matches : option ptr -> MW bool).

Fixpoint search_in (cs : list ptr) : MW (option ptr) :=
  match cs with
  | [] => ret None
  | c :: cs' =>
      cl <- deref_call c ;;
      b <- matches (initial cl) ;;
      if b : bool then ret (initial cl)
      else b' <- matches (remote cl) ;; if b' : bool then ret (remote cl) else search_in cs'
  end.

Lemma search_eq (p : ptr -> bool) w cs : (forall c, c ∈ cs -> is_Some (calls w !! c)) ->
  (forall c cl o, calls w !! c = Some cl -> o = initial cl \/ o = remote cl ->
     matches o w = Ret (match o with Some l => p l | None => false end) w) ->
  search_in cs w = Ret (List.find p (cs ≫= legs_of w)) w.
Proof using.
  intros Hcs Hm. induction cs as [|c cs IH]; [done|]. destruct (Hcs c) as [cl Hc]; [left|].
  simpl search_in. run_step (deref_call_eq w c cl Hc). change ((c :: cs) ≫= legs_of w) with (legs_of w c ++ (cs ≫= legs_of w)).
  unfold legs_of at 1. rewrite Hc. run_step (Hm c cl (initial cl) Hc (or_introl eq_refl)).
  assert ((b' <- matches (remote cl) ;; if b' : bool then ret (remote cl) else search_in cs) w
    = Ret (List.find p (option_list (remote cl) ++ (cs ≫= legs_of w))) w) as Hr.
  { run_step (Hm c cl (remote cl) Hc (or_intror eq_refl)). destruct (remote cl) as [r|]; simpl; [|apply IH; set_solver].
    destruct (p r); [done|]. apply IH. set_solver. }
  destruct (initial cl) as [i|]; simpl; [|exact Hr]. destruct (p i); [done|]. exact Hr.
Qed.
End search.

Section find.
Context {E : Env} (w : world) (Hw : wf w).

(** The pointers of a call are to live legs, whose tag tells what they are. *)
Lemma linked_leg c cl l : calls w !! c = Some cl -> Some l = initial cl \/ Some l = remote cl ->
  exists x, legs w !! l = Some x /\
    lg_type (base x) = match ext x with XMncc _ => CALL_TYPE_MNCC | XSip _ => CALL_TYPE_SIP end.
Proof using Hw.
  intros Hc Hl. destruct Hw as [Hwf _ _].
  destruct (wf_linked (sk w) c (initial cl) (remote cl) l Hwf) as (sh & Hsh & _).
  - simpl. by rewrite lookup_fmap, Hc.
  - destruct Hl; auto.
  - destruct (wf_leg (sk w) Hwf l sh Hsh) as [Htag _]. apply fmap_lookup_inv in Hsh as (x & Hx & ->).
    exists x. split; [done|]. unfold tag_ok in Htag. simpl in Htag. by destruct (ext x).
Qed.

Lemma mncc_matches_eq cr c cl o : calls w !! c = Some cl -> o = initial cl \/ o = remote cl ->
  mncc_leg_matches cr o w = Ret (match o with Some l => mncc_with w cr l | None => false end) w.
Proof using Hw.
  intros Hc Ho. destruct o as [l|]; [|done]. destruct (linked_leg c cl l Hc Ho) as ([b e] & Hx & Ht).
  simpl. run_step (deref_leg_eq w l _ Hx). simpl in *. rewrite Ht. unfold mncc_with. rewrite Hx.
  destruct e as [m|x]; [|done]. by run_step (as_mncc_eq w l b m Hx).
Qed.

Lemma sip_matches_eq nh c cl o : calls w !! c = Some cl -> o = initial cl \/ o = remote cl ->
  sip_leg_matches nh o w = Ret (match o with Some l => sip_with w nh l | None => false end) w.
Proof using Hw.
  intros Hc Ho. destruct o as [l|]; [|done]. destruct (linked_leg c cl l Hc Ho) as ([b e] & Hx & Ht).
  simpl. run_step (deref_leg_eq w l _ Hx). simpl in *. rewrite Ht. unfold sip_with. rewrite Hx.
  destruct e as [m|x]; [done|]. by run_step (as_sip_eq w l b x Hx).
Qed.

Lemma listed c : c ∈ g_call_list w <-> is_Some (calls w !! c).
Proof using Hw.
  destruct Hw as [Hwf _ _]. pose proof (wf_list (sk w) Hwf c) as H. simpl in H. rewrite H, lookup_fmap.
  by destruct (calls w !! c); split; intros [? ?].
Qed.

(** Every live leg is in the list, and nothing else is. *)
Lemma all_legs_live l : l ∈ all_legs w <-> is_Some (legs w !! l).
Proof using Hw.
  unfold all_legs. rewrite list_elem_of_bind. unfold legs_of. split.
  - intros (c & Hl & _). destruct (calls w !! c) as [cl|] eqn:Hc; [|by apply elem_of_nil in Hl].
    destruct (linked_leg c cl l Hc) as (x & Hx & _); [|by exists x].
    apply elem_of_app in Hl as [Hl|Hl]; [left|right]; [destruct (initial cl)|destruct (remote cl)]; simpl in Hl; set_solver.
  - intros [x Hx]. destruct Hw as [Hwf _ _].
    destruct (wf_leg (sk w) Hwf l (shape x)) as (_ & _ & i & r & Hc & Hir); [simpl; by rewrite lookup_fmap, Hx|].
    pose proof Hc as Hc'. simpl in Hc'. apply fmap_lookup_inv in Hc' as (cl & Hcl & [= -> ->]).
    exists (lg_call (base x)). split; [|apply listed; by exists cl]. rewrite Hcl, elem_of_app.
    destruct Hir as [-> | ->]; [left|right]; simpl; set_solver.
Qed.

(** C18: in a well-formed store the searches over the calls neither fail nor change
    anything.  In the order of the call list, the initial leg of a call before the
    remote one, [mncc_find_leg] returns the first MNCC leg with the callref and
    [sip_find_leg] the first SIP leg with the handle, and NULL when there is none;
    [mncc_find_leg_not_released] looks at the first MNCC leg with the callref only: it
    returns that leg, or NULL when it is in release, even if a later leg with the same
    callref is not.  Every live leg is among those searched. *)
Theorem find_legs_spec cr nh :
  mncc_find_leg cr w = Ret (List.find (mncc_with w cr) (all_legs w)) w
  /\ mncc_find_leg_not_released cr w
     = Ret (l ← List.find (mncc_with w cr) (all_legs w); if leaving w l then None else Some l) w
  /\ sip_find_leg nh w = Ret (List.find (sip_with w nh) (all_legs w)) w
  /\ (forall l, is_Some (legs w !! l) -> l ∈ all_legs w).
Proof using Hw.
  assert (forall c, c ∈ g_call_list w -> is_Some (calls w !! c)) as Hcs by (intros c; apply listed).
  assert (forall cs, mncc_find_leg_in cs cr = search_in (mncc_leg_matches cr) cs) as Hm.
  { induction cs as [|c cs IH]; simpl; [done|]. by rewrite IH. }
  assert (forall cs, sip_find_leg_in cs nh = search_in (sip_leg_matches nh) cs) as Hs.
  { induction cs as [|c cs IH]; simpl; [done|]. by rewrite IH. }
  assert (mncc_find_leg cr w = Ret (List.find (mncc_with w cr) (all_legs w)) w) as Hfind.
  { change (mncc_find_leg cr w) with (mncc_find_leg_in (g_call_list w) cr w). rewrite Hm. apply (search_eq _ _ w _ Hcs). apply mncc_matches_eq. }
  split_and!; [exact Hfind| | |intros l; apply all_legs_live].
  - unfold mncc_find_leg_not_released. run_step Hfind.
    destruct (List.find _ _) as [l|] eqn:Hl; [|done]. apply List.find_some in Hl as [Hin _].
    apply list_elem_of_In, all_legs_live in Hin as [x Hx]. run_step (deref_leg_eq w l x Hx).
    simpl. unfold leaving. by rewrite Hx.
  - change (sip_find_leg nh w) with (sip_find_leg_in (g_call_list w) nh w). rewrite Hs. apply (search_eq _ _ w _ Hcs). apply sip_matches_eq.
Qed.
End find.

(** ** The answers to what the program asked of the MSC *)
Section replies.
Context {E : Env} {HE : EnvLaws E} {HW : WritesOk E}.

(** What [take_changed_sdp] takes from the other leg, and what it leaves. *)
Definition changed_sdp (b : call_leg) : option string :=
  if negb (String.eqb (rx_sdp b) EmptyString) && rx_sdp_changed b then Some (rx_sdp b) else None.
Definition sdp_taken (b : call_leg) : call_leg :=
  match changed_sdp b with Some t => set_rx_sdp t false b | None => b end.

Lemma take_changed_run w cr lm ls bm m bs x : mncc_sip_call w cr lm ls bm m bs x ->
  exists w', take_changed_sdp lm w = Ret (changed_sdp bs) w' /\ out w' = out w /\ conn w' = conn w /\ timers w' = timers w
    /\ legs w' = <[ls := Leg (sdp_taken bs) (XSip x)]> (legs w).
Proof using.
  intros [Hw _ _ Hls Hb _ _]. unfold take_changed_sdp. run_step (bridged_other w lm ls Hb).
  run_step (deref_leg_eq w ls _ Hls). simpl base. unfold sdp_taken, changed_sdp.
  destruct (negb _ && _); [|exists w; split_and!; try done; by rewrite insert_id].
  run_step (upd_base_eq w ls (fun b => set_rx_sdp (rx_sdp b) false b) bs _ Hls). by eexists.
Qed.

(** SETUP_COMPL_IND *)
Lemma check_stp_cmpl_ind_spec buf w l b m : let d := view_gsm_mncc buf in wf w ->
  legs w !! l = Some (Leg b (XMncc m)) -> m_callref m = mn_callref d -> callref_unique w l (m_callref m) ->
  exists w', check_stp_cmpl_ind buf sizeof_gsm_mncc w = Ret tt w' /\ out w' = out w /\
    timers w' = (if u32 (m_rsp_wanted m) =? MNCC_SETUP_COMPL_IND then timers w ∖ {[l]} else timers w) /\
    legs w' = <[l := Leg (rx_sdp_update (Some (mn_sdp d)) b) (XMncc (set_m_state MNCC_CC_CONNECTED m))]> (legs w).
Proof using.
  intros d Hw Hl Hcr Hu. unfold check_stp_cmpl_ind. rewrite (with_leg_eq w buf l b m _ Hw Hl Hcr Hu). fold d.
  unfold call_leg_rx_sdp. run_step (upd_base_eq w l (rx_sdp_update (Some (mn_sdp d))) b _ Hl).
  set (b1 := rx_sdp_update _ b). set (w1 := set_legs _ w).
  assert (legs w1 !! l = Some (Leg b1 (XMncc m))) as Hl1 by apply lookup_insert_eq.
  run_step (stop_cmd_timer_eq w1 l b1 m MNCC_SETUP_COMPL_IND Hl1).
  destruct (_ =? _); (rewrite (upd_mncc_eq _ l _ b1 m) by exact Hl1); eexists; split_and!; try reflexivity;
    simpl; by rewrite insert_insert_eq.
Qed.

(** CALL_CONF_IND *)
Lemma check_cnf_ind_spec buf w lm ls bm m bs x : let d := view_gsm_mncc buf in
  mncc_sip_call w (mn_callref d) lm ls bm m bs x ->
  exists w', check_cnf_ind buf sizeof_gsm_mncc w = Ret tt w' /\
    out w' = out w ++ [TxRtp (Rtp MNCC_RTP_CREATE (mn_callref d) sockaddr0 0 0
      (match changed_sdp bs with Some t => osmo_strlcpy 1024 t | None => EmptyString end)) sizeof_rtp] /\
    timers w' = {[lm]} ∪ timers w /\
    legs w' = <[lm := Leg (rx_sdp_update (Some (mn_sdp d)) bm) (XMncc (set_m_rsp_wanted MNCC_RTP_CREATE m))]>
                (<[ls := Leg (sdp_taken bs) (XSip x)]> (legs w)).
Proof using HW.
  intros d Hm. unfold check_cnf_ind. rewrite (msc_with_leg w lm ls bm m bs x buf _ Hm). fold d.
  destruct (msc_rx _ _ _ _ _ _ _ _ (Some (mn_sdp d)) Hm) as [Hrx Hm1]. run_step Hrx.
  set (bm1 := rx_sdp_update _ bm) in *. set (w1 := set_legs _ w) in *.
  destruct (take_changed_run w1 _ lm ls bm1 m bs x Hm1) as (w2 & Hrun & Hout & Hcn & Ht & Hlegs). run_step Hrun.
  pose proof Hm1 as [_ Hfd Hlm _ [Hne _] _ _].
  assert (legs w2 !! lm = Some (Leg bm1 (XMncc m))) as Hlm2 by by rewrite Hlegs, lookup_insert_ne.
  rewrite (request_rtp_create_run w2 lm bm1 m (mn_callref d) _ Hlm2) by by rewrite Hcn.
  eexists. split; [reflexivity|]. simpl. rewrite Hout, Ht, Hlegs. split_and!; [done|done|]. simpl.
  rewrite (insert_insert_ne (legs w) ls lm) by done. by rewrite insert_insert_eq.
Qed.

(** REJ_IND *)
Lemma check_rej_ind_spec buf w lm ls bm m bs x : let d := view_gsm_mncc buf in
  mncc_sip_call w (mn_callref d) lm ls bm m bs x ->
  exists w', check_rej_ind buf sizeof_gsm_mncc w = Ret tt w' /\ (lm ∉ timers w') /\
    out w' = out w ++ sip_release_actions (set_cause (ca_value (mn_cause d)) bs) x /\
    sk w' = both_released lm ls x (sk w).
Proof using HE.
  intros d Hm. unfold check_rej_ind. rewrite (msc_with_leg w lm ls bm m bs x buf _ Hm). fold d.
  pose proof Hm as [_ _ Hlm _ _ _ _]. set (v := ca_value (mn_cause d)).
  run_step (upd_mncc_eq w lm (set_m_cause v) bm m Hlm).
  pose proof (msc_set_mncc w _ lm ls bm m bs x bm (set_m_cause v m) Hm eq_refl) as Hm1. set (w1 := set_legs _ w) in *.
  assert (sk w1 = sk w) as Hsk1 by by eapply sk_upd_leg.
  pose proof Hm1 as [_ _ _ Hls Hb _ _]. unfold release_other_with_cause. rewrite bind_assoc.
  run_step (bridged_other w1 lm ls Hb). rewrite bind_assoc. run_step (upd_base_eq w1 ls (set_cause v) bs _ Hls).
  pose proof (msc_set_sip w1 _ lm ls bm _ bs x (set_cause v bs) x Hm1 eq_refl) as Hm2.
  assert (sk (set_legs (<[ls := Leg (set_cause v bs) (XSip x)]>) w1) = sk w1) as Hsk2 by by eapply sk_upd_leg.
  destruct (release_both _ _ lm ls bm _ _ x Hm2) as (w3 & Hrun & Hout & Hsk3 & Ht).
  exists w3. rewrite Hsk2, Hsk1 in Hsk3. by split_and!.
Qed.

(** The remaining answers of the MSC on a bridged call.  SETUP_COMPL_IND: the leg
    keeps the SDP and is connected, and its timer stops if this is what it waited
    for; nothing is sent.  CALL_CONF_IND: the MSC is asked for a socket, with the
    SDP of the SIP side if that is new, which is then no longer new, and the
    timer waits for RTP_CREATE.  REJ_IND: the SIP side is released with the cause
    of the message, and the MNCC leg is gone with its timer. *)
Lemma mncc_replies_spec buf w lm ls bm m bs x : let d := view_gsm_mncc buf in
  let bm' := rx_sdp_update (Some (mn_sdp d)) bm in
  mncc_sip_call w (mn_callref d) lm ls bm m bs x ->
  (exists w', check_stp_cmpl_ind buf sizeof_gsm_mncc w = Ret tt w' /\ out w' = out w /\
    timers w' = (if u32 (m_rsp_wanted m) =? MNCC_SETUP_COMPL_IND then timers w ∖ {[lm]} else timers w) /\
    legs w' = <[lm := Leg bm' (XMncc (set_m_state MNCC_CC_CONNECTED m))]> (legs w))
  /\ (exists w', check_cnf_ind buf sizeof_gsm_mncc w = Ret tt w' /\
    out w' = out w ++ [TxRtp (Rtp MNCC_RTP_CREATE (mn_callref d) sockaddr0 0 0
      (match changed_sdp bs with Some t => osmo_strlcpy 1024 t | None => EmptyString end)) sizeof_rtp] /\
    timers w' = {[lm]} ∪ timers w /\
    legs w' = <[lm := Leg bm' (XMncc (set_m_rsp_wanted MNCC_RTP_CREATE m))]>
                (<[ls := Leg (sdp_taken bs) (XSip x)]> (legs w)))
  /\ (exists w', check_rej_ind buf sizeof_gsm_mncc w = Ret tt w' /\ (lm ∉ timers w') /\
    out w' = out w ++ sip_release_actions (set_cause (ca_value (mn_cause d)) bs) x /\
    sk w' = both_released lm ls x (sk w)).
Proof using HE HW.
  intros d bm' Hm. split_and!; [|by apply check_cnf_ind_spec|by apply (check_rej_ind_spec buf w lm ls bm m)].
  pose proof Hm as [Hw _ Hlm _ _ Hcr Hu]. apply check_stp_cmpl_ind_spec; [done|done|done|by rewrite Hcr].
Qed.
End replies.
