(* ===== verification/SipCall.v ===== *)
(** * A call that comes from SIP (src/sip.c [new_call], src/mncc.c [mncc_create_remote_leg])

    What an INVITE with a new handle leads to: a refusal that leaves nothing
    behind, a refusal that leaves a call behind, or a SETUP towards the MSC. *)
From S2P Require Import Prelude Effect Codec Protocol Lib State Skel Rules Call Sdp SipLeg MnccConn App MnccRx SipUa CallFlow.

(** ** Definitions *)
Section defs.
Context {E : Env}.

(** The refusal of an INVITE. *)
Definition refusal (nh : handle) : list action :=
  [NuaRespond (Some nh) 406 (sip_phrase 406) None None; NuaDestroy (Some nh)].

(** The GCR an INVITE carries: [None] when it has none, [Some None] when it has
    one that does not decode. *)
Definition invite_gcr (sip : sip_t) : option (option osmo_gcr) :=
  (fun v => osmo_dec_gcr (osmo_hexparse v 28)) <$> find_xgcr (sip_unknown sip).

(** The call a new INVITE opens: numbered, with its GCR. *)
Definition invite_call (n : Z) (l : ptr) (g : option osmo_gcr) : call :=
  Call n (Some l) None None None (default [] g) (bool_decide (is_Some g)).

(** The SIP leg of an accepted INVITE, before routing. *)
Definition invite_leg (c : ptr) (sip : sip_t) (f : Z * list Z) (port pt : Z) : call_leg :=
  rx_sdp_update (sip_payload sip) (set_ops sip_mo_ops (answered_leg f port pt (call_leg_new CALL_TYPE_SIP c))).
Definition invite_ext (nh : handle) (sip : sip_t) : sip_leg :=
  SipLeg (Some nh) SIP_CC_DLG_CNFD SIP_DIR_MO None (sip_payload sip).

(** The SETUP_REQ with the GCR of the call and the SDP of the initial leg. *)
Definition setup_gcr_msg (cl : call) (m : gsm_mncc) : gsm_mncc :=
  if gcr_present cl then
    let '(rc, data) := osmo_enc_gcr (gcr cl) in
    if negb (rc =? 0) then add_field MNCC_F_GCR (copy_gcr rc data m) else m
  else m.
Definition setup_message (use_imsi : bool) (cl : call) (src dst : string) (b : call_leg) : gsm_mncc :=
  let m := setup_gcr_msg cl (setup_req use_imsi (call_id cl) (Some src) (Some dst)) in
  if rx_sdp_changed b then set_mn_sdp (osmo_strlcpy 1024 (rx_sdp b)) m else m.

(** The SDP of the initial leg is forwarded once. *)
Definition forwarded (b : call_leg) : call_leg :=
  if rx_sdp_changed b then set_rx_sdp (rx_sdp b) false b else b.

(** The MNCC leg of a call from SIP. *)
Definition mt_leg (c : ptr) (n : Z) : leg :=
  Leg (set_ops mncc_leg_ops (call_leg_new CALL_TYPE_MNCC c))
      (XMncc (MnccLeg MNCC_CC_INITIAL MNCC_DIR_MT n number0 number0 EmptyString 0 0)).
End defs.

(** ** Running the parts *)
Section run.
Context {E : Env} {HE : EnvLaws E} {HW : WritesOk E}.

Lemma reject_run nh w :
  reject_406 nh w = Ret tt (set_nua (delete nh) (set_out (fun o => o ++ refusal nh) w)).
Proof using.
  unfold reject_406, nua_handle_destroy, emit, refusal, modify, bind, set_nua, set_out. simpl.
  by rewrite <- app_assoc.
Qed.

Lemma add_gcr_eq cl m w : resources ->
  exists w', add_gcr cl m w = Ret (setup_gcr_msg cl m) w' /\ legs w' = legs w /\ calls w' = calls w /\
    out w' = out w /\ nua w' = nua w /\ conn w' = conn w /\ timers w' = timers w /\ g_call_list w' = g_call_list w.
Proof using HE.
  intros [Ha _]. unfold add_gcr, setup_gcr_msg, tick, bind, gets, modify, ret.
  destruct (gcr_present cl); simpl; [|by exists w].
  pose proof (osmo_enc_gcr_fits (gcr cl)) as [Hlo Hhi].
  destruct (osmo_enc_gcr (gcr cl)) as [rc data]. rewrite Ha. simpl in *.
  rewrite (proj2 (Z.leb_le _ _) Hlo), (proj2 (Z.leb_le _ _) Hhi). simpl.
  destruct (negb (rc =? 0)); by eexists.
Qed.

(** [mncc_create_remote_leg] when memory and connection are there. *)
Lemma mncc_create_remote_leg_eq w c i cl b x ps src pd dst : legs w !! next_ptr w = None -> resources -> 0 <= cn_fd (conn w) ->
  calls w !! c = Some cl -> initial cl = Some i -> legs w !! i = Some (Leg b x) ->
  source cl = Some (ps, src) -> dest cl = Some (pd, dst) ->
  is_Some (legs w !! ps) -> is_Some (legs w !! pd) ->
  exists lm w', mncc_create_remote_leg disconnected c w = Ret 0 w' /\ legs w !! lm = None /\
    out w' = out w ++ [TxMncc (setup_message (use_imsi_as_id (cfg w)) cl src dst b) sizeof_gsm_mncc] /\
    calls w' = <[c := set_remote (Some lm) cl]> (calls w) /\ nua w' = nua w /\
    conn w' = conn w /\ timers w' = timers w /\ g_call_list w' = g_call_list w /\
    legs w' = <[i := Leg (forwarded b) x]> (<[lm := mt_leg c (call_id cl)]> (legs w)).
Proof using HE HW.
  intros Hfl Hres Hfd Hc Hi Hl Hsrc Hdst Hps Hpd. pose proof Hres as [Ha _].
  set (lm := next_ptr w) in *. unfold mncc_create_remote_leg. run_step (deref_call_eq w c cl Hc).
  fold (mt_leg c (call_id cl)).
  set (w1 := set_legs <[lm := mt_leg c (call_id cl)]> (set_next_ptr Pos.succ (set_n_io S w))).
  assert (talloc_leg (mt_leg c (call_id cl)) w = Ret (Some lm) w1) as Ht.
  { unfold talloc_leg, tick, bind, gets, modify, ret. simpl. by rewrite Ha. }
  run_step Ht. unfold gets at 1. unfold bind at 1. change (cfg w1) with (cfg w).
  assert (forall p, is_Some (legs w !! p) -> is_Some (legs w1 !! p)) as Hmono.
  { intros p [z Hz]. simpl. rewrite lookup_insert_ne by congruence. eauto. }
  run_step (read_str_eq w1 _ ps src Hsrc (Hmono _ Hps)). run_step (read_str_eq w1 _ pd dst Hdst (Hmono _ Hpd)).
  destruct (add_gcr_eq cl (setup_req (use_imsi_as_id (cfg w)) (call_id cl) (Some src) (Some dst)) w1 Hres)
    as (w2 & Hrun2 & Hl2 & Hc2 & Ho2 & Hn2 & Hcn2 & Ht2 & Hg2). run_step Hrun2. rewrite Hi.
  assert (i <> lm) as Hne by congruence.
  assert (legs w2 !! i = Some (Leg b x)) as Hli by (rewrite Hl2; simpl; by rewrite lookup_insert_ne).
  set (msg := setup_message (use_imsi_as_id (cfg w)) cl src dst b).
  assert (exists w3, (x0 <- deref_leg i ;;
      if rx_sdp_changed (base x0) then
        upd_base i (fun b => set_rx_sdp (rx_sdp b) false b) ;;
        ret (set_mn_sdp (osmo_strlcpy 1024 (rx_sdp (base x0)))
               (setup_gcr_msg cl (setup_req (use_imsi_as_id (cfg w)) (call_id cl) (Some src) (Some dst))))
      else ret (setup_gcr_msg cl (setup_req (use_imsi_as_id (cfg w)) (call_id cl) (Some src) (Some dst)))) w2 = Ret msg w3 /\
    legs w3 = <[i := Leg (forwarded b) x]> (legs w2) /\ calls w3 = calls w2 /\ out w3 = out w2 /\ nua w3 = nua w2 /\
    conn w3 = conn w2 /\ timers w3 = timers w2 /\ g_call_list w3 = g_call_list w2)
    as (w3 & Hrun3 & Hl3 & Hc3 & Ho3 & Hn3 & Hcn3 & Ht3 & Hg3).
  { run_step (deref_leg_eq w2 i _ Hli). cbn [base]. unfold msg, setup_message, forwarded. cbv zeta.
    destruct (rx_sdp_changed b).
    - run_step (upd_base_eq w2 i (fun b => set_rx_sdp (rx_sdp b) false b) b x Hli).
      eexists. split; [reflexivity|]. done.
    - exists w2. split; [done|]. split; [|done]. by rewrite insert_id. }
  run_step Hrun3. pose proof (mncc_write_wrote disconnected w3 msg) as H.
  apply wp_returns in H as (rc & w4 & Hrun4 & -> & Hrc).
  rewrite Hrc in Hrun4 by (rewrite Hcn3, Hcn2; exact Hfd). run_step Hrun4. rewrite Z.eqb_refl. cbn [negb].
  set (w4 := wrote _ w3). assert (calls w4 !! c = Some cl) as Hc4 by (simpl; by rewrite Hc3, Hc2).
  run_step (upd_call_run w4 c (set_remote (Some lm)) cl Hc4). exists lm. eexists. split; [reflexivity|].
  simpl. rewrite Ho3, Ho2, Hc3, Hc2, Hn3, Hn2, Hcn3, Hcn2, Ht3, Ht2, Hg3, Hg2, Hl3, Hl2. done.
Qed.

(** A call of type SIP, when memory is there: the new objects get the next two pointers. *)
Lemma call_create_eq w t x : wf w -> resources ->
  let c := next_ptr w in let l := Pos.succ c in
  exists w', call_create t x w = Ret (Some c) w' /\ calls w !! c = None /\
    legs w !! l = None /\ legs w !! Pos.succ l = None /\
    calls w' = <[c := Call (u32 (last_call_id w + 1)) (Some l) None None None [] false]> (calls w) /\
    legs w' = <[l := Leg (call_leg_new t c) x]> (legs w) /\ g_call_list w' = c :: g_call_list w /\
    next_ptr w' = Pos.succ l /\ out w' = out w /\ nua w' = nua w /\ conn w' = conn w /\ timers w' = timers w /\ cfg w' = cfg w.
Proof using.
  intros Hw [Ha _] c l. pose proof (wf_st w Hw) as Hst. destruct Hw as [Hwf _ _].
  pose proof (create_fresh_call (sk w) (conn w) w Hwf Hst) as Hfresh.
  pose proof (st_leg_None Hst _ (wf_fresh_leg (sk w) l Hwf ltac:(simpl; lia))) as Hl.
  pose proof (st_leg_None Hst _ (wf_fresh_leg (sk w) (Pos.succ l) Hwf ltac:(simpl; lia))) as Hl2.
  unfold call_create, talloc_call, talloc_leg, tick, upd_call, free_call, deref_call,
    bind, gets, modify, some_or, ret, crash.
  simpl. rewrite Ha. simpl. rewrite lookup_insert_eq. simpl. rewrite Ha. simpl. rewrite lookup_insert_eq. simpl.
  eexists. split; [reflexivity|]. simpl. by rewrite !insert_insert_eq.
Qed.

(** Routing a call from SIP: the users are stored and the SETUP goes to the MSC. *)
Lemma route_to_mncc_eq w c l b x cl src dst : legs w !! next_ptr w = None -> resources -> 0 <= cn_fd (conn w) ->
  calls w !! c = Some cl -> initial cl = Some l -> legs w !! l = Some (Leg b x) -> lg_type b = CALL_TYPE_SIP ->
  let cl1 := set_route (Some (l, src)) (Some (l, dst)) cl in
  exists lm w', app_route_call c (Some (l, src)) (Some (l, dst)) w = Ret tt w' /\ legs w !! lm = None /\
    out w' = out w ++ [TxMncc (setup_message (use_imsi_as_id (cfg w)) cl1 src dst b) sizeof_gsm_mncc] /\
    calls w' = <[c := set_remote (Some lm) cl1]> (calls w) /\ nua w' = nua w /\ conn w' = conn w /\ timers w' = timers w /\
    g_call_list w' = g_call_list w /\
    legs w' = <[l := Leg (forwarded b) x]> (<[lm := mt_leg c (call_id cl)]> (legs w)).
Proof using HE HW.
  intros Hfl Hres Hfd Hc Hi Hl Hty cl1. unfold app_route_call.
  run_step (upd_call_run w c (set_route (Some (l, src)) (Some (l, dst))) cl Hc). fold cl1.
  set (w1 := set_calls _ w). assert (calls w1 !! c = Some cl1) as Hc1 by apply lookup_insert_eq.
  run_step (deref_call_eq w1 c cl1 Hc1). change (initial cl1) with (initial cl). rewrite Hi.
  run_step (some_or_Some NullDeref l w1). run_step (deref_leg_eq w1 l _ Hl). cbn [base].
  rewrite decide_False by (by rewrite Hty). unfold route_to_mncc.
  destruct (mncc_create_remote_leg_eq w1 c l cl1 b x l src l dst Hfl Hres Hfd Hc1 Hi Hl eq_refl eq_refl
    ltac:(eauto) ltac:(eauto)) as (lm & w2 & Hrun & Hnl & Hout & Hcs & Hn & Hcn & Ht & Hg & Hls).
  run_step Hrun. cbn [negb Z.eqb]. exists lm, w2. rewrite Hout, Hcs, Hn, Hcn, Ht, Hg, Hls. simpl.
  by rewrite insert_insert_eq.
Qed.
End run.

(** ** What an INVITE leads to *)
Section spec.
Context {E : Env} {HE : EnvLaws E} {HW : WritesOk E}.

(** An INVITE without an acceptable session is refused with 406 and its handle is
    destroyed; nothing else changes. *)
Lemma new_call_screened w nh sip : sdp_screen_sdp sip = false ->
  new_call nh sip w = Ret tt (set_nua (delete nh) (set_out (fun o => o ++ refusal nh) w)).
Proof using. intros Hs. unfold new_call. rewrite Hs. cbn [negb]. apply reject_run. Qed.

(** The common part of [new_call] after the screen. *)
Lemma new_call_created w nh sip : wf w -> resources -> sdp_screen_sdp sip = true ->
  let c := next_ptr w in let l := Pos.succ c in
  exists w1, calls w !! c = None /\ legs w !! l = None /\ legs w1 !! Pos.succ l = None /\
    calls w1 = <[c := invite_call (u32 (last_call_id w + 1)) l (default None (invite_gcr sip))]> (calls w) /\
    legs w1 = <[l := Leg (call_leg_new CALL_TYPE_SIP c) (XSip sip_leg0)]> (legs w) /\
    g_call_list w1 = c :: g_call_list w /\ next_ptr w1 = Pos.succ l /\
    out w1 = out w /\ nua w1 = nua w /\ conn w1 = conn w /\ timers w1 = timers w /\ cfg w1 = cfg w /\
    new_call nh sip w = (match invite_gcr sip with Some None => reject_406 nh | _ => new_call_users nh sip c end) w1.
Proof using.
  intros Hw Hres Hs c l.
  destruct (call_create_eq w CALL_TYPE_SIP (XSip sip_leg0) Hw Hres)
    as (w1 & Hrun & Hc0 & Hl0 & Hl1 & Hcs & Hls & Hg & Hnp & Hout & Hnu & Hcn & Ht & Hcf). fold c l in Hrun, Hc0, Hl0, Hl1, Hcs, Hls, Hg, Hnp.
  assert (legs w1 !! Pos.succ l = None) as Hl1' by (rewrite Hls, lookup_insert_ne by lia; done).
  assert (calls w1 !! c = Some (Call (u32 (last_call_id w + 1)) (Some l) None None None [] false)) as Hc1
    by by rewrite Hcs, lookup_insert_eq.
  unfold new_call. rewrite Hs. cbn [negb]. unfold call_sip_create, invite_gcr. cbv zeta.
  destruct (find_xgcr (sip_unknown sip)) as [v|]; simpl.
  - destruct (osmo_dec_gcr (osmo_hexparse v 28)) as [g|].
    + exists (set_calls (<[c := set_gcr g (Call (u32 (last_call_id w + 1)) (Some l) None None None [] false)]>) w1).
      split_and!; try done; [simpl; by rewrite Hcs, insert_insert_eq|].
      run_step Hrun. run_step (some_or_Some AssertFail c w1). by run_step (upd_call_run w1 c (set_gcr g) _ Hc1).
    + exists w1. split_and!; try done. run_step Hrun. by run_step (some_or_Some AssertFail c w1).
  - exists w1. split_and!; try done. run_step Hrun. by run_step (some_or_Some AssertFail c w1).
Qed.

(** C40: an INVITE that passes the screen but has a GCR that does not decode, or lacks the
    user of To or From, is refused with 406; the call and the SIP leg made for it
    stay in the store, with no handle. *)
Theorem new_call_refused_late w nh sip : wf w -> resources -> sdp_screen_sdp sip = true ->
  invite_gcr sip = Some None \/ sip_to_user sip = None \/ sip_from_user sip = None ->
  exists c l w', new_call nh sip w = Ret tt w' /\ out w' = out w ++ refusal nh /\
    calls w !! c = None /\ legs w !! l = None /\
    calls w' = <[c := invite_call (u32 (last_call_id w + 1)) l (default None (invite_gcr sip))]> (calls w) /\
    legs w' = <[l := Leg (call_leg_new CALL_TYPE_SIP c) (XSip sip_leg0)]> (legs w) /\
    g_call_list w' = c :: g_call_list w.
Proof using.
  intros Hw Hres Hs Hor. destruct (new_call_created w nh sip Hw Hres Hs)
    as (w1 & Hc0 & Hl0 & _ & Hcs & Hls & Hg & _ & Hout & _ & _ & _ & _ & ->).
  exists (next_ptr w), (Pos.succ (next_ptr w)). eexists.
  assert ((match invite_gcr sip with Some None => reject_406 nh | _ => new_call_users nh sip (next_ptr w) end) w1
          = reject_406 nh w1) as ->.
  { unfold new_call_users. destruct (invite_gcr sip) as [[g|]|]; [|done|];
      (destruct Hor as [?|[-> | ->]]; [done|done|by destruct (sip_to_user sip)]). }
  rewrite reject_run. split; [reflexivity|]. simpl. by rewrite Hout.
Qed.

Lemma new_call_leg_run w nh sip c l cl f port pt to from : legs w !! next_ptr w = None -> resources ->
  0 <= cn_fd (conn w) -> calls w !! c = Some cl -> initial cl = Some l ->
  legs w !! l = Some (Leg (call_leg_new CALL_TYPE_SIP c) (XSip sip_leg0)) ->
  usable true None sip = Some (f, (port, pt)) ->
  let b := invite_leg c sip f port pt in
  let cl1 := set_route (Some (l, from)) (Some (l, to)) cl in
  exists lm w', new_call_leg nh sip c to from w = Ret tt w' /\ legs w !! lm = None /\
    out w' = out w ++ [TxMncc (setup_message (use_imsi_as_id (cfg w)) cl1 from to b) sizeof_gsm_mncc] /\
    calls w' = <[c := set_remote (Some lm) cl1]> (calls w) /\ nua w' = <[nh := l]> (nua w) /\
    g_call_list w' = g_call_list w /\ conn w' = conn w /\ timers w' = timers w /\
    legs w' = <[l := Leg (forwarded b) (XSip (invite_ext nh sip))]> (<[lm := mt_leg c (call_id cl)]> (legs w)).
Proof using HE HW.
  intros Hfl Hres Hfd Hc Hi Hl Hus b cl1. unfold new_call_leg. run_step (deref_call_eq w c cl Hc). rewrite Hi.
  run_step (some_or_Some NullDeref l w).
  run_step (upd_sip_eq w l (fun s => SipLeg (s_handle s) SIP_CC_DLG_CNFD SIP_DIR_MO (s_wanted_codec s) (s_sdp_payload s)) _ _ Hl).
  set (x1 := SipLeg _ _ _ _ _). set (b0 := call_leg_new CALL_TYPE_SIP c) in *. set (w1 := set_legs _ w).
  assert (legs w1 !! l = Some (Leg b0 (XSip x1))) as Hl1 by apply lookup_insert_eq.
  destruct (sdp_extract_eq w1 l b0 x1 sip true Hl1) as (b1 & Hrun & Hb1).
  change (s_wanted_codec x1) with (@None string) in Hrun, Hb1. rewrite Hus in Hb1.
  fold (answered_leg f port pt b0) in Hb1. subst b1. set (b1 := answered_leg f port pt b0) in *.
  rewrite Hus, bool_decide_true in Hrun by eauto. run_step Hrun. clear Hrun. cbn [negb]. set (w2 := set_legs _ w1).
  assert (legs w2 !! l = Some (Leg b1 (XSip x1))) as Hl2 by apply lookup_insert_eq.
  run_step (upd_base_eq w2 l (set_ops sip_mo_ops) b1 _ Hl2). set (w3 := set_legs _ w2).
  assert (legs w3 !! l = Some (Leg (set_ops sip_mo_ops b1) (XSip x1))) as Hl3 by apply lookup_insert_eq.
  run_step (upd_sip_eq w3 l (fun s => SipLeg (Some nh) (s_state s) (s_dir s) (s_wanted_codec s) (sip_payload sip)) _ _ Hl3).
  change (SipLeg (Some nh) (s_state x1) (s_dir x1) (s_wanted_codec x1) (sip_payload sip)) with (invite_ext nh sip).
  set (w4 := set_legs _ w3). unfold nua_handle_bind. unfold modify at 1. unfold bind at 1. set (w5 := set_nua _ w4).
  assert (legs w5 !! l = Some (Leg (set_ops sip_mo_ops b1) (XSip (invite_ext nh sip)))) as Hl5 by apply lookup_insert_eq.
  unfold call_leg_rx_sdp. cbn [sip_get_sdp]. run_step (upd_base_eq w5 l (rx_sdp_update (sip_payload sip)) _ _ Hl5).
  fold (invite_leg c sip f port pt). fold b0 b1. change (rx_sdp_update (sip_payload sip) (set_ops sip_mo_ops b1)) with b.
  set (w6 := set_legs _ w5). assert (legs w6 !! l = Some (Leg b (XSip (invite_ext nh sip)))) as Hl6 by apply lookup_insert_eq.
  run_step (talloc_str_eq w6 l to Hres). run_step (talloc_str_eq (set_n_io S w6) l from Hres).
  set (w7 := set_n_io S (set_n_io S w6)).
  assert (legs w7 = <[l := Leg b (XSip (invite_ext nh sip))]> (legs w)) as Hls7.
  { simpl. by rewrite !insert_insert_eq. }
  assert (legs w7 !! next_ptr w7 = None) as Hfl7.
  { rewrite Hls7. change (next_ptr w7) with (next_ptr w). rewrite lookup_insert_ne; [done|]. intros ->. congruence. }
  assert (lg_type b = CALL_TYPE_SIP) as Hty.
  { exact (proj1 (rx_sdp_update_shape (sip_payload sip) (set_ops sip_mo_ops b1))). }
  assert (legs w7 !! l = Some (Leg b (XSip (invite_ext nh sip)))) as Hl7 by exact Hl6.
  destruct (route_to_mncc_eq w7 c l b _ cl from to Hfl7 Hres Hfd Hc Hi Hl7 Hty)
    as (lm & w8 & Hrun & Hnl & Hout & Hcs & Hn & Hcn & Ht & Hg & Hls).
  rewrite Hls7 in Hnl. apply lookup_insert_None in Hnl as [Hnl Hne].
  exists lm, w8. split_and!; try done.
  by rewrite Hls, Hls7, (insert_insert_ne (legs w)), insert_insert_eq by done.
Qed.

(** The store after an INVITE that opens a call. *)
Lemma new_call_run w nh sip g f port pt to from : wf w -> resources -> 0 <= cn_fd (conn w) ->
  sdp_screen_sdp sip = true -> usable true None sip = Some (f, (port, pt)) ->
  sip_to_user sip = Some to -> sip_from_user sip = Some from -> invite_gcr sip = Some <$> g ->
  exists c l lm w', new_call nh sip w = Ret tt w' /\
    calls w !! c = None /\ legs w !! l = None /\ legs w !! lm = None /\ l <> lm /\
    let b := invite_leg c sip f port pt in
    let n := u32 (last_call_id w + 1) in
    let cl := set_route (Some (l, from)) (Some (l, to)) (invite_call n l g) in
    out w' = out w ++ [TxMncc (setup_message (use_imsi_as_id (cfg w)) cl from to b) sizeof_gsm_mncc] /\
    calls w' = <[c := set_remote (Some lm) cl]> (calls w) /\ g_call_list w' = c :: g_call_list w /\
    nua w' = <[nh := l]> (nua w) /\ conn w' = conn w /\ timers w' = timers w /\
    legs w' = <[l := Leg (forwarded b) (XSip (invite_ext nh sip))]> (<[lm := mt_leg c n]> (legs w)).
Proof.
  intros Hw Hres Hfd Hs Hus Hto Hfrom Hg. destruct (new_call_created w nh sip Hw Hres Hs)
    as (w1 & Hc0 & Hl0 & Hl1 & Hcs & Hls & Hgl & Hnp & Hout & Hnu & Hcn & Ht & Hcf & ->).
  set (c := next_ptr w) in *. set (l := Pos.succ c) in *.
  assert (default None (invite_gcr sip) = g) as Hgd by (rewrite Hg; by destruct g).
  assert ((match invite_gcr sip with Some None => reject_406 nh | _ => new_call_users nh sip c end) w1
          = new_call_leg nh sip c to from w1) as ->.
  { unfold new_call_users. rewrite Hto, Hfrom, Hg. by destruct g. }
  rewrite Hgd in Hcs. set (cl := invite_call (u32 (last_call_id w + 1)) l g) in *.
  destruct (new_call_leg_run w1 nh sip c l cl f port pt to from) as (lm & w2 & Hrun & Hnl & Hout2 & Hcs2 & Hn2 & Hg2 & Hcn2 & Ht2 & Hls2);
    try done; [by rewrite Hnp|by rewrite Hcn|by rewrite Hcs, lookup_insert_eq|by rewrite Hls, lookup_insert_eq|].
  exists c, l, lm, w2. rewrite Hls in Hnl. apply lookup_insert_None in Hnl as [Hnl Hne].
  split; [exact Hrun|]. split; [done|]. split; [done|]. split; [done|]. split; [done|]. cbv zeta. split_and!.
  - by rewrite Hout2, Hout, Hcf.
  - by rewrite Hcs2, Hcs, insert_insert_eq.
  - by rewrite Hg2, Hgl.
  - by rewrite Hn2, Hnu.
  - by rewrite Hcn2.
  - by rewrite Ht2.
  - by rewrite Hls2, Hls, (insert_insert_ne (legs w)), insert_insert_eq by done.
Qed.

(** C20: an acceptable INVITE opens a call at the head of the list with the next id and
    its GCR, binds the handle to a SIP leg with the media of the INVITE, and
    sends exactly one SETUP to the MSC: with the id as callref, from the user of From to
    the user of To (as a number, or as an IMSI when so configured), with the GCR
    and the SDP of the INVITE. *)
Theorem new_call_opens w nh sip g f port pt to from : wf w -> resources -> 0 <= cn_fd (conn w) ->
  sdp_screen_sdp sip = true -> usable true None sip = Some (f, (port, pt)) ->
  sip_to_user sip = Some to -> sip_from_user sip = Some from -> invite_gcr sip = Some <$> g ->
  exists c l lm w', new_call nh sip w = Ret tt w' /\
    calls w !! c = None /\ legs w !! l = None /\ legs w !! lm = None /\
    let b := invite_leg c sip f port pt in
    let n := u32 (last_call_id w + 1) in
    let cl := set_route (Some (l, from)) (Some (l, to)) (invite_call n l g) in
    out w' = out w ++ [TxMncc (setup_message (use_imsi_as_id (cfg w)) cl from to b) sizeof_gsm_mncc] /\
    calls w' = <[c := set_remote (Some lm) cl]> (calls w) /\ g_call_list w' = c :: g_call_list w /\
    nua w' = <[nh := l]> (nua w) /\
    legs w' = <[l := Leg (forwarded b) (XSip (invite_ext nh sip))]> (<[lm := mt_leg c n]> (legs w)).
Proof.
  intros Hw Hres Hfd Hs Hus Hto Hfrom Hg. destruct (new_call_run w nh sip g f port pt to from Hw Hres Hfd Hs Hus Hto Hfrom Hg)
    as (c & l & lm & w' & Hrun & Hc & Hl & Hlm & _ & Hout & Hcs & Hgl & Hn & _ & _ & Hls).
  exists c, l, lm, w'. by split_and!.
Qed.
End spec.
