(* ===== verification/Stranded.v ===== *)
(** * Media that fails, and calls that stay behind

    Two handlers in which both legs of a bridged call are at stake.
    [check_rtp_connect] (src/mncc.c) ends a call whose media the MSC could not
    connect.  A 200 that crosses our CANCEL is passed on to an MNCC leg in release
    and leaves the SIP side of the call connected for ever; and clearing an
    unanswered call from SIP answers it.  Both are proved of every bridged call,
    where Findings.v evaluates one. *)
From S2P Require Import Prelude Effect Codec Protocol Lib State Skel Rules Call Sdp SipLeg MnccConn App MnccRx SipUa CallFlow.

Section release.
Context {E : Env} {HE : EnvLaws E} {HW : WritesOk E}.

(** A SIP leg of a bridged call has a handle. *)
Lemma msc_handle w cr lm ls bm m bs x : mncc_sip_call w cr lm ls bm m bs x -> exists nh, s_handle x = Some nh.
Proof using.
  intros [Hw _ _ Hls Hb _ _].
  pose proof (bridged_established w ls lm _ Hw (bridged_sym _ _ _ Hw Hb) Hls) as He. unfold established in He. simpl in He.
  destruct (s_dir x); by destruct He as [_ He].
Qed.

(** Releasing the SIP leg through its callback, with the store it leaves. *)
Lemma sip_release_run w cr lm ls bm m bs x : mncc_sip_call w cr lm ls bm m bs x ->
  exists w', call_release ls w = Ret tt w' /\ wf w' /\ conn w' = conn w /\
    out w' = out w ++ sip_release_actions bs x /\
    legs w' = (if sip_release_drops x then delete ls (legs w) else legs w) /\
    (sip_release_drops x = false -> mncc_sip_call w' cr lm ls bm m bs x /\ nua w' = nua w).
Proof using HW.
  intros Hm. destruct (msc_handle _ _ _ _ _ _ _ _ Hm) as [nh Hnh]. pose proof Hm as [Hw _ _ Hls Hb _ _].
  destruct (bridged_sip_ops w ls lm bs x Hw (bridged_sym _ _ _ Hw Hb) Hls) as (Hty & Hop & _).
  unfold call_release, release_leg. run_step (deref_leg_eq w ls _ Hls).
  change (ops (base (Leg bs (XSip x)))) with (ops bs). rewrite Hop.
  run_step (some_or_Some NullCall FN_sip_release_call w). unfold sip_release_call.
  run_step (assert_type_eq w ls _ _ Hls Hty). run_step (deref_leg_eq w ls _ Hls). run_step (as_sip_eq w ls bs x Hls).
  change (base (Leg bs (XSip x))) with bs. unfold sip_release_actions, sip_release_drops.
  destruct (cause2status (cause bs)) as [status text].
  assert (forall a, let w1 := set_out (fun o => o ++ [a]) w in
    wf w1 /\ mncc_sip_call w1 cr lm ls bm m bs x /\ nua w1 = nua w) as Hout.
  { intros a w1. pose proof (msc_set_out w cr lm ls bm m bs x (fun o => o ++ [a]) Hm) as Hm1. split; [apply Hm1|done]. }
  destruct (s_state x).
  - destruct (drop_leg_run w cr lm ls bm m bs x nh Hm Hnh) as (w' & Hrun & ? & ? & ? & ? & _).
    exists w'. split; [exact Hrun|]. rewrite Hnh. by split_and!.
  - case_decide as Hd; [rewrite Hd; eexists; split; [reflexivity|]; destruct (Hout (NuaCancel (s_handle x))); by split_and!|].
    destruct (s_dir x); [|done].
    set (a := NuaRespond (s_handle x) status (sip_phrase status) (Some (reason_header (cause bs) text)) None).
    run_step (emit_eq w a). destruct (Hout a) as (_ & Hm1 & _). set (w1 := set_out _ w) in *.
    destruct (drop_leg_run w1 cr lm ls bm m bs x nh Hm1 Hnh) as (w' & Hrun & ? & Ho & ? & ? & _).
    exists w'. split; [exact Hrun|]. rewrite Ho, Hnh. simpl. rewrite <- app_assoc. by split_and!.
  - eexists. split; [reflexivity|]. destruct (Hout (NuaBye (s_handle x))). by split_and!.
  - eexists. split; [reflexivity|]. destruct (Hout (NuaBye (s_handle x))). by split_and!.
Qed.

(** ** RTP_CONNECT *)

(** The MSC has no address, no port and no payload type to offer. *)
Definition no_media (r : gsm_mncc_rtp) : bool :=
  (ss_family (rtp_addr r) =? AF_UNSPEC) && (osmo_sockaddr_port (rtp_addr r) =? 0) && (rtp_payload_type r =? 0).

(** C23: RTP_CONNECT from the MSC for a bridged call.  The leg keeps the SDP of the
    message; with an address, a port or a payload type nothing else happens.
    Without any, the connection of the media has failed: the SIP side is
    released as its dialog needs, then the MSC is asked to release its leg, in
    this order.  A leg that is being released is not found, and the message is
    rejected. *)
Theorem check_rtp_connect_spec buf w lm ls bm m bs x : let r := view_rtp buf in
  mncc_sip_call w (rtp_callref r) lm ls bm m bs x -> cn_state (conn w) = MNCC_READY ->
  sizeof_rtp <= Z.of_nat (length buf) ->
  let bm1 := rx_sdp_update (Some (rtp_sdp r)) bm in
  exists w', check_rtp_connect buf (Z.of_nat (length buf)) w = Ret tt w' /\
    if in_release bm then out w' = out w ++ [plain MNCC_REJ_REQ m] /\ legs w' = legs w
    else if no_media r then
      out w' = out w ++ sip_release_actions bs x ++ [TxMncc (release_message bm1 m) sizeof_gsm_mncc]
    else out w' = out w /\ legs w' = <[lm := Leg bm1 (XMncc m)]> (legs w).
Proof using HE HW.
  intros r Hm Hr Hlen bm1. pose proof Hm as [Hw Hfd Hlm Hls Hb Hcr Hu].
  assert (mncc_find_leg (rtp_callref r) w = Ret (Some lm) w) as Hfind.
  { rewrite <- Hcr. apply (find_leg_unique w lm bm m Hw Hlm). by rewrite Hcr. }
  unfold check_rtp_connect. destruct (Z.ltb_spec (Z.of_nat (length buf)) sizeof_rtp) as [|_]; [lia|]. fold r. cbv zeta.
  unfold mncc_find_leg_not_released. rewrite bind_assoc. run_step Hfind. rewrite bind_assoc.
  run_step (deref_leg_eq w lm _ Hlm). simpl base. rewrite bind_ret_l. destruct (in_release bm).
  { rewrite <- Hcr, (send_plain_eq w MNCC_REJ_REQ (m_callref m) Hfd ltac:(done) ltac:(done)).
    by eexists. }
  destruct (msc_rx _ _ _ _ _ _ _ _ (Some (rtp_sdp r)) Hm) as [Hrx Hm1]. run_step Hrx. fold bm1 in Hm1 |- *.
  set (w1 := set_legs _ w) in *.
  assert (negb (ss_family (rtp_addr r) =? AF_UNSPEC) || negb (osmo_sockaddr_port (rtp_addr r) =? 0)
          || negb (rtp_payload_type r =? 0) = negb (no_media r)) as -> by (unfold no_media; by rewrite !negb_andb).
  destruct (no_media r); cbn [negb]; [|by eexists].
  run_step (bridged_other w1 lm ls (msc_bridge _ _ _ _ _ _ _ _ Hm1)).
  destruct (sip_release_run w1 _ lm ls bm1 m bs x Hm1) as (w2 & Hrun & Hw2 & Hcn & Hout & Hl & Hmsc). run_step Hrun.
  destruct (sip_release_drops x) eqn:Hd.
  - destruct (release_mncc_after w1 w2 _ lm ls bm1 m bs x bm1 Hm1 Hr Hw2 Hcn) as (w3 & Hrun3 & Hout3); [|done|].
    { pose proof Hm1 as [_ _ Hlm1 _ [Hne _] _ _]. rewrite Hl. symmetry. apply insert_id. by rewrite lookup_delete_ne. }
    exists w3. split; [exact Hrun3|]. by rewrite Hout3, Hout, <- app_assoc.
  - destruct (Hmsc eq_refl) as [Hm2 _].
    destruct (release_mncc_run w2 _ lm ls bm1 m bs x Hm2) as (w3 & Hrun3 & Hout3); [by rewrite Hcn|].
    exists w3. split; [exact Hrun3|]. by rewrite Hout3, Hout, <- app_assoc.
Qed.
End release.

(** ** An answer that crosses the release *)
Section crossed.
Context {E : Env} {HE : EnvLaws E} {HW : WritesOk E}.

(** A Disconnect from the MSC: the MNCC leg is marked and waits; the SIP leg is
    gone, or waits for sofia-sip. *)
Lemma disc_run buf w lm ls bm m bs x : let d := view_gsm_mncc buf in
  mncc_sip_call w (mn_callref d) lm ls bm m bs x ->
  let bm1 := set_in_release true bm in let m1 := set_m_rsp_wanted MNCC_REL_CNF m in
  let bs1 := set_cause (ca_value (mn_cause d)) bs in
  exists w', check_disc_ind buf sizeof_gsm_mncc w = Ret tt w' /\
    (if sip_release_drops x then legs w' !! ls = None
     else mncc_sip_call w' (mn_callref d) lm ls bm1 m1 bs1 x /\ nua w' = nua w) /\
    out w' = out w ++ TxMncc (with_cause MNCC_REL_REQ (mn_callref d) (cause bm)) sizeof_gsm_mncc :: sip_release_actions bs1 x.
Proof using HW.
  intros d Hm bm1 m1 bs1. pose proof Hm as [Hw Hfd Hlm _ _ Hcr Hu].
  unfold check_disc_ind. rewrite (msc_with_leg w lm ls bm m bs x buf _ Hm). fold d.
  destruct (disc_mark _ _ _ _ _ _ _ _ Hm) as (w1 & Hrun & Hm1 & Hst1 & Hout1 & _). rewrite Hrun.
  run_step (disc_release_req _ _ _ _ _ _ _ _ Hm1). change (cause (set_in_release true bm)) with (cause bm).
  set (a := TxMncc _ _). pose proof (msc_wrote w1 _ lm ls _ _ bs x a Hm1) as Hm2. set (w2 := wrote a w1) in *.
  unfold release_other_with_cause. run_step (bridged_other w2 lm ls (msc_bridge _ _ _ _ _ _ _ _ Hm2)).
  run_step (upd_base_eq w2 ls (set_cause (ca_value (mn_cause d))) bs _ (msc_sip _ _ _ _ _ _ _ _ Hm2)). fold bs1.
  pose proof (msc_set_sip w2 _ lm ls _ _ bs x bs1 x Hm2 eq_refl) as Hm3. set (w3 := set_legs _ w2) in *.
  destruct (sip_release_run w3 _ lm ls _ _ bs1 x Hm3) as (w4 & Hrun4 & _ & _ & Hout & Hl4 & Hmsc).
  exists w4. split; [exact Hrun4|]. split.
  - destruct (sip_release_drops x); [rewrite Hl4; apply lookup_delete_eq|].
    destruct (Hmsc eq_refl) as [Hm4 Hn]. split; [exact Hm4|]. rewrite Hn. change (nua w3) with (nua w1).
    pose proof (st_sk _ _ _ Hst1) as Hsk. by apply (f_equal sk_nua) in Hsk.
  - rewrite Hout. change (out w3) with (out w1 ++ [a]). by rewrite Hout1, <- app_assoc.
Qed.

(** The confirmation of the release takes the MNCC leg out of the call. *)
Lemma rel_cnf_run buf w lm ls bm m bs x : mncc_sip_call w (mn_callref (view_gsm_mncc buf)) lm ls bm m bs x ->
  exists w' cl, check_rel_cnf buf sizeof_gsm_mncc w = Ret tt w' /\
    out w' = out w /\ nua w' = nua w /\ legs w' = delete lm (legs w) /\ timers w' = timers w ∖ {[lm]} /\
    calls w' !! lg_call bs = Some cl /\
    (initial cl = None /\ remote cl = Some ls \/ initial cl = Some ls /\ remote cl = None).
Proof using HE HW.
  intros Hm. pose proof Hm as [Hw Hfd Hlm Hls Hb Hcr Hu]. pose proof Hb as (Hne & y & cl & Hy & Hcl & Hor).
  assert (y = Leg bm (XMncc m)) as -> by congruence.
  assert (lg_call bm = lg_call bs) as Hcall.
  { destruct (bridged_other_leg w lm ls _ Hw Hb Hlm) as (sh & Hsh & _ & Hc & _).
    simpl in Hsh. rewrite lookup_fmap, Hls in Hsh. by injection Hsh as <-. }
  unfold check_rel_cnf. rewrite (msc_with_leg w lm ls bm m bs x buf _ Hm).
  run_step (stop_cmd_timer_eq w lm bm m MNCC_REL_CNF Hlm). set (w1 := if _ =? _ then _ else w).
  assert (legs w1 = legs w /\ calls w1 = calls w /\ nua w1 = nua w /\ out w1 = out w
    /\ timers w1 ∖ {[lm]} = timers w ∖ {[lm]}) as (Hl1 & Hc1 & Hn1 & Ho1 & Ht1).
  { unfold w1. destruct (_ =? _); [|done]. simpl. split_and!; try done. set_solver. }
  clearbody w1. unfold mncc_leg_release, timer_del. rewrite bind_assoc.
  assert (legs w1 !! lm = Some (Leg bm (XMncc m))) as Hlm1 by by rewrite Hl1. run_step (deref_leg_eq w1 lm _ Hlm1).
  unfold modify at 1. unfold bind at 1. set (w2 := set_timers _ w1).
  assert (calls w2 !! lg_call (base (Leg bm (XMncc m))) = Some cl) as Hcl2 by (simpl; by rewrite Hc1).
  rewrite (call_leg_release_kept w2 lm _ cl ls Hlm1 Hcl2 Hor Hne). eexists _, (unlinked lm cl). split; [reflexivity|].
  simpl. rewrite Hl1, Ho1, Hn1, Ht1, <- Hcall, lookup_insert_eq. split_and!; try done.
  unfold unlinked. destruct Hor as [[Hi Hr]|[Hi Hr]]; [rewrite decide_True|rewrite decide_False]; simpl; try done; [by left|right|congruence].
  done.
Qed.

(** C24: the phone of a call the MSC placed hangs up while the SIP side rings, and the
    200 of the peer crosses the CANCEL: the Disconnect, the 200 and the MSC's
    confirmation of the release are all handled.  The leg in release is told that
    the call is answered, which makes its timer wait for something else, and the
    200 is acknowledged; when the MNCC leg goes, the SIP leg is left connected,
    alone in its call, its handle bound, no timer armed for the call and no BYE
    sent. *)
Theorem crossed_answer_stranded bufd bufc w lm ls bm m bs x nh sip f port pt : let d := view_gsm_mncc bufd in
  mncc_sip_call w (mn_callref d) lm ls bm m bs x -> mn_callref (view_gsm_mncc bufc) = mn_callref d ->
  s_dir x = SIP_DIR_MT -> s_state x = SIP_CC_DLG_CNFD -> s_handle x = Some nh ->
  usable false (s_wanted_codec x) sip = Some (f, (port, pt)) ->
  let b := answered_leg f port pt (rx_sdp_update (sip_payload sip) (set_cause (ca_value (mn_cause d)) bs)) in
  exists w' cl, (check_disc_ind bufd sizeof_gsm_mncc ;; nua_callback nua_r_invite 200 nh (Some sip) ;;
                 check_rel_cnf bufc sizeof_gsm_mncc) w = Ret tt w' /\
    out w' = out w ++ [TxMncc (with_cause MNCC_REL_REQ (m_callref m) (cause bm)) sizeof_gsm_mncc; NuaCancel (Some nh);
                       rtp_connect m b; plain MNCC_SETUP_RSP m; NuaAck (Some nh)] /\
    legs w' !! lm = None /\ legs w' !! ls = Some (Leg b (XSip (set_s_state SIP_CC_CONNECTED x))) /\
    nua w' !! nh = Some ls /\ (lm ∉ timers w') /\ (ls ∉ timers w') /\
    calls w' !! lg_call bs = Some cl /\
    (initial cl = None /\ remote cl = Some ls \/ initial cl = Some ls /\ remote cl = None).
Proof using HE HW.
  intros d Hm Hcc Hdir Hs Hnh Hus b. pose proof Hm as [Hw _ _ Hls [Hne _] Hcr _].
  assert (sip_release_drops x = false) as Hd by (unfold sip_release_drops; by rewrite Hs, Hdir).
  assert (nua w !! nh = Some ls) as Hnua.
  { apply (wf_handle _ (w_sk w Hw) ls (shape (Leg bs (XSip x))) (s_dir x) nh); simpl; [by rewrite lookup_fmap, Hls|].
    by rewrite Hnh. }
  destruct (disc_run bufd w lm ls bm m bs x Hm) as (w1 & Hrun & Hk & Ho1). rewrite Hd in Hk. destruct Hk as [Hm1 Hn1].
  run_step Hrun.
  fold d in Hm1, Ho1. set (bs1 := set_cause _ bs) in *. set (bm1 := set_in_release true bm) in *.
  set (m1 := set_m_rsp_wanted _ m) in *. simpl nua_callback.
  assert (confirmed x = x) as Hcx by (unfold confirmed; rewrite Hs; by rewrite decide_False).
  pose proof (on_r_invite_run w1 _ lm ls bm1 m1 bs1 x nh 200 (Some sip) Hm1 Hnh) as Hr. simpl in Hr. rewrite Hcx, Hs in Hr.
  pose proof (msc_response w1 _ lm ls bm1 m1 bs1 x (sip_payload sip) Hm1) as Hm2. rewrite Hcx in Hm2.
  set (w2 := response_world _ _ _ _ _) in *.
  destruct (call_connect_run w2 _ lm ls bm1 m1 _ x nh sip f port pt Hm2 Hnh Hus) as (w3 & Hrun3 & Ho3 & Ht3 & Hl3 & Hn3 & Hm3).
  fold b in Ho3, Hl3, Hm3. rewrite Hrun3 in Hr. run_step Hr. rewrite <- Hcc in Hm3.
  destruct (rel_cnf_run bufc w3 lm ls _ _ _ _ Hm3) as (w4 & cl & Hrun4 & Ho4 & Hn4 & Hl4 & Ht4 & Hc4 & Hor).
  exists w4, cl. split; [exact Hrun4|]. rewrite Ho4, Hl4, Hn4, Ht4. split_and!.
  - rewrite Ho3. change (out w2) with (out w1). rewrite Ho1. unfold sip_release_actions. rewrite Hs, Hdir, Hnh, <- Hcr.
    destruct (cause2status _). simpl. by rewrite <- app_assoc.
  - apply lookup_delete_eq.
  - rewrite lookup_delete_ne by done. apply (msc_sip _ _ _ _ _ _ _ _ Hm3).
  - rewrite Hn3. change (nua w2) with (nua w1). by rewrite Hn1.
  - set_solver.
  - intros Hin. destruct (w_timers w3 (msc_wf _ _ _ _ _ _ _ _ Hm3) ls) as (sh & Hsh & Hmn); [set_solver|].
    destruct (msc_view _ _ _ _ _ _ _ _ Hm3) as [_ Hv]. rewrite Hv in Hsh. injection Hsh as <-. done.
  - assert (lg_call b = lg_call bs) as Hcb.
    { unfold b, answered_leg. simpl. by destruct (rx_sdp_update_shape (sip_payload sip) bs1) as (_ & -> & _). }
    by rewrite <- Hcb.
  - done.
Qed.

(** C25: a call from SIP that the phone side clears, with the cause of normal clearing
    and before it is answered: for every such call the INVITE gets a 200 with no
    session instead of a failure, and the handle and the leg are gone. *)
Theorem cleared_is_answered_200 buf w lm ls bm m bs x : let d := view_gsm_mncc buf in
  mncc_sip_call w (mn_callref d) lm ls bm m bs x -> s_dir x = SIP_DIR_MO -> s_state x = SIP_CC_DLG_CNFD ->
  ca_value (mn_cause d) = cause_value GSM48_CC_CAUSE_NORM_CALL_CLEAR ->
  exists w' reason, check_disc_ind buf sizeof_gsm_mncc w = Ret tt w' /\
    out w' = out w ++ [TxMncc (with_cause MNCC_REL_REQ (m_callref m) (cause bm)) sizeof_gsm_mncc;
                       NuaRespond (s_handle x) 200 (sip_phrase 200) (Some reason) None; NuaDestroy (s_handle x)] /\
    legs w' !! ls = None.
Proof using HE HW.
  intros d Hm Hdir Hs Hv. pose proof Hm as [_ _ _ _ _ Hcr _].
  destruct (disc_run buf w lm ls bm m bs x Hm) as (w1 & Hrun & Hk & Ho). fold d in Ho.
  assert (sip_release_drops x = true) as Hd by (unfold sip_release_drops; by rewrite Hs, Hdir). rewrite Hd in Hk.
  assert (fst (cause2status (cause_value GSM48_CC_CAUSE_NORM_CALL_CLEAR)) = 200) as Hst.
  { rewrite (proj2 (cause_map_first 0 _)). unfold searched_rows. simpl. by rewrite Z.eqb_refl. }
  unfold sip_release_actions in Ho. rewrite Hs, Hdir in Ho. simpl cause in Ho. rewrite Hv in Ho.
  destruct (cause2status _) as [st text]. simpl in Hst. subst st. rewrite Hcr. eauto 6.
Qed.
End crossed.
