(* ===== verification/Bridge.v ===== *)
(** * A bridged call as an abstract machine

    What the MSC and the SIP peer see of one call: on each side a leg that is
    there or gone, with its state, its direction and, for the MNCC leg, whether it
    is being released and what its timer waits for; the events either side can
    cause; and for every state and event the messages that go out, in order, and
    the new state.  [react] is this machine.  Relay.v proves that the program is
    it; here it is examined for itself: [no_side_forgotten] says which events must
    not happen so that hanging up reaches the other side. *)
From S2P Require Import Prelude Effect Codec Protocol Lib State SipLeg.

(** ** Definitions *)

(** What the program sends, in short. *)
Inductive sent :=
| ToMsc (t : Z) | ToMscRtp (t : Z) | Respond (status : Z) | Invite | Info | Cancel | Bye | Ack | Destroy | Closed.
Definition short (a : action) : sent :=
  match a with
  | TxMncc m _ => ToMsc (mn_msg_type m)
  | TxRtp r _ => ToMscRtp (rtp_msg_type r)
  | CloseFd _ => Closed
  | NuaRespond _ status _ _ _ => Respond status
  | NuaInvite _ _ _ _ _ => Invite
  | NuaInfo _ _ => Info
  | NuaCancel _ => Cancel
  | NuaBye _ => Bye
  | NuaAck _ => Ack
  | NuaDestroy _ => Destroy
  end.

(** The two sides of a call; [None] is a leg that is gone. *)
Record msc_side := MscSide {
  k_state : mncc_cc_state;
  k_dir : mncc_dir;
  k_leaving : bool;                (* [in_release] *)
  k_waits : option Z }.            (* what the armed timer waits for *)
Record sip_side := SipSide {
  p_state : sip_cc_state;
  p_dir : sip_dir;
  p_cause : Z }.
Record sides := Sides { at_msc : option msc_side; at_sip : option sip_side }.

(** What can happen to a call. *)
Inductive offer := NoMode | Holds | Unusable | Usable (moved : bool).
Inductive label :=
(* messages of the MSC for its callref *)
| MDisc (cause : Z) | MRel (cause : Z) | MRelCnf | MRej (cause : Z) | MCompl | MAnswer | MConf | MAlert
| MHold | MRetrieve | MDtmf | MDtmfStop | MRtpCreate | MRtpConnect (media : bool)
(* its timer *)
| MTimeout
(* events of sofia-sip for its handle *)
| SRing (media : bool) | SAnswer (usable : bool) | SFail (cause : Z) | SOther | SHangup | SEnded
| SOffer (o : offer) | SQuiet.

Section machine.
Context {E : Env}.

Definition set_msc (f : msc_side -> option msc_side) (a : sides) : sides := Sides (at_msc a ≫= f) (at_sip a).
Definition set_sip (f : sip_side -> option sip_side) (a : sides) : sides := Sides (at_msc a) (at_sip a ≫= f).
Definition no_msc : sides -> sides := set_msc (fun _ => None).
Definition no_sip : sides -> sides := set_sip (fun _ => None).
Definition enters (st : mncc_cc_state) : sides -> sides :=
  set_msc (fun k => Some (MscSide st (k_dir k) (k_leaving k) (k_waits k))).
Definition waits (o : option Z) : sides -> sides :=
  set_msc (fun k => Some (MscSide (k_state k) (k_dir k) (k_leaving k) o)).
Definition leaves (t : Z) : sides -> sides :=
  set_msc (fun k => Some (MscSide (k_state k) (k_dir k) true (Some t))).
Definition dialog (st : sip_cc_state) : sides -> sides :=
  set_sip (fun p => Some (SipSide st (p_dir p) (p_cause p))).
Definition blames (v : Z) : sides -> sides :=
  set_sip (fun p => Some (SipSide (p_state p) (p_dir p) v)).

(** Messages and a new state; one reaction after the other. *)
Definition reaction := (list sent * sides)%type.
Definition also (r : reaction) (f : sides -> reaction) : reaction :=
  let '(o, a) := r in let '(o', a') := f a in (o ++ o', a').

(** The SIP side is asked to end. *)
Definition end_sip (a : sides) : reaction :=
  match at_sip a with
  | None => ([], a)
  | Some p =>
      match p_state p, p_dir p with
      | SIP_CC_INITIAL, _ => ([Destroy], no_sip a)
      | SIP_CC_DLG_CNFD, SIP_DIR_MT => ([Cancel], a)
      | SIP_CC_DLG_CNFD, SIP_DIR_MO => ([Respond (fst (cause2status (p_cause p))); Destroy], no_sip a)
      | (SIP_CC_CONNECTED | SIP_CC_HOLD), _ => ([Bye], a)
      end
  end.

(** The MSC is asked to end. *)
Definition end_msc (a : sides) : reaction :=
  match at_msc a with
  | None => ([], a)
  | Some k =>
      match k_state k, k_dir k with
      | MNCC_CC_INITIAL, MNCC_DIR_MO => ([ToMsc MNCC_REJ_REQ], no_msc a)
      | MNCC_CC_INITIAL, MNCC_DIR_MT => ([ToMsc MNCC_REL_REQ], leaves MNCC_REL_CNF a)
      | _, _ => ([ToMsc MNCC_DISC_REQ], leaves MNCC_REL_IND a)
      end
  end.

(** The timer stops if this is what it waited for. *)
Definition arrives (t : Z) : sides -> sides :=
  set_msc (fun k => Some (MscSide (k_state k) (k_dir k) (k_leaving k)
                                  (if decide (k_waits k = Some t) then None else k_waits k))).

Definition confirms (a : sides) : sides :=
  set_sip (fun p => Some (SipSide (if decide (p_state p = SIP_CC_INITIAL) then SIP_CC_DLG_CNFD else p_state p)
                                  (p_dir p) (p_cause p))) a.

(** A message of the MSC finds the leg; [None]: the program crashes. *)
Definition react_msc (k : msc_side) (a : sides) (e : label) : option reaction :=
  match e with
  | MDisc v => Some (also ([ToMsc MNCC_REL_REQ], blames v (leaves MNCC_REL_CNF a)) end_sip)
  | MRel v =>
      if k_leaving k then Some ([], no_msc a)
      else Some (also (end_sip (blames v a)) (fun a' => ([], no_msc a')))
  | MRelCnf => Some ([], no_msc a)
  | MRej v => Some (also (end_sip (blames v a)) (fun a' => ([], no_msc a')))
  | MCompl => Some ([], enters MNCC_CC_CONNECTED (arrives MNCC_SETUP_COMPL_IND a))
  | MAnswer =>
      match at_sip a with
      | None => Some (end_msc a)
      | Some p =>
          if decide (p_dir p = SIP_DIR_MO)
          then Some ([ToMscRtp MNCC_RTP_CONNECT; ToMsc MNCC_SETUP_COMPL_REQ; Respond 200],
                     dialog SIP_CC_CONNECTED (enters MNCC_CC_CONNECTED a))
          else None
      end
  | MConf => Some ([ToMscRtp MNCC_RTP_CREATE], waits (Some MNCC_RTP_CREATE) a)
  | MAlert =>
      match at_sip a with
      | None => Some (end_msc a)
      | Some p => if decide (p_dir p = SIP_DIR_MO) then Some ([Respond 180], a) else None
      end
  | MHold =>
      match at_sip a with
      | None => Some ([ToMsc MNCC_HOLD_REJ], a)
      | Some _ => Some ([Invite; ToMsc MNCC_HOLD_CNF], dialog SIP_CC_HOLD (enters MNCC_CC_HOLD a))
      end
  | MRetrieve =>
      match at_sip a with
      | None => Some (also ([ToMsc MNCC_RETRIEVE_CNF], a) end_msc)
      | Some _ => Some ([Invite; ToMsc MNCC_RETRIEVE_CNF; ToMscRtp MNCC_RTP_CONNECT],
                        dialog SIP_CC_CONNECTED (enters MNCC_CC_CONNECTED a))
      end
  | MDtmf =>
      Some ((match at_sip a with Some _ => [Info] | None => [] end) ++ [ToMsc MNCC_START_DTMF_RSP], a)
  | MDtmfStop => Some ([ToMsc MNCC_STOP_DTMF_RSP], a)
  | MRtpCreate =>
      if k_leaving k then Some ([ToMsc MNCC_REJ_REQ], a) else Some ([], arrives MNCC_RTP_CREATE a)
  | MRtpConnect media =>
      if k_leaving k then Some ([ToMsc MNCC_REJ_REQ], a)
      else if media then Some ([], a) else Some (also (end_sip a) end_msc)
  | _ => None
  end.

(** An event of sofia-sip for the handle. *)
Definition react_sip (p : sip_side) (a : sides) (e : label) : option reaction :=
  match e with
  | SRing media =>
      Some (match at_msc a with
            | Some _ => ToMsc MNCC_ALERT_REQ :: (if media then [ToMscRtp MNCC_RTP_CONNECT] else [])
            | None => []
            end, confirms a)
  | SAnswer usable =>
      match p_state p with
      | SIP_CC_CONNECTED | SIP_CC_HOLD => Some ([Ack], a)
      | _ =>
          match at_msc a with
          | None => Some ([Cancel], confirms a)
          | Some _ =>
              if usable
              then Some ([ToMscRtp MNCC_RTP_CONNECT; ToMsc MNCC_SETUP_RSP; Ack],
                         waits (Some MNCC_SETUP_COMPL_IND) (dialog SIP_CC_CONNECTED a))
              else Some (also ([Cancel], confirms a) end_msc)
          end
      end
  | SFail v => Some (also ([Cancel; Destroy], no_sip a) end_msc)
  | SOther => Some ([], confirms a)
  | SHangup => Some (also ([Destroy], no_sip a) end_msc)
  | SEnded => Some ([Destroy], no_sip a)
  | SOffer o =>
      match at_msc a with
      | None => Some (end_sip a)
      | Some _ =>
          match o with
          | NoMode | Holds | Usable false => Some ([Respond 200], a)
          | Usable true => Some ([ToMscRtp MNCC_RTP_CONNECT; Respond 200], a)
          | Unusable => Some ([Respond 406; Destroy], no_sip a)
          end
      end
  | SQuiet => Some ([], a)
  | _ => None
  end.

Definition of_msc (e : label) : bool :=
  match e with
  | SRing _ | SAnswer _ | SFail _ | SOther | SHangup | SEnded | SOffer _ | SQuiet => false
  | _ => true
  end.

(** The timer can only fire when it is armed. *)
Definition react (a : sides) (e : label) : option reaction :=
  match e with
  | MTimeout =>
      k ← at_msc a; _ ← k_waits k; Some (also (end_sip a) (fun a' => ([], no_msc a')))
  | _ => if of_msc e then k ← at_msc a; react_msc k a e else p ← at_sip a; react_sip p a e
  end.

(** A sequence of events. *)
Fixpoint reacts (a : sides) (es : list label) : option reaction :=
  match es with
  | [] => Some ([], a)
  | e :: es' => '(o, a1) ← react a e; '(o', a2) ← reacts a1 es'; Some (o ++ o', a2)
  end.

(** ** Hanging up reaches the other side *)

(** The SIP peer was asked to end the dialog. *)
Definition asks (x : sent) : bool := match x with Bye | Cancel => true | _ => false end.
Definition asked (o : list sent) : bool := existsb asks o.

Definition leaving (a : sides) : bool := match at_msc a with Some k => k_leaving k | None => true end.

(** The events after which a side is left behind do not happen: an answer that can be
    used and crosses the release, a confirmation of a release that was not asked for, a
    re-INVITE that cannot be used, the end of a dialog that was not asked to end. *)
Definition clean (a : sides) (e : label) : bool :=
  match e with
  | SAnswer true =>
      match at_sip a, at_msc a with
      | Some p, Some k => bool_decide (p_state p = SIP_CC_CONNECTED \/ p_state p = SIP_CC_HOLD) || negb (k_leaving k)
      | _, _ => true
      end
  | MRelCnf | SEnded | SOffer Unusable => leaving a
  | _ => true
  end.
Fixpoint clean_run (a : sides) (es : list label) : bool :=
  match es with
  | [] => true
  | e :: es' => clean a e && match react a e with Some (_, a1) => clean_run a1 es' | None => false end
  end.

(** The events are clean as far as the program comes. *)
Fixpoint cleanly (a : sides) (es : list label) : bool :=
  match es with
  | [] => true
  | e :: es' => clean a e && match react a e with Some (_, a1) => cleanly a1 es' | None => true end
  end.

(** The events that are for a SIP leg which placed the call: the MSC alerts, or answers. *)
Definition for_caller (e : label) : bool := match e with MAlert | MAnswer => true | _ => false end.
(** The SIP leg, if it is there, placed the call, or none of these events happens. *)
Definition no_caller_wanted (a : sides) (es : list label) : Prop :=
  (forall p, at_sip a = Some p -> p_dir p = SIP_DIR_MO) \/ existsb for_caller es = false.

(** An event that is about a leg which is there. *)
Definition about_leg (a : sides) (e : label) : Prop :=
  if of_msc e then exists k, at_msc a = Some k /\ (e = MTimeout -> k_waits k <> None) else is_Some (at_sip a).

(** What is true after clean events; [t] says whether the peer was asked. *)
Definition settled (t : bool) (a : sides) : Prop := at_sip a = None \/ t = true.
Definition supervised (k : msc_side) : Prop := k_waits k <> None /\ k_waits k <> Some MNCC_SETUP_COMPL_IND.
Definition nobody_behind (t : bool) (a : sides) : Prop :=
  match at_msc a with
  | None => settled t a
  | Some k => (k_leaving k = true -> settled t a /\ supervised k) /\ (at_sip a = None -> k_leaving k = true)
  end.
Definition leaves_nobody (t : bool) (r : reaction) : Prop := nobody_behind (t || asked (fst r)) (snd r).

Lemma asked_app o o' : asked (o ++ o') = asked o || asked o'.
Proof using. apply existsb_app. Qed.

(** Asking the MSC, once the SIP side is settled. *)
Lemma end_msc_behind t o a : settled (t || asked o) a -> leaves_nobody t (also (o, a) end_msc).
Proof using.
  intros Hs. unfold leaves_nobody, also, end_msc. destruct a as [[[ks kd kl kw]|] p]; simpl; [|by rewrite asked_app; simpl; rewrite orb_false_r].
  destruct ks, kd; simpl; rewrite asked_app; simpl; rewrite orb_false_r; try exact Hs; split; intros; done.
Qed.

(** Asking the SIP side settles it. *)
Lemma end_sip_settles t a : settled (t || asked (fst (end_sip a))) (snd (end_sip a)).
Proof using.
  unfold settled, end_sip. destruct a as [k [[ps pd pc]|]]; simpl; [|by left].
  destruct ps, pd; simpl; rewrite ?orb_true_r; auto.
Qed.
Lemma end_sip_msc a : at_msc (snd (end_sip a)) = at_msc a.
Proof using. unfold end_sip. destruct a as [k [[ps pd pc]|]]; simpl; [|done]. by destruct ps, pd. Qed.

(** Then the MNCC leg goes, or is being released. *)
Lemma drop_behind t a : leaves_nobody t (also (end_sip a) (fun a' => ([], no_msc a'))).
Proof using.
  pose proof (end_sip_settles t a) as Hs. unfold leaves_nobody, also. destruct (end_sip a) as [o a1]. simpl in *.
  rewrite app_nil_r. unfold nobody_behind. simpl. by destruct (at_msc a1).
Qed.
Lemma release_behind t t' k o a : at_msc a = Some k -> k_leaving k = true -> supervised k ->
  asked o = t' -> leaves_nobody t (also (o, a) end_sip).
Proof using.
  intros Hk Hl Hw <-. pose proof (end_sip_settles (t || asked o) a) as Hs. pose proof (end_sip_msc a) as Hm.
  unfold leaves_nobody, also. destruct (end_sip a) as [o1 a1]. simpl in *. rewrite asked_app, orb_assoc.
  unfold nobody_behind. rewrite Hm, Hk. auto.
Qed.

(** A reaction that keeps the legs, and what the MSC is asked. *)
Lemma same_legs t a o a' : nobody_behind t a -> asked o = false ->
  (at_sip a' = None <-> at_sip a = None) ->
  match at_msc a, at_msc a' with
  | None, None => True
  | Some k, Some k' => k_leaving k' = k_leaving k /\ (k_leaving k = true -> supervised k -> supervised k')
  | _, _ => False
  end -> leaves_nobody t (o, a').
Proof using.
  intros Hn Ho Hs Hk. unfold leaves_nobody, nobody_behind, settled in *. simpl. rewrite Ho, orb_false_r.
  destruct (at_msc a) as [k|], (at_msc a') as [k'|]; try done; [|tauto]. destruct Hk as [-> Hk], Hn as [H1 H2].
  split; [intros Hl; destruct (H1 Hl) as [? ?]; split; [tauto|by apply Hk]|tauto].
Qed.

Lemma end_msc_only t a : settled t a -> leaves_nobody t (end_msc a).
Proof using.
  intros Hs. pose proof (end_msc_behind t [] a) as H. unfold also in H. destruct (end_msc a) as [o a'].
  apply H. by rewrite orb_false_r.
Qed.

#[local] Arguments also : simpl never.
#[local] Arguments end_sip : simpl never.
#[local] Arguments end_msc : simpl never.

Lemma react_msc_behind t k a e r : at_msc a = Some k -> nobody_behind t a -> clean a e = true ->
  react_msc k a e = Some r -> leaves_nobody t r.
Proof using.
  intros Hk Hn Hc Hr. assert (leaving a = k_leaving k) as Hl by (unfold leaving; by rewrite Hk).
  assert (k_leaving k = true -> settled t a /\ supervised k) as Hs by (unfold nobody_behind in Hn; rewrite Hk in Hn; apply Hn).
  assert (forall a', at_msc a' = None -> at_sip a' = at_sip a -> settled t a -> leaves_nobody t ([], a')) as Hgone.
  { intros a' Hm Hp Hset. unfold leaves_nobody, nobody_behind, settled in *. simpl. by rewrite orb_false_r, Hm, Hp. }
  destruct a as [ko p]. simpl in Hk. subst ko.
  destruct e; simpl in Hr; try discriminate Hr; simpl in Hc.
  - injection Hr as <-. eapply (release_behind t); [reflexivity|done|by split|done].
  - destruct (k_leaving k); injection Hr as <-; [apply Hgone; naive_solver|apply drop_behind].
  - injection Hr as <-. apply Hgone; [done..|]. apply Hs. by rewrite <- Hl.
  - injection Hr as <-. apply drop_behind.
  - injection Hr as <-. eapply same_legs; [exact Hn|done..|]. simpl. split; [done|]. unfold supervised. simpl.
    intros _ []. by rewrite decide_False.
  - destruct p as [p|]; [|injection Hr as <-; apply end_msc_only; by left].
    case_decide; [|done]. injection Hr as <-. by eapply same_legs.
  - injection Hr as <-. by eapply same_legs.
  - destruct p as [p|]; [|injection Hr as <-; apply end_msc_only; by left].
    case_decide; [|done]. injection Hr as <-. by eapply same_legs.
  - destruct p as [p|]; injection Hr as <-; by eapply same_legs.
  - destruct p as [p|]; injection Hr as <-; [by eapply same_legs|]. apply (end_msc_behind t [_] _). by left.
  - injection Hr as <-. eapply same_legs; [exact Hn|by destruct p|done..].
  - injection Hr as <-. by eapply same_legs.
  - destruct (k_leaving k) eqn:Hkl; injection Hr as <-; eapply same_legs; try exact Hn; try done.
    simpl. rewrite Hkl. done.
  - destruct (k_leaving k) eqn:Hkl; [injection Hr as <-; by eapply same_legs|].
    destruct media; injection Hr as <-; [by eapply same_legs|].
    pose proof (end_sip_settles t (Sides (Some k) p)) as Hset. destruct (end_sip _) as [o a1]. by apply end_msc_behind.
Qed.

Lemma react_sip_behind t p a e r : at_sip a = Some p -> nobody_behind t a -> clean a e = true ->
  react_sip p a e = Some r -> leaves_nobody t r.
Proof using.
  intros Hp Hn Hc Hr.
  assert (forall o a', asked o = false -> at_msc a' = at_msc a -> (exists p', at_sip a' = Some p') -> leaves_nobody t (o, a')) as Hsame.
  { intros o a' Ho Hm [p' Hp']. eapply same_legs; [exact Hn|done|by rewrite Hp, Hp'|]. rewrite Hm. by destruct (at_msc a). }
  assert (forall o a', at_msc a' = at_msc a -> at_sip a' = None -> leaving a = true -> leaves_nobody t (o, a')) as Hgone.
  { intros o a' Hm Hp' Hl. unfold leaves_nobody, nobody_behind, settled, leaving in *. simpl. rewrite Hm, Hp'.
    destruct (at_msc a) as [k|]; [|by left]. destruct Hn as [Hn _]. split; [|done]. intros Hk. split; [by left|by apply Hn]. }
  destruct a as [k po]. simpl in Hp. subst po.
  destruct e; simpl in Hr; try discriminate Hr; unfold clean in Hc; simpl in Hc.
  - injection Hr as <-. apply Hsame; [by destruct k, media|done|by eexists].
  - assert (bool_decide (p_state p = SIP_CC_CONNECTED \/ p_state p = SIP_CC_HOLD) = false ->
      match k with
      | None => Some ([Cancel], confirms (Sides k (Some p)))
      | Some _ => if usable then Some ([ToMscRtp MNCC_RTP_CONNECT; ToMsc MNCC_SETUP_RSP; Ack],
                    waits (Some MNCC_SETUP_COMPL_IND) (dialog SIP_CC_CONNECTED (Sides k (Some p))))
                  else Some (also ([Cancel], confirms (Sides k (Some p))) end_msc)
      end = Some r -> leaves_nobody t r) as Hnew.
    { intros Hst Hr'. destruct k as [k|].
      - destruct usable; injection Hr' as <-.
        + rewrite Hst in Hc. destruct (k_leaving k) eqn:Hkl; [done|].
          unfold leaves_nobody, nobody_behind. simpl. rewrite Hkl. done.
        + apply end_msc_behind. right. apply orb_true_r.
      - injection Hr' as <-. unfold leaves_nobody, nobody_behind. simpl. right. apply orb_true_r. }
    destruct (p_state p); try (by apply Hnew); injection Hr as <-; by apply Hsame; [..|eexists].
  - injection Hr as <-. apply end_msc_behind. by left.
  - injection Hr as <-. apply Hsame; [done|done|by eexists].
  - injection Hr as <-. apply end_msc_behind. by left.
  - injection Hr as <-. by apply Hgone.
  - destruct k as [k|].
    + destruct o as [| | |[]]; injection Hr as <-; try (by apply Hsame; [..|eexists]). by apply Hgone.
    + injection Hr as <-. pose proof (end_sip_settles t (Sides None (Some p))) as Hset.
      pose proof (end_sip_msc (Sides None (Some p))) as Hm. unfold leaves_nobody, nobody_behind. by rewrite Hm.
  - injection Hr as <-. apply Hsame; [done|done|by eexists].
Qed.

Lemma react_behind t a e r : nobody_behind t a -> clean a e = true -> react a e = Some r -> leaves_nobody t r.
Proof using.
  intros Hn Hc Hr. unfold react in Hr. destruct (of_msc e) eqn:He.
  - destruct (at_msc a) as [k|] eqn:Hk; [|by destruct e].
    destruct e; simpl in Hr; try (by eapply react_msc_behind); try done.
    destruct (k_waits k); [|done]. injection Hr as <-. apply drop_behind.
  - destruct (at_sip a) as [p|] eqn:Hp; destruct e; simpl in Hr; try done; by eapply react_sip_behind.
Qed.

(** Each of them does leave a side behind, in whatever state the two sides are. *)
Lemma unclean_leaves_behind a k p e : at_msc a = Some k -> at_sip a = Some p -> clean a e = false ->
  exists o a', react a e = Some (o, a') /\ ~ nobody_behind (asked o) a'.
Proof using.
  destruct a as [ko po]. simpl. intros -> -> Hc. destruct e; simpl in Hc; try discriminate Hc.
  - eexists _, _. split; [done|]. unfold leaving in Hc. unfold nobody_behind, settled. simpl. naive_solver.
  - destruct usable; [|done]. simpl. destruct (p_state p) eqn:Hp; simpl in Hc; try done;
      apply negb_false_iff in Hc; (eexists _, _; split; [done|]; unfold nobody_behind, supervised; simpl; rewrite Hc; naive_solver).
  - eexists _, _. split; [done|]. unfold leaving in Hc. unfold nobody_behind, settled. simpl in *. rewrite Hc. naive_solver.
  - destruct o; try done. eexists _, _. split; [done|]. unfold leaving in Hc. unfold nobody_behind, settled. simpl in *.
    rewrite Hc. naive_solver.
Qed.

(** The machine has no reaction for a missing leg, and for the two events when the SIP
    leg did not place the call. *)
Lemma react_none a e : about_leg a e -> no_caller_wanted a [e] -> is_Some (react a e).
Proof using.
  unfold about_leg, no_caller_wanted. intros Ha Hd. simpl in Hd. rewrite orb_false_r in Hd. destruct (of_msc e) eqn:Hm.
  - destruct Ha as (k & Hk & Ht). unfold react. rewrite Hm, Hk. simpl.
    destruct e; simpl in *; try done; try (by eexists).
    all: lazymatch goal with |- context [k_waits] => destruct (k_waits k) eqn:?; simpl; [by eexists|exfalso; by apply Ht] | _ => idtac end.
    all: repeat case_match; try (by eexists).
    all: destruct Hd as [Hd|]; [|done]; by (simplify_eq; edestruct Hd).
  - destruct Ha as [p Hp]. unfold react. rewrite Hm, Hp. simpl.
    destruct e; simpl in *; try done; try (by eexists); repeat case_match; by eexists.
Qed.

(** A reaction keeps the direction of the SIP leg. *)
Definition same_dir (a a' : sides) : Prop :=
  forall p', at_sip a' = Some p' -> exists p, at_sip a = Some p /\ p_dir p' = p_dir p.
Lemma end_sip_dir a : same_dir a (snd (end_sip a)).
Proof using. destruct a as [k [[st d c]|]]; [|by intros ?]. destruct st, d; simpl; intros ?; naive_solver. Qed.
Lemma end_msc_dir a : same_dir a (snd (end_msc a)).
Proof using. destruct a as [[[st d l t]|] p]; [|by eexists]. destruct st, d; by eexists. Qed.
Lemma same_dir_trans a1 a2 a3 : same_dir a1 a2 -> same_dir a2 a3 -> same_dir a1 a3.
Proof using. unfold same_dir. intros H1 H2 p (q & Hq & ->)%H2. apply H1, Hq. Qed.

Lemma no_msc_dir a : same_dir a (no_msc a).
Proof using. intros p' Hp. by eexists. Qed.
Lemma also_dir x r f o a' : same_dir x (snd r) -> (forall a, same_dir a (snd (f a))) -> also r f = (o, a') -> same_dir x a'.
Proof using.
  intros Hx Hf Ha. apply (f_equal snd) in Ha. simpl in Ha. subst a'. destruct r as [o1 a1]. unfold also.
  specialize (Hf a1). destruct (f a1) as [o2 a2]. by eapply same_dir_trans.
Qed.
Lemma react_dir a e o a' : react a e = Some (o, a') -> same_dir a a'.
Proof using.
  unfold react. intros Hr. destruct a as [k p].
  destruct k as [[st d l t]|], p as [[sp dp cp]|], e; cbn -[also end_sip end_msc no_msc] in Hr; try done.
  all: try (injection Hr as <- <-; intros ? [= <-]; by eexists).
  all: repeat case_match; simplify_eq; cbn -[also end_sip end_msc no_msc] in *.
  all: try (destruct t; [|done]; apply (inj Some) in Hr).
  all: first [eapply also_dir; [|apply end_msc_dir|eassumption]
             |eapply also_dir; [|apply end_sip_dir|eassumption]
             |eapply also_dir; [| |eassumption]; [|intros ?; apply no_msc_dir]
             |match goal with H : end_sip ?x = _ |- _ => pose proof (end_sip_dir x) as Hx; by rewrite H in Hx end
             |match goal with H : end_msc ?x = _ |- _ => pose proof (end_msc_dir x) as Hx; by rewrite H in Hx end
             |idtac].
  all: try (eapply same_dir_trans; [|apply end_sip_dir]).
  all: try (intros ? Hx; cbn in Hx; first [discriminate Hx|injection Hx as <-; by eexists]).
Qed.

(** Clean events, none of which crashes. *)
Lemma cleanly_run es : forall a, cleanly a es = true -> is_Some (reacts a es) -> clean_run a es = true.
Proof using.
  induction es as [|e es IH]; intros a Hc Hr; simpl in *; [done|]. apply andb_true_iff in Hc as [-> Hc].
  destruct (react a e) as [[o a1]|]; simpl in *; [|by destruct Hr]. apply IH; [done|].
  destruct (reacts a1 es) as [[? ?]|]; simpl in *; [by eexists|by destruct Hr].
Qed.

(** However a call ends, as long as the events are clean: when the leg of the MSC is
    gone the SIP peer has been asked to end what is left of the dialog, and when
    the SIP leg is gone the MSC has been asked to release, with the timer armed. *)
Lemma no_side_forgotten a es o a' : leaving a = false -> at_sip a <> None -> clean_run a es = true ->
  reacts a es = Some (o, a') -> nobody_behind (asked o) a'.
Proof using.
  intros Hl Hp. assert (nobody_behind false a) as Hn.
  { unfold nobody_behind, leaving in *. destruct (at_msc a) as [k|]; [|done]. rewrite Hl. split; [done|]. by intros ?. }
  clear Hl Hp. change (asked o) with (false || asked o). revert Hn. generalize false as t. revert a o.
  induction es as [|e es IH]; intros a o t Hn Hc Hr; simpl in *; [injection Hr as <- <-; by rewrite orb_false_r|].
  apply andb_true_iff in Hc as [Hc Hcs]. destruct (react a e) as [[o1 a1]|] eqn:He; [|done]. simpl in Hr.
  destruct (reacts a1 es) as [[o2 a2]|] eqn:Hes; [|done]. injection Hr as <- <-. rewrite asked_app, orb_assoc.
  eapply IH; [|done|done]. exact (react_behind t a e _ Hn Hc He).
Qed.
End machine.
