(* ===== verification/Local.v ===== *)
(** * One call of the store, and computing with it

    [holds q w]: the store [w] has a call with the MNCC leg and the SIP leg that
    [q] records, or what is left of them; its timer is armed or not, and so much
    was sent.  [does q f a q']: from every such store the computation [f] returns
    [a] in a store that holds [q'].  There is a rule per primitive, so that a
    handler is run on the two legs of a call as on values. *)
From S2P Require Import Prelude Effect Codec Protocol Lib State Skel Rules Call Sdp SipLeg MnccConn App MnccRx SipUa CallFlow Stranded Bridge.

(** ** Definitions *)

(** The pointers and names of a call; [id_first]: the MNCC leg is [initial]. *)
Record ids := Ids { id_call : ptr; id_m : ptr; id_s : ptr; id_h : handle; id_cr : Z; id_first : bool }.

Record local := Local {
  lc_m : option (call_leg * mncc_leg);
  lc_s : option (call_leg * sip_leg);
  lc_timer : bool;
  lc_out : list action }.

Definition mleg (bm : call_leg * mncc_leg) : leg := Leg (fst bm) (XMncc (snd bm)).
Definition sleg (bx : call_leg * sip_leg) : leg := Leg (fst bx) (XSip (snd bx)).
Definition end_of {A} (p : ptr) (o : option A) : option ptr := match o with Some _ => Some p | None => None end.
Definition ends (k : ids) (q : local) : option (option ptr * option ptr) :=
  match lc_m q, lc_s q with
  | None, None => None
  | m, s => Some (if id_first k then (end_of (id_m k) m, end_of (id_s k) s)
                  else (end_of (id_s k) s, end_of (id_m k) m))
  end.

(** No other call has the number [cr]. *)
Definition number_unique (w : world) (c : ptr) (cr : Z) : Prop :=
  forall c' cl, calls w !! c' = Some cl -> c' <> c -> call_id cl <> cr.

Record holds (k : ids) (q : local) (w : world) : Prop := {
  h_wf : wf w;
  h_ready : cn_state (conn w) = MNCC_READY;
  h_ne : id_m k <> id_s k;
  h_m : legs w !! id_m k = mleg <$> lc_m q;
  h_s : legs w !! id_s k = sleg <$> lc_s q;
  h_mid : forall b m, lc_m q = Some (b, m) -> lg_call b = id_call k /\ m_callref m = id_cr k;
  h_sid : forall b x, lc_s q = Some (b, x) -> lg_call b = id_call k /\ s_handle x = Some (id_h k);
  h_call : sk_calls (sk w) !! id_call k = ends k q;
  h_unique : callref_unique w (id_m k) (id_cr k);
  h_number : number_unique w (id_call k) (id_cr k);
  h_below : (id_m k < next_ptr w /\ id_s k < next_ptr w /\ id_call k < next_ptr w)%positive;
  h_timer : id_m k ∈ timers w <-> lc_timer q = true;
  h_out : out w = lc_out q }.

(** A change of a leg's base that moves it nowhere. *)
Definition same_place (b b' : call_leg) : Prop := lg_type b' = lg_type b /\ lg_call b' = lg_call b /\ ops b' = ops b.

Section does.
Context {E : Env} {HE : EnvLaws E} {HW : WritesOk E} (k : ids).

Definition does {A} (q : local) (f : MW A) (a : A) (q' : local) : Prop :=
  forall w, holds k q w -> exists w', f w = Ret a w' /\ holds k q' w'.

Lemma does_bind {A B} q (f : MW A) a q1 (g : A -> MW B) b q2 :
  does q f a q1 -> does q1 (g a) b q2 -> does q (bind f g) b q2.
Proof using.
  intros Hf Hg w Hw. destruct (Hf w Hw) as (w1 & Hr & Hw1). destruct (Hg w1 Hw1) as (w2 & Hr2 & Hw2).
  exists w2. split; [|done]. unfold bind. by rewrite Hr.
Qed.
Lemma does_ret {A} q (a : A) : does q (ret a) a q.
Proof using. intros w Hw. by exists w. Qed.
Lemma does_some_or {A} q f (a : A) : does q (some_or f (Some a)) a q.
Proof using. apply does_ret. Qed.

(** ** What a store that holds a call tells *)
Lemma h_fd q w : holds k q w -> 0 <= cn_fd (conn w).
Proof using.
  intros H. destruct (Z.leb_spec 0 (cn_fd (conn w))) as [|Hn]; [done|].
  apply (co_state _ (w_conn w (h_wf _ _ _ H))) in Hn. rewrite (h_ready _ _ _ H) in Hn. done.
Qed.

Lemma h_mleg b m s t o w : holds k (Local (Some (b, m)) s t o) w -> legs w !! id_m k = Some (Leg b (XMncc m)).
Proof using. intros H. apply (h_m _ _ _ H). Qed.
Lemma h_sleg m b x t o w : holds k (Local m (Some (b, x)) t o) w -> legs w !! id_s k = Some (Leg b (XSip x)).
Proof using. intros H. apply (h_s _ _ _ H). Qed.

(** The callbacks of the legs. *)
Lemma h_mops b m s t o w : holds k (Local (Some (b, m)) s t o) w -> lg_type b = CALL_TYPE_MNCC /\ ops b = mncc_leg_ops.
Proof using.
  intros H. pose proof (h_wf _ _ _ H) as Hw.
  assert (sk_legs (sk w) !! id_m k = Some (shape (Leg b (XMncc m)))) as Hsl by (simpl; by rewrite lookup_fmap, (h_mleg _ _ _ _ _ _ H)).
  split; [apply (wf_leg _ (w_sk w Hw) _ _ Hsl)|].
  exact (leg_established _ (w_sk w Hw) _ _ (m_dir m) (m_callref m) Hsl eq_refl).
Qed.
Lemma h_sops m b x t o w : holds k (Local m (Some (b, x)) t o) w ->
  lg_type b = CALL_TYPE_SIP /\ ops b = match s_dir x with SIP_DIR_MO => sip_mo_ops | SIP_DIR_MT => sip_mt_ops end.
Proof using.
  intros H. pose proof (h_wf _ _ _ H) as Hw. destruct (h_sid _ _ _ H b x eq_refl) as [_ Hh].
  assert (sk_legs (sk w) !! id_s k = Some (shape (Leg b (XSip x)))) as Hsl by (simpl; by rewrite lookup_fmap, (h_sleg _ _ _ _ _ _ H)).
  split; [apply (wf_leg _ (w_sk w Hw) _ _ Hsl)|].
  destruct (wf_leg _ (w_sk w Hw) _ _ Hsl) as (_ & [He|[_ Hn]] & _).
  - unfold established in He. simpl in He. destruct (s_dir x); apply He.
  - simpl in Hn. congruence.
Qed.

(** ** Updates of the store that keep the call *)
Lemma set_leg_wf w l x y : wf w -> legs w !! l = Some x -> shape y = shape x -> wf (set_legs (<[l := y]>) w).
Proof using.
  intros Hw Hl Hs. apply (st_wf (sk w) (conn w)); [|apply Hw..].
  eapply st_upd_leg; [by apply wf_st| |done]. simpl. by rewrite lookup_fmap, Hl.
Qed.

Lemma same_place_mshape b b' m m' : same_place b b' -> m_callref m' = m_callref m -> m_dir m' = m_dir m ->
  shape (Leg b' (XMncc m')) = shape (Leg b (XMncc m)).
Proof using. intros (H1 & H2 & H3) Hc Hd. unfold shape. simpl. congruence. Qed.
Lemma same_place_sshape b b' x x' : same_place b b' -> s_handle x' = s_handle x -> s_dir x' = s_dir x ->
  shape (Leg b' (XSip x')) = shape (Leg b (XSip x)).
Proof using. intros (H1 & H2 & H3) Hc Hd. unfold shape. simpl. congruence. Qed.

Lemma holds_set_m b m s t o w b' m' : holds k (Local (Some (b, m)) s t o) w ->
  same_place b b' -> m_callref m' = m_callref m -> m_dir m' = m_dir m ->
  holds k (Local (Some (b', m')) s t o) (set_legs (<[id_m k := Leg b' (XMncc m')]>) w).
Proof using.
  intros H Hp Hc Hd. pose proof (same_place_mshape b b' m m' Hp Hc Hd) as Hsh. pose proof (h_mleg _ _ _ _ _ _ H) as Hl.
  destruct (h_mid _ _ _ H b m eq_refl) as [Hcall Hcr]. simpl in *. split; simpl; try apply H.
  - by eapply set_leg_wf; [apply H|..].
  - apply lookup_insert_eq.
  - rewrite lookup_insert_ne by apply H. apply H.
  - intros b0 m0 [= <- <-]. destruct Hp as (_ & -> & _). by rewrite Hc.
  - intros l' b0 m0 Hl' Hm0. destruct (decide (l' = id_m k)) as [->|]; [done|].
    simpl in Hl'. rewrite lookup_insert_ne in Hl' by done. by eapply (h_unique _ _ _ H).
Qed.

Lemma holds_set_s m b x t o w b' x' : holds k (Local m (Some (b, x)) t o) w ->
  same_place b b' -> s_handle x' = s_handle x -> s_dir x' = s_dir x ->
  holds k (Local m (Some (b', x')) t o) (set_legs (<[id_s k := Leg b' (XSip x')]>) w).
Proof using.
  intros H Hp Hc Hd. pose proof (same_place_sshape b b' x x' Hp Hc Hd) as Hsh. pose proof (h_sleg _ _ _ _ _ _ H) as Hl.
  destruct (h_sid _ _ _ H b x eq_refl) as [Hcall Hh]. simpl in *. split; simpl; try apply H.
  - by eapply set_leg_wf; [apply H|..].
  - rewrite lookup_insert_ne by (pose proof (h_ne _ _ _ H); congruence). apply H.
  - apply lookup_insert_eq.
  - intros b0 x0 [= <- <-]. destruct Hp as (_ & -> & _). by rewrite Hc.
  - intros l' b0 m0 Hl' Hm0. simpl in Hl'. destruct (decide (l' = id_s k)) as [->|]; [by rewrite lookup_insert_eq in Hl'|].
    rewrite lookup_insert_ne in Hl' by done. by eapply (h_unique _ _ _ H).
Qed.

Lemma holds_set_out m s t o w o' : holds k (Local m s t o) w ->
  holds k (Local m s t (o ++ o')) (set_out (fun x => x ++ o') w).
Proof using.
  intros H. split; simpl; try apply H.
  - apply (st_wf (sk w) (conn w)); [apply (st_set_out (wf_st w (h_wf _ _ _ H)))|apply (h_wf _ _ _ H)..].
  - by rewrite (h_out _ _ _ H).
Qed.

Lemma holds_tick m s t o w : holds k (Local m s t o) w -> holds k (Local m s t o) (set_n_io S w).
Proof using.
  intros H. split; simpl; try apply H.
  apply (st_wf (sk w) (conn w)); [apply (st_set_n_io (wf_st w (h_wf _ _ _ H)))|apply (h_wf _ _ _ H)..].
Qed.

Lemma holds_timer m s t o w (t' : bool) f : holds k (Local (Some m) s t o) w ->
  (forall l, l ∈ f (timers w) -> l = id_m k \/ l ∈ timers w) -> (id_m k ∈ f (timers w) <-> t' = true) ->
  holds k (Local (Some m) s t' o) (set_timers f w).
Proof using.
  intros H Hf Ht. destruct m as [b m]. split; simpl; try apply H; [|done].
  apply (st_wf (sk w) (conn w)); [|apply (h_wf _ _ _ H)..]. apply st_set_timers; [apply wf_st, H|].
  intros l [->|Hl]%Hf; [|by apply (w_timers w (h_wf _ _ _ H))].
  exists (shape (Leg b (XMncc m))). simpl. by rewrite lookup_fmap, (h_mleg _ _ _ _ _ _ H).
Qed.

(** ** Rules *)
Lemma does_read {A} q (f : MW A) a : (forall w, holds k q w -> f w = Ret a w) -> does q f a q.
Proof using. intros Hf w Hw. exists w. by rewrite (Hf w Hw). Qed.

Lemma does_deref_m b m s t o : does (Local (Some (b, m)) s t o) (deref_leg (id_m k)) (Leg b (XMncc m)) (Local (Some (b, m)) s t o).
Proof using. apply does_read. intros w Hw. apply deref_leg_eq, (h_mleg _ _ _ _ _ _ Hw). Qed.
Lemma does_deref_s m b x t o : does (Local m (Some (b, x)) t o) (deref_leg (id_s k)) (Leg b (XSip x)) (Local m (Some (b, x)) t o).
Proof using. apply does_read. intros w Hw. apply deref_leg_eq, (h_sleg _ _ _ _ _ _ Hw). Qed.
Lemma does_as_mncc b m s t o : does (Local (Some (b, m)) s t o) (as_mncc (id_m k)) m (Local (Some (b, m)) s t o).
Proof using. apply does_read. intros w Hw. eapply as_mncc_eq, (h_mleg _ _ _ _ _ _ Hw). Qed.
Lemma does_as_sip m b x t o : does (Local m (Some (b, x)) t o) (as_sip (id_s k)) x (Local m (Some (b, x)) t o).
Proof using. apply does_read. intros w Hw. eapply as_sip_eq, (h_sleg _ _ _ _ _ _ Hw). Qed.
Lemma does_gets_conn {A} q (g : mncc_connection -> MW A) a q' :
  (forall cn, cn_state cn = MNCC_READY -> does q (g cn) a q') -> does q (bind (gets conn) g) a q'.
Proof using. intros Hg w Hw. apply (Hg (conn w) (h_ready _ _ _ Hw) w Hw). Qed.

Lemma does_upd_mbase b m s t o f : same_place b (f b) ->
  does (Local (Some (b, m)) s t o) (upd_base (id_m k) f) tt (Local (Some (f b, m)) s t o).
Proof using.
  intros Hp w Hw. eexists. split; [eapply upd_base_eq, (h_mleg _ _ _ _ _ _ Hw)|]. by eapply holds_set_m.
Qed.
Lemma does_upd_sbase m b x t o f : same_place b (f b) ->
  does (Local m (Some (b, x)) t o) (upd_base (id_s k) f) tt (Local m (Some (f b, x)) t o).
Proof using.
  intros Hp w Hw. eexists. split; [eapply upd_base_eq, (h_sleg _ _ _ _ _ _ Hw)|]. by eapply holds_set_s.
Qed.
Lemma same_place_refl b : same_place b b.
Proof using. done. Qed.
Lemma does_upd_mncc b m s t o f : m_callref (f m) = m_callref m -> m_dir (f m) = m_dir m ->
  does (Local (Some (b, m)) s t o) (upd_mncc (id_m k) f) tt (Local (Some (b, f m)) s t o).
Proof using.
  intros Hc Hd w Hw. eexists. split; [eapply upd_mncc_eq, (h_mleg _ _ _ _ _ _ Hw)|]. by eapply holds_set_m.
Qed.
Lemma does_upd_sip m b x t o f : s_handle (f x) = s_handle x -> s_dir (f x) = s_dir x ->
  does (Local m (Some (b, x)) t o) (upd_sip (id_s k) f) tt (Local m (Some (b, f x)) t o).
Proof using.
  intros Hc Hd w Hw. eexists. split; [eapply upd_sip_eq, (h_sleg _ _ _ _ _ _ Hw)|]. by eapply holds_set_s.
Qed.
Lemma does_emit m s t o a : does (Local m s t o) (emit a) tt (Local m s t (o ++ [a])).
Proof using. intros w Hw. eexists. split; [reflexivity|]. by apply holds_set_out. Qed.
Lemma does_schedule m s t o : does (Local (Some m) s t o) (timer_schedule (id_m k)) tt (Local (Some m) s true o).
Proof using.
  intros w Hw. destruct m as [b m]. eexists. split; [eapply timer_schedule_eq, (h_mleg _ _ _ _ _ _ Hw)|].
  apply (holds_timer _ _ t); [done|clear; set_solver..].
Qed.
Lemma does_timer_del m s t o : does (Local (Some m) s t o) (timer_del (id_m k)) tt (Local (Some m) s false o).
Proof using.
  intros w Hw. destruct m as [b m]. eexists. split.
  - unfold timer_del. run_step (deref_leg_eq w _ _ (h_mleg _ _ _ _ _ _ Hw)). reflexivity.
  - apply (holds_timer _ _ t); [done|clear; set_solver..].
Qed.
Lemma does_write m s t o msg : does (Local m s t o) (mncc_write disconnected msg) sizeof_gsm_mncc
  (Local m s t (o ++ [TxMncc msg sizeof_gsm_mncc])).
Proof using HW.
  intros w Hw. pose proof (mncc_write_wrote disconnected w msg) as H. apply wp_returns in H as (rc & w1 & Hrun & -> & Hrc).
  rewrite (Hrc (h_fd _ _ Hw)) in Hrun. eexists. split; [exact Hrun|]. by apply holds_set_out, holds_tick.
Qed.
Lemma does_rtp_write m s t o r : does (Local m s t o) (mncc_rtp_write disconnected r) sizeof_rtp
  (Local m s t (o ++ [TxRtp r sizeof_rtp])).
Proof using HW.
  intros w Hw. pose proof (mncc_rtp_write_wrote disconnected w r) as H. apply wp_returns in H as (rc & w1 & Hrun & -> & Hrc).
  rewrite (Hrc (h_fd _ _ Hw)) in Hrun. eexists. split; [exact Hrun|]. by apply holds_set_out, holds_tick.
Qed.

(** ** The other leg, and finding the legs *)
Lemma h_calls q w i r : holds k q w -> ends k q = Some (i, r) ->
  exists cl, calls w !! id_call k = Some cl /\ initial cl = i /\ remote cl = r.
Proof using.
  intros H He. pose proof (h_call _ _ _ H) as Hc. rewrite He in Hc. simpl in Hc.
  apply fmap_lookup_inv in Hc as (cl & Hcl & Hs). exists cl. unfold call_shape in Hs. by injection Hs as -> ->.
Qed.

Lemma does_other_m b m s t o :
  does (Local (Some (b, m)) s t o) (call_leg_other (id_m k)) (end_of (id_s k) s) (Local (Some (b, m)) s t o).
Proof using.
  apply does_read. intros w H. pose proof (h_mleg _ _ _ _ _ _ H) as Hl. destruct (h_mid _ _ _ H b m eq_refl) as [Hc _].
  pose proof (h_ne _ _ _ H) as Hne. destruct (id_first k) eqn:Hf.
  - edestruct (h_calls _ w (Some (id_m k)) (end_of (id_s k) s) H) as (cl & Hcl & Hi & Hr); [unfold ends; simpl; by rewrite Hf|].
    rewrite <- Hr. by apply (call_leg_other_initial w _ _ cl Hl); [simpl; rewrite Hc|].
  - edestruct (h_calls _ w (end_of (id_s k) s) (Some (id_m k)) H) as (cl & Hcl & Hi & Hr); [unfold ends; simpl; by rewrite Hf|].
    rewrite <- Hi. apply (call_leg_other_remote w _ _ cl Hl); [simpl; by rewrite Hc| |done].
    rewrite Hi. destruct s; simpl; congruence.
Qed.
Lemma does_other_s m b x t o :
  does (Local m (Some (b, x)) t o) (call_leg_other (id_s k)) (end_of (id_m k) m) (Local m (Some (b, x)) t o).
Proof using.
  apply does_read. intros w H. pose proof (h_sleg _ _ _ _ _ _ H) as Hl. destruct (h_sid _ _ _ H b x eq_refl) as [Hc _].
  pose proof (h_ne _ _ _ H) as Hne. destruct (id_first k) eqn:Hf.
  - edestruct (h_calls _ w (end_of (id_m k) m) (Some (id_s k)) H) as (cl & Hcl & Hi & Hr); [unfold ends; simpl; destruct m; by rewrite Hf|].
    rewrite <- Hi. apply (call_leg_other_remote w _ _ cl Hl); [simpl; by rewrite Hc| |done].
    rewrite Hi. destruct m; simpl; congruence.
  - edestruct (h_calls _ w (Some (id_s k)) (end_of (id_m k) m) H) as (cl & Hcl & Hi & Hr); [unfold ends; simpl; destruct m; by rewrite Hf|].
    rewrite <- Hr. by apply (call_leg_other_initial w _ _ cl Hl); [simpl; rewrite Hc|].
Qed.

Lemma does_find_m b m s t o :
  does (Local (Some (b, m)) s t o) (mncc_find_leg (id_cr k)) (Some (id_m k)) (Local (Some (b, m)) s t o).
Proof using.
  apply does_read. intros w H. destruct (h_mid _ _ _ H b m eq_refl) as [_ Hcr]. rewrite <- Hcr.
  apply (find_leg_unique w _ b m (h_wf _ _ _ H) (h_mleg _ _ _ _ _ _ H)). rewrite Hcr. apply H.
Qed.

Lemma does_fill_cause b m s t o ty : ty = MNCC_DISC_REQ \/ ty = MNCC_REL_REQ ->
  does (Local (Some (b, m)) s t o) (mncc_fill_header gsm_mncc0 ty (m_callref m)) (with_cause ty (m_callref m) (cause b))
       (Local (Some (b, m)) s t o).
Proof using.
  intros Ht. apply does_read. intros w H. destruct (h_mid _ _ _ H b m eq_refl) as [_ Hcr]. apply (fill_header_cause w (id_m k) b m ty (h_wf _ _ _ H) (h_mleg _ _ _ _ _ _ H)); [|done].
  rewrite Hcr. apply H.
Qed.

Lemma h_nua m b x t o w : holds k (Local m (Some (b, x)) t o) w -> nua w !! id_h k = Some (id_s k).
Proof using.
  intros H. destruct (h_sid _ _ _ H b x eq_refl) as [_ Hh].
  apply (wf_handle _ (w_sk w (h_wf _ _ _ H)) (id_s k) (shape (Leg b (XSip x))) (s_dir x) (id_h k)); simpl.
  - by rewrite lookup_fmap, (h_sleg _ _ _ _ _ _ H).
  - by rewrite Hh.
Qed.
Lemma does_the_leg m b x t o : does (Local m (Some (b, x)) t o) (the_leg (id_h k)) (id_s k) (Local m (Some (b, x)) t o).
Proof using.
  apply does_read. intros w H. unfold the_leg, bind, gets, some_or, ret. by rewrite (h_nua _ _ _ _ _ _ H).
Qed.
Lemma does_sip_find m b x t o :
  does (Local m (Some (b, x)) t o) (sip_find_leg (id_h k)) (Some (id_s k)) (Local m (Some (b, x)) t o).
Proof using.
  apply does_read. intros w H. pose proof (h_wf _ _ _ H) as Hw.
  pose proof (sip_find_leg_st _ _ (w_sk w Hw) (id_h k) w (wf_st w Hw)) as Hf.
  apply wp_returns in Hf as (r & w' & -> & -> & ->). f_equal. exact (h_nua _ _ _ _ _ _ H).
Qed.

(** ** A leg that goes *)

(** What releasing a leg does to the store. *)
Lemma release_within (I : world -> Prop) l :
  (forall w c cl cl', I w -> calls w !! c = Some cl -> call_id cl' = call_id cl -> I (set_calls (<[c := cl']>) w)) ->
  (forall w g, I w -> (forall x, g x ⊆ x) -> I (set_calls g w)) ->
  (forall w g, I w -> (forall x, g x ⊆ x) -> I (set_legs g w)) ->
  (forall w g, I w -> I (set_g_call_list g w)) -> within I (call_leg_release l) (fun _ => True).
Proof using.
  intros Hc Hcs Hls Hg.
  assert (forall c, within I (deref_call c) (fun _ => True)) as Hdc.
  { intros c. eapply within_bind; [by apply (within_gets _ id (fun _ => True))|]. intros w _. by apply within_some_or. }
  assert (forall c, within I (deref_leg c) (fun _ => True)) as Hdl.
  { intros c. eapply within_bind; [by apply (within_gets _ id (fun _ => True))|]. intros w _. by apply within_some_or. }
  assert (forall g, (forall x, g x ⊆ x) -> within I (modify (set_legs g)) (fun _ => True)) as Hm.
  { intros g Hs. apply within_modify; [|done]. intros w Hw. by apply Hls. }
  assert (forall c f, (forall cl, call_id (f cl) = call_id cl) -> within I (upd_call c f) (fun _ => True)) as Hu.
  { intros c f Hf w Hw. unfold upd_call, deref_call, bind, gets, modify. simpl.
    destruct (calls w !! c) as [cl|] eqn:Hcl; [|done]. simpl. split; [|done]. by eapply Hc. }
  unfold call_leg_release. eapply within_bind; [apply Hdl|]. intros x _. cbv zeta.
  eapply within_bind; [apply Hdc|]. intros cl _.
  repeat case_decide; [..|by apply within_ret].
  all: eapply within_bind; [by apply Hu|]; intros _ _; eapply within_bind;
    [eapply within_bind; [apply Hdl|]; intros y _; apply Hm; intros g; apply delete_subseteq|];
    intros _ _; eapply within_bind; [apply Hdc|]; intros cl' _;
    destruct (initial cl'), (remote cl'); try by apply within_ret.
  all: eapply within_bind; [apply (within_modify _ _ (fun _ => True)); [|done]; intros w Hw; by apply Hg|]; intros _ _;
    eapply within_bind; [apply Hdc|]; intros _ _;
    eapply within_bind; [apply (within_modify _ _ (fun _ => True)); [|done]; intros w Hw; apply Hcs; [done|]; intros g; apply delete_subseteq|];
    intros _ _; apply Hm; intros g; apply map_filter_subseteq.
Qed.

(** Releasing a leg writes no leg and renumbers no call. *)
Definition fewer (w0 w : world) : Prop :=
  legs w ⊆ legs w0 /\
  forall c cl, calls w !! c = Some cl -> exists cl0, calls w0 !! c = Some cl0 /\ call_id cl = call_id cl0.

Lemma release_fewer l w0 : within (fewer w0) (call_leg_release l) (fun _ => True).
Proof using.
  apply release_within; unfold fewer; simpl.
  - intros w c cl cl' [Hl Hc] Hcl Hid. split; [done|]. intros c' cl1 Hc1. destruct (decide (c' = c)) as [->|].
    + rewrite lookup_insert_eq in Hc1. injection Hc1 as <-. rewrite Hid. by apply Hc.
    + rewrite lookup_insert_ne in Hc1 by done. by apply Hc.
  - intros w g [Hl Hc] Hg. split; [done|]. intros c cl Hcl. eapply Hc, lookup_weaken; [exact Hcl|apply Hg].
  - intros w g [Hl Hc] Hg. split; [|done]. by etransitivity; [apply Hg|].
  - done.
Qed.
Lemma fewer_refl w : fewer w w.
Proof using. split; [done|]. eauto. Qed.

(** The store without leg [l]. *)
Lemma release_leaves w w' l sh : wf w -> sk_legs (sk w) !! l = Some sh -> st (sk_release l (sk w)) (conn w) w' ->
  legs w' ⊆ legs w ->
  wf w' /\ conn w' = conn w /\ legs w' = delete l (legs w) /\ sk_calls (sk w') = sk_calls (sk_release l (sk w)).
Proof using.
  intros Hw Hl Hst Hsub. pose proof (w_sk w Hw) as Hwf. split_and!.
  - eapply st_wf; [done|by eapply sk_release_wf|apply Hw].
  - apply (st_conn _ _ _ Hst).
  - pose proof (f_equal sk_legs (st_sk _ _ _ Hst)) as Hls. rewrite (sk_release_legs _ _ _ Hwf Hl) in Hls. simpl in Hls.
    rewrite <- fmap_delete in Hls. apply map_eq. intros l'. pose proof (f_equal (lookup l') Hls) as He.
    rewrite !lookup_fmap in He. destruct (legs w' !! l') as [x|] eqn:Hx; [|by destruct (delete l (legs w) !! l')].
    pose proof (lookup_weaken _ _ _ _ Hx Hsub) as Hw'. destruct (decide (l' = l)) as [->|Hne].
    + by rewrite lookup_delete_eq in He.
    + by rewrite lookup_delete_ne.
  - by rewrite (st_sk _ _ _ Hst).
Qed.

(** The call without leg [l]. *)
Lemma release_ends s l sh i r : wfsk s -> sk_legs s !! l = Some sh -> sk_calls s !! sh_call sh = Some (i, r) ->
  sk_calls (sk_release l s) !! sh_call sh =
    match unlink l i, unlink l r with None, None => None | i', r' => Some (i', r') end.
Proof using.
  intros Hwf Hl Hc. destruct (sk_release_cases s l sh Hwf Hl) as (i0 & r0 & Hc0 & _ & Hcase).
  assert (i0 = i /\ r0 = r) as [-> ->] by (split; congruence).
  destruct Hcase as [(-> & -> & ->)|[Hn ->]]; simpl; [apply lookup_delete_eq|rewrite lookup_insert_eq].
  destruct (unlink l i), (unlink l r); try done. by destruct Hn.
Qed.
Lemma unlink_self l : unlink l (Some l) = None.
Proof using. unfold unlink. by rewrite decide_True. Qed.
Lemma unlink_end {A} l l' (o : option A) : l <> l' -> unlink l (end_of l' o) = end_of l' o.
Proof using. intros Hne. unfold unlink. destruct o; simpl; [|by repeat case_decide]. rewrite decide_False; [done|]. congruence. Qed.

Lemma holds_drop_m b m s t o w w' o' : holds k (Local (Some (b, m)) s t o) w ->
  st (sk_release (id_m k) (sk w)) (conn w) w' -> fewer w w' -> out w' = out w ++ o' ->
  holds k (Local None s false (o ++ o')) w'.
Proof using.
  intros H Hst Hsub Hout. pose proof (h_wf _ _ _ H) as Hw. pose proof (h_mleg _ _ _ _ _ _ H) as Hl.
  destruct (h_mid _ _ _ H b m eq_refl) as [Hcall Hcr]. pose proof (h_ne _ _ _ H) as Hne.
  assert (sk_legs (sk w) !! id_m k = Some (shape (Leg b (XMncc m)))) as Hsl by (simpl; by rewrite lookup_fmap, Hl).
  destruct (release_leaves _ _ _ _ Hw Hsl Hst (proj1 Hsub)) as (Hw' & Hcn & Hls & Hcs).
  assert (next_ptr w' = next_ptr w) as Hnx.
  { rewrite (st_next Hst). by eapply sk_release_next; [apply Hw|]. }
  split; simpl.
  - done.
  - rewrite Hcn. apply H.
  - done.
  - rewrite Hls. apply lookup_delete_eq.
  - rewrite Hls, lookup_delete_ne by done. apply (h_s _ _ _ H).
  - done.
  - apply (h_sid _ _ _ H).
  - change (call_shape <$> calls w') with (sk_calls (sk w')). rewrite Hcs. rewrite <- Hcall.
    pose proof (h_call _ _ _ H) as Hc. rewrite <- Hcall in Hc. unfold ends in Hc |- *. simpl in Hc |- *.
    destruct (id_first k); pose proof (release_ends _ _ _ _ _ (w_sk w Hw) Hsl Hc) as Hr; simpl in Hr; rewrite Hr;
      rewrite unlink_self, (unlink_end _ _ s) by done; by destruct s.
  - intros l' b' m' Hl'. rewrite Hls in Hl'. apply lookup_delete_Some in Hl' as [_ Hl']. by eapply (h_unique _ _ _ H).
  - intros c cl Hc. destruct (proj2 Hsub _ _ Hc) as (cl0 & Hc0 & ->). by apply (h_number _ _ _ H).
  - rewrite Hnx. apply (h_below _ _ _ H).
  - split; [|done]. intros Hin. destruct (st_timers _ _ _ Hst _ Hin) as (sh & Hsh & _).
    by rewrite (sk_release_gone _ _ _ (w_sk w Hw) Hsl) in Hsh.
  - by rewrite Hout, (h_out _ _ _ H).
Qed.

Lemma holds_drop_s m b x t o w w' o' : holds k (Local m (Some (b, x)) t o) w ->
  st (sk_release (id_s k) (sk w)) (conn w) w' -> fewer w w' -> timers w' = timers w -> out w' = out w ++ o' ->
  holds k (Local m None t (o ++ o')) w'.
Proof using.
  intros H Hst Hsub Hts Hout. pose proof (h_wf _ _ _ H) as Hw. pose proof (h_sleg _ _ _ _ _ _ H) as Hl.
  destruct (h_sid _ _ _ H b x eq_refl) as [Hcall Hh]. pose proof (h_ne _ _ _ H) as Hne.
  assert (sk_legs (sk w) !! id_s k = Some (shape (Leg b (XSip x)))) as Hsl by (simpl; by rewrite lookup_fmap, Hl).
  destruct (release_leaves _ _ _ _ Hw Hsl Hst (proj1 Hsub)) as (Hw' & Hcn & Hls & Hcs).
  assert (next_ptr w' = next_ptr w) as Hnx.
  { rewrite (st_next Hst). by eapply sk_release_next; [apply Hw|]. }
  split; simpl.
  - done.
  - rewrite Hcn. apply H.
  - done.
  - rewrite Hls, lookup_delete_ne by done. apply (h_m _ _ _ H).
  - rewrite Hls. apply lookup_delete_eq.
  - apply (h_mid _ _ _ H).
  - done.
  - change (call_shape <$> calls w') with (sk_calls (sk w')). rewrite Hcs. rewrite <- Hcall.
    pose proof (h_call _ _ _ H) as Hc. rewrite <- Hcall in Hc. unfold ends in Hc |- *. simpl in Hc |- *.
    assert (id_s k <> id_m k) as Hne' by done.
    destruct m as [bm|]; simpl in Hc |- *; destruct (id_first k); pose proof (release_ends _ _ _ _ _ (w_sk w Hw) Hsl Hc) as Hr;
      simpl in Hr; rewrite Hr, unlink_self; try done; by rewrite (unlink_ne _ (Some (id_m k)) (id_m k)).
  - intros l' b' m' Hl'. rewrite Hls in Hl'. apply lookup_delete_Some in Hl' as [_ Hl']. by eapply (h_unique _ _ _ H).
  - intros c cl Hc. destruct (proj2 Hsub _ _ Hc) as (cl0 & Hc0 & ->). by apply (h_number _ _ _ H).
  - rewrite Hnx. apply (h_below _ _ _ H).
  - rewrite Hts. apply (h_timer _ _ _ H).
  - by rewrite Hout, (h_out _ _ _ H).
Qed.

Lemma does_drop_m b m s t o : does (Local (Some (b, m)) s t o) (mncc_leg_release (id_m k)) tt (Local None s false o).
Proof using.
  intros w H. pose proof (h_wf _ _ _ H) as Hw. pose proof (h_mleg _ _ _ _ _ _ H) as Hl.
  assert (sk_legs (sk w) !! id_m k = Some (shape (Leg b (XMncc m)))) as Hsl by (simpl; by rewrite lookup_fmap, Hl).
  destruct (mncc_gone _ _ w _ _ _ _ (w_sk w Hw) (wf_st w Hw) Hsl eq_refl) as (w' & Hrun & Hst & Hout).
  exists w'. split; [done|]. rewrite <- (app_nil_r o). eapply holds_drop_m; [exact H|done| |by rewrite app_nil_r].
  unfold mncc_leg_release, timer_del in Hrun. rewrite bind_assoc in Hrun. erewrite bind_returns in Hrun by exact (deref_leg_eq w _ _ Hl).
  unfold modify at 1 in Hrun. unfold bind at 1 in Hrun.
  pose proof (release_fewer (id_m k) w (set_timers (fun ts => ts ∖ {[id_m k]}) w) (fewer_refl w)) as Hs.
  rewrite Hrun in Hs. apply Hs.
Qed.

(** The handle, then the leg. *)
Lemma does_drop_s m b x t o : does (Local m (Some (b, x)) t o) (nua_handle_destroy (Some (id_h k)) ;; call_leg_release (id_s k)) tt
  (Local m None t (o ++ [NuaDestroy (Some (id_h k))])).
Proof using.
  intros w H. pose proof (h_wf _ _ _ H) as Hw. pose proof (h_sleg _ _ _ _ _ _ H) as Hl. destruct (h_sid _ _ _ H b x eq_refl) as [_ Hh].
  assert (sk_legs (sk w) !! id_s k = Some (shape (Leg b (XSip x)))) as Hsl by (simpl; by rewrite lookup_fmap, Hl).
  pose proof (destroy_release_st (sk w) (conn w) (id_s k) _ Hsl (w_sk w Hw) w (s_dir x) (id_h k) (wf_st w Hw)) as Hd.
  simpl in Hd. rewrite Hh in Hd. specialize (Hd eq_refl). apply wp_returns in Hd as ([] & w' & Hrun & Hst).
  exists w'. split; [done|]. unfold nua_handle_destroy in Hrun. rewrite bind_assoc in Hrun.
  erewrite bind_returns in Hrun by exact (emit_eq w _). unfold modify at 1 in Hrun. unfold bind at 1 in Hrun. set (w1 := set_nua _ _) in Hrun.
  eapply holds_drop_s; [exact H|done|..].
  - pose proof (release_fewer (id_s k) w w1 (fewer_refl w)) as Hs. rewrite Hrun in Hs. apply Hs.
  - by rewrite (keeps_run timers _ _ _ _ (call_leg_release_keeps timers (id_s k) ltac:(done) ltac:(done) ltac:(done)) Hrun).
  - by rewrite (keeps_run out _ _ _ _ (call_leg_release_keeps out (id_s k) ltac:(done) ltac:(done) ltac:(done)) Hrun).
Qed.
Lemma does_destroy_s m b x t o : does (Local m (Some (b, x)) t o) (nua_handle_destroy (s_handle x) ;; call_leg_release (id_s k)) tt
  (Local m None t (o ++ [NuaDestroy (s_handle x)])).
Proof using.
  intros w H. destruct (h_sid _ _ _ H b x eq_refl) as [_ ->]. by apply (does_drop_s _ b x).
Qed.

(** A call with both legs is a bridged call. *)
Lemma holds_msc b m bs x t o w : holds k (Local (Some (b, m)) (Some (bs, x)) t o) w ->
  mncc_sip_call w (id_cr k) (id_m k) (id_s k) b m bs x.
Proof using.
  intros H. destruct (h_mid _ _ _ H b m eq_refl) as [Hc Hcr]. split; try apply H.
  - by eapply h_fd.
  - split; [apply H|]. exists (Leg b (XMncc m)). destruct (id_first k) eqn:Hf.
    + destruct (h_calls (Local (Some (b, m)) (Some (bs, x)) t o) w (Some (id_m k)) (Some (id_s k)) H) as (cl & Hcl & Hi & Hr);
        [by unfold ends; rewrite Hf|]. exists cl. simpl. rewrite Hc. split; [apply (h_m _ _ _ H)|auto].
    + destruct (h_calls (Local (Some (b, m)) (Some (bs, x)) t o) w (Some (id_s k)) (Some (id_m k)) H) as (cl & Hcl & Hi & Hr);
        [by unfold ends; rewrite Hf|]. exists cl. simpl. rewrite Hc. split; [apply (h_m _ _ _ H)|auto].
  - done.
Qed.
End does.
