(* ===== verification/Relay.v ===== *)
(** * A bridged call is the abstract machine

    The handlers of the program, run on the two legs of one call, are [react]: from
    every store that holds the call, the messages go out that the machine says, and
    the store that is left holds the call in the state the machine says; where the
    machine has no reaction the program calls a NULL function pointer. *)
From S2P Require Import Prelude Effect Codec Protocol Lib State Skel Rules Call Sdp SipLeg MnccConn App MnccRx SipUa CallFlow Stranded Bridge Local.

(** ** Definitions *)

(** What the two sides see of the legs. *)
Definition msc_view_of (timer : bool) (bm : call_leg * mncc_leg) : msc_side :=
  MscSide (m_state (snd bm)) (m_dir (snd bm)) (in_release (fst bm))
          (if timer then Some (u32 (m_rsp_wanted (snd bm))) else None).
Definition sip_view_of (bx : call_leg * sip_leg) : sip_side :=
  SipSide (s_state (snd bx)) (s_dir (snd bx)) (cause (fst bx)).
Definition abs (q : local) : sides := Sides (msc_view_of (lc_timer q) <$> lc_m q) (sip_view_of <$> lc_s q).
Definition said (q : local) : list sent := map short (lc_out q).

(** The base of a SIP leg after the media of a message was looked for. *)
Definition extracted {E : Env} (any_codec : bool) (wanted : option string) (sip : sip_t) (b : call_leg) : call_leg :=
  match message_session sip with
  | None => b
  | Some sess =>
      let '(a, found) := extract_conn (s_connection sess) (addr b) in
      match extract_media any_codec wanted (s_media sess) with
      | None => set_addr a b
      | Some (port, pt) =>
          if found : bool then set_addr (set_port port a) (set_payload_type pt b) else set_payload_type pt (set_addr a b)
      end
  end.

(** The base of a SIP leg after a response that rings: what [call_progress] leaves. *)
Definition ringing_leg {E : Env} (wanted : option string) (sip : sip_t) (b : call_leg) : call_leg :=
  let b1 := rx_sdp_update (sip_payload sip) b in
  match sip_payload sip with Some _ => extracted false wanted sip b1 | None => b1 end.

(** What a re-INVITE offers to a leg. *)
Definition offer_of {E : Env} (wanted : option string) (sip : sip_t) (b : call_leg) : offer :=
  match sdp_get_sdp_mode sip with
  | None => NoMode
  | Some mode =>
      if decide (mode = sdp_sendonly) then Holds
      else if bool_decide (is_Some (usable true wanted sip))
      then Usable (negb (osmo_sockaddr_cmp (addr b) (addr (extracted true wanted sip b)) =? 0))
      else Unusable
  end.

Section relay.
Context {E : Env} {HE : EnvLaws E} {HW : WritesOk E} (k : ids).

(** From every store with [q] the computation returns, and does what [r] says. *)
Definition relays (q : local) (f : MW unit) (r : reaction) : Prop :=
  exists q', does k q f tt q' /\ said q' = said q ++ fst r /\ abs q' = snd r.
Definition answers (q : local) (f : MW unit) (r : option reaction) : Prop :=
  match r with
  | Some r => relays q f r
  | None => forall w, holds k q w -> exists w', f w = Crash NullCall w'
  end.

Lemma relays_does q f q' o a : does k q f tt q' -> said q' = said q ++ o -> abs q' = a -> relays q f (o, a).
Proof using. intros. by exists q'. Qed.
Lemma relays_ret q : relays q (ret tt) ([], abs q).
Proof using. eapply relays_does; [apply does_ret|by rewrite app_nil_r|done]. Qed.
Lemma relays_bind {A} q (f : MW A) v q1 (g : A -> MW unit) o1 o a :
  does k q f v q1 -> said q1 = said q ++ o1 -> relays q1 (g v) (o, a) -> relays q (bind f g) (o1 ++ o, a).
Proof using.
  intros Hf Ho (q' & Hg & Ho' & Ha). exists q'. split; [by eapply does_bind|]. split; [|done].
  simpl. by rewrite Ho', Ho, app_assoc.
Qed.
Lemma relays_quiet {A} q (f : MW A) v q1 (g : A -> MW unit) r :
  does k q f v q1 -> said q1 = said q -> relays q1 (g v) r -> relays q (bind f g) r.
Proof using.
  intros Hf Ho Hg. destruct r as [o a]. apply (relays_bind q f v q1 g [] o a); [done| |done]. by rewrite app_nil_r.
Qed.
Lemma relays_also q f g r h : relays q f r -> (forall q', abs q' = snd r -> relays q' g (h (snd r))) ->
  relays q (f ;; g) (also r h).
Proof using.
  intros (q1 & Hf & Ho & Ha) Hg. destruct r as [o1 a1]. simpl in *. destruct (Hg q1 Ha) as (q2 & Hg2 & Ho2 & Ha2).
  destruct (h a1) as [o2 a2]. exists q2. split; [by eapply does_bind|]. simpl in *. by rewrite Ho2, Ho, app_assoc.
Qed.

Lemma answers_eq q f g r : (forall w, holds k q w -> f w = g w) -> answers q g r -> answers q f r.
Proof using.
  intros He. destruct r as [r|]; simpl.
  - intros (q' & Hg & Ho). exists q'. split; [|done]. intros w Hw. rewrite (He w Hw). by apply Hg.
  - intros Hg w Hw. rewrite (He w Hw). by apply Hg.
Qed.
Lemma answers_assoc {A B} q (f : MW A) (g : A -> MW B) (h : B -> MW unit) r :
  answers q (bind f (fun x => bind (g x) h)) r -> answers q (bind (bind f g) h) r.
Proof using. apply answers_eq. intros w _. apply bind_assoc. Qed.

(** A first step that says nothing; one that says [o1]. *)
Lemma answers_quiet {A} q (f : MW A) v q1 (g : A -> MW unit) r :
  does k q f v q1 -> said q1 = said q -> answers q1 (g v) r -> answers q (bind f g) r.
Proof using.
  intros Hf Ho Hg. destruct r as [r|]; [by eapply relays_quiet|]. intros w Hw. destruct (Hf w Hw) as (w1 & Hr & Hw1).
  destruct (Hg w1 Hw1) as (w2 & Hr2). exists w2. unfold bind. by rewrite Hr.
Qed.
Definition after (o : list sent) (r : option reaction) : option reaction := '(o', a) ← r; Some (o ++ o', a).
Lemma answers_bind {A} q (f : MW A) v q1 (g : A -> MW unit) o r :
  does k q f v q1 -> said q1 = said q ++ o -> answers q1 (g v) r -> answers q (bind f g) (after o r).
Proof using.
  intros Hf Ho Hg. destruct r as [[o' a]|]; [by eapply relays_bind|]. intros w Hw. destruct (Hf w Hw) as (w1 & Hr & Hw1).
  destruct (Hg w1 Hw1) as (w2 & Hr2). exists w2. unfold bind. by rewrite Hr.
Qed.

(** ** Rules for the functions the handlers share *)
Lemma does_eq {A} q (f g : MW A) a q' : (forall w, holds k q w -> f w = g w) -> does k q g a q' -> does k q f a q'.
Proof using. intros He Hg w Hw. rewrite (He w Hw). by apply Hg. Qed.
Lemma does_send m s t o ty cr : ty <> MNCC_DISC_REQ -> ty <> MNCC_REL_REQ ->
  does k (Local m s t o) (send ty cr) tt (Local m s t (o ++ [TxMncc (set_mn_header ty cr gsm_mncc0) sizeof_gsm_mncc])).
Proof using HW.
  intros H1 H2. unfold send, mncc_send, mncc_fill_header.
  assert ((MNCC_DISC_REQ =? ty) || (MNCC_REL_REQ =? ty) = false) as -> by (rewrite orb_false_iff, !Z.eqb_neq; auto).
  eapply does_bind; [|apply does_ret]. eapply does_bind; [apply does_ret|apply does_write].
Qed.
Lemma does_send_for b m s t o ty : ty <> MNCC_DISC_REQ -> ty <> MNCC_REL_REQ ->
  does k (Local (Some (b, m)) s t o) (send_for (id_m k) ty) tt (Local (Some (b, m)) s t (o ++ [plain ty m])).
Proof using HW. intros. eapply does_bind; [apply does_as_mncc|by apply does_send]. Qed.
Lemma does_start b m s t o n :
  does k (Local (Some (b, m)) s t o) (start_cmd_timer (id_m k) n) tt (Local (Some (b, set_m_rsp_wanted n m)) s true o).
Proof using. eapply does_bind; [by apply does_upd_mncc|apply does_schedule]. Qed.
Lemma does_stop b m s t o n :
  does k (Local (Some (b, m)) s t o) (stop_cmd_timer (id_m k) n) tt
    (Local (Some (b, m)) s (if u32 (m_rsp_wanted m) =? n then false else t) o).
Proof using.
  eapply does_bind; [apply does_as_mncc|]. destruct (_ =? _); [apply does_timer_del|apply does_ret].
Qed.
Lemma does_assert b : b = true -> forall q, does k q (assert b) tt q.
Proof using. intros -> q. apply does_ret. Qed.
Lemma does_type_m b m s t o : does k (Local (Some (b, m)) s t o) (assert_type (id_m k) CALL_TYPE_MNCC) tt (Local (Some (b, m)) s t o).
Proof using.
  intros w H. exists w. split; [|done]. apply (assert_type_eq w (id_m k) _ _ (h_mleg _ _ _ _ _ _ _ H)).
  apply (h_mops _ _ _ _ _ _ _ H).
Qed.
Lemma does_type_s m b x t o : does k (Local m (Some (b, x)) t o) (assert_type (id_s k) CALL_TYPE_SIP) tt (Local m (Some (b, x)) t o).
Proof using.
  intros w H. exists w. split; [|done]. apply (assert_type_eq w (id_s k) _ _ (h_sleg _ _ _ _ _ _ _ H)).
  apply (h_sops _ _ _ _ _ _ _ H).
Qed.
Lemma rx_same_place o b : same_place b (rx_sdp_update o b).
Proof using. apply rx_sdp_update_shape. Qed.
Lemma does_rx_m b m s t o sdp :
  does k (Local (Some (b, m)) s t o) (call_leg_rx_sdp (id_m k) sdp) tt (Local (Some (rx_sdp_update sdp b, m)) s t o).
Proof using. apply does_upd_mbase, rx_same_place. Qed.
Lemma does_rx_s m b x t o sdp :
  does k (Local m (Some (b, x)) t o) (call_leg_rx_sdp (id_s k) sdp) tt (Local m (Some (rx_sdp_update sdp b, x)) t o).
Proof using. apply does_upd_sbase, rx_same_place. Qed.
Lemma does_rtp_connect b m bs x t o :
  does k (Local (Some (b, m)) (Some (bs, x)) t o) (send_rtp_connect disconnected (id_m k) (id_s k)) true
    (Local (Some (b, m)) (Some (bs, x)) t (o ++ [rtp_connect m bs])).
Proof using HW.
  eapply does_bind; [apply does_as_mncc|]. eapply does_bind; [apply does_deref_s|].
  eapply does_bind; [apply does_rtp_write|]. apply does_ret.
Qed.
Lemma does_create_file b m bs x t o mode :
  does k (Local (Some (b, m)) (Some (bs, x)) t o) (sdp_create_file (id_s k) (id_m k) mode) (sdp_file b mode)
    (Local (Some (b, m)) (Some (bs, sdp_file_codec b x)) t o).
Proof using.
  eapply does_bind; [apply does_deref_m|]. cbn [base]. unfold sdp_file, sdp_file_codec. destruct (String.eqb _ _).
  - eapply does_bind; [by apply does_upd_sip|apply does_ret].
  - eapply does_bind; [apply does_deref_s|apply does_ret].
Qed.

Lemma usable_found any_codec wanted sip : is_Some (usable any_codec wanted sip) <->
  exists sess, message_session sip = Some sess /\ is_Some (head (usable_conns sess))
    /\ is_Some (extract_media any_codec wanted (s_media sess)).
Proof using.
  unfold usable. destruct (message_session sip) as [sess|]; simpl; [|split; [by intros [? ?]|naive_solver]].
  pose proof (extract_media_usable any_codec wanted sess) as Hm.
  destruct (head (usable_conns sess)) eqn:Hc; simpl; [|split; [by intros [? ?]|]; intros (? & [= <-] & [? Hf] & _); congruence].
  destruct (head (usable_media _ _ sess)); simpl.
  - split; [|by eauto]. intros _. exists sess. rewrite Hm, Hc. by eauto.
  - split; [by intros [? ?]|]. intros (? & [= <-] & _ & [? ?]). congruence.
Qed.

Lemma does_extract m b x t o sip any_codec :
  does k (Local m (Some (b, x)) t o) (sdp_extract_sdp (id_s k) sip any_codec)
    (bool_decide (is_Some (usable any_codec (s_wanted_codec x) sip)))
    (Local m (Some (extracted any_codec (s_wanted_codec x) sip b, x)) t o).
Proof using.
  assert (forall v, v = bool_decide (is_Some (usable any_codec (s_wanted_codec x) sip)) -> forall q f q', does k q f v q' ->
    does k q f (bool_decide (is_Some (usable any_codec (s_wanted_codec x) sip))) q') as Hv by (by intros v ->).
  pose proof (usable_found any_codec (s_wanted_codec x) sip) as Hu. unfold extracted, message_session in *.
  eapply does_bind; [apply does_as_sip|]. destruct (sip_payload sip) as [data|]; simpl in *.
  2: { eapply Hv; [|apply does_ret]. symmetry. apply bool_decide_eq_false. naive_solver. }
  destruct (sdp_session_of sdp_f_none data) as [sess|]; simpl in *.
  2: { eapply Hv; [|apply does_ret]. symmetry. apply bool_decide_eq_false. naive_solver. }
  eapply does_bind; [apply does_deref_s|]. cbn [base]. pose proof (extract_conn_usable sess (addr b)) as Hc.
  destruct (extract_conn (s_connection sess) (addr b)) as [a found] eqn:He.
  eapply does_bind; [by apply does_upd_sbase|]. destruct (extract_media _ _ _) as [[port pt]|] eqn:Hm.
  2: { eapply Hv; [|apply does_ret]. symmetry. apply bool_decide_eq_false. intros (s1 & [= <-] & _ & [? Hs])%Hu. congruence. }
  eapply does_bind; [by apply does_upd_sbase|]. destruct found; cbn [negb].
  - eapply does_bind; [apply does_assert; by destruct (extract_conn_family _ _ _ He) as [-> | ->]|].
    eapply does_bind; [by apply does_upd_sbase|]. eapply Hv; [|apply does_ret].
    symmetry. apply bool_decide_eq_true, Hu. exists sess. rewrite Hm. split_and!; [done| |by eexists].
    destruct (head (usable_conns sess)); [by eexists|done].
  - eapply Hv; [|apply does_ret]. symmetry. apply bool_decide_eq_false. intros (s1 & [= <-] & [f Hf] & _)%Hu.
    by rewrite Hf in Hc.
Qed.

(** ** Asking one side to end *)
Lemma abs_sip_cause m b x t o c : abs (Local m (Some (set_cause c b, x)) t o) = blames c (abs (Local m (Some (b, x)) t o)).
Proof using. done. Qed.

(** A handler's last action. *)
Ltac relays_last H :=
  eapply relays_does; [exact H|unfold said; simpl; rewrite ?map_app; simpl; rewrite <- ?app_assoc; reflexivity|reflexivity].

Lemma relays_end_sip_call m b x t o :
  relays (Local m (Some (b, x)) t o) (sip_release_call (id_s k)) (end_sip (abs (Local m (Some (b, x)) t o))).
Proof using.
  unfold sip_release_call. eapply relays_quiet; [apply does_type_s|done|]. eapply relays_quiet; [apply does_deref_s|done|].
  eapply relays_quiet; [apply does_as_sip|done|]. cbn [base]. unfold end_sip. simpl.
  destruct (cause2status (cause b)) as [st text] eqn:Hc. destruct (s_state x).
  - relays_last (does_destroy_s k m b x t o).
  - destruct (s_dir x); simpl.
    + eapply (relays_bind _ _ _ _ _ [_]); [apply does_emit|unfold said; simpl; by rewrite map_app|].
      relays_last (does_destroy_s k m b x t (o ++ [NuaRespond (s_handle x) st (sip_phrase st) (Some (reason_header (cause b) text)) None])).
    + relays_last (does_emit k m (Some (b, x)) t o (NuaCancel (s_handle x))).
  - relays_last (does_emit k m (Some (b, x)) t o (NuaBye (s_handle x))).
  - relays_last (does_emit k m (Some (b, x)) t o (NuaBye (s_handle x))).
Qed.

(** The callback of a leg is the function of its kind. *)
Lemma relays_eq q f g r : (forall w, holds k q w -> f w = g w) -> relays q g r -> relays q f r.
Proof using. intros He Hg. by apply (answers_eq q f g (Some r) He). Qed.
Lemma relays_end_sip m b x t o :
  relays (Local m (Some (b, x)) t o) (call_release (id_s k)) (end_sip (abs (Local m (Some (b, x)) t o))).
Proof using.
  eapply relays_eq; [|apply relays_end_sip_call]. intros w H. destruct (h_sops _ _ _ _ _ _ _ H) as [_ Ho].
  unfold call_release, release_leg. run_step (deref_leg_eq w _ _ (h_sleg _ _ _ _ _ _ _ H)). cbn [base]. rewrite Ho.
  by destruct (s_dir x).
Qed.

Lemma relays_request_release b m s t o await ty :
  ty = MNCC_DISC_REQ \/ ty = MNCC_REL_REQ -> u32 await = await ->
  relays (Local (Some (b, m)) s t o) (request_release disconnected (id_m k) await ty)
    ([ToMsc ty], leaves await (abs (Local (Some (b, m)) s t o))).
Proof using HW.
  intros Ht Ha. unfold request_release. eapply relays_quiet; [by apply does_upd_mbase|done|].
  eapply relays_quiet; [apply does_start|done|]. eapply relays_quiet; [apply does_as_mncc|done|].
  set (b1 := set_in_release true b). set (m1 := set_m_rsp_wanted await m). eapply relays_does.
  - eapply does_bind; [|apply does_ret]. eapply does_bind; [by apply does_fill_cause|apply does_write].
  - unfold said. simpl. by rewrite map_app.
  - unfold abs, leaves, set_msc, msc_view_of. simpl. by rewrite Ha.
Qed.

Lemma relays_end_msc_call b m s t o :
  relays (Local (Some (b, m)) s t o) (mncc_call_leg_release disconnected (id_m k)) (end_msc (abs (Local (Some (b, m)) s t o))).
Proof using HW.
  unfold mncc_call_leg_release. eapply relays_quiet; [apply does_type_m|done|]. eapply relays_quiet; [apply does_as_mncc|done|].
  eapply relays_eq.
  { intros w H. unfold gets at 1. unfold bind at 1. rewrite (h_ready _ _ _ H). simpl. reflexivity. }
  unfold end_msc. simpl. destruct (m_state m); [destruct (m_dir m); simpl|..];
    try (by apply relays_request_release; [auto|]).
  eapply (relays_bind _ _ _ _ _ [_] []); [eapply does_bind; [apply does_ret|apply does_write]|unfold said; simpl; by rewrite map_app|].
  eapply relays_quiet; [apply does_timer_del|done|]. relays_last (does_drop_m k b m s false
      (o ++ [TxMncc (set_mn_header MNCC_REJ_REQ (m_callref m) gsm_mncc0) sizeof_gsm_mncc])).
Qed.
Lemma relays_end_msc b m s t o :
  relays (Local (Some (b, m)) s t o) (call_release (id_m k)) (end_msc (abs (Local (Some (b, m)) s t o))).
Proof using HW.
  eapply relays_eq; [|apply relays_end_msc_call]. intros w H. destruct (h_mops _ _ _ _ _ _ _ H) as [_ Ho].
  unfold call_release, release_leg. run_step (deref_leg_eq w _ _ (h_mleg _ _ _ _ _ _ _ H)). cbn [base]. by rewrite Ho.
Qed.
Lemma relays_drop_m b m s t o :
  relays (Local (Some (b, m)) s t o) (mncc_leg_release (id_m k)) ([], Sides None (sip_view_of <$> s)).
Proof using. eapply relays_does; [apply does_drop_m|by rewrite app_nil_r|done]. Qed.

Lemma relays_say {A} q (f : MW A) v q1 (g : A -> MW unit) o1 a1 h :
  does k q f v q1 -> said q1 = said q ++ o1 -> relays q1 (g v) (h a1) -> relays q (bind f g) (also (o1, a1) h).
Proof using.
  intros Hf Ho Hg. unfold also. destruct (h a1) as [o2 a2]. by eapply relays_bind.
Qed.

(** ** The same of any state of the call *)
Definition has_m (q : local) : Prop := lc_m q <> None.
Lemma has_m_abs q a : abs q = a -> at_msc a <> None -> has_m q.
Proof using. intros <-. unfold has_m, abs. simpl. by destruct (lc_m q). Qed.

(** [other = call_leg_other (leg); if (other) other->release_call (other);] *)
Definition release_other (l : ptr) : MW unit :=
  o <- call_leg_other l ;; match o with None => ret tt | Some other => call_release other end.

Lemma relays_release_other q : has_m q -> relays q (release_other (id_m k)) (end_sip (abs q)).
Proof using.
  destruct q as [[[b m]|] s t o]; [|done]. intros _. eapply relays_quiet; [apply does_other_m|done|].
  destruct s as [[bs x]|]; [apply relays_end_sip|apply relays_ret].
Qed.
Lemma relays_release_other_cause q v : has_m q ->
  relays q (release_other_with_cause (id_m k) v) (end_sip (blames v (abs q))).
Proof using.
  destruct q as [[[b m]|] s t o]; [|done]. intros _. eapply relays_quiet; [apply does_other_m|done|].
  destruct s as [[bs x]|]; simpl; [|apply relays_ret]. eapply relays_quiet; [by apply does_upd_sbase|done|].
  apply relays_end_sip.
Qed.
Lemma relays_release_m q : has_m q -> relays q (call_release (id_m k)) (end_msc (abs q)).
Proof using HW. destruct q as [[[b m]|] s t o]; [|done]. intros _. apply relays_end_msc. Qed.
Lemma relays_gone q : has_m q -> relays q (mncc_leg_release (id_m k)) ([], no_msc (abs q)).
Proof using. destruct q as [[[b m]|] s t o]; [|done]. intros _. apply relays_drop_m. Qed.

Lemma end_sip_has_m q a : at_msc a <> None -> abs q = snd (end_sip a) -> has_m q.
Proof using. intros Ha Hq. eapply has_m_abs; [exact Hq|]. by rewrite end_sip_msc. Qed.

(** The SIP side is asked to end, then the MNCC leg goes. *)
Lemma relays_both q f a : at_msc a <> None -> relays q f (end_sip a) ->
  relays q (f ;; mncc_leg_release (id_m k)) (also (end_sip a) (fun a' => ([], no_msc a'))).
Proof using.
  intros Ha Hf. apply relays_also; [exact Hf|]. intros q' Hq. rewrite <- Hq. apply relays_gone. by eapply end_sip_has_m.
Qed.

Lemma relays_timeout b m s t o :
  relays (Local (Some (b, m)) s t o) (cmd_timeout (id_m k))
    (also (end_sip (abs (Local (Some (b, m)) s t o))) (fun a' => ([], no_msc a'))).
Proof using.
  eapply relays_eq; [intros w _; unfold cmd_timeout; symmetry; apply bind_assoc|].
  apply relays_both; [done|]. by apply relays_release_other.
Qed.
End relay.

(** ** Changes the two sides do not see *)
#[local] Arguments rx_sdp_update : simpl never.
Section views.
Context {E : Env}.
Lemma rx_in_release sdp b : in_release (rx_sdp_update sdp b) = in_release b.
Proof. unfold rx_sdp_update. by repeat case_match. Qed.
Lemma rx_cause sdp b : cause (rx_sdp_update sdp b) = cause b.
Proof. unfold rx_sdp_update. by repeat case_match. Qed.
Lemma rx_view_m sdp b m s t o o' : abs (Local (Some (rx_sdp_update sdp b, m)) s t o) = abs (Local (Some (b, m)) s t o').
Proof. unfold abs, msc_view_of. simpl. by rewrite rx_in_release. Qed.
Lemma rx_view_s sdp b x m t o o' : abs (Local m (Some (rx_sdp_update sdp b, x)) t o) = abs (Local m (Some (b, x)) t o').
Proof. unfold abs, sip_view_of. simpl. by rewrite rx_cause. Qed.
(** What the timer waits for. *)
Lemma stop_view n b m s t o : abs (Local (Some (b, m)) s (if u32 (m_rsp_wanted m) =? n then false else t) o)
  = arrives n (abs (Local (Some (b, m)) s t o)).
Proof.
  unfold abs, arrives, set_msc, msc_view_of. simpl. f_equal. f_equal. f_equal.
  destruct t, (Z.eqb_spec (u32 (m_rsp_wanted m)) n); case_decide; congruence.
Qed.
End views.

(** ** Messages of the MSC *)
Section mncc.
Context {E : Env} {HE : EnvLaws E} {HW : WritesOk E} (k : ids).
Context (buf : list Z) (rc : Z) (Hlen : sizeof_gsm_mncc <= rc).
Context (Hcr : mn_callref (view_gsm_mncc buf) = id_cr k).
Context (b : call_leg) (m : mncc_leg) (s : option (call_leg * sip_leg)) (t : bool) (o : list action).
#[local] Abbreviation d := (view_gsm_mncc buf).
#[local] Abbreviation q := (Local (Some (b, m)) s t o).
#[local] Abbreviation msc := (msc_view_of t (b, m)).

Lemma with_leg_run g w : holds k q w -> with_leg buf rc g w = g d (id_m k) w.
Proof using Hlen Hcr.
  intros H. unfold with_leg, find_leg. destruct (Z.ltb_spec rc sizeof_gsm_mncc) as [|_]; [lia|]. cbv zeta.
  rewrite bind_assoc, Hcr. destruct (does_find_m k b m s t o w H) as (w' & Hrun & _). 
  assert (w' = w) as ->.
  { pose proof (mncc_find_leg_st _ _ (w_sk w (h_wf _ _ _ H)) (id_cr k) w (wf_st w (h_wf _ _ _ H))) as Hf.
    unfold wp in Hf. rewrite Hrun in Hf. apply Hf. }
  by run_step Hrun.
Qed.
Lemma handler g r : answers k q (g d (id_m k)) r -> answers k q (with_leg buf rc g) r.
Proof using Hlen Hcr. apply answers_eq. intros w. apply with_leg_run. Qed.

Lemma answers_disc : answers k q (check_disc_ind buf rc) (react_msc msc (abs q) (MDisc (ca_value (mn_cause d)))).
Proof using HW Hlen Hcr.
  apply handler. simpl. eapply relays_quiet; [by apply does_upd_mbase|done|]. eapply relays_quiet; [apply does_start|done|].
  eapply (relays_say k _ _ _ _ _ [_]).
  - eapply does_bind; [apply does_as_mncc|]. eapply does_bind; [|apply does_ret].
    eapply does_bind; [apply does_fill_cause; by right|apply does_write].
  - unfold said. simpl. by rewrite map_app.
  - lazymatch goal with |- relays _ ?q1 _ _ => by apply (relays_release_other_cause k q1) end.
Qed.

Lemma answers_rel : answers k q (check_rel_ind buf rc) (react_msc msc (abs q) (MRel (ca_value (mn_cause d)))).
Proof using Hlen Hcr.
  apply handler. eapply answers_quiet; [apply does_deref_m|done|]. simpl. destruct (in_release b).
  - eapply relays_quiet; [apply does_stop|done|]. apply relays_drop_m.
  - apply relays_both; [by destruct s|]. by apply (relays_release_other_cause k q).
Qed.

Lemma answers_rel_cnf : answers k q (check_rel_cnf buf rc) (react_msc msc (abs q) MRelCnf).
Proof using Hlen Hcr. apply handler. eapply relays_quiet; [apply does_stop|done|]. apply relays_drop_m. Qed.

Lemma answers_rej : answers k q (check_rej_ind buf rc) (react_msc msc (abs q) (MRej (ca_value (mn_cause d)))).
Proof using Hlen Hcr.
  apply handler. simpl. eapply relays_quiet; [by apply does_upd_mncc|done|]. apply relays_both; [by destruct s|].
  by apply (relays_release_other_cause k (Local (Some (b, set_m_cause _ m)) s t o)).
Qed.

Lemma answers_compl : answers k q (check_stp_cmpl_ind buf rc) (react_msc msc (abs q) MCompl).
Proof using Hlen Hcr.
  apply handler. simpl. eapply relays_quiet; [apply does_rx_m|done|]. eapply relays_quiet; [apply does_stop|done|].
  eapply relays_does; [by apply does_upd_mncc|by rewrite app_nil_r|]. rewrite <- (rx_view_m (Some (mn_sdp d)) b m s t o o), <- stop_view.
  done.
Qed.

Lemma does_take_sdp b1 : exists sdp s', does k (Local (Some (b1, m)) s t o) (take_changed_sdp (id_m k)) sdp (Local (Some (b1, m)) s' t o)
  /\ sip_view_of <$> s' = sip_view_of <$> s.
Proof using.
  unfold take_changed_sdp. destruct s as [[bs x]|].
  - destruct (negb (String.eqb (rx_sdp bs) EmptyString) && rx_sdp_changed bs) eqn:Hc.
    + eexists _, (Some (_, x)). split; [|shelve]. eapply does_bind; [apply does_other_m|]. eapply does_bind; [apply does_deref_s|].
      simpl. rewrite Hc. eapply does_bind; [by apply does_upd_sbase|]. apply does_ret. Unshelve. done.
    + eexists _, _. split; [|reflexivity]. eapply does_bind; [apply does_other_m|]. eapply does_bind; [apply does_deref_s|].
      simpl. rewrite Hc. apply does_ret.
  - eexists _, _. split; [|reflexivity]. eapply does_bind; [apply does_other_m|]. apply does_ret.
Qed.

Lemma does_rtp_send ms ss ts os ty cr sdp : exists r, rtp_msg_type r = ty /\
  does k (Local ms ss ts os) (mncc_rtp_send disconnected ty cr sdp) sizeof_rtp (Local ms ss ts (os ++ [TxRtp r sizeof_rtp])).
Proof using HW. eexists. split; [|apply does_rtp_write]. done. Qed.

Lemma answers_conf : answers k q (check_cnf_ind buf rc) (react_msc msc (abs q) MConf).
Proof using HW Hlen Hcr.
  apply handler. simpl. eapply relays_quiet; [apply does_rx_m|done|].
  destruct (does_take_sdp (rx_sdp_update (Some (mn_sdp d)) b)) as (sdp & s' & Hdo & Hs').
  eapply relays_quiet; [exact Hdo|done|]. unfold request_rtp_create. eapply relays_quiet; [apply does_start|done|].
  edestruct does_rtp_send as (r & Hr & Hdo2). eapply relays_does; [eapply does_bind; [exact Hdo2|apply does_ret]|..].
  - unfold said. simpl. by rewrite map_app; simpl; rewrite Hr.
  - rewrite <- (rx_view_m (Some (mn_sdp d)) b m s t o o). unfold abs, waits, set_msc, msc_view_of. simpl. by rewrite Hs'.
Qed.

(** A member of the SIP leg's callbacks is called. *)
Lemma invoke_run member bm bs x t1 o1 w : holds k (Local bm (Some (bs, x)) t1 o1) w ->
  invoke_member member (id_s k) w = invoke (member (match s_dir x with SIP_DIR_MO => sip_mo_ops | SIP_DIR_MT => sip_mt_ops end)) (id_s k) w.
Proof using.
  intros H. destruct (h_sops _ _ _ _ _ _ _ H) as [_ Ho]. unfold invoke_member.
  run_step (deref_leg_eq w _ _ (h_sleg _ _ _ _ _ _ _ H)). cbn [base]. by rewrite Ho.
Qed.
Lemma answers_invoke member bm bs x t1 o1 r :
  answers k (Local bm (Some (bs, x)) t1 o1)
    (invoke (member (match s_dir x with SIP_DIR_MO => sip_mo_ops | SIP_DIR_MT => sip_mt_ops end)) (id_s k)) r ->
  answers k (Local bm (Some (bs, x)) t1 o1) (invoke_member member (id_s k)) r.
Proof using. apply answers_eq. intros w. apply invoke_run. Qed.
Lemma answers_null q1 l : answers k q1 (invoke None l) None.
Proof using. intros w _. by eexists. Qed.

Lemma answers_alert : answers k q (check_alrt_ind buf rc) (react_msc msc (abs q) MAlert).
Proof using HW Hlen Hcr.
  apply handler. eapply answers_quiet; [apply does_rx_m|done|]. eapply answers_quiet; [apply does_other_m|done|].
  simpl. destruct s as [[bs x]|]; simpl.
  - apply answers_invoke. destruct (s_dir x); simpl; [|apply answers_null]. unfold invoke.
    eapply relays_quiet; [apply does_ret|done|]. eapply relays_quiet; [apply does_type_s|done|].
    eapply relays_quiet; [apply does_as_sip|done|]. eapply relays_does; [apply does_emit|unfold said; simpl; by rewrite map_app|].
    apply rx_view_m.
  - rewrite <- (rx_view_m (Some (mn_sdp d)) b m None t o o). apply relays_end_msc_call.
Qed.

(** A re-INVITE of the program. *)
Lemma relays_reinvite_sip bm mm bs x mode st t1 o1 :
  exists q1, does k (Local (Some (bm, mm)) (Some (bs, x)) t1 o1) (sip_reinvite (id_s k) mode st) tt q1 /\
    said q1 = said (Local (Some (bm, mm)) (Some (bs, x)) t1 o1) ++ [Invite] /\
    exists x', q1 = Local (Some (bm, mm)) (Some (bs, x')) t1 (lc_out q1) /\ s_state x' = st /\ s_dir x' = s_dir x.
Proof using.
  eexists. split.
  - eapply does_bind; [apply does_type_s|]. eapply does_bind; [apply does_other_s|].
    eapply does_bind; [apply does_create_file|]. eapply does_bind; [apply does_as_sip|].
    eapply does_bind; [apply does_emit|]. by apply does_upd_sip.
  - split; [unfold said; simpl; by rewrite map_app|]. eexists. split; [done|]. split; [done|]. unfold sdp_file_codec.
    by destruct (String.eqb _ _).
Qed.

Lemma answers_hold : answers k q (check_hold_ind buf rc) (react_msc msc (abs q) MHold).
Proof using HW Hlen Hcr.
  apply handler. eapply answers_quiet; [apply does_other_m|done|]. simpl. destruct s as [[bs x]|]; simpl.
  - destruct (relays_reinvite_sip b m bs x sdp_sendonly SIP_CC_HOLD t o) as (q1 & Hdo & Ho & x' & Hq & Hst & Hd).
    eapply (relays_bind k _ _ tt q1 _ [Invite] [_]).
    + eapply does_eq; [intros w H; exact (invoke_run hold_call _ bs x t o w H)|]. by destruct (s_dir x).
    + done.
    + rewrite Hq. eapply (relays_bind k _ _ _ _ _ [_] []); [by apply does_send_for|unfold said; simpl; by rewrite map_app|].
      eapply relays_does; [by apply does_upd_mncc|by rewrite app_nil_r|]. unfold abs. simpl. unfold sip_view_of. simpl.
      by rewrite Hst, Hd.
  - eapply relays_does; [by apply does_send_for|unfold said; simpl; by rewrite map_app|done].
Qed.

Lemma answers_retrieve : answers k q (check_retrieve_ind buf rc) (react_msc msc (abs q) MRetrieve).
Proof using HW Hlen Hcr.
  apply handler. eapply answers_quiet; [apply does_other_m|done|]. simpl. destruct s as [[bs x]|]; simpl.
  - destruct (relays_reinvite_sip b m bs x sdp_sendrecv SIP_CC_CONNECTED t o) as (q1 & Hdo & Ho & x' & Hq & Hst & Hd).
    eapply (relays_bind k _ _ tt q1 _ [Invite] [_; _]).
    + eapply does_eq; [intros w H; exact (invoke_run retrieve_call _ bs x t o w H)|]. by destruct (s_dir x).
    + done.
    + rewrite Hq. eapply (relays_bind k _ _ _ _ _ [_] [_]); [by apply does_send_for|unfold said; simpl; by rewrite map_app|].
      eapply relays_quiet; [by apply does_upd_mncc|done|].
      eapply relays_does; [eapply does_bind; [apply does_rtp_connect|apply does_ret]|unfold said; simpl; by rewrite map_app|].
      unfold abs. simpl. unfold sip_view_of. simpl. by rewrite Hst, Hd.
  - eapply (relays_say k _ _ _ _ _ [_]); [by apply does_send_for|unfold said; simpl; by rewrite map_app|].
    exact (relays_end_msc_call k b m None t _).
Qed.

Lemma answers_answer : answers k q (check_stp_cnf buf rc) (react_msc msc (abs q) MAnswer).
Proof using HW Hlen Hcr.
  apply handler. generalize d. intros dd. eapply answers_quiet; [apply does_rx_m|done|]. eapply answers_quiet; [apply does_other_m|done|].
  simpl. destruct s as [[bs x]|]; simpl.
  2: { rewrite <- (rx_view_m (Some (mn_sdp dd)) b m None t o o). apply relays_end_msc_call. }
  set (b1 := rx_sdp_update (Some (mn_sdp dd)) b).
  assert (forall r r', after [ToMscRtp MNCC_RTP_CONNECT; ToMsc MNCC_SETUP_COMPL_REQ] r = r' ->
    answers k (Local (Some (b1, set_m_state MNCC_CC_CONNECTED m)) (Some (bs, x)) t
                ((o ++ [rtp_connect m bs]) ++ [plain MNCC_SETUP_COMPL_REQ (set_m_state MNCC_CC_CONNECTED m)]))
      (invoke_member connect_call (id_s k)) r ->
    answers k (Local (Some (b1, m)) (Some (bs, x)) t o)
      (ok <- send_rtp_connect disconnected (id_m k) (id_s k) ;;
       if negb ok then ret tt
       else upd_mncc (id_m k) (set_m_state MNCC_CC_CONNECTED) ;; send_for (id_m k) MNCC_SETUP_COMPL_REQ ;;
            invoke_member connect_call (id_s k)) r') as Hgo.
  { intros r r' <- Hr. replace (after [ToMscRtp MNCC_RTP_CONNECT; ToMsc MNCC_SETUP_COMPL_REQ] r)
      with (after [ToMscRtp MNCC_RTP_CONNECT] (after [ToMsc MNCC_SETUP_COMPL_REQ] r)) by by destruct r as [[]|].
    eapply answers_bind; [apply does_rtp_connect|unfold said; simpl; by rewrite map_app|]. cbn [negb].
    eapply answers_quiet; [by apply does_upd_mncc|done|].
    eapply answers_bind; [by apply does_send_for|unfold said; simpl; by rewrite !map_app|]. exact Hr. }
  case_decide as Hd.
  - apply (Hgo (Some ([Respond 200], dialog SIP_CC_CONNECTED (enters MNCC_CC_CONNECTED (abs (Local (Some (b1, m)) (Some (bs, x)) t o)))))).
    { unfold b1. rewrite (rx_view_m (Some (mn_sdp dd)) b m (Some (bs, x)) t o o). reflexivity. }
    clearbody b1. apply answers_invoke. rewrite Hd. simpl. unfold invoke. eapply relays_quiet; [apply does_some_or|reflexivity|].
    eapply relays_does.
    + eapply does_bind; [apply does_type_s|]. eapply does_bind; [apply does_other_s|].
      eapply does_bind; [apply does_create_file|]. eapply does_bind; [by apply does_upd_sip|].
      eapply does_bind; [apply does_as_sip|apply does_emit].
    + unfold said. simpl. by rewrite map_app.
    + unfold abs. simpl. unfold sip_view_of, sdp_file_codec. simpl. by destruct (String.eqb _ _).
  - apply (Hgo None); [done|]. apply answers_invoke. destruct (s_dir x); [done|]. apply answers_null.
Qed.

(** DTMF is answered in any case. *)
Lemma relays_dtmf_rsp q1 a ty key : has_m q1 -> abs q1 = a -> ty <> MNCC_DISC_REQ -> ty <> MNCC_REL_REQ ->
  relays k q1 (dtmf_rsp (id_m k) ty key) ([ToMsc ty], a).
Proof using HW.
  destruct q1 as [[[b1 m1]|] s1 t1 o1]; [|done]. intros _ <- H1 H2. unfold dtmf_rsp, mncc_fill_header.
  assert ((MNCC_DISC_REQ =? ty) || (MNCC_REL_REQ =? ty) = false) as -> by (rewrite orb_false_iff, !Z.eqb_neq; auto).
  eapply relays_does.
  - eapply does_bind; [apply does_as_mncc|]. eapply does_bind; [apply does_ret|]. eapply does_bind; [apply does_write|apply does_ret].
  - unfold said. simpl. by rewrite map_app.
  - done.
Qed.

Lemma does_invoke_dtmf bm bs x t1 o1 key : does k (Local bm (Some (bs, x)) t1 o1) (invoke_dtmf (id_s k) key) tt
  (Local bm (Some (bs, x)) t1
    (o1 ++ [NuaInfo (s_handle x) ("Signal=" +:+ fmt_c key +:+ str_nl +:+ "Duration=160" +:+ str_nl)])).
Proof using.
  eapply (does_eq k _ _ (sip_dtmf_call (id_s k) key));
    [|eapply does_bind; [apply does_type_s|]; eapply does_bind; [apply does_as_sip|apply does_emit]].
  intros w H. destruct (h_sops _ _ _ _ _ _ _ H) as [_ Ho]. unfold invoke_dtmf.
  run_step (deref_leg_eq w _ _ (h_sleg _ _ _ _ _ _ _ H)). cbn [base]. rewrite Ho. by destruct (s_dir x).
Qed.
Lemma answers_dtmf : answers k q (check_dtmf_start buf rc) (react_msc msc (abs q) MDtmf).
Proof using HW Hlen Hcr.
  apply handler. eapply answers_quiet; [apply does_rx_m|done|]. eapply answers_quiet; [apply does_other_m|done|].
  simpl. destruct s as [[bs x]|]; simpl.
  - rewrite <- (rx_view_m (Some (mn_sdp d)) b m (Some (bs, x)) t o o).
    eapply (relays_bind k _ _ tt _ _ [Info] [_]); [apply does_invoke_dtmf|unfold said; simpl; by rewrite map_app|].
    by apply relays_dtmf_rsp.
  - rewrite <- (rx_view_m (Some (mn_sdp d)) b m None t o o).
    eapply relays_quiet; [apply does_ret|done|]. by apply relays_dtmf_rsp.
Qed.
Lemma answers_dtmf_stop : answers k q (check_dtmf_stop buf rc) (react_msc msc (abs q) MDtmfStop).
Proof using HW Hlen Hcr.
  apply handler. simpl. eapply relays_quiet; [apply does_rx_m|done|]. rewrite <- (rx_view_m (Some (mn_sdp d)) b m s t o o).
  by apply relays_dtmf_rsp.
Qed.
End mncc.

(** ** RTP messages of the MSC *)
Section rtp.
Context {E : Env} {HE : EnvLaws E} {HW : WritesOk E} (k : ids).
Context (buf : list Z) (rc : Z) (Hlen : sizeof_rtp <= rc).
Context (Hcr : rtp_callref (view_rtp buf) = id_cr k).
Context (b : call_leg) (m : mncc_leg) (s : option (call_leg * sip_leg)) (t : bool) (o : list action).
#[local] Abbreviation r := (view_rtp buf).
#[local] Abbreviation q := (Local (Some (b, m)) s t o).
#[local] Abbreviation msc := (msc_view_of t (b, m)).

Lemma does_find_nr : does k q (mncc_find_leg_not_released (rtp_callref r)) (if in_release b then None else Some (id_m k)) q.
Proof using Hcr.
  rewrite Hcr. eapply does_bind; [apply does_find_m|]. eapply does_bind; [apply does_deref_m|]. apply does_ret.
Qed.

Lemma answers_rtp_connect :
  answers k q (check_rtp_connect buf rc) (react_msc msc (abs q) (MRtpConnect (negb (no_media r)))).
Proof using HW Hlen Hcr.
  unfold check_rtp_connect. destruct (Z.ltb_spec rc sizeof_rtp) as [|_]; [lia|]. cbv zeta.
  eapply answers_quiet; [apply does_find_nr|done|]. cbn [react_msc msc_view_of k_leaving fst snd]. destruct (in_release b).
  { eapply relays_does; [by apply does_send|unfold said; simpl; by rewrite map_app|done]. }
  eapply answers_quiet; [apply does_rx_m|done|]. cbv beta.
  assert (negb (ss_family (rtp_addr r) =? AF_UNSPEC) || negb (osmo_sockaddr_port (rtp_addr r) =? 0)
          || negb (rtp_payload_type r =? 0) = negb (no_media r)) as -> by (unfold no_media; by rewrite !negb_andb).
  rewrite <- (rx_view_m (Some (rtp_sdp r)) b m s t o o). destruct (negb (no_media r)); [apply relays_ret|].
  set (b1 := rx_sdp_update _ _). clearbody b1. eapply relays_eq; [intros w _; symmetry; apply bind_assoc|].
  apply relays_also; [by apply relays_release_other|]. intros q' Hq. rewrite <- Hq.
  apply relays_release_m. eapply end_sip_has_m; [|exact Hq]. by destruct s.
Qed.

Lemma answers_rtp_create : (in_release b = false -> m_dir m = MNCC_DIR_MT) ->
  answers k q (check_rtp_create buf rc) (react_msc msc (abs q) MRtpCreate).
Proof using HW Hlen Hcr.
  intros Hd. unfold check_rtp_create. destruct (Z.ltb_spec rc sizeof_rtp) as [|_]; [lia|]. cbv zeta.
  eapply answers_quiet; [apply does_find_nr|done|]. cbn [react_msc msc_view_of k_leaving fst snd]. destruct (in_release b) eqn:Hr.
  { eapply relays_does; [by apply does_send|unfold said; simpl; by rewrite map_app|done]. }
  eapply relays_quiet; [by apply does_upd_mbase|done|]. eapply relays_quiet; [apply does_rx_m|done|].
  set (b1 := rx_sdp_update _ _). assert (in_release b1 = in_release b) as Hb1 by (etransitivity; [apply rx_in_release|done]).
  clearbody b1.
  assert (arrives MNCC_RTP_CREATE (abs q) = arrives MNCC_RTP_CREATE (abs (Local (Some (b1, m)) s t o))) as ->.
  { unfold abs, arrives, set_msc, msc_view_of. simpl. by rewrite Hb1. }
  rewrite <- stop_view. eapply relays_quiet; [apply does_stop|done|]. unfold continue_call.
  eapply relays_quiet; [apply does_as_mncc|done|]. rewrite decide_False by (by rewrite Hd by done).
  eapply relays_quiet; [apply does_other_m|done|]. destruct s as [[bs x]|]; [|apply relays_ret].
  eapply relays_quiet; [apply does_deref_m|done|]. eapply relays_does; [by apply does_upd_sbase|by rewrite app_nil_r|done].
Qed.
End rtp.

(** ** Events of sofia-sip *)
Section sip.
Context {E : Env} {HE : EnvLaws E} {HW : WritesOk E} (k : ids).
Context (m : option (call_leg * mncc_leg)) (b : call_leg) (x : sip_leg) (t : bool) (o : list action).
#[local] Abbreviation q := (Local m (Some (b, x)) t o).
#[local] Abbreviation sip := (sip_view_of (b, x)).

Lemma extracted_cause any w msg b1 : cause (extracted any w msg b1) = cause b1.
Proof using.
  unfold extracted. destruct (message_session msg); [|done]. destruct (extract_conn _ _) as [a []];
    by destruct (extract_media _ _ _) as [[? ?]|].
Qed.

(** The part of [nua_r_invite] that all statuses share. *)
Lemma answers_response status msg r :
  answers k (Local m (Some (rx_sdp_update (sip_get_sdp msg) b, confirmed x)) t o)
    (if (status =? 180) || (status =? 183) then call_progress (id_s k) msg status
     else if status =? 200 then
       s' <- as_sip (id_s k) ;;
       match s_state s' with
       | SIP_CC_CONNECTED | SIP_CC_HOLD => emit (NuaAck (s_handle s'))
       | _ => call_connect (id_s k) msg
       end
     else if 300 <=? status then invite_failed (id_s k) status
     else ret tt) r ->
  answers k q (on_r_invite status (id_h k) msg) r.
Proof using.
  intros Hg. eapply answers_quiet; [apply does_the_leg|done|]. eapply answers_quiet; [apply does_rx_s|done|].
  eapply answers_quiet; [apply does_as_sip|done|]. eapply answers_quiet; [|..|exact Hg]; [|done].
  unfold confirmed. case_decide; [by apply does_upd_sip|apply does_ret].
Qed.
Lemma response_view sdp o' : abs (Local m (Some (rx_sdp_update sdp b, confirmed x)) t o') = confirms (abs q).
Proof using.
  unfold abs, confirms, set_sip, sip_view_of, confirmed. simpl. rewrite rx_cause. by case_decide.
Qed.

(** A member of the MNCC leg's callbacks is called. *)
Lemma answers_invoke_m member bm s t1 o1 r :
  answers k (Local (Some bm) s t1 o1) (invoke (member mncc_leg_ops) (id_m k)) r ->
  answers k (Local (Some bm) s t1 o1) (invoke_member member (id_m k)) r.
Proof using.
  apply answers_eq. intros w H. destruct bm as [b1 m1]. destruct (h_mops _ _ _ _ _ _ _ H) as [_ Ho]. unfold invoke_member.
  run_step (deref_leg_eq w _ _ (h_mleg _ _ _ _ _ _ _ H)). cbn [base]. by rewrite Ho.
Qed.

Lemma relays_ring b1 m1 bs x1 t1 o1 :
  relays k (Local (Some (b1, m1)) (Some (bs, x1)) t1 o1) (invoke_member ring_call (id_m k))
    (ToMsc MNCC_ALERT_REQ :: (if has_media bs then [ToMscRtp MNCC_RTP_CONNECT] else []),
     abs (Local (Some (b1, m1)) (Some (bs, x1)) t1 o1)).
Proof using HW.
  apply (answers_invoke_m ring_call (b1, m1) _ _ _ (Some _)). eapply relays_quiet; [apply does_some_or|done|].
  eapply relays_quiet; [apply does_type_m|done|]. eapply relays_quiet; [apply does_as_mncc|done|].
  eapply relays_quiet; [apply does_ret|done|].
  eapply (relays_bind k _ _ _ _ _ [_]); [apply does_write|unfold said; simpl; by rewrite map_app|].
  eapply relays_quiet; [apply does_other_m|done|]. eapply relays_quiet; [apply does_deref_s|done|]. cbn [base].
  fold (has_media bs). destruct (has_media bs).
  - eapply relays_does; [eapply does_bind; [apply does_rtp_connect|apply does_ret]|unfold said; simpl; by rewrite map_app|done].
  - eapply relays_does; [apply does_ret|by rewrite app_nil_r|done].
Qed.

Lemma relays_connect b1 m1 bs x1 t1 o1 : exists q1,
  does k (Local (Some (b1, m1)) (Some (bs, x1)) t1 o1) (invoke_member connect_call (id_m k)) tt q1 /\
  said q1 = said (Local (Some (b1, m1)) (Some (bs, x1)) t1 o1) ++ [ToMscRtp MNCC_RTP_CONNECT; ToMsc MNCC_SETUP_RSP] /\
  q1 = Local (Some (b1, set_m_rsp_wanted MNCC_SETUP_COMPL_IND m1)) (Some (bs, x1)) true (lc_out q1).
Proof using HW.
  eexists. split; [|split].
  - eapply (does_eq k _ _ (mncc_call_leg_connect disconnected (id_m k))).
    { intros w H. destruct (h_mops _ _ _ _ _ _ _ H) as [_ Ho]. unfold invoke_member.
      run_step (deref_leg_eq w _ _ (h_mleg _ _ _ _ _ _ _ H)). cbn [base]. by rewrite Ho. }
    eapply does_bind; [apply does_type_m|]. eapply does_bind; [apply does_other_m|]. eapply does_bind; [apply does_some_or|].
    eapply does_bind; [apply does_rtp_connect|]. cbn [negb]. eapply does_bind; [apply does_start|].
    eapply does_bind; [apply does_as_mncc|]. eapply does_bind; [|apply does_ret].
    eapply does_bind; [apply does_ret|apply does_write].
  - unfold said. simpl. by rewrite !map_app, <- app_assoc.
  - done.
Qed.

Lemma confirmed_codec : s_wanted_codec (confirmed x) = s_wanted_codec x.
Proof using. unfold confirmed. by case_decide. Qed.

(** A response that rings: without an MNCC leg nothing is read from the message. *)
Lemma answers_ringing status msg : status = 180 \/ status = 183 -> (m <> None -> is_Some msg) ->
  answers k q (on_r_invite status (id_h k) msg)
    (react_sip sip (abs q) (SRing (match msg with Some w => has_media (ringing_leg (s_wanted_codec x) w b) | None => false end))).
Proof using HW.
  intros Hst Hmsg. apply answers_response.
  assert ((status =? 180) || (status =? 183) = true) as Hb by (rewrite orb_true_iff, !Z.eqb_eq; auto). rewrite Hb.
  unfold call_progress. eapply answers_quiet; [apply does_other_s|done|]. cbn [react_sip].
  rewrite <- (response_view (sip_get_sdp msg) o). destruct m as [[b1 m1]|]; cbn [end_of]; [|apply relays_ret].
  destruct Hmsg as [w ->]; [done|]. rewrite Hb. cbn [sip_get_sdp]. unfold ringing_leg.
  eapply answers_assoc, answers_quiet; [apply does_some_or|done|]. destruct (sip_payload w) as [data|].
  - rewrite <- confirmed_codec. set (b2 := rx_sdp_update _ b). eapply answers_assoc, answers_quiet; [apply does_extract|done|].
    eapply answers_quiet; [apply does_ret|done|].
    assert (abs (Local (Some (b1, m1)) (Some (b2, confirmed x)) t o)
      = abs (Local (Some (b1, m1)) (Some (extracted false (s_wanted_codec (confirmed x)) w b2, confirmed x)) t o)) as ->.
    { unfold abs, sip_view_of. simpl. by rewrite extracted_cause. }
    apply relays_ring.
  - eapply answers_quiet; [apply does_ret|done|]. apply relays_ring.
Qed.

(** [call_connect], with an MNCC leg or without. *)
Lemma relays_call_connect bs x1 msg : (m <> None -> is_Some msg) ->
  relays k (Local m (Some (bs, x1)) t o) (call_connect (id_s k) msg)
    match m with
    | None => ([Cancel], abs (Local m (Some (bs, x1)) t o))
    | Some _ =>
        if match msg with Some w => bool_decide (is_Some (usable false (s_wanted_codec x1) w)) | None => false end
        then ([ToMscRtp MNCC_RTP_CONNECT; ToMsc MNCC_SETUP_RSP; Ack],
              waits (Some MNCC_SETUP_COMPL_IND) (dialog SIP_CC_CONNECTED (abs (Local m (Some (bs, x1)) t o))))
        else also ([Cancel], abs (Local m (Some (bs, x1)) t o)) end_msc
    end.
Proof using HE HW.
  intros Hmsg. unfold call_connect. eapply relays_quiet; [apply does_other_s|done|]. destruct m as [[b1 m1]|]; cbn [end_of].
  2: { eapply relays_quiet; [apply does_as_sip|done|]. eapply relays_does; [apply does_emit|unfold said; simpl; by rewrite map_app|done]. }
  destruct Hmsg as [w ->]; [done|]. eapply relays_quiet; [apply does_some_or|done|].
  eapply relays_quiet; [apply does_extract|done|]. set (b2 := extracted _ _ _ bs).
  assert (cause b2 = cause bs) as Hc by apply extracted_cause. clearbody b2.
  assert (abs (Local (Some (b1, m1)) (Some (bs, x1)) t o) = abs (Local (Some (b1, m1)) (Some (b2, x1)) t o)) as ->.
  { unfold abs, sip_view_of. simpl. by rewrite Hc. }
  destruct (bool_decide _); cbn [negb].
  - eapply relays_quiet; [by apply does_upd_sip|done|].
    destruct (relays_connect b1 m1 b2 (set_s_state SIP_CC_CONNECTED x1) t o) as (q1 & Hdo & Ho & Hq).
    eapply (relays_bind k _ _ _ _ _ [_; _] [_]); [exact Hdo|exact Ho|]. rewrite Hq.
    eapply relays_quiet; [apply does_as_sip|done|]. eapply relays_does; [apply does_emit|unfold said; simpl; by rewrite map_app|done].
  - eapply relays_quiet; [apply does_as_sip|done|].
    eapply (relays_say k _ _ _ _ _ [_]); [apply does_emit|unfold said; simpl; by rewrite map_app|].
    exact (relays_end_msc k b1 m1 _ t _).
Qed.

Lemma answers_answered msg : (m <> None -> s_state x = SIP_CC_INITIAL \/ s_state x = SIP_CC_DLG_CNFD -> is_Some msg) ->
  answers k q (on_r_invite 200 (id_h k) msg)
    (react_sip sip (abs q)
      (SAnswer (match msg with Some w => bool_decide (is_Some (usable false (s_wanted_codec x) w)) | None => false end))).
Proof using HE HW.
  intros Hmsg. apply answers_response. cbn [Z.eqb orb]. change (200 =? 180) with false. change (200 =? 183) with false.
  change (200 =? 200) with true. cbn [orb]. eapply answers_quiet; [apply does_as_sip|done|].
  cbn [react_sip sip_view_of p_state snd fst].
  set (b1 := rx_sdp_update (sip_get_sdp msg) b). assert (forall o', abs (Local m (Some (b1, confirmed x)) t o') = confirms (abs q)) as Hv
    by (intros o'; apply response_view).
  assert (s_state x = SIP_CC_CONNECTED \/ s_state x = SIP_CC_HOLD ->
    relays k (Local m (Some (b1, confirmed x)) t o) (emit (NuaAck (s_handle (confirmed x)))) ([Ack], abs q)) as Hack.
  { intros Hst. eapply relays_does; [apply does_emit|unfold said; simpl; by rewrite map_app|]. rewrite Hv.
    unfold confirms, set_sip, abs, sip_view_of. simpl. destruct Hst as [-> | ->]; done. }
  assert (s_state x = SIP_CC_INITIAL \/ s_state x = SIP_CC_DLG_CNFD ->
    answers k (Local m (Some (b1, confirmed x)) t o) (call_connect (id_s k) msg)
      match at_msc (abs q) with
      | None => Some ([Cancel], confirms (abs q))
      | Some _ =>
          if match msg with Some w => bool_decide (is_Some (usable false (s_wanted_codec x) w)) | None => false end
          then Some ([ToMscRtp MNCC_RTP_CONNECT; ToMsc MNCC_SETUP_RSP; Ack],
                     waits (Some MNCC_SETUP_COMPL_IND) (dialog SIP_CC_CONNECTED (abs q)))
          else Some (also ([Cancel], confirms (abs q)) end_msc)
      end) as Hnew.
  { intros Hst. pose proof (relays_call_connect b1 (confirmed x) msg (fun Hm => Hmsg Hm Hst)) as H. rewrite Hv, confirmed_codec in H.
    assert (dialog SIP_CC_CONNECTED (confirms (abs q)) = dialog SIP_CC_CONNECTED (abs q)) as Hd by done. rewrite Hd in H.
    simpl. destruct m; simpl; [|exact H]. by destruct (match msg with Some _ => _ | None => _ end). }
  assert (s_state (confirmed x) = if decide (s_state x = SIP_CC_INITIAL) then SIP_CC_DLG_CNFD else s_state x) as ->
    by (unfold confirmed; by case_decide).
  destruct (s_state x); simpl; auto.
Qed.

(** The SIP leg is gone; the MNCC leg, if there is one, is asked to release. *)
Lemma relays_then_msc o1 : relays k (Local m None t o1)
  (match end_of (id_m k) m with None => ret tt | Some other => call_release other end) (end_msc (abs (Local m None t o1))).
Proof using HW. destruct m as [[b1 m1]|]; [apply relays_end_msc|apply relays_ret]. Qed.
Lemma relays_then_msc_cause o1 v : relays k (Local m None t o1)
  (match end_of (id_m k) m with None => ret tt | Some other => upd_base other (set_cause v) ;; call_release other end)
  (end_msc (abs (Local m None t o1))).
Proof using HW.
  destruct m as [[b1 m1]|]; [|apply relays_ret]. eapply relays_quiet; [by apply does_upd_mbase|done|].
  exact (relays_end_msc k (set_cause v b1) m1 None t o1).
Qed.
Lemma does_drop_leg m1 b1 x1 t1 o1 :
  does k (Local m1 (Some (b1, x1)) t1 o1) (drop_leg (id_s k)) tt (Local m1 None t1 (o1 ++ [NuaDestroy (s_handle x1)])).
Proof using. eapply does_bind; [apply does_as_sip|apply does_destroy_s]. Qed.

Lemma answers_failed status msg : 300 <= status ->
  answers k q (on_r_invite status (id_h k) msg) (react_sip sip (abs q) (SFail (status2cause status))).
Proof using HW.
  intros Hst. apply answers_response. destruct (Z.eqb_spec status 180) as [|_]; [lia|]. destruct (Z.eqb_spec status 183) as [|_]; [lia|].
  destruct (Z.eqb_spec status 200) as [|_]; [lia|]. destruct (Z.leb_spec 300 status) as [_|]; [|lia]. cbn [orb react_sip].
  unfold invite_failed. eapply relays_quiet; [apply does_other_s|done|]. eapply relays_quiet; [apply does_as_sip|done|].
  unfold also. destruct (end_msc (no_sip (abs q))) as [o2 a2] eqn:He.
  eapply (relays_bind k _ _ _ _ _ [_]); [apply does_emit|unfold said; simpl; by rewrite map_app|].
  eapply relays_eq; [intros w _; symmetry; apply bind_assoc|].
  eapply (relays_bind k _ _ _ _ _ [_]); [apply does_destroy_s|unfold said; simpl; by rewrite !map_app|].
  rewrite <- He. apply relays_then_msc_cause.
Qed.

Lemma answers_hangup : answers k q (on_remote_hangup (id_h k)) (react_sip sip (abs q) SHangup).
Proof using HW.
  unfold on_remote_hangup. eapply answers_quiet; [apply does_the_leg|done|]. eapply answers_quiet; [apply does_other_s|done|].
  eapply (relays_say k _ _ _ _ _ [_]); [apply does_drop_leg|unfold said; simpl; by rewrite map_app|]. apply relays_then_msc.
Qed.

Lemma answers_ended : answers k q (l <- the_leg (id_h k) ;; drop_leg l) (react_sip sip (abs q) SEnded).
Proof using.
  eapply answers_quiet; [apply does_the_leg|done|].
  eapply relays_does; [apply does_drop_leg|unfold said; simpl; by rewrite map_app|done].
Qed.

Lemma answers_other status msg : status < 300 -> status <> 180 -> status <> 183 -> status <> 200 ->
  answers k q (on_r_invite status (id_h k) msg) (react_sip sip (abs q) SOther).
Proof using.
  intros Hst H1 H2 H3. apply answers_response. destruct (Z.eqb_spec status 180) as [|_]; [lia|].
  destruct (Z.eqb_spec status 183) as [|_]; [lia|]. destruct (Z.eqb_spec status 200) as [|_]; [lia|].
  destruct (Z.leb_spec 300 status) as [|_]; [lia|]. cbn [orb react_sip].
  eapply relays_does; [apply does_ret|by rewrite app_nil_r|apply response_view].
Qed.

Lemma does_update_rtp b1 m1 bs x1 t1 o1 : exists a, short a = ToMscRtp MNCC_RTP_CONNECT /\
  does k (Local (Some (b1, m1)) (Some (bs, x1)) t1 o1) (invoke_update_rtp (id_s k) (id_m k)) tt
    (Local (Some (b1, m1)) (Some (bs, x1)) t1 (o1 ++ [a])).
Proof using HW.
  eexists. split; [|intros w H; eexists; split; [eapply invoke_update_rtp_eq, holds_msc, H|by apply holds_set_out, holds_tick]].
  done.
Qed.

Lemma relays_answer_200 m1 bs x1 t1 o1 mode a : abs (Local (Some m1) (Some (bs, x1)) t1 o1) = a ->
  relays k (Local (Some m1) (Some (bs, x1)) t1 o1) (sdp <- sdp_create_file (id_s k) (id_m k) mode ;; respond_200 (id_h k) sdp)
    ([Respond 200], a).
Proof using.
  intros <-. destruct m1 as [b1 m1]. eapply relays_does.
  - eapply does_bind; [apply does_create_file|apply does_emit].
  - unfold said. simpl. by rewrite map_app.
  - unfold abs, sip_view_of, sdp_file_codec. simpl. by destruct (String.eqb _ _).
Qed.

Lemma rx_addr sdp b1 : addr (rx_sdp_update sdp b1) = addr b1.
Proof using. unfold rx_sdp_update. by repeat case_match. Qed.
Lemma extracted_addr any w msg b1 b2 : addr b1 = addr b2 -> addr (extracted any w msg b1) = addr (extracted any w msg b2).
Proof using.
  intros Ha. unfold extracted. rewrite Ha. destruct (message_session msg); [|done].
  destruct (extract_conn _ _) as [a []]; by destruct (extract_media _ _ _) as [[? ?]|].
Qed.

(** [sip_handle_reinvite] of a leg whose base took the SDP of the message already. *)
Lemma answers_reinvite msg : let b1 := rx_sdp_update (sip_payload msg) b in
  answers k (Local m (Some (b1, x)) t o) (sip_handle_reinvite (id_s k) (id_h k) msg)
    (react_sip sip (abs q) (SOffer (offer_of (s_wanted_codec x) msg b))).
Proof using HE HW.
  intros b1. rewrite <- (rx_view_s (sip_payload msg) b x m t o o). fold b1. assert (addr b1 = addr b) as Ha by apply rx_addr.
  clearbody b1. unfold sip_handle_reinvite. eapply answers_quiet; [apply does_deref_s|done|]. cbv zeta. cbn [base].
  eapply answers_quiet; [apply does_other_s|done|]. cbn [react_sip]. unfold offer_of. rewrite <- Ha.
  destruct m as [[bm m1]|]; simpl at_msc; cbn [end_of option_map fmap option_fmap]; [|apply relays_end_sip_call].
  destruct (sdp_get_sdp_mode msg) as [mode|]; [|by apply relays_answer_200].
  eapply answers_quiet; [apply does_rx_s|done|]. cbn [sip_get_sdp].
  rewrite <- (rx_view_s (sip_payload msg) b1 x (Some (bm, m1)) t o o).
  assert (addr (rx_sdp_update (sip_payload msg) b1) = addr b1) as Ha2 by apply rx_addr.
  set (b2 := rx_sdp_update _ b1) in *. clearbody b2. case_decide; [by apply relays_answer_200|].
  eapply answers_quiet; [apply does_extract|done|]. rewrite (extracted_addr _ _ _ b b2) by congruence. set (b3 := extracted _ _ _ b2).
  assert (cause b3 = cause b2) as Hc by apply extracted_cause.
  assert (forall o', abs (Local (Some (bm, m1)) (Some (b3, x)) t o') = abs (Local (Some (bm, m1)) (Some (b2, x)) t o)) as Hv
    by (intros o'; unfold abs, sip_view_of; simpl; by rewrite Hc).
  destruct (bool_decide _); cbn [negb].
  - eapply answers_quiet; [apply does_deref_s|done|]. cbn [base]. rewrite <- Ha2. clear Hc.
    destruct (osmo_sockaddr_cmp _ _ =? 0); cbn [negb].
    + eapply answers_quiet; [apply does_ret|done|]. by apply relays_answer_200.
    + destruct (does_update_rtp bm m1 b3 x t o) as (a & Hsh & Hdo).
      eapply (relays_bind k _ _ _ _ _ [_] [_]); [exact Hdo|unfold said; simpl; by rewrite map_app; simpl; rewrite Hsh|].
      by apply relays_answer_200.
  - unfold reject_406. eapply answers_assoc. 
    eapply (relays_bind k _ _ _ _ _ [_] [_]); [apply does_emit|unfold said; simpl; by rewrite map_app|].
    eapply relays_does; [apply does_drop_s|unfold said; simpl; by rewrite !map_app|done].
Qed.

(** A re-INVITE, or the ACK of one that carries the offer. *)
Lemma answers_i_invite msg : answers k q (on_i_invite 100 (id_h k) (Some msg))
  (react_sip sip (abs q) (SOffer (offer_of (s_wanted_codec x) msg b))).
Proof using HE HW.
  unfold on_i_invite. change (100 =? 100) with true. cbv iota. eapply answers_quiet; [apply does_sip_find|done|].
  eapply answers_quiet; [apply does_rx_s|done|]. eapply answers_quiet; [apply does_some_or|done|]. apply answers_reinvite.
Qed.
Lemma answers_i_ack msg data : sip_payload msg = Some data -> answers k q (on_i_ack (id_h k) (Some msg))
  (react_sip sip (abs q) (SOffer (offer_of (s_wanted_codec x) msg b))).
Proof using HE HW.
  intros Hp. unfold on_i_ack. eapply answers_quiet; [apply does_some_or|done|]. rewrite Hp.
  eapply answers_quiet; [apply does_sip_find|done|]. eapply answers_quiet; [apply does_rx_s|done|]. apply answers_reinvite.
Qed.
End sip.
