(* ===== verification/Faults.v ===== *)
(** * Where [event_safe] needs its hypotheses

    Without writes that succeed, and without an MSC that sends to a call only the
    messages of its direction, handlers follow pointers they must not follow.
    Closing the connection runs [app_mncc_disconnected] (src/app.c), which
    releases the MNCC legs at once; the functions of src/mncc.c that caused the
    write go on with the leg they had. *)
From S2P Require Import Prelude Effect Codec Protocol Lib State Skel Rules Call Sdp SipLeg MnccConn App MnccRx SipUa CallFlow.

(** ** Definitions *)

(** The next write on the MNCC socket, of [sz] bytes, does not send them all. *)
Definition write_lost {E : Env} (w : world) (sz : Z) : Prop :=
  write_rc (n_io w) (cn_fd (conn w)) sz <> sz.

(** The computation stops with the fault. *)
Definition faults {A} (f : fault) (m : MW A) (w : world) : Prop := exists w', m w = Crash f w'.

(** ** Faults propagate *)
Lemma faults_bind {A B} f (m : MW A) (k : A -> MW B) w : faults f m w -> faults f (bind m k) w.
Proof. intros [w' Hm]. exists w'. unfold bind. by rewrite Hm. Qed.

Lemma faults_after {A B} f (m : MW A) (k : A -> MW B) w a w' :
  m w = Ret a w' -> faults f (k a) w' -> faults f (bind m k) w.
Proof. intros Hm [w2 Hk]. exists w2. unfold bind. by rewrite Hm. Qed.

Lemma deref_gone w l : legs w !! l = None -> faults UseAfterFree (deref_leg l) w.
Proof. intros Hl. exists w. unfold deref_leg, bind, gets. simpl. by rewrite Hl. Qed.

Lemma as_mncc_gone w l : legs w !! l = None -> faults UseAfterFree (as_mncc l) w.
Proof. intros Hl. by apply faults_bind, deref_gone. Qed.

Lemma upd_mncc_gone w l f : legs w !! l = None -> faults UseAfterFree (upd_mncc l f) w.
Proof. intros Hl. by apply faults_bind, as_mncc_gone. Qed.

Lemma call_leg_other_gone w l : legs w !! l = None -> faults UseAfterFree (call_leg_other l) w.
Proof. intros Hl. by apply faults_bind, deref_gone. Qed.

(** ** A write that is lost frees the MNCC legs *)
Section lost.
Context {E : Env}.

Lemma lost_close w : wf w -> 0 <= cn_fd (conn w) ->
  exists w', close_connection disconnected w = Ret tt w' /\
    forall l b m, legs w !! l = Some (Leg b (XMncc m)) -> legs w' !! l = None.
Proof.
  intros Hw Hfd.
  pose proof (close_connection_st (sk w) (conn w) (w_sk w Hw) (w_conn w Hw) 0 w (wf_st w Hw)) as H.
  apply wp_returns in H as ([] & w' & Hrun & s' & Hst' & Hwf' & Hd & _ & Hno). exists w'. split; [exact Hrun|].
  intros l b m Hl. destruct (legs w' !! l) as [y|] eqn:Hy; [|done]. exfalso.
  assert (sk_legs s' !! l = Some (shape y)) as Hs' by (rewrite <- (st_sk _ _ _ Hst'); simpl; by rewrite lookup_fmap, Hy).
  pose proof (drops_legs _ _ _ _ (w_sk w Hw) Hd Hs') as Hs. simpl in Hs. rewrite lookup_fmap, Hl in Hs.
  assert (shape y = shape (Leg b (XMncc m))) as Heq by (symmetry; exact (Some_inj _ _ Hs)).
  apply (Hno Hfd l _ Hs'). by rewrite Heq.
Qed.

(** The common text of the two write functions. *)
Lemma lost_write w l b m (a : Z -> action) (sz : Z) :
  wf w -> 0 <= cn_fd (conn w) -> legs w !! l = Some (Leg b (XMncc m)) -> write_lost w sz ->
  exists rc w', (n <- tick ;; c <- gets conn ;; let rc := write_rc n (cn_fd c) sz in
      emit (a rc) ;; when (negb (rc =? sz)) (close_connection disconnected) ;; ret rc) w = Ret rc w' /\
    rc <> sz /\ legs w' !! l = None.
Proof.
  intros Hw Hfd Hl Hlost. unfold write_lost in Hlost. set (rc := write_rc (n_io w) (cn_fd (conn w)) sz) in *.
  set (w1 := set_out (fun o => o ++ [a rc]) (set_n_io S w)).
  assert (wf w1) as Hw1.
  { apply (st_wf (sk w) (conn w)); [|apply Hw..]. apply st_set_out, st_set_n_io, wf_st, Hw. }
  destruct (lost_close w1 Hw1 Hfd) as (w' & Hrun & Hgone). exists rc, w'.
  split; [|split; [done|]; by eapply Hgone].
  unfold tick, gets, modify, emit, bind, ret. simpl. fold rc. rewrite (proj2 (Z.eqb_neq _ _) Hlost). simpl.
  fold w1. by rewrite Hrun.
Qed.

Lemma lost_mncc_write w l b m msg : wf w -> 0 <= cn_fd (conn w) -> legs w !! l = Some (Leg b (XMncc m)) ->
  write_lost w sizeof_gsm_mncc ->
  exists rc w', mncc_write disconnected msg w = Ret rc w' /\ legs w' !! l = None.
Proof.
  intros Hw Hfd Hl Hlost.
  destruct (lost_write w l b m (TxMncc msg) _ Hw Hfd Hl Hlost) as (rc & w' & Hrun & _ & Hg). by exists rc, w'.
Qed.

Lemma fill_header_total w cr lm ls bm m bs x t : mncc_sip_call w cr lm ls bm m bs x ->
  exists msg, mncc_fill_header gsm_mncc0 t (m_callref m) w = Ret msg w.
Proof.
  intros [Hw _ Hlm _ _ Hcr Hu]. rewrite <- Hcr in Hu.
  destruct (decide (t = MNCC_DISC_REQ \/ t = MNCC_REL_REQ)) as [Ht|Ht].
  - eexists. by apply (fill_header_cause w lm bm m t).
  - eexists. unfold mncc_fill_header.
    assert ((MNCC_DISC_REQ =? t) || (MNCC_REL_REQ =? t) = false) as -> by (rewrite orb_false_iff, !Z.eqb_neq; naive_solver).
    reflexivity.
Qed.

Lemma lost_send_for w cr lm ls bm m bs x t : mncc_sip_call w cr lm ls bm m bs x ->
  write_lost w sizeof_gsm_mncc -> exists w', send_for lm t w = Ret tt w' /\ legs w' !! lm = None.
Proof.
  intros Hm Hlost. destruct (fill_header_total _ _ _ _ _ _ _ _ t Hm) as [msg Hf].
  destruct Hm as [Hw Hfd Hlm _ _ _ _]. destruct (lost_mncc_write w lm bm m msg Hw Hfd Hlm Hlost) as (rc & w' & Hrun & Hg).
  exists w'. split; [|done]. unfold send_for, send, mncc_send. run_step (as_mncc_eq w lm bm m Hlm).
  rewrite bind_assoc. run_step Hf. by run_step Hrun.
Qed.

(** [send_rtp_connect] itself reads the leg again. *)
Lemma lost_rtp_connect w cr lm ls bm m bs x : mncc_sip_call w cr lm ls bm m bs x ->
  write_lost w sizeof_rtp -> faults UseAfterFree (send_rtp_connect disconnected lm ls) w.
Proof.
  intros [Hw Hfd Hlm Hls _ _ _] Hlost. unfold send_rtp_connect.
  eapply faults_after; [exact (as_mncc_eq w lm bm m Hlm)|]. eapply faults_after; [exact (deref_leg_eq w ls _ Hls)|].
  destruct (lost_write w lm bm m (TxRtp (Rtp MNCC_RTP_CONNECT (m_callref m) (addr bs) (payload_type bs) 0
    (osmo_strlcpy 1024 (rx_sdp bs)))) _ Hw Hfd Hlm Hlost) as (rc & w' & Hrun & Hrc & Hg).
  eapply faults_after; [exact Hrun|]. rewrite (proj2 (Z.eqb_neq _ _) Hrc). by apply faults_bind, deref_gone.
Qed.
End lost.

(** ** The handlers *)
Section handlers.
Context {E : Env}.

(** Marking, storing SDP or a re-INVITE keep the call what it is. *)
Lemma hold_kept w cr lm ls bm m bs x mode stt : mncc_sip_call w cr lm ls bm m bs x ->
  exists w' x', sip_reinvite ls mode stt w = Ret tt w' /\ mncc_sip_call w' cr lm ls bm m bs x' /\
    n_io w' = n_io w /\ conn w' = conn w.
Proof.
  intros Hm. pose proof Hm as [Hw _ Hlm Hls Hb _ _]. pose proof (bridged_sym _ _ _ Hw Hb) as Hb'.
  destruct (bridged_sip_ops w ls lm bs x Hw Hb' Hls) as (Hty & _).
  set (x1 := set_s_state stt (sdp_file_codec bm x)).
  set (w1 := set_out (fun o => o ++ [NuaInvite (s_handle x) None None None (sdp_file bm mode)]) w).
  exists (set_legs (<[ls := Leg bs (XSip x1)]>) w1), x1.
  split; [exact (sip_reinvite_eq w ls lm bs x _ mode stt Hls Hty Hb' Hlm)|]. split; [|done].
  apply (msc_set_sip w1 cr lm ls bm m bs x bs x1); [by apply msc_set_out|].
  unfold shape, x1, sdp_file_codec. by destruct (String.eqb _ _).
Qed.

(** A handler that reads the leg after a message was lost. *)
Lemma lost_then_gone {A} w cr lm ls bm m bs x t (k : MW A) : mncc_sip_call w cr lm ls bm m bs x ->
  write_lost w sizeof_gsm_mncc -> (forall w', legs w' !! lm = None -> faults UseAfterFree k w') ->
  faults UseAfterFree (send_for lm t ;; k) w.
Proof.
  intros Hm Hlost Hk. destruct (lost_send_for _ _ _ _ _ _ _ _ t Hm Hlost) as (w' & Hrun & Hg).
  eapply faults_after; [exact Hrun|]. by apply Hk.
Qed.

(** The same after a re-INVITE of the SIP leg. *)
Lemma lost_after_reinvite {A} w cr lm ls bm m bs x mode stt t (k : MW A) : mncc_sip_call w cr lm ls bm m bs x ->
  write_lost w sizeof_gsm_mncc -> (forall w', legs w' !! lm = None -> faults UseAfterFree k w') ->
  faults UseAfterFree (sip_reinvite ls mode stt ;; send_for lm t ;; k) w.
Proof.
  intros Hm Hlost Hk. destruct (hold_kept _ _ _ _ _ _ _ _ mode stt Hm) as (w1 & x1 & Hrun & Hm1 & Hn & Hc).
  eapply faults_after; [exact Hrun|]. eapply lost_then_gone; [done| |done].
  unfold write_lost. by rewrite Hn, Hc.
Qed.

Lemma lost_ring w cr lm ls bm m bs x : mncc_sip_call w cr lm ls bm m bs x ->
  write_lost w sizeof_gsm_mncc -> faults UseAfterFree (mncc_call_leg_ring disconnected lm) w.
Proof.
  intros Hm Hlost. destruct (msc_mncc_ops _ _ _ _ _ _ _ _ Hm) as [Hty _].
  destruct Hm as [Hw Hfd Hlm _ _ _ _]. unfold mncc_call_leg_ring.
  eapply faults_after; [by apply (assert_type_eq w lm _ CALL_TYPE_MNCC Hlm)|].
  eapply faults_after; [exact (as_mncc_eq w lm bm m Hlm)|]. eapply faults_after; [reflexivity|]. simpl.
  match goal with |- context [mncc_write disconnected ?h] =>
    destruct (lost_mncc_write w lm bm m h Hw Hfd Hlm Hlost) as (rc & w' & Hrun & Hg) end.
  eapply faults_after; [exact Hrun|]. by apply faults_bind, call_leg_other_gone.
Qed.

(** C34: when the socket breaks while a bridged call is served, the handlers that sent the
    message go on with the MNCC leg that the disconnect callback has freed: after a lost
    Release, Hold or Retrieve confirmation or Alerting, and inside
    [send_rtp_connect] when the phone or the SIP peer has answered. *)
Theorem lost_write_faults buf w lm ls bm m bs x : mncc_sip_call w (mn_callref (view_gsm_mncc buf)) lm ls bm m bs x ->
  (write_lost w sizeof_gsm_mncc ->
     faults UseAfterFree (check_disc_ind buf sizeof_gsm_mncc) w /\
     faults UseAfterFree (check_hold_ind buf sizeof_gsm_mncc) w /\
     faults UseAfterFree (check_retrieve_ind buf sizeof_gsm_mncc) w /\
     faults UseAfterFree (mncc_call_leg_ring disconnected lm) w) /\
  (write_lost w sizeof_rtp ->
     faults UseAfterFree (check_stp_cnf buf sizeof_gsm_mncc) w /\
     faults UseAfterFree (mncc_call_leg_connect disconnected lm) w).
Proof.
  intros Hm. pose proof Hm as [Hw Hfd Hlm Hls Hb _ _]. pose proof (bridged_sym _ _ _ Hw Hb) as Hb'.
  destruct (bridged_sip_ops w ls lm bs x Hw Hb' Hls) as (_ & _ & _ & Hhold & Hretr).
  destruct (msc_mncc_ops _ _ _ _ _ _ _ _ Hm) as [Hty _]. split; intros Hlost; split_and!.
  - unfold check_disc_ind. destruct (disc_mark _ _ _ _ _ _ _ _ Hm) as (w1 & Hrun & Hm1 & Hst1 & _ & Hn & _).
    unfold faults. rewrite (msc_with_leg w lm ls bm m bs x buf _ Hm), Hrun.
    apply (lost_then_gone w1 _ _ _ _ _ _ _ MNCC_REL_REQ _ Hm1).
    + unfold write_lost. by rewrite Hn, (st_conn _ _ _ Hst1).
    + intros w' Hg. by apply faults_bind, call_leg_other_gone.
  - unfold check_hold_ind, faults. rewrite (msc_with_leg w lm ls bm m bs x buf _ Hm).
    run_step (bridged_other w lm ls Hb). unfold invoke_member. rewrite bind_assoc.
    run_step (deref_leg_eq w ls _ Hls). simpl base. rewrite Hhold.
    eapply (lost_after_reinvite w); [done..|]. intros w' Hg. by apply upd_mncc_gone.
  - unfold check_retrieve_ind, faults. rewrite (msc_with_leg w lm ls bm m bs x buf _ Hm).
    run_step (bridged_other w lm ls Hb). unfold invoke_member. rewrite bind_assoc.
    run_step (deref_leg_eq w ls _ Hls). simpl base. rewrite Hretr.
    eapply (lost_after_reinvite w); [done..|]. intros w' Hg. by apply faults_bind, upd_mncc_gone.
  - by eapply lost_ring.
  - unfold check_stp_cnf, faults. rewrite (msc_with_leg w lm ls bm m bs x buf _ Hm).
    destruct (msc_rx _ _ _ _ _ _ _ _ (Some (mn_sdp (view_gsm_mncc buf))) Hm) as [Hrx Hm1]. run_step Hrx.
    run_step (bridged_other _ lm ls (msc_bridge _ _ _ _ _ _ _ _ Hm1)).
    apply faults_bind. by eapply lost_rtp_connect.
  - unfold mncc_call_leg_connect. eapply faults_after; [by apply (assert_type_eq w lm _ CALL_TYPE_MNCC Hlm)|].
    eapply faults_after; [by apply bridged_other|]. eapply faults_after; [reflexivity|].
    apply faults_bind. by eapply lost_rtp_connect.
Qed.
End handlers.

(** ** Messages of the wrong direction *)
Section direction.
Context {E : Env} {HW : WritesOk E}.

(** The callbacks of the SIP leg of a call to SIP. *)
Lemma msc_mt_ops w cr lm ls bm m bs x : mncc_sip_call w cr lm ls bm m bs x -> s_dir x = SIP_DIR_MT ->
  ops bs = sip_mt_ops.
Proof using.
  intros [Hw _ Hlm Hls Hb _ _] Hd. pose proof (bridged_sym _ _ _ Hw Hb) as Hb'.
  pose proof (bridged_established w ls lm _ Hw Hb' Hls) as He. unfold established in He. simpl in He.
  rewrite Hd in He. apply He.
Qed.

Lemma null_member w l x member : legs w !! l = Some x -> member (ops (base x)) = None ->
  faults NullCall (invoke_member member l) w.
Proof using.
  intros Hl Hn. unfold invoke_member. eapply faults_after; [by apply (deref_leg_eq w l x)|].
  rewrite Hn. by exists w.
Qed.

(** C35: when the MSC sends Alerting or a Setup confirmation for a call that it made itself, the
    program calls the [ring_call] or [connect_call] of a SIP leg that has none. *)
Theorem wrong_direction_faults buf w lm ls bm m bs x :
  mncc_sip_call w (mn_callref (view_gsm_mncc buf)) lm ls bm m bs x -> s_dir x = SIP_DIR_MT ->
  faults NullCall (check_alrt_ind buf sizeof_gsm_mncc) w /\
  faults NullCall (check_stp_cnf buf sizeof_gsm_mncc) w.
Proof.
  intros Hm Hd. set (d := view_gsm_mncc buf) in *. pose proof (msc_mt_ops _ _ _ _ _ _ _ _ Hm Hd) as Hops.
  destruct (msc_rx _ _ _ _ _ _ _ _ (Some (mn_sdp d)) Hm) as [Hrx Hm1].
  pose proof Hm1 as [_ Hfd Hlm Hls Hb _ _]. unfold check_alrt_ind, check_stp_cnf, faults.
  rewrite !(msc_with_leg w lm ls bm m bs x buf _ Hm). fold d. split; run_step Hrx; run_step (bridged_other _ lm ls Hb).
  - apply (null_member _ ls (Leg bs (XSip x))); [exact Hls|]. simpl. by rewrite Hops.
  - run_step (send_rtp_connect_eq _ lm ls _ m _ Hlm Hls Hfd). cbv beta iota delta [negb].
    match goal with |- context [wrote ?a ?w0] => set (w1 := wrote a w0) end.
    run_step (upd_mncc_eq w1 lm (set_m_state MNCC_CC_CONNECTED) _ m Hlm). set (w2 := set_legs _ w1).
    pose proof Hb as [Hne _].
    run_step (send_for_eq w2 lm _ _ MNCC_SETUP_COMPL_REQ (lookup_insert_eq _ _ _) Hfd ltac:(done) ltac:(done)).
    apply (null_member _ ls (Leg bs (XSip x))); [|simpl; by rewrite Hops].
    change (legs w2 !! ls = Some (Leg bs (XSip x))). unfold w2. simpl. by rewrite lookup_insert_ne.
Qed.
End direction.
