(* ===== verification/Vty.v ===== *)
(** * The command line: configuration and inspection (src/vty.c)

    The commands of the configuration file with the state they set, the functions
    that write the file, and the commands that print the calls.  The matching of a
    line against a command pattern is libosmovty's and a parameter; [VtyLaws] is
    its documented behaviour for the kinds of pattern the program uses. *)
From S2P Require Import Prelude Effect Codec Protocol Lib State Skel Rules Call SipLeg.
From Stdlib Require Import Ascii.
#[local] Open Scope effect_scope.

(** ** Definitions *)

(** *** libc: isspace, atoi, and the padding of printf *)
Definition isspace (c : ascii) : bool :=
  let n := Ascii.nat_of_ascii c in (n =? 32)%nat || ((9 <=? n)%nat && (n <=? 13)%nat).
Definition digit (c : ascii) : option Z :=
  let n := Ascii.nat_of_ascii c in
  if (48 <=? n)%nat && (n <=? 57)%nat then Some (Z.of_nat n - 48) else None.
Fixpoint atoi_digits (s : string) (acc : Z) : Z :=
  match s with
  | String c s' => match digit c with Some d => atoi_digits s' (acc * 10 + d) | None => acc end
  | EmptyString => acc
  end.
Fixpoint atoi (s : string) : Z :=
  match s with
  | EmptyString => 0
  | String c s' =>
      if isspace c then atoi s'
      else if Ascii.eqb c "-" then - atoi_digits s' 0
      else if Ascii.eqb c "+" then atoi_digits s' 0
      else atoi_digits s 0
  end.
Fixpoint spaces (n : nat) : string := match n with O => EmptyString | S n' => String " " (spaces n') end.
(** [%<n>s] and [%-<n>s] *)
Definition pad_left (n : nat) (s : string) : string := spaces (n - String.length s) +:+ s.
Definition pad_right (n : nat) (s : string) : string := s +:+ spaces (n - String.length s).

(** The words of a line. *)
Fixpoint split_line (s : string) : list string :=
  match s with
  | EmptyString => [EmptyString]
  | String c s' =>
      if isspace c then EmptyString :: split_line s'
      else match split_line s' with w :: ws => String c w :: ws | [] => [String c EmptyString] end
  end.
Definition words (s : string) : list string := filter (fun w => w <> EmptyString) (split_line s).

(** *** libosmovty *)
Class VtyLib := {
  CONFIG_NODE : Z;
  ENABLE_NODE : Z;
  LAST_OSMOVTY_NODE : Z;
  (** match a line against a command pattern: its arguments *)
  vty_match : string -> string -> option (list string);
  (** what the token A.B.C.D accepts *)
  vty_ipv4 : string -> bool;
}.

Section vty.
Context {V : VtyLib}.

Definition SIP_NODE : Z := LAST_OSMOVTY_NODE + 1.
Definition MNCC_NODE : Z := LAST_OSMOVTY_NODE + 2.
Definition APP_NODE : Z := LAST_OSMOVTY_NODE + 3.

(** The session: the node of the prompt, the configuration [g_app] and the level
    of sofia-sip's default and global logs, which the commands set together. *)
Record vty := Vty { node : Z; g_app : app_config; su_log_level : Z }.
Definition set_node (n : Z) (v : vty) : vty := Vty n (g_app v) (su_log_level v).
Definition set_app (f : app_config -> app_config) (v : vty) : vty := Vty (node v) (f (g_app v)) (su_log_level v).
(** [su_log_set_level] on both logs *)
Definition su_log_set_level (n : Z) (v : vty) : vty := Vty (node v) (g_app v) n.

Definition mncc_vty_go_parent (v : vty) : vty :=
  if (node v =? SIP_NODE) || (node v =? MNCC_NODE) || (node v =? APP_NODE) then set_node CONFIG_NODE v
  else if SIP_NODE <=? node v then set_node CONFIG_NODE v
  else set_node ENABLE_NODE v.

(** [argv[i]]; reading past the arguments reads other memory. *)
Definition argv_at (argv : list string) (i : nat) : M vty string := some_or OutOfBounds (argv !! i).

Definition cfg_sip (argv : list string) : M vty unit := modify (set_node SIP_NODE).
Definition cfg_sip_local_addr (argv : list string) : M vty unit :=
  a <- argv_at argv 0 ;;
  p <- argv_at argv 1 ;;
  modify (set_app (fun g => Config a (atoi p) (sip_remote_addr g) (sip_remote_port g)
                                   (sofia_log_level g) (mncc_path g) (use_imsi_as_id g))).
Definition cfg_sip_remote_addr (argv : list string) : M vty unit :=
  a <- argv_at argv 0 ;;
  p <- argv_at argv 1 ;;
  modify (set_app (fun g => Config (sip_local_addr g) (sip_local_port g) a (atoi p)
                                   (sofia_log_level g) (mncc_path g) (use_imsi_as_id g))).
Definition cfg_sip_sofia_log_level (argv : list string) : M vty unit :=
  a <- argv_at argv 0 ;;
  modify (set_app (fun g => Config (sip_local_addr g) (sip_local_port g) (sip_remote_addr g) (sip_remote_port g)
                                   (atoi a) (mncc_path g) (use_imsi_as_id g))) ;;
  modify (su_log_set_level (atoi a)).
Definition cfg_mncc (argv : list string) : M vty unit := modify (set_node MNCC_NODE).
Definition cfg_mncc_path (argv : list string) : M vty unit :=
  a <- argv_at argv 0 ;;
  modify (set_app (fun g => Config (sip_local_addr g) (sip_local_port g) (sip_remote_addr g) (sip_remote_port g)
                                   (sofia_log_level g) a (use_imsi_as_id g))).
Definition cfg_app (argv : list string) : M vty unit := modify (set_node APP_NODE).
Definition set_use_imsi (b : bool) (g : app_config) : app_config :=
  Config (sip_local_addr g) (sip_local_port g) (sip_remote_addr g) (sip_remote_port g)
         (sofia_log_level g) (mncc_path g) b.
Definition cfg_use_imsi (argv : list string) : M vty unit := modify (set_app (set_use_imsi true)).
Definition cfg_no_use_imsi (argv : list string) : M vty unit := modify (set_app (set_use_imsi false)).

(** [install_element]: the commands of a node, in the order they are installed. *)
Definition commands (n : Z) : list (string * (list string -> M vty unit)) :=
  if n =? CONFIG_NODE then
    [("sip", cfg_sip); ("mncc", cfg_mncc); ("app", cfg_app)]%string
  else if n =? SIP_NODE then
    [("local A.B.C.D <1-65534>", cfg_sip_local_addr);
     ("remote ADDR <1-65534>", cfg_sip_remote_addr);
     ("sofia-sip log-level <0-9>", cfg_sip_sofia_log_level)]%string
  else if n =? MNCC_NODE then [("socket-path NAME", cfg_mncc_path)]%string
  else if n =? APP_NODE then [("use-imsi", cfg_use_imsi); ("no use-imsi", cfg_no_use_imsi)]%string
  else [].

(** The values [mncc_sip_vty_init] sets, and the log level main() sets. *)
Definition vty_defaults : app_config :=
  Config "127.0.0.1" 5060 "pbx" 5060 2 "/tmp/msc_mncc" false.

(** *** Writing the configuration: one string per [vty_out] *)
Definition config_write_sip (nl : string) (g : app_config) : list string :=
  [ "sip" +:+ nl;
    " local " +:+ sip_local_addr g +:+ " " +:+ fmt_d (sip_local_port g) +:+ nl;
    " remote " +:+ sip_remote_addr g +:+ " " +:+ fmt_d (sip_remote_port g) +:+ nl;
    " sofia-sip log-level " +:+ fmt_d (sofia_log_level g) +:+ nl ].
Definition config_write_mncc (nl : string) (g : app_config) : list string :=
  [ "mncc" +:+ nl; " socket-path " +:+ mncc_path g +:+ nl ].
Definition config_write_app (nl : string) (g : app_config) : list string :=
  ("app" +:+ nl) :: (if use_imsi_as_id g then [" use-imsi" +:+ nl] else []).

(** *** Reading it: the command of the current node that matches the line; false
    when there is none, which makes reading the file fail *)
Fixpoint run_command (cmds : list (string * (list string -> M vty unit))) (line : string) : M vty bool :=
  match cmds with
  | [] => ret false
  | (pat, h) :: cmds' =>
      match vty_match pat line with
      | Some argv => h argv ;; ret true
      | None => run_command cmds' line
      end
  end.
Definition exec_line (line : string) : M vty bool :=
  n <- gets node ;; run_command (commands n) line.
Fixpoint exec_lines (lines : list string) : M vty bool :=
  match lines with
  | [] => ret true
  | line :: lines' =>
      ok <- exec_line line ;;
      if ok : bool then exec_lines lines' else ret false
  end.
(** The sections of a file, each followed by the way back to the parent node. *)
Fixpoint exec_sections (ss : list (list string)) : M vty bool :=
  match ss with
  | [] => ret true
  | lines :: ss' =>
      ok <- exec_lines lines ;;
      if ok : bool then modify mncc_vty_go_parent ;; exec_sections ss' else ret false
  end.

(** The sections the program writes. *)
Definition config_write (nl : string) (g : app_config) : list (list string) :=
  [config_write_sip nl g; config_write_mncc nl g; config_write_app nl g].
End vty.

(** *** Inspection *)
Definition mncc_conn_state_vals : list (mncc_conn_state * string) :=
  [(MNCC_DISCONNECTED, "DISCONNECTED"); (MNCC_WAIT_VERSION, "WAITING"); (MNCC_READY, "READY")]%string.

Section show.
(** [VTY_NEWLINE] and the printf of a handle pointer *)
Context {ML : MnccLib} (nl : string) (fmt_p : option handle -> string).

Definition dump_number (what : string) (n : gsm_mncc_number) : string :=
  " MNCC " +:+ what +:+ " TON(" +:+ fmt_d (nr_type n) +:+ ") NPI(" +:+ fmt_d (nr_plan n)
  +:+ ") NUM(" +:+ str_take 32 (nr_number n) +:+ ")" +:+ nl.

Definition dump_leg (o : option ptr) (kind : string) : MW string :=
  match o with
  | None => ret EmptyString
  | Some l =>
      x <- deref_leg l ;;
      let head := " " +:+ kind +:+ " leg of type: " +:+ fmt_s (call_leg_type x) +:+ nl in
      match lg_type (base x) with
      | CALL_TYPE_SIP =>
          s <- as_sip l ;;
          ret (head
            +:+ " SIP nua_handle(" +:+ fmt_p (s_handle s) +:+ ")" +:+ nl
            +:+ " SIP state(" +:+ fmt_s (value_string sip_state_vals (s_state s)) +:+ ")" +:+ nl
            +:+ " SIP dir(" +:+ fmt_s (value_string sip_dir_vals (s_dir s)) +:+ ")" +:+ nl
            +:+ " SIP wanted_codec(" +:+ fmt_s (s_wanted_codec s) +:+ ")" +:+ nl)
      | CALL_TYPE_MNCC =>
          m <- as_mncc l ;;
          ts <- gets timers ;;
          ret (head
            +:+ " MNCC state(" +:+ fmt_s (value_string mncc_state_vals (m_state m)) +:+ ")" +:+ nl
            +:+ " MNCC dir(" +:+ fmt_s (value_string mncc_dir_vals (m_dir m)) +:+ ")" +:+ nl
            +:+ " MNCC callref(" +:+ fmt_u (m_callref m) +:+ ")" +:+ nl
            +:+ dump_number "called" (m_called m) +:+ dump_number "calling" (m_calling m)
            +:+ " MNCC imsi(" +:+ str_take 16 (m_imsi m) +:+ ")" +:+ nl
            +:+ " MNCC timer pending(" +:+ fmt_d (if decide (l ∈ ts) then 1 else 0) +:+ ")" +:+ nl)
      | CALL_TYPE_NONE => ret (head +:+ " Unhandled type: " +:+ fmt_d 0 +:+ nl)
      end
  end.

(** [source] and [dest] are printed from the strings they point to. *)
Definition show_call (c : ptr) : MW string :=
  cl <- deref_call c ;;
  src <- read_str (source cl) ;;
  dst <- read_str (dest cl) ;;
  i <- dump_leg (initial cl) "Initial" ;;
  r <- dump_leg (remote cl) "Remote" ;;
  ret ("Call(" +:+ fmt_u (call_id cl) +:+ ") from " +:+ fmt_s src +:+ " to " +:+ fmt_s dst +:+ nl +:+ i +:+ r).

(** The text of all calls, in the order of the list. *)
Fixpoint show_each (show : ptr -> MW string) (cs : list ptr) : MW string :=
  match cs with
  | [] => ret EmptyString
  | c :: cs' => t <- show c ;; ts <- show_each show cs' ;; ret (t +:+ ts)
  end.
Definition show_calls : MW string := cs <- gets g_call_list ;; show_each show_call cs.

Definition sum_head : string :=
  "ID    From                             To                               State" +:+ nl
  +:+ "----- -------------------------------- -------------------------------- ----------" +:+ nl.

(** [talloc_strdup] of the array of a number.  A number that fills the array has no
    NUL in it, and the text is read on behind its end. *)
Definition strdup_number (n : gsm_mncc_number) : MW string :=
  if (String.length (nr_number n) <? sizeof_number)%nat then ret (nr_number n) else crash OutOfBounds.

(** A row of the table, for a call whose initial leg is an MNCC leg. *)
Definition sum_row (c : ptr) : MW string :=
  cl <- deref_call c ;;
  l <- some_or NullDeref (initial cl) ;;
  x <- deref_leg l ;;
  if decide (lg_type (base x) = CALL_TYPE_MNCC) then
    m <- as_mncc l ;;
    called <- strdup_number (m_called m) ;;
    calling <- strdup_number (m_calling m) ;;
    state <- call_leg_state l ;;
    ret (pad_left 5 (fmt_u (call_id cl)) +:+ " " +:+ pad_right 32 calling +:+ " "
         +:+ pad_right 32 called +:+ " " +:+ fmt_s state +:+ nl)
  else ret EmptyString.

Definition show_calls_sum : MW string :=
  cs <- gets g_call_list ;;
  match cs with
  | [] => ret ("No active calls." +:+ nl)
  | _ => rows <- show_each sum_row cs ;; ret (sum_head +:+ rows)
  end.

Definition show_mncc_conn : MW string :=
  g <- gets cfg ;;
  cn <- gets conn ;;
  ret ("MNCC connection to path '" +:+ mncc_path g +:+ "' is in state "
       +:+ fmt_s (value_string mncc_conn_state_vals (cn_state cn)) +:+ nl).
End show.

(** ** Documented behaviour of libosmovty *)
Section laws.
Context {V : VtyLib}.

(** A word: what an argument of a command can be. *)
Fixpoint no_space (s : string) : bool :=
  match s with EmptyString => true | String c s' => negb (isspace c) && no_space s' end.
Definition word (s : string) : Prop := s <> EmptyString /\ no_space s = true.

(** Command patterns of the program that start with keyword [k]. *)
Definition patterns : list (string * string) :=
  [("sip", "sip"); ("mncc", "mncc"); ("app", "app"); ("use-imsi", "use-imsi");
   ("local", "local A.B.C.D <1-65534>"); ("remote", "remote ADDR <1-65534>");
   ("sofia-sip", "sofia-sip log-level <0-9>"); ("socket-path", "socket-path NAME")]%string.

Class VtyLaws := {
  config_node_low : CONFIG_NODE <= LAST_OSMOVTY_NODE;
  match_keyword pat line : In pat ["sip"; "mncc"; "app"; "use-imsi"]%string -> words line = [pat] ->
    vty_match pat line = Some [];
  match_local line a p : words line = ["local"%string; a; p] -> vty_ipv4 a = true ->
    p = fmt_d (atoi p) -> 1 <= atoi p <= 65534 -> vty_match "local A.B.C.D <1-65534>" line = Some [a; p];
  match_remote line a p : words line = ["remote"%string; a; p] ->
    p = fmt_d (atoi p) -> 1 <= atoi p <= 65534 -> vty_match "remote ADDR <1-65534>" line = Some [a; p];
  match_log_level line p : words line = ["sofia-sip"%string; "log-level"%string; p] ->
    p = fmt_d (atoi p) -> 0 <= atoi p <= 9 -> vty_match "sofia-sip log-level <0-9>" line = Some [p];
  match_path line n : words line = ["socket-path"%string; n] -> vty_match "socket-path NAME" line = Some [n];
  (** a first word that does not begin like the keyword is another command *)
  match_other k pat line w ws : In (k, pat) patterns -> words line = w :: ws ->
    String.prefix w k = false -> vty_match pat line = None;
}.

(** The configurations the commands can produce. *)
Record config_valid (g : app_config) : Prop := {
  cv_local : word (sip_local_addr g) /\ vty_ipv4 (sip_local_addr g) = true;
  cv_local_port : 1 <= sip_local_port g <= 65534;
  cv_remote : word (sip_remote_addr g);
  cv_remote_port : 1 <= sip_remote_port g <= 65534;
  cv_log : 0 <= sofia_log_level g <= 9;
  cv_path : word (mncc_path g) }.
End laws.

(** ** Numbers are printed and read back *)
Lemma digit_char x : (x < 10)%N -> digit (pretty_N_char x) = Some (Z.of_N x) /\ isspace (pretty_N_char x) = false.
Proof.
  intros Hx. assert (x ∈ [0;1;2;3;4;5;6;7;8;9]%N) as Hin.
  { rewrite !elem_of_cons. lia. }
  repeat (apply elem_of_cons in Hin as [->|Hin]; [by vm_compute|]). by apply elem_of_nil in Hin.
Qed.

Lemma atoi_pretty_go x : forall s acc, acc = 0 ->
  atoi_digits (pretty_N_go x s) acc = atoi_digits s (Z.of_N x).
Proof.
  induction (N.lt_wf_0 x) as [x _ IH]. intros s acc ->. destruct (decide (x = 0)%N) as [->|Hx].
  - by rewrite pretty_N_go_0.
  - rewrite pretty_N_go_step by lia. rewrite IH; [|apply N.div_lt; lia|done]. simpl.
    destruct (digit_char (x mod 10)) as [-> _]; [by apply N.mod_lt|]. f_equal.
    pose proof (N.div_mod x 10). lia.
Qed.

(** A decimal number. *)
Fixpoint numeric (s : string) : bool :=
  match s with EmptyString => true | String c s' => bool_decide (is_Some (digit c)) && numeric s' end.

Lemma numeric_pretty_go x : forall s, numeric s = true -> numeric (pretty_N_go x s) = true.
Proof.
  induction (N.lt_wf_0 x) as [x _ IH]. intros s Hs. destruct (decide (x = 0)%N) as [->|Hx].
  - by rewrite pretty_N_go_0.
  - rewrite pretty_N_go_step by lia. apply IH; [apply N.div_lt; lia|]. cbn [numeric].
    destruct (digit_char (x mod 10)) as [-> _]; [by apply N.mod_lt|]. done.
Qed.

Lemma digit_plain c d : digit c = Some d -> isspace c = false /\ Ascii.eqb c "-" = false /\ Ascii.eqb c "+" = false.
Proof. destruct c as [[] [] [] [] [] [] [] []]; vm_compute; intros H; by inversion H. Qed.

Lemma numeric_no_space s : numeric s = true -> no_space s = true.
Proof.
  induction s as [|c s IH]; [done|]. simpl. rewrite !andb_true_iff, bool_decide_eq_true.
  intros [[d Hd] Hs]. destruct (digit_plain c d Hd) as [-> _]. auto.
Qed.

Lemma numeric_atoi s : numeric s = true -> atoi s = atoi_digits s 0.
Proof.
  destruct s as [|c s]; [done|]. cbn [numeric]. rewrite andb_true_iff, bool_decide_eq_true. intros [[d Hd] _].
  destruct (digit_plain c d Hd) as (Hs & Hm & Hp). cbn [atoi]. by rewrite Hs, Hm, Hp.
Qed.

Lemma pretty_go_nonempty x s : s <> EmptyString -> pretty_N_go x s <> EmptyString.
Proof.
  revert s. induction (N.lt_wf_0 x) as [x _ IH]. intros s Hs. destruct (decide (x = 0)%N) as [->|Hx].
  - by rewrite pretty_N_go_0.
  - rewrite pretty_N_go_step by lia. apply IH; [apply N.div_lt; lia|done].
Qed.

(** [%d] of a number that fits, and [atoi] of the result. *)
Lemma fmt_d_number z : 0 <= z < 2 ^ 31 -> word (fmt_d z) /\ atoi (fmt_d z) = z.
Proof.
  intros Hz. assert (fmt_d z = pretty (Z.to_N z)) as ->.
  { unfold fmt_d, int32. rewrite u32_small by lia. rewrite (proj2 (Z.ltb_lt _ _)) by lia.
    by destruct z as [|p|p]; [| |lia]. }
  unfold pretty, pretty_N. destruct (decide (Z.to_N z = 0%N)) as [H0|H0].
  { split; [by vm_compute|]. change (atoi "0") with 0. lia. }
  assert (numeric (pretty_N_go (Z.to_N z) "") = true) as Hnum by by apply numeric_pretty_go.
  split; [split; [|by apply numeric_no_space]|].
  - rewrite pretty_N_go_step by lia. by apply pretty_go_nonempty.
  - rewrite numeric_atoi by done. rewrite (atoi_pretty_go _ "" 0 eq_refl). simpl. lia.
Qed.

(** ** The words of a written line *)
Lemma split_line_ne s : split_line s <> [].
Proof. destruct s as [|c s]; simpl; [done|]. destruct (isspace c); [done|]. by destruct (split_line s). Qed.

Lemma split_line_app s c t : isspace c = true -> split_line (s +:+ String c t) = split_line s ++ split_line t.
Proof.
  intros Hc. induction s as [|d s IH]; simpl; [by rewrite Hc|].
  destruct (isspace d); [by rewrite IH|]. rewrite IH. pose proof (split_line_ne s). by destruct (split_line s).
Qed.

Lemma split_line_word s : no_space s = true -> split_line s = [s].
Proof.
  induction s as [|c s IH]; [done|]. simpl. rewrite andb_true_iff, negb_true_iff. intros [-> Hs].
  by rewrite (IH Hs).
Qed.

Lemma words_sep s c t : isspace c = true -> words (s +:+ String c t) = words s ++ words t.
Proof. intros Hc. unfold words. by rewrite split_line_app, filter_app. Qed.

Lemma words_word s : word s -> words s = [s].
Proof. intros [Hne Hs]. unfold words. rewrite split_line_word by done. by rewrite filter_cons_True. Qed.

(** A word, a separator and the rest. *)
Lemma words_cons s c t : word s -> isspace c = true -> words (s +:+ String c t) = s :: words t.
Proof. intros Hs Hc. by rewrite words_sep, words_word. Qed.

(** The two line ends. *)
Definition newline (nl : string) : Prop := nl = str_nl \/ nl = str_crlf.
Lemma words_nl s nl : newline nl -> word s -> words (s +:+ nl) = [s].
Proof. intros [-> | ->] Hs; unfold str_nl, str_crlf; by rewrite words_cons. Qed.

(** ** Writing and reading the configuration *)
Section roundtrip.
Context {V : VtyLib} {VL : VtyLaws} (nl : string) (Hnl : newline nl).

Lemma words_indent t : words (String " " t) = words t.
Proof using. by apply (words_sep "" " " t). Qed.

(** A line with one or two arguments, one space before each word. *)
Lemma words_1 k a : word k -> word a -> words (String " " (k +:+ String " " (a +:+ nl))) = [k; a].
Proof using Hnl. intros Hk Ha. by rewrite words_indent, words_cons, words_nl. Qed.
Lemma words_2 k a b : word k -> word a -> word b ->
  words (String " " (k +:+ String " " (a +:+ String " " (b +:+ nl)))) = [k; a; b].
Proof using Hnl. intros Hk Ha Hb. by rewrite words_indent, words_cons, words_cons, words_nl. Qed.

Lemma commands_at : commands CONFIG_NODE = [("sip", cfg_sip); ("mncc", cfg_mncc); ("app", cfg_app)]%string /\
  commands SIP_NODE = [("local A.B.C.D <1-65534>", cfg_sip_local_addr);
     ("remote ADDR <1-65534>", cfg_sip_remote_addr);
     ("sofia-sip log-level <0-9>", cfg_sip_sofia_log_level)]%string /\
  commands MNCC_NODE = [("socket-path NAME", cfg_mncc_path)]%string /\
  commands APP_NODE = [("use-imsi", cfg_use_imsi); ("no use-imsi", cfg_no_use_imsi)]%string.
Proof using VL.
  pose proof config_node_low. unfold commands, SIP_NODE, MNCC_NODE, APP_NODE. rewrite Z.eqb_refl.
  split_and!; [done|..]; repeat (rewrite (proj2 (Z.eqb_neq _ _)) by lia); by rewrite Z.eqb_refl.
Qed.

Lemma exec_step line rest v v' : run_command (commands (node v)) line v = Ret true v' ->
  exec_lines (line :: rest) v = exec_lines rest v'.
Proof using.
  intros Hrun. cbn [exec_lines]. unfold exec_line. rewrite bind_assoc. unfold gets at 1, bind at 1.
  by rewrite (bind_returns _ _ _ _ _ Hrun).
Qed.
Lemma run_here pat h cmds line argv v v' : vty_match pat line = Some argv -> h argv v = Ret tt v' ->
  run_command ((pat, h) :: cmds) line v = Ret true v'.
Proof using. intros Hm Hh. simpl. rewrite Hm. by rewrite (bind_returns _ _ _ _ _ Hh). Qed.
Lemma run_next k pat h cmds line w ws v : In (k, pat) patterns -> words line = w :: ws ->
  String.prefix w k = false -> run_command ((pat, h) :: cmds) line v = run_command cmds line v.
Proof using VL. intros Hin Hw Hp. simpl. by rewrite (match_other k pat line w ws Hin Hw Hp). Qed.

Lemma exec_sip g v : node v = CONFIG_NODE -> config_valid g ->
  exec_lines (config_write_sip nl g) v = Ret true (Vty SIP_NODE
    (Config (sip_local_addr g) (sip_local_port g) (sip_remote_addr g) (sip_remote_port g) (sofia_log_level g)
            (mncc_path (g_app v)) (use_imsi_as_id (g_app v))) (sofia_log_level g)).
Proof using Hnl VL.
  intros Hn [[Hla Hip] Hlp Hra Hrp Hlog _]. destruct commands_at as (Hc & Hs & _).
  destruct (fmt_d_number (sip_local_port g) ltac:(lia)) as [Hlw Hla'].
  destruct (fmt_d_number (sip_remote_port g) ltac:(lia)) as [Hrw Hra'].
  destruct (fmt_d_number (sofia_log_level g) ltac:(lia)) as [Hgw Hga'].
  unfold config_write_sip.
  erewrite exec_step.
  2: { rewrite Hn, Hc. eapply run_here; [apply match_keyword; [simpl; tauto|by apply (words_nl "sip")]|reflexivity]. }
  pose proof (words_2 "local" (sip_local_addr g) (fmt_d (sip_local_port g)) ltac:(done) Hla Hlw) as Hw1.
  erewrite exec_step.
  2: { simpl node. rewrite Hs. eapply run_here; [apply match_local; [exact Hw1|done|by rewrite Hla'|by rewrite Hla']|reflexivity]. }
  pose proof (words_2 "remote" (sip_remote_addr g) (fmt_d (sip_remote_port g)) ltac:(done) Hra Hrw) as Hw2.
  erewrite exec_step.
  2: { simpl node. rewrite Hs. rewrite (run_next "local" _ _ _ _ "remote" _ _ ltac:(simpl; tauto) Hw2 eq_refl).
    eapply run_here; [apply match_remote; [exact Hw2|by rewrite Hra'|by rewrite Hra']|reflexivity]. }
  pose proof (words_2 "sofia-sip" "log-level" (fmt_d (sofia_log_level g)) ltac:(done) ltac:(done) Hgw) as Hw3.
  erewrite exec_step.
  2: { simpl node. rewrite Hs. rewrite (run_next "local" _ _ _ _ "sofia-sip" _ _ ltac:(simpl; tauto) Hw3 eq_refl).
    rewrite (run_next "remote" _ _ _ _ "sofia-sip" _ _ ltac:(simpl; tauto) Hw3 eq_refl).
    eapply run_here; [apply match_log_level; [exact Hw3|by rewrite Hga'|by rewrite Hga']|reflexivity]. }
  unfold exec_lines, ret, set_app, su_log_set_level. simpl. by rewrite Hla', Hra', Hga'.
Qed.

Lemma exec_mncc g v : node v = CONFIG_NODE -> config_valid g ->
  exec_lines (config_write_mncc nl g) v = Ret true (Vty MNCC_NODE
    (Config (sip_local_addr (g_app v)) (sip_local_port (g_app v)) (sip_remote_addr (g_app v)) (sip_remote_port (g_app v))
            (sofia_log_level (g_app v)) (mncc_path g) (use_imsi_as_id (g_app v))) (su_log_level v)).
Proof using Hnl VL.
  intros Hn [_ _ _ _ _ Hp]. destruct commands_at as (Hc & _ & Hm & _). unfold config_write_mncc.
  pose proof (words_nl "mncc" nl Hnl ltac:(done)) as Hw.
  erewrite exec_step.
  2: { rewrite Hn, Hc. rewrite (run_next "sip" _ _ _ _ "mncc" _ _ ltac:(simpl; tauto) Hw eq_refl).
    eapply run_here; [apply match_keyword; [simpl; tauto|exact Hw]|reflexivity]. }
  erewrite exec_step.
  2: { simpl node. rewrite Hm. eapply run_here; [|].
    1: exact (match_path _ _ (words_1 "socket-path" (mncc_path g) ltac:(done) Hp)).
    reflexivity. }
  done.
Qed.

Lemma exec_app g v : node v = CONFIG_NODE ->
  exec_lines (config_write_app nl g) v = Ret true (Vty APP_NODE
    (set_use_imsi (use_imsi_as_id g || use_imsi_as_id (g_app v)) (g_app v)) (su_log_level v)).
Proof using Hnl VL.
  intros Hn. destruct commands_at as (Hc & _ & _ & Ha). unfold config_write_app.
  pose proof (words_nl "app" nl Hnl ltac:(done)) as Hw.
  erewrite exec_step.
  2: { rewrite Hn, Hc. rewrite (run_next "sip" _ _ _ _ "app" _ _ ltac:(simpl; tauto) Hw eq_refl).
    rewrite (run_next "mncc" _ _ _ _ "app" _ _ ltac:(simpl; tauto) Hw eq_refl).
    eapply run_here; [apply match_keyword; [simpl; tauto|exact Hw]|reflexivity]. }
  assert (words (String " " ("use-imsi" +:+ nl)) = ["use-imsi"%string]) as Hi
    by (rewrite words_indent; by apply words_nl).
  destruct (use_imsi_as_id g).
  - erewrite exec_step.
    2: { simpl node. rewrite Ha. eapply run_here; [apply match_keyword; [simpl; tauto|exact Hi]|reflexivity]. }
    done.
  - unfold exec_lines, ret, set_node, set_use_imsi. simpl. by destruct (g_app v).
Qed.

Lemma parent_config v : node v = SIP_NODE \/ node v = MNCC_NODE \/ node v = APP_NODE ->
  mncc_vty_go_parent v = set_node CONFIG_NODE v.
Proof using.
  intros Hn. unfold mncc_vty_go_parent.
  assert ((node v =? SIP_NODE) || (node v =? MNCC_NODE) || (node v =? APP_NODE) = true) as ->; [|done].
  rewrite !orb_true_iff, !Z.eqb_eq. tauto.
Qed.

(** C36: the configuration the program writes is read back as it was: from any
    configuration that does not use the IMSI, every line is accepted, the result
    is the configuration written, and the logs of sofia-sip have its level. *)
Theorem config_roundtrip g d su : config_valid g ->
  exec_sections (config_write nl g) (Vty CONFIG_NODE (set_use_imsi false d) su)
    = Ret true (Vty CONFIG_NODE g (sofia_log_level g)).
Proof using Hnl VL.
  intros Hg. unfold config_write. cbn [exec_sections].
  rewrite (bind_returns _ _ _ _ _ (exec_sip g (Vty CONFIG_NODE _ _) eq_refl Hg)). unfold modify at 1, bind at 1.
  rewrite parent_config by auto. unfold set_node.
  rewrite (bind_returns _ _ _ _ _ (exec_mncc g (Vty CONFIG_NODE _ _) eq_refl Hg)). unfold modify at 1, bind at 1.
  rewrite parent_config by auto. unfold set_node.
  rewrite (bind_returns _ _ _ _ _ (exec_app g (Vty CONFIG_NODE _ _) eq_refl)). unfold modify at 1, bind at 1.
  rewrite parent_config by auto. unfold set_node, ret, set_use_imsi. simpl. rewrite orb_false_r. by destruct g.
Qed.
End roundtrip.

(** ** Inspection while a call is being released *)
Section show_spec.
Context {ML : MnccLib} (nl : string) (fmt_p : option handle -> string).

(** The computation returns, in the store it started from, when [P] holds, and
    otherwise it stops with a fault in [F]. *)
Definition looks {A} (m : MW A) (w : world) (F : fault -> Prop) (P : Prop) : Prop :=
  match m w with Ret _ w' => w' = w /\ P | Crash f _ => F f /\ ~ P end.

Lemma looks_iff {A} (m : MW A) w F (P Q : Prop) : looks m w F P -> (P <-> Q) -> looks m w F Q.
Proof using. unfold looks. destruct (m w); tauto. Qed.

Lemma looks_ret {A} (a : A) w F : looks (ret a) w F True.
Proof using. by split. Qed.
Lemma looks_crash {A} f w (F : fault -> Prop) : F f -> looks (crash f : MW A) w F False.
Proof using. intros Hf. by split; [|intros []]. Qed.

Lemma looks_bind {A B} (m : MW A) (k : A -> MW B) w F P Q :
  looks m w F P -> (forall a, m w = Ret a w -> looks (k a) w F Q) -> looks (bind m k) w F (P /\ Q).
Proof using.
  unfold looks, bind. destruct (m w) as [a w'|f w']; [|tauto]. intros [-> HP] Hk. specialize (Hk a eq_refl).
  destruct (k a w); tauto.
Qed.

(** After a step that returns. *)
Lemma looks_step {A B} (m : MW A) (k : A -> MW B) w a F P : m w = Ret a w -> looks (k a) w F P -> looks (bind m k) w F P.
Proof using. intros Hm Hk. unfold looks. by rewrite (bind_returns _ _ _ _ _ Hm). Qed.

(** A sequence that ends in a result. *)
Lemma looks_then {A B} (m : MW A) (f : A -> B) w F P : looks m w F P -> looks (a <- m ;; ret (f a)) w F P.
Proof using. unfold looks, bind, ret. by destruct (m w). Qed.

Lemma looks_each show cs w F (P : ptr -> Prop) : (forall c, c ∈ cs -> looks (show c) w F (P c)) ->
  looks (show_each show cs) w F (forall c, c ∈ cs -> P c).
Proof using.
  induction cs as [|c cs IH]; intros Hs; cbn [show_each].
  { eapply looks_iff; [apply looks_ret|]. split; [|done]. intros _ c Hc. by apply elem_of_nil in Hc. }
  apply (looks_iff _ _ _ (P c /\ forall c', c' ∈ cs -> P c')).
  - apply looks_bind; [apply Hs; by left|]. intros t _. apply looks_then, IH. intros c' Hc'. apply Hs. by right.
  - split; [intros [? ?] c' [->|?]%elem_of_cons; auto|]. intros H. split; [|intros c' ?]; apply H; [by left|by right].
Qed.

(** The string a call points to is still there. *)
Definition owner_live (w : world) (o : option (ptr * string)) : Prop :=
  match o with None => True | Some (p, _) => is_Some (legs w !! p) end.

Lemma looks_read_str w o : looks (read_str o) w (eq UseAfterFree) (owner_live w o).
Proof using.
  destruct o as [[p s]|]; simpl; [|apply looks_ret]. unfold looks, read_str, deref_leg, bind, gets, some_or, ret. simpl.
  destruct (legs w !! p); simpl; [by eauto|]. split; [done|]. by intros [? ?].
Qed.

(** The two numbers of a call of the MSC end within their arrays. *)
Definition ends_inside (n : gsm_mncc_number) : Prop := (String.length (nr_number n) < sizeof_number)%nat.
Definition row_numbers (w : world) (l : ptr) : Prop :=
  match legs w !! l with Some (Leg _ (XMncc m)) => ends_inside (m_called m) /\ ends_inside (m_calling m) | _ => True end.
Definition row_safe (w : world) (cl : call) : Prop :=
  match initial cl with Some l => row_numbers w l | None => False end.

Lemma looks_strdup n w (F : fault -> Prop) : (~ ends_inside n -> F OutOfBounds) -> looks (strdup_number n) w F (ends_inside n).
Proof using.
  unfold strdup_number, ends_inside. destruct (Nat.ltb_spec (String.length (nr_number n)) sizeof_number) as [H|H]; intros Hf.
  - by eapply looks_iff; [apply looks_ret|].
  - eapply looks_iff; [apply looks_crash, Hf; lia|]. lia.
Qed.

Lemma dump_leg_returns w o kind : wf w -> (forall l, o = Some l -> is_Some (legs w !! l)) ->
  exists t, dump_leg nl fmt_p o kind w = Ret t w.
Proof using.
  intros Hw Ho. destruct o as [l|]; [|by eexists]. destruct (Ho l eq_refl) as [[b e] Hl].
  assert (sk_legs (sk w) !! l = Some (shape (Leg b e))) as Hsl by (simpl; by rewrite lookup_fmap, Hl).
  destruct (wf_leg _ (w_sk w Hw) l _ Hsl) as [Htag _]. unfold tag_ok in Htag. simpl in Htag.
  unfold dump_leg. rewrite (bind_returns _ _ _ _ _ (deref_leg_eq w l _ Hl)). cbv zeta.
  change (lg_type (base (Leg b e))) with (lg_type b). destruct e as [m|x]; simpl in Htag; rewrite Htag.
  - rewrite (bind_returns _ _ _ _ _ (as_mncc_eq w l b m Hl)). by eexists.
  - rewrite (bind_returns _ _ _ _ _ (as_sip_eq w l b x Hl)). by eexists.
Qed.

(** The legs a call of a well-formed store points to. *)
Lemma call_legs_live w c cl l : wf w -> calls w !! c = Some cl -> initial cl = Some l \/ remote cl = Some l ->
  is_Some (legs w !! l).
Proof using.
  intros Hw Hc Hl.
  assert (sk_calls (sk w) !! c = Some (initial cl, remote cl)) as Hs by (simpl; by rewrite lookup_fmap, Hc).
  destruct (wf_linked (sk w) c _ _ l (w_sk w Hw) Hs Hl) as (sh & Hsl & _).
  simpl in Hsl. apply fmap_lookup_inv in Hsl as (x & ? & _). eauto.
Qed.

Lemma listed_call w c : wf w -> c ∈ g_call_list w -> exists cl, calls w !! c = Some cl.
Proof using.
  intros Hw Hc. apply (wf_list _ (w_sk w Hw)) in Hc as [[i r] Hc]. simpl in Hc.
  apply fmap_lookup_inv in Hc as (cl & ? & _). eauto.
Qed.

Lemma looks_show_call w c cl : wf w -> calls w !! c = Some cl ->
  looks (show_call nl fmt_p c) w (eq UseAfterFree) (owner_live w (source cl) /\ owner_live w (dest cl)).
Proof using.
  intros Hw Hc. unfold show_call. eapply looks_step; [exact (deref_call_eq w c cl Hc)|].
  apply looks_bind; [apply looks_read_str|]. intros src _.
  apply (looks_iff _ _ _ (owner_live w (dest cl) /\ True)); [|tauto].
  apply looks_bind; [apply looks_read_str|]. intros dst _.
  destruct (dump_leg_returns w (initial cl) "Initial" Hw) as [i Hi]; [intros l Hl; eapply call_legs_live; eauto|].
  destruct (dump_leg_returns w (remote cl) "Remote" Hw) as [r Hr]; [intros l Hl; eapply call_legs_live; eauto|].
  eapply looks_step; [exact Hi|]. eapply looks_step; [exact Hr|]. apply looks_ret.
Qed.

(** What the summary stops with: a call that has lost its initial leg, or a number
    that fills its array. *)
Definition sum_fault (w : world) (f : fault) : Prop :=
  f = NullDeref /\ (exists c cl, c ∈ g_call_list w /\ calls w !! c = Some cl /\ initial cl = None) \/
  f = OutOfBounds /\ exists c cl l, c ∈ g_call_list w /\ calls w !! c = Some cl /\ initial cl = Some l /\ ~ row_numbers w l.

Lemma looks_sum_row w c cl : wf w -> c ∈ g_call_list w -> calls w !! c = Some cl ->
  looks (sum_row nl c) w (sum_fault w) (row_safe w cl).
Proof using.
  intros Hw Hin Hc. unfold sum_row, row_safe. eapply looks_step; [exact (deref_call_eq w c cl Hc)|].
  destruct (initial cl) as [l|] eqn:Hi; simpl some_or.
  2: { unfold looks, bind, crash. split; [|by intros []]. left. split; [done|]. by exists c, cl. }
  eapply looks_step; [reflexivity|].
  destruct (call_legs_live w c cl l Hw Hc (or_introl Hi)) as [[b e] Hl].
  assert (sk_legs (sk w) !! l = Some (shape (Leg b e))) as Hsl by (simpl; by rewrite lookup_fmap, Hl).
  destruct (wf_leg _ (w_sk w Hw) l _ Hsl) as [Htag _]. unfold tag_ok in Htag. simpl in Htag.
  assert (~ row_numbers w l -> sum_fault w OutOfBounds) as Hf by (intros Hn; right; split; [done|by exists c, cl, l]).
  unfold row_numbers in *. rewrite Hl in *. eapply looks_step; [exact (deref_leg_eq w l _ Hl)|]. simpl base.
  destruct e as [m|x].
  2: { rewrite decide_False by (by rewrite Htag). apply looks_ret. }
  rewrite decide_True by done. eapply looks_step; [exact (as_mncc_eq w l b m Hl)|].
  apply looks_bind; [apply looks_strdup; tauto|]. intros called _.
  apply (looks_iff _ _ _ (ends_inside (m_calling m) /\ True)); [|tauto].
  apply looks_bind; [apply looks_strdup; tauto|]. intros calling _. unfold call_leg_state. apply looks_then.
  eapply looks_step; [exact (deref_leg_eq w l _ Hl)|]. simpl base. rewrite Htag.
  eapply looks_step; [exact (as_mncc_eq w l b m Hl)|]. apply looks_ret.
Qed.

(** C38: the show commands change nothing. The list of calls is printed exactly when
    the legs that own the source and destination strings of every call are still there;
    otherwise it reads freed memory.  The summary is printed exactly when every call
    still has its initial leg and, where that is an MNCC leg, the called and the
    calling number end within their arrays; otherwise it follows a NULL pointer,
    for a call without its initial leg, or reads beyond the array of a number that
    has no NUL in it. *)
Theorem show_safe_iff w : wf w ->
  match show_calls nl fmt_p w with
  | Ret _ w' => w' = w /\
      forall c cl, c ∈ g_call_list w -> calls w !! c = Some cl -> owner_live w (source cl) /\ owner_live w (dest cl)
  | Crash f _ => f = UseAfterFree /\
      ~ (forall c cl, c ∈ g_call_list w -> calls w !! c = Some cl -> owner_live w (source cl) /\ owner_live w (dest cl))
  end /\
  match show_calls_sum nl w with
  | Ret _ w' => w' = w /\ forall c cl, c ∈ g_call_list w -> calls w !! c = Some cl -> row_safe w cl
  | Crash f _ => sum_fault w f /\ ~ (forall c cl, c ∈ g_call_list w -> calls w !! c = Some cl -> row_safe w cl)
  end.
Proof using.
  intros Hw. split.
  - assert (looks (show_calls nl fmt_p) w (eq UseAfterFree) (forall c cl, c ∈ g_call_list w -> calls w !! c = Some cl ->
      owner_live w (source cl) /\ owner_live w (dest cl))) as H.
    { unfold show_calls. eapply looks_step; [reflexivity|].
      eapply looks_iff; [apply (looks_each _ _ _ _ (fun c => forall cl, calls w !! c = Some cl ->
        owner_live w (source cl) /\ owner_live w (dest cl)))|naive_solver].
      intros c Hc. destruct (listed_call w c Hw Hc) as [cl Hcl].
      eapply looks_iff; [by apply looks_show_call|]. naive_solver. }
    unfold looks in H. destruct (show_calls nl fmt_p w); [done|]. by destruct H as [<- H].
  - change (looks (show_calls_sum nl) w (sum_fault w) (forall c cl, c ∈ g_call_list w -> calls w !! c = Some cl -> row_safe w cl)).
    unfold show_calls_sum. eapply looks_step; [reflexivity|].
    apply (looks_iff _ _ _ (forall c, c ∈ g_call_list w -> forall cl, calls w !! c = Some cl -> row_safe w cl)); [|naive_solver].
    assert (looks (show_each (sum_row nl) (g_call_list w)) w (sum_fault w)
      (forall c, c ∈ g_call_list w -> forall cl, calls w !! c = Some cl -> row_safe w cl)) as H.
    { apply looks_each. intros c Hc. destruct (listed_call w c Hw Hc) as [cl Hcl].
      eapply looks_iff; [by apply looks_sum_row|]. naive_solver. }
    destruct (g_call_list w) as [|c cs] eqn:Hg; [|by apply looks_then].
    eapply looks_iff; [apply looks_ret|]. split; [|done]. intros _ c Hc. by apply elem_of_nil in Hc.
Qed.
End show_spec.
