(* ===== verification/Demo.v ===== *)
(** * A concrete environment

    An instance of [Env] in which every definition computes: the cause values
    of TS 24.008 table 10.5.123, structures of libosmogsm that could be its own, a
    session parser that knows two sessions, writes that send everything and an
    allocator that never fails.  The examples and the instances of the theorems
    at concrete inputs are evaluated in it. *)
From S2P Require Import Prelude Effect Codec Evpoll Protocol Lib State MnccConn App Vty.

(** ** Definitions *)
Definition demo_cause_value (c : gsm48_cause) : Z :=
  match c with
  | GSM48_CC_CAUSE_UNASSIGNED_NR => 1 | GSM48_CC_CAUSE_NO_ROUTE => 3
  | GSM48_CC_CAUSE_NORM_CALL_CLEAR => 16 | GSM48_CC_CAUSE_USER_BUSY => 17
  | GSM48_CC_CAUSE_USER_NOTRESPOND => 18 | GSM48_CC_CAUSE_CALL_REJECTED => 21
  | GSM48_CC_CAUSE_NUMBER_CHANGED => 22 | GSM48_CC_CAUSE_PRE_EMPTION => 25
  | GSM48_CC_CAUSE_DEST_OOO => 27 | GSM48_CC_CAUSE_INV_NR_FORMAT => 28
  | GSM48_CC_CAUSE_NORMAL_UNSPEC => 31 | GSM48_CC_CAUSE_NETWORK_OOO => 38
  | GSM48_CC_CAUSE_TEMP_FAILURE => 41 | GSM48_CC_CAUSE_SWITCH_CONG => 42
  | GSM48_CC_CAUSE_RESOURCE_UNAVAIL => 47 | GSM48_CC_CAUSE_BEARER_CA_UNAVAIL => 58
  | GSM48_CC_CAUSE_SERV_OPT_UNAVAIL => 63 | GSM48_CC_CAUSE_SERV_OPT_UNIMPL => 79
  | GSM48_CC_CAUSE_INVAL_TRANS_ID => 81 | GSM48_CC_CAUSE_INCOMPAT_DEST => 88
  | GSM48_CC_CAUSE_RECOVERY_TIMER => 102 | GSM48_CC_CAUSE_INTERWORKING => 127
  | GSM48_CC_CAUSE_CHAN_UNACCEPT => 6
  end.

(** The structures of libosmogsm, with the fields between those the program
    reads: the indicators of a number, and the rest of a cause. *)
Definition demo_number_codec : codec gsm_mncc_number :=
  c_struct (c_int ;+ c_int ;+ c_skip 8 4 ;+ c_chars 33)%C
    (fun '(t, p, _, s) => Number t p s) (fun n => (nr_type n, nr_plan n, tt, nr_number n)).
Definition demo_cause_codec : codec gsm_mncc_cause :=
  c_struct (c_int ;+ c_int ;+ c_skip 8 4 ;+ c_int ;+ c_skip 36 4)%C
    (fun '(l, c, _, v, _) => Cause c l v) (fun c => (ca_location c, ca_coding c, tt, ca_value c, tt)).
Definition demo_progress_codec : codec gsm_mncc_progress :=
  c_struct (c_int ;+ c_int ;+ c_int)%C
    (fun '(c, l, d) => Progress c l d) (fun p => (pr_coding p, pr_location p, pr_descr p)).
#[export] Instance demo_mncc_lib : MnccLib := {|
  sizeof_number := 33;
  number_codec := demo_number_codec;
  cause_codec := demo_cause_codec;
  progress_codec := demo_progress_codec;
  bearer_cap_codec := c_skip 48 4;
  useruser_codec := c_skip 136 4;
  facility_codec := c_skip 132 4;
  cccap_codec := c_skip 8 4;
  ssversion_codec := c_skip 132 4 |}.

(** The bytes of a [gsm_mncc]. *)
Definition demo_bytes (m : gsm_mncc) : list Z := mncc_bytes m.

Definition demo_session : sdp_session :=
  Session [SdpConn sdp_addr_ip4 "10.0.0.2"]
          [Media sdp_proto_rtp sdp_media_audio 4000 sdp_sendrecv [Rtpmap "GSM" 3] ""] "".

(** The same session at a host name, which the program cannot use. *)
Definition demo_session_named : sdp_session :=
  Session [SdpConn sdp_addr_ip4 "pbx"] (s_media demo_session) "".

(** Write results, chosen by the caller. *)
Definition env_with (wr : nat -> Z -> Z -> Z) : Env := {|
  cause_value := demo_cause_value;
  GSM48_CAUSE_CODING_GSM := 3;
  GSM48_CAUSE_LOC_PUN_S_LU := 2;
  GSM48_CAUSE_LOC_PRN_S_LU := 1;
  GSM48_PROGR_IN_BAND_AVAIL := 8;
  GSM340_TYPE_INTERNATIONAL := 1;
  GSM340_PLAN_UNKNOWN := 0;
  GSM340_PLAN_ISDN := 1;
  GSM48_NPI_UNKNOWN := 0;
  GSM48_NPI_ISDN_E164 := 1;
  GSM48_TON_UNKNOWN := 0;
  GSM48_TON_INTERNATIONAL := 1;
  mncc_lib := demo_mncc_lib;
  osmo_strlcpy := fun n s => str_take (n - 1) s;
  osmo_sockaddr_port := sin_port;
  osmo_sockaddr_ntop := fun a => if ss_family a =? AF_INET6 then "::1"%string else "10.0.0.2"%string;
  osmo_sockaddr_cmp := fun a b => if decide (a = b) then 0 else 1;
  osmo_hexparse := fun s n => take n (str_bytes s ++ replicate n 0);
  osmo_dec_gcr := fun b => match b with 13 :: _ => Some b | _ => None end;
  osmo_enc_gcr := fun g => if (length g <=? 16)%nat then (Z.of_nat (length g), map (fun b => b mod 256) g) else (0, []);
  msgb_hexdump := fun _ => "0d"%string;
  inet_pton := fun f s => if (f =? AF_INET) && String.eqb s "10.0.0.2" then Some [10; 0; 0; 2] else None;
  sdp_parse := fun _ s => Some (if String.eqb s "v=0" then Some demo_session
                                else if String.eqb s "v=0 named" then Some demo_session_named else None);
  sdp_print := fun _ => Some (Some "v=0"%string);
  sdp_mode_val := fun m => match m with
    | sdp_inactive => 0 | sdp_sendonly => 1 | sdp_recvonly => 2 | sdp_sendrecv => 3 end;
  sip_phrase := fun _ => "phrase"%string;
  write_rc := wr;
  alloc_ok := fun _ => true;
  nua_handle_ok := fun _ => true;
  unix_connect := fun _ => Some 7;
|}.

Definition demo_env : Env := env_with (fun _ fd sz => if fd <? 0 then -1 else sz).

(** From the [k]-th decision on, no write succeeds. *)
Definition env_failing (k : nat) : Env :=
  env_with (fun n fd sz => if (k <=? n)%nat || (fd <? 0) then -1 else sz).

(** The store after start-up: callback installed, connect timer armed. *)
Definition initial_config : app_config :=
  Config "127.0.0.1" 5060 "pbx" 5060 2 "/tmp/msc_mncc" false.
Definition initial_world : world :=
  World ∅ ∅ [] 5000 (Conn MNCC_DISCONNECTED (-1) (Some 0) true) initial_config ∅ ∅ 1%positive 0%nat [].

(** A command matcher that compares word by word: a pattern word in capitals or in
    angle brackets takes any word. *)
Definition takes_any (p : string) : bool :=
  match p with
  | String c _ => let n := Ascii.nat_of_ascii c in (n =? 60)%nat || ((65 <=? n)%nat && (n <=? 90)%nat)
  | EmptyString => false
  end.
Fixpoint match_words (ps ls : list string) : option (list string) :=
  match ps, ls with
  | [], [] => Some []
  | p :: ps', l :: ls' =>
      if takes_any p then cons l <$> match_words ps' ls'
      else if String.eqb p l then match_words ps' ls' else None
  | _, _ => None
  end.
#[export] Instance demo_vty : VtyLib := {|
  CONFIG_NODE := 4; ENABLE_NODE := 3; LAST_OSMOVTY_NODE := 30;
  vty_match := fun pat line => match_words (words pat) (words line);
  vty_ipv4 := fun _ => true |}.

(** An event loop with one descriptor of libosmocore and one timer; the store is
    the trace of the timeouts, and descriptor 5 is always readable. *)
#[export] Instance demo_osmo : Osmo (list (option timeval)) := {|
  osmo_fd_fill_fds := fun _ => (Fdsets {[7]} ∅ ∅, 7);
  osmo_timers_check := ret tt;
  osmo_timers_prepare := ret tt;
  osmo_timers_nearest := fun _ => Some (Timeval 2 500000);
  osmo_timers_update := ret tt;
  osmo_fd_disp_fds := fun _ => ret tt;
  select := fun _ sets tv w => Ret (1, Fdsets (readset sets ∩ {[5]}) ∅ ∅) (w ++ [tv]) |}.

(** ** The laws hold *)
#[export] Instance demo_mncc_lib_laws : MnccLibLaws demo_mncc_lib.
Proof.
  split; simpl; try (by apply c_skip_ok; lia).
  - apply c_struct_ok; [|by intros [[[? ?] []] ?]|by intros []].
    apply c_field_ok; [apply c_field_ok; [apply _|apply c_skip_ok; lia]|apply _].
  - apply c_struct_ok; [|by intros [[[[? ?] []] ?] []]|by intros []].
    apply c_field_ok; [apply c_field_ok; [apply c_field_ok; [apply _|]|apply _]|]; apply c_skip_ok; lia.
  - apply c_struct_ok; [apply _|by intros [[? ?] ?]|by intros []].
  - intros []. cbn. tauto.
  - intros []. cbn. tauto.
  - intros []. cbn. tauto.
  - done.
Qed.

Lemma prefix_refl s : String.prefix s s = true.
Proof. induction s as [|c s IH]; [done|]. simpl. by destruct (Ascii.ascii_dec c c). Qed.

#[export] Instance demo_vty_laws : VtyLaws.
Proof.
  split; simpl.
  - done.
  - intros pat line Hin ->. repeat (destruct Hin as [<-|Hin]; [by vm_compute|]). done.
  - by intros line a p ->.
  - by intros line a p ->.
  - by intros line p ->.
  - by intros line n ->.
  - intros k pat line w ws Hin -> Hp.
    assert (String.eqb k w = false) as Hne.
    { apply String.eqb_neq. intros ->. by rewrite (prefix_refl w) in Hp. }
    repeat (destruct Hin as [[= <- <-]|Hin]; [
      match goal with |- match_words (words ?p) _ = _ => let x := eval vm_compute in (words p) in change (words p) with x end;
      cbn [match_words takes_any]; by rewrite Hne|]). done.
Qed.

Lemma env_with_laws wr : EnvLaws (env_with wr).
Proof.
  split; simpl; auto.
  - intros [] []; simpl; congruence.
  - intros []; simpl; split; congruence.
  - intros g. destruct (Nat.leb_spec (length g) 16); simpl; lia.
  - intros n fd [= <-]. lia.
Qed.

#[export] Instance demo_laws : EnvLaws demo_env := env_with_laws _.

#[export] Instance demo_writes : WritesOk demo_env.
Proof. intros n fd sz Hfd. simpl. destruct (Z.ltb_spec fd 0); [lia | done]. Qed.
