(* ===== verification/System.v ===== *)
(** * The program as a transition system

    The main loop waits for one of four things: the MNCC socket is readable,
    the reconnect timer fires, the command timer of a leg fires, or sofia-sip
    delivers an event.  Each runs one handler to completion.  [step] is one turn
    of the loop, [boot] the start-up of main().

    The theorems: every event the peers may send is handled without a crash
    ([event_safe]), well-formedness is an invariant of the reachable stores
    ([reachable_wf]), and every turn of the loop refines the abstract machine of
    Skel.v ([steps_wf]). *)
From S2P Require Import Prelude Effect Codec Protocol Lib State Skel Rules Call Sdp SipLeg MnccConn App MnccRx SipUa Demo.

(** ** Definitions *)
Inductive event :=
| EvMncc (rd : option (list Z))        (* the socket is readable: what read returned *)
| EvReconnect                          (* the reconnect timer fired *)
| EvCmdTimeout (l : ptr)               (* the command timer of a leg fired *)
| EvNua (ev : nua_event) (status : Z) (nh : handle) (sip : option sip_t).

Section system.
Context {E : Env}.

(** A timer that fires is not armed any more when its callback runs. *)
Definition handle_event (e : event) : MW unit :=
  match e with
  | EvMncc rd => mncc_data rd
  | EvReconnect =>
      modify (set_conn (fun c => Conn (cn_state c) (cn_fd c) None (cn_on_disconnect c))) ;;
      mncc_reconnect
  | EvCmdTimeout l => modify (set_timers (fun t => t ∖ {[l]})) ;; cmd_timeout l
  | EvNua ev status nh sip => nua_callback ev status nh sip
  end.

(** What can happen in a store. *)
Definition enabled (w : world) (e : event) : Prop :=
  match e with
  | EvMncc _ => 0 <= cn_fd (conn w)
  | EvReconnect => cn_reconnect (conn w) <> None
  | EvCmdTimeout l => l ∈ timers w
  | EvNua _ _ _ _ => True
  end.

(** The peers keep to their protocols; new INVITEs find memory. *)
Definition conforms (w : world) (e : event) : Prop :=
  match e with
  | EvMncc (Some buf) => rx_conforms (sk w) buf
  | EvNua ev status nh sip =>
      nua_conforms (sk w) (alloc_ok (n_io w) && alloc_ok (S (n_io w))) ev status nh sip
  | _ => True
  end.

(** One turn of the main loop. *)
Inductive step (w : world) : world -> Prop :=
| Step e w' : enabled w e -> conforms w e -> handle_event e w = Ret tt w' -> step w w'.

(** Start-up: the connection is initialised and its first connect scheduled,
    then the callback is installed. *)
Definition boot : MW unit :=
  mncc_connection_init ;; mncc_connection_start ;; app_setup.
End system.

(** The store before [boot]: zeroed, with the configuration that was read. *)
Definition zeroed (g : app_config) : world :=
  World ∅ ∅ [] 5000 (Conn MNCC_DISCONNECTED 0 None false) g ∅ ∅ 1%positive 0%nat [].
Definition booted (g : app_config) : world :=
  World ∅ ∅ [] 5000 (Conn MNCC_DISCONNECTED (-1) (Some 0) true) g ∅ ∅ 1%positive 0%nat [].

(** A list of events, handled one after the other. *)
Definition run {E : Env} (es : list event) : MW unit :=
  foldr (fun e k => handle_event e ;; k) (ret tt) es.

(** ** One event *)
Lemma ok_wf s w : wfsk s -> ok s w -> wf w /\ evolves s (sk w).
Proof.
  intros Hwf (s' & cn & Hst & Hev & Hok). pose proof (evolves_wf _ _ Hwf Hev).
  split; [by eapply st_wf|]. by rewrite (st_sk _ _ _ Hst).
Qed.
Section event.
Context {E : Env} {HE : EnvLaws E} {HW : WritesOk E}.

Lemma reconnect_ok s cn w : wfsk s -> conn_ok cn -> st s cn w -> cn_reconnect cn <> None ->
  wp (handle_event EvReconnect) (fun _ => ok s) w.
Proof using HE.
  intros Hwf Hok Hst Hr. simpl. apply wp_bind, wp_modify. unfold mncc_reconnect.
  set (w1 := set_conn _ w).
  pose proof (st_set_conn Hst (fun c => Conn (cn_state c) (cn_fd c) None (cn_on_disconnect c))) as Hst1.
  fold w1 in Hst1. wp_use tick_st as n w2 [Hst2 _].
  pose proof (co_callback cn Hok) as Hcb.
  destruct (unix_connect n) as [fd|] eqn:Hfd; apply wp_modify.
  - apply unix_connect_fd in Hfd. eapply (ok_st s s); [apply (st_set_conn Hst2)|apply rtc_refl|].
    split; simpl; [|split; [lia|done]|done]. split; [lia|done].
  - eapply (ok_st s s); [apply (st_set_conn Hst2)|apply rtc_refl|].
    split; simpl; [|split; [done|lia]|done]. split; [done|lia].
Qed.

Lemma handle_event_ok w e : wf w -> enabled w e -> conforms w e ->
  wp (handle_event e) (fun _ => ok (sk w)) w.
Proof using HE HW.
  intros Hw Hen Hco. pose proof (wf_st w Hw) as Hst. destruct Hw as [Hwf Ht Hok].
  destruct e as [rd| |l|ev status nh sip].
  - eapply mncc_data_ok; eauto. by intros buf ->.
  - by eapply reconnect_ok.
  - destruct (Ht l Hen) as (sh & Hl & Hm). simpl. apply wp_bind, wp_modify.
    eapply cmd_timeout_ok; eauto. by apply st_set_timers, timers_ok_minus.
  - by eapply nua_callback_ok.
Qed.
End event.

(** ** Start-up *)
Lemma boot_booted {E : Env} g : boot (zeroed g) = Ret tt (booted g).
Proof. done. Qed.

Lemma booted_wf g : wf (booted g).
Proof.
  split.
  - unfold sk. simpl. rewrite !fmap_empty. split; simpl.
    + constructor.
    + intros c. rewrite elem_of_nil, lookup_empty. split; [done|by intros [? ?]].
    + intros c l r. by rewrite lookup_empty.
    + intros c i l. by rewrite lookup_empty.
    + intros c l1 l2 sh1 sh2. by rewrite lookup_empty.
    + intros c. by rewrite lookup_empty.
    + intros l sh. by rewrite lookup_empty.
    + intros h l. by rewrite lookup_empty.
    + intros l sh d h. by rewrite lookup_empty.
    + intros l. rewrite lookup_empty. by intros [? ?].
    + intros l. rewrite lookup_empty. by intros [? ?].
  - intros l. simpl. set_solver.
  - split; simpl; [|split; [done|lia]|done]. split; [done|lia].
Qed.

(** ** Executions *)
Section executions.
Context {E : Env} {HE : EnvLaws E} {HW : WritesOk E}.

Lemma step_wf w w' : wf w -> step w w' -> wf w' /\ evolves (sk w) (sk w').
Proof using HE HW.
  intros Hw [e w1 Hen Hco Heq]. pose proof (handle_event_ok w e Hw Hen Hco) as H.
  unfold wp in H. rewrite Heq in H. apply ok_wf in H; [done|apply Hw].
Qed.

Lemma steps_wf w w' : wf w -> rtc step w w' -> wf w' /\ evolves (sk w) (sk w').
Proof using HE HW.
  intros Hw Hs. induction Hs as [w|w w1 w2 H1 _ IH]; [split; [done|apply rtc_refl]|].
  destruct (step_wf _ _ Hw H1) as [Hw1 Hev1]. destruct (IH Hw1) as [Hw2 Hev2].
  split; [done|]. by etransitivity.
Qed.

(** C1: every event that can happen, from peers that keep to their protocols, is
    handled to completion, without a crash, and leaves a well-formed store whose
    objects evolved by steps of the abstract machine. *)
Theorem event_safe w e : wf w -> enabled w e -> conforms w e ->
  exists w', handle_event e w = Ret tt w' /\ wf w' /\ evolves (sk w) (sk w').
Proof using HE HW.
  intros Hw Hen Hco. pose proof (handle_event_ok w e Hw Hen Hco) as H.
  apply wp_returns in H as ([] & w' & Heq & Hok'). apply ok_wf in Hok'; [|apply Hw].
  destruct Hok'. eauto.
Qed.

(** Every store the program reaches from start-up is well-formed. *)
Lemma reachable_wf g w0 w : boot (zeroed g) = Ret tt w0 -> rtc step w0 w -> wf w.
Proof using HE HW.
  intros Hb Hs. rewrite boot_booted in Hb. injection Hb as <-.
  by apply (steps_wf _ _ (booted_wf g) Hs).
Qed.

(** The leg structures behind a view. *)
Lemma sk_leg_inv w l sh : sk_legs (sk w) !! l = Some sh -> exists x, legs w !! l = Some x /\ shape x = sh.
Proof using. simpl. intros Hl. apply fmap_lookup_inv in Hl as (x & ? & ->). eauto. Qed.

Lemma sk_call_of w c x : calls w !! c = Some x -> sk_calls (sk w) !! c = Some (initial x, remote x).
Proof using. simpl. intros Hc. by rewrite lookup_fmap, Hc. Qed.

(** C13: in every store that is reached by handling events of peers that keep to their
    protocol, with no write lost, the links between calls, legs, timers and handles do
    not dangle: an armed command timer is that of a live MNCC leg; a bound handle is
    bound to a live SIP leg, which holds it; an entry of the call list is a live call
    with a leg; the legs a call points to are live and point back to it; and the two
    legs of a call with both are of opposite types.  Nothing is said of the strings
    [source] and [dest] of a call: they belong to a leg, may outlive it and are read by
    the show commands only ([show_safe_iff]). *)
Theorem no_dangling g w0 w : boot (zeroed g) = Ret tt w0 -> rtc step w0 w ->
  (forall l, l ∈ timers w -> exists b m, legs w !! l = Some (Leg b (XMncc m)))
  /\ (forall h l, nua w !! h = Some l -> exists b x, legs w !! l = Some (Leg b (XSip x)) /\ s_handle x = Some h)
  /\ (forall c, c ∈ g_call_list w -> exists x, calls w !! c = Some x /\ (initial x <> None \/ remote x <> None))
  /\ (forall c x l, calls w !! c = Some x -> initial x = Some l \/ remote x = Some l ->
        exists y, legs w !! l = Some y /\ lg_call (base y) = c)
  /\ (forall c x l r, calls w !! c = Some x -> initial x = Some l -> remote x = Some r ->
        exists y z, legs w !! l = Some y /\ legs w !! r = Some z /\ lg_type (base y) <> lg_type (base z)).
Proof using HE HW.
  intros Hb Hs. rewrite boot_booted in Hb. injection Hb as <-.
  destruct (steps_wf _ _ (booted_wf g) Hs) as [[Hwf Ht _] _]. split_and!.
  - intros l Hl. destruct (Ht l Hl) as (sh & Hsh & Hm). apply sk_leg_inv in Hsh as ([b [m|x]] & ? & <-); [eauto|done].
  - intros h l Hh. destruct (wf_nua _ Hwf h l Hh) as (sh & d & Hsh & He).
    apply sk_leg_inv in Hsh as ([b [m|x]] & ? & <-); simpl in He; [done|]. injection He as _ ?. eauto.
  - intros c Hc. destruct (proj1 (wf_list _ Hwf c) Hc) as [[i r] Hir]. simpl in Hir.
    apply fmap_lookup_inv in Hir as (x & Hx & ?). exists x. split; [done|].
    pose proof (wf_nonempty _ Hwf c) as Hn. rewrite (sk_call_of w c x Hx) in Hn.
    destruct (initial x), (remote x); auto.
  - intros c x l Hx Hl. destruct (wf_linked _ c (initial x) (remote x) l Hwf (sk_call_of _ _ _ Hx) Hl) as (sh & Hsh & <-).
    apply sk_leg_inv in Hsh as (y & ? & <-). eauto.
  - intros c x l r Hx Hi Hr. pose proof (sk_call_of _ _ _ Hx) as Hc. rewrite Hi, Hr in Hc.
    destruct (other_leg_pair _ c l r Hwf Hc) as (shi & shr & Hl1 & Hl2 & (sh' & Hl2' & _ & _ & _ & _ & Hty & _) & _).
    apply sk_leg_inv in Hl1 as (y & ? & <-). apply sk_leg_inv in Hl2 as (z & Hz & <-).
    exists y, z. simpl in Hl2'. rewrite lookup_fmap, Hz in Hl2'. injection Hl2' as <-. auto.
Qed.
End executions.

(** ** Losing the MNCC connection *)
Section lost.
Context {E : Env}.

(** C14: when the MSC goes away, whatever the state of the calls and whatever the
    system answers, the handler completes: no MNCC leg and no command timer is
    left, the connection is closed with a reconnect armed, and the calls
    without an MNCC leg keep their legs. *)
Theorem disconnect_clears w : wf w -> 0 <= cn_fd (conn w) ->
  exists w', mncc_data None w = Ret tt w'
    /\ timers w' = ∅
    /\ conn w' = Conn MNCC_DISCONNECTED (-1) (Some 5) true
    /\ (forall l b m, legs w' !! l <> Some (Leg b (XMncc m)))
    /\ (forall c x, calls w !! c = Some x -> no_mncc (sk w) c ->
          exists x', calls w' !! c = Some x' /\ initial x' = initial x /\ remote x' = remote x).
Proof using.
  intros Hw Hfd. pose proof (wf_st w Hw) as Hst. destruct Hw as [Hwf Ht Hok].
  pose proof (close_connection_st (sk w) (conn w) Hwf Hok 0 w Hst) as H.
  apply wp_returns in H as ([] & w' & Heq & s' & Hst' & Hwf' & Hd & Hun & Hno).
  specialize (Hno Hfd). exists w'. split; [exact Heq|]. split_and!.
  - apply set_eq. intros l. split; [|set_solver]. intros Hl.
    destruct (st_timers _ _ _ Hst' l Hl) as (sh & Hsh & Hm). by destruct (Hno l sh Hsh).
  - rewrite (st_conn _ _ _ Hst'). unfold closed. destruct (Z.ltb_spec (cn_fd (conn w)) 0); [lia|].
    by rewrite (co_callback _ Hok).
  - intros l b m Hl. apply (Hno l (shape (Leg b (XMncc m)))); [|done].
    rewrite <- (st_sk _ _ _ Hst'). simpl. by rewrite lookup_fmap, Hl.
  - intros c x Hx Hn. destruct (Hun c Hn) as [Hc _]. rewrite (sk_call_of w c x Hx) in Hc.
    destruct (st_call Hst' c _ _ Hc) as (x' & ? & ? & ?). eauto.
Qed.
End lost.
