(* ===== verification/Refine.v ===== *)
(** * The program refines the abstract machine of a bridged call

    [label_of] reads from an event what it means for a call; [relay_step] shows
    that handling the event is the reaction of the machine, [runs_as_machine] that
    a run of the program on events of the call is a run of the machine, and
    [hangup_reaches_all] carries what Bridge.v proves of the machine over to the
    store and the messages of the program. *)
From S2P Require Import Prelude Effect Codec Protocol Lib State Skel Rules Call Sdp SipLeg MnccConn App MnccRx SipUa CallFlow Stranded Bridge Local Relay System.

(** ** Definitions *)

(** What a store has of a call. *)
Definition local_of (k : ids) (w : world) : local :=
  Local (match legs w !! id_m k with Some (Leg b (XMncc m)) => Some (b, m) | _ => None end)
        (match legs w !! id_s k with Some (Leg b (XSip x)) => Some (b, x) | _ => None end)
        (bool_decide (id_m k ∈ timers w)) (out w).

(** The store holds the call, or what is left of it. *)
Definition has_call (k : ids) (w : world) : Prop := holds k (local_of k w) w.

(** The SIP peer was asked to end the dialog between the two stores. *)
Definition peer_asked (w w' : world) : Prop := asked (drop (length (out w)) (map short (out w'))) = true.

(** Both sides of the call know that it ends, or neither: when the MNCC leg is gone
    the SIP leg is gone or its peer was asked to end the dialog; when the SIP leg is
    gone the MNCC leg is gone or is being released; a leg that is being released has
    its timer armed, and it is not the timer of an answer. *)
Definition all_reached (k : ids) (w w' : world) : Prop :=
  (legs w' !! id_m k = None -> legs w' !! id_s k = None \/ peer_asked w w') /\
  forall b m, legs w' !! id_m k = Some (Leg b (XMncc m)) ->
    (in_release b = true -> (id_m k ∈ timers w') /\ u32 (m_rsp_wanted m) <> MNCC_SETUP_COMPL_IND /\
       (legs w' !! id_s k = None \/ peer_asked w w')) /\
    (legs w' !! id_s k = None -> in_release b = true).

Section label.
Context {E : Env}.

(** A message of the MSC, for a call whose MNCC leg is [bm]. *)
Definition mncc_label (k : ids) (bm : call_leg * mncc_leg) (buf : list Z) : option label :=
  let t := rd32 buf 0 in
  let rc := Z.of_nat (length buf) in
  if (t =? MNCC_RTP_CREATE) || (t =? MNCC_RTP_CONNECT) then
    let r := view_rtp buf in
    if (sizeof_rtp <=? rc) && (rtp_callref r =? id_cr k) then
      if t =? MNCC_RTP_CONNECT then Some (MRtpConnect (negb (no_media r)))
      else if in_release (fst bm) || bool_decide (m_dir (snd bm) = MNCC_DIR_MT) then Some MRtpCreate
      else None
    else None
  else
    let d := view_gsm_mncc buf in
    if (sizeof_gsm_mncc <=? rc) && (mn_callref d =? id_cr k) then
      if t =? MNCC_DISC_IND then Some (MDisc (ca_value (mn_cause d)))
      else if t =? MNCC_REL_IND then Some (MRel (ca_value (mn_cause d)))
      else if t =? MNCC_REJ_IND then Some (MRej (ca_value (mn_cause d)))
      else if t =? MNCC_REL_CNF then Some MRelCnf
      else if t =? MNCC_SETUP_COMPL_IND then Some MCompl
      else if t =? MNCC_SETUP_CNF then Some MAnswer
      else if t =? MNCC_CALL_CONF_IND then Some MConf
      else if t =? MNCC_ALERT_IND then Some MAlert
      else if t =? MNCC_HOLD_IND then Some MHold
      else if t =? MNCC_RETRIEVE_IND then Some MRetrieve
      else if t =? MNCC_START_DTMF_IND then Some MDtmf
      else if t =? MNCC_STOP_DTMF_IND then Some MDtmfStop
      else None
    else None.

(** An event of sofia-sip for the handle of the SIP leg [bx]. *)
Definition sip_label (bx : call_leg * sip_leg) (ev : nua_event) (status : Z) (sip : option sip_t) : option label :=
  let '(b, x) := bx in
  match ev with
  | nua_r_invite =>
      if (status =? 180) || (status =? 183) then w ← sip; Some (SRing (has_media (ringing_leg (s_wanted_codec x) w b)))
      else if status =? 200 then w ← sip; Some (SAnswer (bool_decide (is_Some (usable false (s_wanted_codec x) w))))
      else if 300 <=? status then Some (SFail (status2cause status))
      else Some SOther
  | nua_i_ack =>
      w ← sip;
      match sip_payload w with
      | None => Some SQuiet
      | Some _ => Some (SOffer (offer_of (s_wanted_codec x) w b))
      end
  | nua_r_bye | nua_r_cancel => Some SEnded
  | nua_i_bye | nua_i_cancel => Some SHangup
  | nua_i_invite =>
      if status =? 100 then w ← sip; Some (SOffer (offer_of (s_wanted_codec x) w b)) else Some SQuiet
  | nua_e_other _ => Some SQuiet
  end.

(** What an event means for a call; [None] when it is not an event of the call. *)
Definition label_of (k : ids) (q : local) (e : event) : option label :=
  match e with
  | EvMncc (Some buf) => bm ← lc_m q; mncc_label k bm buf
  | EvCmdTimeout l => _ ← lc_m q; if bool_decide (l = id_m k) && lc_timer q then Some MTimeout else None
  | EvNua ev status nh sip => bx ← lc_s q; if bool_decide (nh = id_h k) then sip_label bx ev status sip else None
  | _ => None
  end.

(** The labels of a run; it ends where the program crashes. *)
Fixpoint labels_of (k : ids) (w : world) (es : list event) : option (list label) :=
  match es with
  | [] => Some []
  | e :: es' =>
      lb ← label_of k (local_of k w) e;
      match handle_event e w with
      | Ret _ w' => cons lb <$> labels_of k w' es'
      | Crash _ _ => Some [lb]
      end
  end.
End label.

(** ** One event *)
Section refine.
Context {E : Env} {HE : EnvLaws E} {HW : WritesOk E} (k : ids).

Lemma holds_local q w : holds k q w -> local_of k w = q.
Proof using.
  intros H. unfold local_of. rewrite (h_m _ _ _ H), (h_s _ _ _ H), (h_out _ _ _ H).
  destruct q as [m s t o]. simpl. f_equal; [by destruct m as [[]|]|by destruct s as [[]|]|].
  pose proof (h_timer _ _ _ H) as Ht. simpl in Ht. destruct t; [apply bool_decide_eq_true, Ht; done|].
  apply bool_decide_eq_false. naive_solver.
Qed.

(** A message is dispatched to its handler. *)
Lemma answers_label b m s t o f g lb : g = f -> of_msc lb = true -> lb <> MTimeout ->
  answers k (Local (Some (b, m)) s t o) f (react_msc (msc_view_of t (b, m)) (abs (Local (Some (b, m)) s t o)) lb) ->
  answers k (Local (Some (b, m)) s t o) g (react (abs (Local (Some (b, m)) s t o)) lb).
Proof using.
  intros -> Hm Ht Hf. unfold react. rewrite Hm. by destruct lb.
Qed.

Lemma answers_mncc b m s t o buf lb : mncc_label k (b, m) buf = Some lb ->
  answers k (Local (Some (b, m)) s t o) (mncc_data (Some buf)) (react (abs (Local (Some (b, m)) s t o)) lb).
Proof using HE HW.
  unfold mncc_label, mncc_data. generalize (Z.of_nat (length buf)). intros rc.
  assert (forall n, 4 < n -> n <= rc -> (rc <=? 4) = false) as H4 by (intros n ? ?; apply Z.leb_gt; lia).
  destruct (_ || _) eqn:Hrtp.
  - apply orb_true_iff in Hrtp. destruct (Z.leb_spec sizeof_rtp rc) as [Hlen|]; [|done].
    rewrite (H4 sizeof_rtp) by done. destruct (Z.eqb_spec (rtp_callref (view_rtp buf)) (id_cr k)) as [Hcr|]; [|done].
    cbn [andb]. destruct (Z.eqb_spec (rd32 buf 0) MNCC_RTP_CONNECT) as [->|].
    + intros [= <-]. apply (answers_label b m s t o (check_rtp_connect buf rc)); [reflexivity..|discriminate|].
      exact (answers_rtp_connect k buf rc Hlen Hcr b m s t o).
    + destruct Hrtp as [Ht%Z.eqb_eq|Ht]; [|discriminate Ht]. rewrite Ht. cbn [fst snd].
      destruct (_ || _) eqn:Hd; [|done]. intros [= <-].
      apply (answers_label b m s t o (check_rtp_create buf rc)); [reflexivity..|discriminate|].
      apply (answers_rtp_create k buf rc Hlen Hcr b m s t o).
      intros Hr. rewrite Hr in Hd. by apply bool_decide_eq_true in Hd.
  - destruct (Z.leb_spec sizeof_gsm_mncc rc) as [Hlen|]; [|done].
    pose proof sizeof_gsm_mncc_min. rewrite (H4 sizeof_gsm_mncc) by lia. destruct (Z.eqb_spec (mn_callref (view_gsm_mncc buf)) (id_cr k)) as [Hcr|]; [|done].
    cbn [andb]. clear Hrtp.
    repeat lazymatch goal with
    | |- (if rd32 buf 0 =? ?ty then _ else _) = _ -> _ =>
        destruct (Z.eqb_spec (rd32 buf 0) ty) as [->|_]; [intros [= <-]|]
    | |- None = _ -> _ => let H := fresh in intros H; discriminate H
    end.
    + apply (answers_label b m s t o (check_disc_ind buf rc)); [reflexivity..|discriminate|]. exact (answers_disc k buf rc Hlen Hcr b m s t o).
    + apply (answers_label b m s t o (check_rel_ind buf rc)); [reflexivity..|discriminate|]. exact (answers_rel k buf rc Hlen Hcr b m s t o).
    + apply (answers_label b m s t o (check_rej_ind buf rc)); [reflexivity..|discriminate|]. exact (answers_rej k buf rc Hlen Hcr b m s t o).
    + apply (answers_label b m s t o (check_rel_cnf buf rc)); [reflexivity..|discriminate|]. exact (answers_rel_cnf k buf rc Hlen Hcr b m s t o).
    + apply (answers_label b m s t o (check_stp_cmpl_ind buf rc)); [reflexivity..|discriminate|]. exact (answers_compl k buf rc Hlen Hcr b m s t o).
    + apply (answers_label b m s t o (check_stp_cnf buf rc)); [reflexivity..|discriminate|]. exact (answers_answer k buf rc Hlen Hcr b m s t o).
    + apply (answers_label b m s t o (check_cnf_ind buf rc)); [reflexivity..|discriminate|]. exact (answers_conf k buf rc Hlen Hcr b m s t o).
    + apply (answers_label b m s t o (check_alrt_ind buf rc)); [reflexivity..|discriminate|]. exact (answers_alert k buf rc Hlen Hcr b m s t o).
    + apply (answers_label b m s t o (check_hold_ind buf rc)); [reflexivity..|discriminate|]. exact (answers_hold k buf rc Hlen Hcr b m s t o).
    + apply (answers_label b m s t o (check_retrieve_ind buf rc)); [reflexivity..|discriminate|]. exact (answers_retrieve k buf rc Hlen Hcr b m s t o).
    + apply (answers_label b m s t o (check_dtmf_start buf rc)); [reflexivity..|discriminate|]. exact (answers_dtmf k buf rc Hlen Hcr b m s t o).
    + apply (answers_label b m s t o (check_dtmf_stop buf rc)); [reflexivity..|discriminate|]. exact (answers_dtmf_stop k buf rc Hlen Hcr b m s t o).
Qed.

Lemma answers_sip b x m t o ev status sip lb : sip_label (b, x) ev status sip = Some lb ->
  answers k (Local m (Some (b, x)) t o) (nua_callback ev status (id_h k) sip) (react (abs (Local m (Some (b, x)) t o)) lb).
Proof using HE HW.
  assert (forall f g lb, g = f -> of_msc lb = false ->
    answers k (Local m (Some (b, x)) t o) f (react_sip (sip_view_of (b, x)) (abs (Local m (Some (b, x)) t o)) lb) ->
    answers k (Local m (Some (b, x)) t o) g (react (abs (Local m (Some (b, x)) t o)) lb)) as Hgo.
  { intros f g l -> Hl Hf. unfold react. rewrite Hl. by destruct l. }
  assert (answers k (Local m (Some (b, x)) t o) (ret tt) (react (abs (Local m (Some (b, x)) t o)) SQuiet)) as Hquiet
    by apply relays_ret.
  unfold sip_label, nua_callback. destruct ev.
  - destruct (_ || _) eqn:H1; [|destruct (Z.eqb_spec status 200) as [->|]; [|destruct (Z.leb_spec 300 status)]].
    + destruct sip as [w|]; simpl; [|done]. intros [= <-]. apply (Hgo (on_r_invite status (id_h k) (Some w))); [done..|].
      apply orb_true_iff in H1. rewrite !Z.eqb_eq in H1. by apply (answers_ringing k m b x t o status (Some w)).
    + destruct sip as [w|]; simpl; [|done]. intros [= <-]. apply (Hgo (on_r_invite 200 (id_h k) (Some w))); [done..|].
      by apply (answers_answered k m b x t o (Some w)).
    + intros [= <-]. apply (Hgo (on_r_invite status (id_h k) sip)); [done..|]. by apply answers_failed.
    + intros [= <-]. apply (Hgo (on_r_invite status (id_h k) sip)); [done..|]. apply orb_false_iff in H1.
      rewrite !Z.eqb_neq in H1. destruct H1. by apply (answers_other k m b x t o).
  - destruct sip as [w|]; simpl; [|done]. destruct (sip_payload w) as [data|] eqn:Hp; intros [= <-].
    + apply (Hgo (on_i_ack (id_h k) (Some w))); [done..|]. by eapply answers_i_ack.
    + eapply answers_eq; [|exact Hquiet]. intros w0 _. unfold on_i_ack. simpl. rewrite bind_ret_l. by rewrite Hp.
  - intros [= <-]. apply (Hgo (l <- the_leg (id_h k) ;; drop_leg l)); [done..|]. apply answers_ended.
  - intros [= <-]. apply (Hgo (l <- the_leg (id_h k) ;; drop_leg l)); [done..|]. apply answers_ended.
  - intros [= <-]. apply (Hgo (on_remote_hangup (id_h k))); [done..|]. apply answers_hangup.
  - destruct (Z.eqb_spec status 100) as [->|Hn].
    + destruct sip as [w|]; simpl; [|done]. intros [= <-]. apply (Hgo (on_i_invite 100 (id_h k) (Some w))); [done..|].
      apply answers_i_invite.
    + intros [= <-]. eapply answers_eq; [|exact Hquiet]. intros w0 _. unfold on_i_invite.
      by destruct (Z.eqb_spec status 100).
  - intros [= <-]. apply (Hgo (on_remote_hangup (id_h k))); [done..|]. apply answers_hangup.
  - intros [= <-]. exact Hquiet.
Qed.

(** The timer of the MNCC leg. *)
Lemma answers_timeout b m s o : answers k (Local (Some (b, m)) s true o) (handle_event (EvCmdTimeout (id_m k)))
  (react (abs (Local (Some (b, m)) s true o)) MTimeout).
Proof using HE HW.
  pose proof (relays_timeout k b m s false o) as (q' & Hdo & Ho & Ha).
  exists q'. split; [|split].
  - intros w H. simpl handle_event. unfold bind at 1, modify. apply Hdo.
    apply (holds_timer k (b, m) s true o w false); [exact H|clear; set_solver..].
  - rewrite Ho. f_equal.
    simpl. destruct s as [[bs x]|]; [|done]. unfold abs, end_sip. simpl. by destruct (s_state x), (s_dir x).
  - rewrite Ha. simpl. destruct s as [[bs x]|]; [|done]. unfold abs, end_sip. simpl. by destruct (s_state x), (s_dir x).
Qed.

(** Handling an event of a call is the reaction of the machine. *)
Lemma event_answers q e lb : label_of k q e = Some lb -> answers k q (handle_event e) (react (abs q) lb).
Proof using HE HW.
  destruct q as [m s t o]. destruct e as [[buf|]| |l|ev status nh sip]; simpl; try done.
  - destruct m as [[b m]|]; simpl; [|done]. apply answers_mncc.
  - destruct m as [[b m]|]; simpl; [|done]. case_bool_decide as Hl; [subst l|done]. destruct t; [|done].
    intros [= <-]. apply answers_timeout.
  - destruct s as [[b x]|]; simpl; [|done]. case_bool_decide as Hh; [subst nh|done]. apply answers_sip.
Qed.

Lemma event_step w e lb : has_call k w -> label_of k (local_of k w) e = Some lb ->
  match react (abs (local_of k w)) lb with
  | Some (o, a) => exists w', handle_event e w = Ret tt w' /\ has_call k w' /\ abs (local_of k w') = a /\
      map short (out w') = map short (out w) ++ o
  | None => exists w', handle_event e w = Crash NullCall w'
  end.
Proof using HE HW.
  intros Hw Hl. pose proof (event_answers _ _ _ Hl) as Ha. destruct (react _ lb) as [[o a]|]; [|by apply Ha].
  destruct Ha as (q' & Hdo & Ho & Hq). destruct (Hdo w Hw) as (w' & Hrun & Hw'). exists w'. pose proof (holds_local _ _ Hw') as Hloc.
  unfold has_call. rewrite Hloc. split_and!; [done..|]. by rewrite (h_out _ _ _ Hw').
Qed.

Lemma run_labels es : forall w lbs, has_call k w -> labels_of k w es = Some lbs ->
  match reacts (abs (local_of k w)) lbs with
  | Some (o, a) => exists w', run es w = Ret tt w' /\ has_call k w' /\ abs (local_of k w') = a /\
      map short (out w') = map short (out w) ++ o
  | None => exists w', run es w = Crash NullCall w'
  end.
Proof using HE HW.
  induction es as [|e es IH]; intros w lbs Hw Hl; simpl in Hl.
  { injection Hl as <-. exists w. by rewrite app_nil_r. }
  destruct (label_of k (local_of k w) e) as [lb|] eqn:He; [|done]. simpl in Hl. pose proof (event_step w e lb Hw He) as Hs.
  destruct (react (abs (local_of k w)) lb) as [[o a]|] eqn:Hr.
  - destruct Hs as (w1 & Hrun & Hw1 & <- & Ho). rewrite Hrun in Hl.
    destruct (labels_of k w1 es) as [lbs'|] eqn:Hl'; [|done]. injection Hl as <-. simpl. rewrite Hr. simpl.
    specialize (IH w1 lbs' Hw1 Hl'). destruct (reacts (abs (local_of k w1)) lbs') as [[o' a']|]; simpl.
    + destruct IH as (w' & Hrun' & Hw' & Ha' & Ho'). exists w'. split_and!; [|done..|].
      * unfold run. simpl. unfold bind. by rewrite Hrun.
      * by rewrite Ho', Ho, app_assoc.
    + destruct IH as (w' & Hrun'). exists w'. unfold run. simpl. unfold bind. by rewrite Hrun.
  - destruct Hs as (w1 & Hrun). rewrite Hrun in Hl. injection Hl as <-. simpl. rewrite Hr. simpl.
    exists w1. unfold run. simpl. unfold bind. by rewrite Hrun.
Qed.

(** C7: a run of the program on events of one call is a run of the abstract machine of
    Bridge.v: the two sides end as the machine says, the messages that went out are
    those of the machine, in its order, and where the machine has no reaction the
    program calls a NULL function pointer. *)
Theorem runs_as_machine w es lbs : has_call k w -> labels_of k w es = Some lbs ->
  match reacts (abs (local_of k w)) lbs with
  | Some (o, a) => exists w', run es w = Ret tt w' /\ has_call k w' /\ abs (local_of k w') = a /\
      map short (out w') = map short (out w) ++ o
  | None => exists w', run es w = Crash NullCall w'
  end.
Proof using HE HW. apply run_labels. Qed.

Lemma clean_reacts es : forall a, clean_run a es = true -> is_Some (reacts a es).
Proof using.
  induction es as [|e es IH]; intros a Hc; simpl in *; [by eexists|]. apply andb_true_iff in Hc as [_ Hc].
  destruct (react a e) as [[o a1]|]; [|done]. simpl. destruct (IH a1 Hc) as [[o' a'] ->]. by eexists.
Qed.

Lemma gone_m w : has_call k w -> at_msc (abs (local_of k w)) = None <-> legs w !! id_m k = None.
Proof using.
  intros H. rewrite (h_m _ _ _ H). unfold abs. simpl.
  split; [by destruct (legs w !! id_m k) as [[b [m|x]]|]|]. by destruct (match legs w !! id_m k with Some _ => _ | None => _ end).
Qed.
Lemma gone_s w : has_call k w -> at_sip (abs (local_of k w)) = None <-> legs w !! id_s k = None.
Proof using.
  intros H. rewrite (h_s _ _ _ H). unfold abs. simpl.
  split; [by destruct (legs w !! id_s k) as [[b [m|x]]|]|]. by destruct (match legs w !! id_s k with Some _ => _ | None => _ end).
Qed.
Lemma there_m w b m : legs w !! id_m k = Some (Leg b (XMncc m)) ->
  at_msc (abs (local_of k w)) = Some (msc_view_of (bool_decide (id_m k ∈ timers w)) (b, m)).
Proof using. intros H. unfold abs, local_of. simpl. by rewrite H. Qed.

Lemma reached_abs w w' o : has_call k w' -> map short (out w') = map short (out w) ++ o ->
  all_reached k w w' <-> nobody_behind (asked o) (abs (local_of k w')).
Proof using.
  intros Hw Ho. assert (peer_asked w w' <-> asked o = true) as Hask.
  { unfold peer_asked. by rewrite Ho, <- (length_map short (out w)), drop_app_length. }
  unfold all_reached, nobody_behind, settled, supervised. setoid_rewrite Hask. setoid_rewrite <- (gone_s w' Hw).
  destruct (legs w' !! id_m k) as [[b [m|x]]|] eqn:Hm.
  - rewrite (there_m w' b m Hm). simpl. split.
    + intros [_ H]. destruct (H b m eq_refl) as [H1 H2]. split; [|done]. intros Hr. destruct (H1 Hr) as (Ht & Hu & Hs).
      rewrite bool_decide_eq_true_2 by done. split; [done|]. split; [done|]. congruence.
    + intros [H1 H2]. split; [done|]. intros b' m' [= <- <-]. split; [|done]. intros Hr. destruct (H1 Hr) as (Hs & Hw1 & Hw2).
      case_bool_decide; [|done]. split_and!; [done| |done]. congruence.
  - pose proof (h_m _ _ _ Hw) as H. rewrite Hm in H. unfold local_of in H. simpl in H. by rewrite Hm in H.
  - apply (gone_m w' Hw) in Hm as Hg. rewrite Hg. split; [intros [H _]; by apply H|]. intros H. split; [by intros _|done].
Qed.





(** C12: each event that is not [clean] leaves a side behind, in every state of a call
    with both legs: an answer that can be used while the MNCC leg is being released,
    a confirmation of a release nobody asked for, the end of a dialog nobody asked
    to end, and a re-INVITE that offers nothing usable. *)
Theorem unclean_event_strands w e lb b m bs x : has_call k w ->
  legs w !! id_m k = Some (Leg b (XMncc m)) -> legs w !! id_s k = Some (Leg bs (XSip x)) ->
  label_of k (local_of k w) e = Some lb -> clean (abs (local_of k w)) lb = false ->
  exists w', handle_event e w = Ret tt w' /\ ~ all_reached k w w'.
Proof using HE HW.
  intros Hw Hm Hs Hl Hc. pose proof (event_step w e lb Hw Hl) as Hstep.
  assert (at_sip (abs (local_of k w)) = Some (sip_view_of (bs, x))) as Hsip by (unfold abs, local_of; simpl; by rewrite Hs).
  destruct (unclean_leaves_behind _ _ _ _ (there_m w b m Hm) Hsip Hc) as (o & a & Hr & Hn). rewrite Hr in Hstep.
  destruct Hstep as (w' & Hrun & Hw' & <- & Ho). exists w'. split; [done|]. by rewrite (reached_abs w w' o Hw' Ho).
Qed.

(** A bridged call is a call the store holds. *)
Lemma bridged_has_call w cr lm ls bm m bs x h cl : mncc_sip_call w cr lm ls bm m bs x -> s_handle x = Some h ->
  cn_state (conn w) = MNCC_READY -> calls w !! lg_call bm = Some cl -> number_unique w (lg_call bm) cr ->
  has_call (Ids (lg_call bm) lm ls h cr (bool_decide (initial cl = Some lm))) w.
Proof using.
  intros [Hw _ Hlm Hls Hb Hcr Hu] Hh Hr Hcl Hnum. unfold has_call, local_of. simpl. rewrite Hlm, Hls.
  pose proof (bridged_other_leg w lm ls _ Hw Hb Hlm) as (sh & Hsh & _ & Hcall & _).
  simpl in Hsh. rewrite lookup_fmap, Hls in Hsh. injection Hsh as <-. simpl in Hcall.
  destruct Hb as (Hne & y & cl' & Hy & Hcl' & Hor). assert (y = Leg bm (XMncc m)) as -> by congruence.
  simpl in Hcl'. assert (cl' = cl) as -> by congruence. split; simpl; try done.
  - by intros ? ? [= <- <-].
  - by intros ? ? [= <- <-].
  - rewrite lookup_fmap, Hcl. unfold ends, call_shape. simpl.
    destruct Hor as [[-> ->]|[-> ->]]; [by rewrite bool_decide_eq_true_2|].
    by rewrite bool_decide_eq_false_2 by congruence.
  - split_and!; [apply (wf_next_legs _ (w_sk w Hw))..|apply (wf_next_calls _ (w_sk w Hw))]; simpl; rewrite lookup_fmap.
    + rewrite Hlm. by eexists.
    + rewrite Hls. by eexists.
    + rewrite Hcl. by eexists.
  - by rewrite bool_decide_eq_true.
Qed.
End refine.
