(* ===== verification/Apart.v ===== *)
(** * Several calls at once

    An event that is not about a call leaves the call as it is: [foreign k w e]
    says which events these are, [spares] is the judgement that a computation
    keeps the [frame] of a call and says nothing to its peers, with a rule per
    primitive and a lemma per function. *)
From S2P Require Import Prelude Effect Codec Protocol Lib State Skel Rules Call Sdp SipLeg MnccConn App MnccRx SipUa CallFlow Stranded Bridge Local Relay System Refine.

(** ** Definitions *)
Section defs.
Context (k : ids) (q : local).

(** A leg that is not one of the call. *)
Definition outside (l : ptr) : Prop := l <> id_m k /\ l <> id_s k.
Definition outside_opt (o : option ptr) : Prop := forall l, o = Some l -> outside l.

(** A callref and a handle that do not name a leg of the call: they are others, or
    the leg is gone. *)
Definition other_cr (cr : Z) : Prop := cr = id_cr k -> lc_m q = None.
Definition other_h (h : option handle) : Prop := h = Some (id_h k) -> lc_s q = None.

(** A message that does not concern the call: it is for another callref, or it is
    the Reject of what the MSC still sends for a leg that is gone. *)
Definition other_msg (t cr : Z) : Prop := cr = id_cr k -> lc_m q = None /\ t = MNCC_REJ_REQ.

(** Nothing is said to the peers of the call. *)
Definition not_about (a : action) : Prop :=
  match a with
  | TxMncc m _ => other_msg (mn_msg_type m) (mn_callref m)
  | TxRtp r _ => rtp_callref r <> id_cr k
  | CloseFd _ => False
  | NuaRespond h _ _ _ _ | NuaInvite h _ _ _ _ | NuaInfo h _ | NuaCancel h | NuaBye h | NuaAck h | NuaDestroy h => other_h h
  end.

Definition leg_outside (x : leg) : Prop :=
  lg_call (base x) <> id_call k /\
  match ext x with XMncc m => m_callref m <> id_cr k | XSip s => other_h (s_handle s) end.
Definition call_outside (cl : call) : Prop :=
  outside_opt (initial cl) /\ outside_opt (remote cl) /\ call_id cl <> id_cr k.

(** The call is as [q] has it, and no other object has to do with it. *)
Record frame (c0 : option call) (w : world) : Prop := {
  f_m : legs w !! id_m k = mleg <$> lc_m q;
  f_s : legs w !! id_s k = sleg <$> lc_s q;
  f_call : calls w !! id_call k = c0;
  f_timer : id_m k ∈ timers w <-> lc_timer q = true;
  f_out : exists o, out w = lc_out q ++ o /\ Forall not_about o;
  f_legs : forall l x, legs w !! l = Some x -> outside l -> leg_outside x;
  f_calls : forall c cl, calls w !! c = Some cl -> c <> id_call k -> call_outside cl;
  f_nua : forall h l, nua w !! h = Some l -> other_h (Some h) -> outside l;
  f_bound : lc_s q <> None -> nua w !! id_h k <> None;
  f_below : (id_m k < next_ptr w /\ id_s k < next_ptr w /\ id_call k < next_ptr w)%positive;
  f_conn : cn_state (conn w) = MNCC_READY /\ 0 <= cn_fd (conn w) }.

(** The messages that are for a leg. *)
Definition leg_messages : list Z :=
  [MNCC_DISC_IND; MNCC_REL_IND; MNCC_REJ_IND; MNCC_REL_CNF; MNCC_SETUP_COMPL_IND; MNCC_SETUP_CNF; MNCC_CALL_CONF_IND;
   MNCC_ALERT_IND; MNCC_HOLD_IND; MNCC_RETRIEVE_IND; MNCC_START_DTMF_IND; MNCC_STOP_DTMF_IND].

Definition other_cr_b (cr : Z) : bool := negb (cr =? id_cr k) || match lc_m q with None => true | Some _ => false end.
Definition other_h_b (h : handle) : bool := negb (bool_decide (h = id_h k)) || match lc_s q with None => true | Some _ => false end.
(** The next number a call gets is not that of the call. *)
Definition other_number (w : world) : bool := negb (u32 (last_call_id w + 1) =? id_cr k).
End defs.


(** What [q] records is a call with the names of [k]. *)
Class CallOf (k : ids) (q : local) : Prop := {
  co_ne : id_m k <> id_s k;
  co_m : forall b m, lc_m q = Some (b, m) -> lg_call b = id_call k /\ m_callref m = id_cr k;
  co_s : forall b x, lc_s q = Some (b, x) -> lg_call b = id_call k /\ s_handle x = Some (id_h k) }.

Section spares.
Context {E : Env} {k : ids} {q : local} {HK : CallOf k q} {c0 : option call}.

Definition spares {A} (m : MW A) (Q : A -> Prop) : Prop := within (frame k q c0) m Q.
Definition passes {A} (m : MW A) : Prop := spares m (fun _ => True).

(** ** Rules *)
Lemma spares_bind {A B} (m : MW A) (f : A -> MW B) P Q :
  spares m P -> (forall a, P a -> spares (f a) Q) -> spares (bind m f) Q.
Proof using. apply within_bind. Qed.
Lemma spares_passes {A} (m : MW A) Q : spares m Q -> passes m.
Proof using. intros H. by eapply within_mono. Qed.
Lemma spares_ret {A} (a : A) (Q : A -> Prop) : Q a -> spares (ret a) Q.
Proof using. apply within_ret. Qed.
Lemma passes_ret {A} (a : A) : passes (ret a).
Proof using. by apply within_ret. Qed.
Lemma spares_crash {A} f (Q : A -> Prop) : spares (crash f) Q.
Proof using. apply within_crash. Qed.
Lemma passes_crash {A} f : passes (crash f : MW A).
Proof using. apply spares_crash. Qed.
Lemma passes_gets {A} (f : world -> A) : passes (gets f).
Proof using. by apply within_gets. Qed.
Lemma spares_some_or {A} f (o : option A) : spares (some_or f o) (fun a => o = Some a).
Proof using. by apply within_some_or. Qed.
Lemma passes_assert b : passes (assert b).
Proof using. by apply within_assert. Qed.
Lemma spares_conn : spares (gets conn) (fun cn => cn_state cn = MNCC_READY).
Proof using. apply within_gets. intros w Hw. apply Hw. Qed.

(** Reading a leg or a call. *)
Lemma passes_deref_leg l : passes (deref_leg l).
Proof using.
  eapply spares_bind; [by apply (within_gets _ id (fun _ => True))|]. intros w _. eapply spares_passes, spares_some_or.
Qed.
Lemma passes_deref_call c : passes (deref_call c).
Proof using.
  eapply spares_bind; [by apply (within_gets _ id (fun _ => True))|]. intros w _. eapply spares_passes, spares_some_or.
Qed.
Lemma spares_deref_leg l : outside k l -> spares (deref_leg l) (leg_outside k q).
Proof using.
  intros Ho w Hw. unfold deref_leg, bind, gets. simpl. destruct (legs w !! l) as [x|] eqn:Hx; [|done].
  split; [done|]. by eapply (f_legs _ _ _ _ Hw).
Qed.
Lemma spares_deref_call c : c <> id_call k -> spares (deref_call c) (call_outside k).
Proof using.
  intros Ho w Hw. unfold deref_call, bind, gets. simpl. destruct (calls w !! c) as [x|] eqn:Hx; [|done].
  split; [done|]. by eapply (f_calls _ _ _ _ Hw).
Qed.
Lemma spares_as_mncc l : outside k l -> spares (as_mncc l) (fun m => m_callref m <> id_cr k).
Proof using.
  intros Ho. eapply spares_bind; [by apply spares_deref_leg|]. intros [b [m|s]] [_ Hx]; [|apply spares_crash].
  by apply spares_ret.
Qed.
Lemma spares_as_sip l : outside k l -> spares (as_sip l) (fun s => other_h k q (s_handle s)).
Proof using.
  intros Ho. eapply spares_bind; [by apply spares_deref_leg|]. intros [b [m|s]] [_ Hx]; [apply spares_crash|].
  by apply spares_ret.
Qed.

(** An update of the rest of the store. *)
Lemma passes_modify f : (forall w, legs (f w) = legs w /\ calls (f w) = calls w /\ timers (f w) = timers w /\ out (f w) = out w
  /\ nua (f w) = nua w /\ next_ptr (f w) = next_ptr w /\ conn (f w) = conn w) -> passes (modify f).
Proof using.
  intros Hf. apply within_modify; [|done]. intros w [H1 H2 H3 H4 H5 H6 H7 H8 H9 H10 H11].
  destruct (Hf w) as (E1 & E2 & E3 & E4 & E5 & E6 & E7). split; by rewrite ?E1, ?E2, ?E3, ?E4, ?E5, ?E6, ?E7.
Qed.

Lemma passes_emit a : not_about k q a -> passes (emit a).
Proof using.
  intros Ha. apply within_modify; [|done]. intros w [H1 H2 H3 H4 (o & Ho & Hs) H6 H7 H8 H9 H10 H11].
  split; try done. exists (o ++ [a]). simpl. rewrite Ho, app_assoc. split; [done|]. apply Forall_app. by repeat constructor.
Qed.

Lemma passes_upd_leg l f : outside k l -> (forall x, leg_outside k q x -> leg_outside k q (f x)) -> passes (upd_leg l f).
Proof using.
  intros Ho Hf. eapply spares_bind; [by apply spares_deref_leg|]. intros x Hx. apply within_modify; [|done].
  intros w [H1 H2 H3 H4 H5 H6 H7 H8 H9 H10 H11]. pose proof Ho as [Hlm Hls]. split; simpl; try done.
  - by rewrite lookup_insert_ne.
  - by rewrite lookup_insert_ne.
  - intros l' y [[<- <-]|[_ Hy]]%lookup_insert_Some; [by auto|by apply H6].
Qed.
Lemma passes_upd_base l f : outside k l -> (forall b, lg_call (f b) = lg_call b) -> passes (upd_base l f).
Proof using.
  intros Ho Hf. apply passes_upd_leg; [done|]. intros [b e] [H1 H2]. split; simpl in *; [by rewrite Hf|done].
Qed.
Lemma passes_upd_mncc l f : outside k l -> (forall m, m_callref m <> id_cr k -> m_callref (f m) <> id_cr k) -> passes (upd_mncc l f).
Proof using.
  intros Ho Hf. eapply spares_bind; [by apply spares_as_mncc|]. intros m Hm. apply passes_upd_leg; [done|].
  intros [b e] [H1 _]. split; simpl in *; [done|by apply Hf].
Qed.
Lemma passes_upd_sip l f : outside k l -> (forall s, other_h k q (s_handle s) -> other_h k q (s_handle (f s))) -> passes (upd_sip l f).
Proof using.
  intros Ho Hf. eapply spares_bind; [by apply spares_as_sip|]. intros m Hm. apply passes_upd_leg; [done|].
  intros [b e] [H1 _]. split; simpl in *; [done|by apply Hf].
Qed.
Lemma passes_upd_call c f : c <> id_call k -> (forall cl, call_outside k cl -> call_outside k (f cl)) -> passes (upd_call c f).
Proof using.
  intros Ho Hf. eapply spares_bind; [by apply spares_deref_call|]. intros x Hx. apply within_modify; [|done].
  intros w [H1 H2 H3 H4 H5 H6 H7 H8 H9 H10 H11]. split; simpl; try done.
  - by rewrite lookup_insert_ne.
  - intros c' y [[<- <-]|[_ Hy]]%lookup_insert_Some; [by auto|by apply H7].
Qed.

(** Timers, handles and memory. *)
Lemma passes_timer_schedule l : outside k l -> passes (timer_schedule l).
Proof using.
  intros [Ho _]. eapply spares_bind; [apply passes_deref_leg|]. intros _ _. apply within_modify; [|done].
  intros w [H1 H2 H3 H4 H5 H6 H7 H8 H9 H10 H11]. split; simpl; try done. rewrite <- H4. clear -Ho. set_solver.
Qed.
Lemma passes_timer_del l : outside k l -> passes (timer_del l).
Proof using.
  intros [Ho _]. eapply spares_bind; [apply passes_deref_leg|]. intros _ _. apply within_modify; [|done].
  intros w [H1 H2 H3 H4 H5 H6 H7 H8 H9 H10 H11]. split; simpl; try done. rewrite <- H4. clear -Ho. set_solver.
Qed.
Lemma passes_nua_handle_destroy h : other_h k q h -> passes (nua_handle_destroy h).
Proof using.
  intros Ho. eapply spares_bind; [by apply passes_emit|]. intros _ _. destruct h as [h|]; [|by apply passes_ret].
  apply within_modify; [|done]. intros w [H1 H2 H3 H4 H5 H6 H7 H8 H9 H10 H11]. split; simpl; try done.
  - intros h' l [_ Hh]%lookup_delete_Some. by apply H8.
  - intros Hs. rewrite lookup_delete_ne; [by apply H9|]. intros ->. by apply Hs, Ho.
Qed.
Lemma passes_nua_handle_bind h l : outside k l -> passes (nua_handle_bind h l).
Proof using.
  intros Ho. apply within_modify; [|done]. intros w [H1 H2 H3 H4 H5 H6 H7 H8 H9 H10 H11]. split; simpl; try done.
  - intros h' l' [[_ <-]|[_ Hh]]%lookup_insert_Some; [done|]. by eapply H8.
  - intros Hs. destruct (decide (h = id_h k)) as [->|]; [by rewrite lookup_insert_eq|rewrite lookup_insert_ne by done; auto].
Qed.
Lemma spares_new_nua_handle l : outside k l -> spares (new_nua_handle l) (other_h k q).
Proof using.
  intros Ho. unfold new_nua_handle. eapply spares_bind; [eapply spares_bind; [apply passes_gets|]; intros n _;
    eapply spares_bind; [by apply passes_modify|]; intros _ _; apply passes_ret|]. intros n _.
  destruct (nua_handle_ok n); [|by apply spares_ret]. apply (spares_bind _ _ (fun h => other_h k q (Some h))).
  - apply within_gets. intros w Hw [= He]. destruct (lc_s q) eqn:Hs; [|done]. exfalso.
    apply (f_bound _ _ _ _ Hw); [by rewrite Hs|]. rewrite <- He. apply not_elem_of_dom, is_fresh.
  - intros h Hh. eapply spares_bind; [by apply passes_nua_handle_bind|]. intros _ _. by apply spares_ret.
Qed.
Lemma passes_free_leg l : outside k l -> passes (free_leg l).
Proof using.
  intros [Hlm Hls]. eapply spares_bind; [apply passes_deref_leg|]. intros _ _. apply within_modify; [|done].
  intros w [H1 H2 H3 H4 H5 H6 H7 H8 H9 H10 H11]. split; simpl; try done.
  - by rewrite lookup_delete_ne.
  - by rewrite lookup_delete_ne.
  - intros l' x [_ Hx]%lookup_delete_Some. by apply H6.
Qed.
Lemma passes_free_call c : c <> id_call k -> passes (free_call c).
Proof using HK.
  intros Ho. eapply spares_bind; [apply passes_deref_call|]. intros _ _. eapply spares_bind.
  - apply within_modify with (Q := fun _ => True); [|done].
    intros w [H1 H2 H3 H4 H5 H6 H7 H8 H9 H10 H11]. split; simpl; try done.
    + by rewrite lookup_delete_ne.
    + intros c' x [_ Hx]%lookup_delete_Some. by apply H7.
  - intros _ _. apply within_modify; [|done]. intros w [H1 H2 H3 H4 H5 H6 H7 H8 H9 H10 H11]. split; simpl; try done.
    + destruct (lc_m q) as [[b m]|] eqn:Hq; simpl in H1 |- *.
      * apply map_lookup_filter_Some. split; [done|]. simpl. destruct (co_m b m Hq). congruence.
      * apply map_lookup_filter_None. by left.
    + destruct (lc_s q) as [[b x]|] eqn:Hq; simpl in H2 |- *.
      * apply map_lookup_filter_Some. split; [done|]. simpl. destruct (co_s b x Hq). congruence.
      * apply map_lookup_filter_None. by left.
    + intros l x [Hx _]%map_lookup_filter_Some. by apply H6.
Qed.
Lemma passes_tick : passes tick.
Proof using.
  eapply spares_bind; [apply passes_gets|]. intros n _. eapply spares_bind; [by apply passes_modify|]. intros _ _. apply passes_ret.
Qed.
Lemma passes_read_str o : passes (read_str o).
Proof using.
  unfold read_str. destruct o as [[p s]|]; [|apply passes_ret]. eapply spares_bind; [apply passes_deref_leg|]. intros _ _. apply passes_ret.
Qed.
Lemma passes_talloc_str p s : passes (talloc_str p s).
Proof using. eapply spares_bind; [apply passes_tick|]. intros n _. apply passes_ret. Qed.
Lemma spares_talloc_leg x : leg_outside k q x -> spares (talloc_leg x) (outside_opt k).
Proof using.
  intros Hx. eapply spares_bind; [apply passes_tick|]. intros n _. destruct (alloc_ok n); [|by apply spares_ret].
  intros w [H1 H2 H3 H4 H5 H6 H7 H8 H9 (B1 & B2 & B3) H11]. unfold bind, gets, modify, ret. simpl. split.
  - split; simpl; try done.
    + rewrite lookup_insert_ne; [done|lia].
    + rewrite lookup_insert_ne; [done|lia].
    + intros l' y [[<- <-]|[_ Hy]]%lookup_insert_Some; [by auto|by apply H6].
    + split_and!; lia.
  - intros l [= <-]. split; lia.
Qed.
End spares.

(** ** Facts the values carry *)
Section facts.
Context {k : ids} {q : local}.

Lemma initial_outside cl l : call_outside k cl -> initial cl = Some l -> outside k l.
Proof using. intros (H & _ & _). apply H. Qed.
Lemma remote_outside cl l : call_outside k cl -> remote cl = Some l -> outside k l.
Proof using. intros (_ & H & _). apply H. Qed.
Lemma number_outside cl : call_outside k cl -> call_id cl <> id_cr k.
Proof using. by intros (_ & _ & ?). Qed.
Lemma lg_call_outside x : leg_outside k q x -> lg_call (base x) <> id_call k.
Proof using. by intros [? _]. Qed.
Lemma some_outside l : outside_opt k (Some l) -> outside k l.
Proof using. intros H. by apply H. Qed.
Lemma opt_outside o l : outside_opt k o -> o = Some l -> outside k l.
Proof using. intros H. apply H. Qed.
Lemma outside_opt_None : outside_opt k None.
Proof using. done. Qed.
Lemma outside_opt_Some l : outside k l -> outside_opt k (Some l).
Proof using. by intros H ? [= <-]. Qed.
Lemma initial_outside_opt cl : call_outside k cl -> outside_opt k (initial cl).
Proof using. by intros (H & _ & _). Qed.
Lemma remote_outside_opt cl : call_outside k cl -> outside_opt k (remote cl).
Proof using. by intros (_ & H & _). Qed.
Lemma other_msg_ne t cr : cr <> id_cr k -> other_msg k q t cr.
Proof using. by intros Hn ?. Qed.
Lemma other_msg_rej cr : other_cr k q cr -> other_msg k q MNCC_REJ_REQ cr.
Proof using. intros Ho Hcr. split; [by apply Ho|done]. Qed.
Lemma other_msg_cr t cr : other_msg k q t cr -> other_cr k q cr.
Proof using. intros Ho Hcr. by apply Ho. Qed.
Lemma other_cr_ne cr : cr <> id_cr k -> other_cr k q cr.
Proof using. by intros H ?. Qed.
Lemma call_outside_initial o cl : outside_opt k o -> call_outside k cl -> call_outside k (set_initial o cl).
Proof using. intros Ho (_ & H). by split. Qed.
Lemma new_sip_outside t c o : c <> id_call k -> leg_outside k q (Leg (set_ops o (call_leg_new t c)) (XSip sip_leg0)).
Proof using. by intros Hc. Qed.
Lemma new_mncc_outside t c o m : c <> id_call k -> m_callref m <> id_cr k ->
  leg_outside k q (Leg (set_ops o (call_leg_new t c)) (XMncc m)).
Proof using. by intros Hc Hm. Qed.
Lemma call_outside_remote o cl : outside_opt k o -> call_outside k cl -> call_outside k (set_remote o cl).
Proof using. intros Ho (H1 & _ & H). by split. Qed.
End facts.

Create HintDb apartdb discriminated.
#[export] Hint Constants Opaque : apartdb.
#[export] Hint Resolve initial_outside remote_outside number_outside lg_call_outside some_outside opt_outside outside_opt_None
  outside_opt_Some initial_outside_opt remote_outside_opt other_cr_ne other_msg_ne other_msg_rej call_outside_initial call_outside_remote
  new_sip_outside new_mncc_outside : apartdb.
#[export] Hint Resolve passes_ret passes_crash spares_crash passes_assert spares_some_or passes_tick passes_read_str passes_talloc_str
  spares_deref_leg spares_deref_call spares_as_mncc spares_as_sip passes_timer_schedule passes_timer_del passes_nua_handle_destroy
  passes_nua_handle_bind spares_new_nua_handle passes_free_leg passes_free_call spares_talloc_leg passes_upd_call : apartdb.
#[export] Hint Resolve spares_conn | 1 : apartdb.
#[export] Hint Resolve passes_gets | 2 : apartdb.
#[export] Hint Resolve passes_deref_leg passes_deref_call | 5 : apartdb.
#[export] Hint Extern 1 (passes (emit _)) => (apply passes_emit; cbn [not_about]; solve [eauto with apartdb]) : apartdb.
#[export] Hint Extern 1 (passes (modify _)) => (apply passes_modify; intros; simpl; split_and!; reflexivity) : apartdb.
#[export] Hint Extern 1 (passes (upd_base _ _)) =>
  (apply passes_upd_base; [solve [eauto with apartdb]|intros; reflexivity]) : apartdb.
#[export] Hint Extern 1 (passes (upd_mncc _ _)) =>
  (apply passes_upd_mncc; [solve [eauto with apartdb]|let H := fresh in intros ? H; exact H]) : apartdb.
#[export] Hint Extern 1 (passes (upd_sip _ _)) =>
  (apply passes_upd_sip; [solve [eauto with apartdb]|let H := fresh in intros ? H; first [exact H|assumption]]) : apartdb.
#[export] Hint Extern 1 (passes (upd_call _ _)) =>
  (apply passes_upd_call; [solve [eauto with apartdb]|intros; solve [eauto with apartdb]]) : apartdb.

(** One computation after the other, as in Fits.v. *)
Ltac spare := repeat first
  [ solve [eauto with apartdb]
  | match goal with
    | |- forall _, _ => intro
    | |- @spares ?k ?q ?c0 _ ?m (fun _ => True) => change (@passes k q c0 _ m)
    | |- passes (bind _ _) => eapply spares_bind; [solve [eauto with apartdb]|intros ? ?]
    | |- spares (bind _ _) _ => eapply spares_bind; [solve [eauto with apartdb]|intros ? ?]
    | |- passes (bind _ _) => eapply (spares_bind _ _ (fun _ => True)); [|intros ? _]
    | |- spares (bind _ _) _ => eapply (spares_bind _ _ (fun _ => True)); [|intros ? _]
    | |- passes (if ?b then _ else _) => destruct b eqn:?
    | |- passes (match ?x with _ => _ end) => destruct x eqn:?
    | |- spares (if ?b then _ else _) _ => destruct b eqn:?
    | |- spares (match ?x with _ => _ end) _ => destruct x eqn:?
    | |- spares (ret _) _ => apply spares_ret
    | |- outside_opt _ (if ?b then _ else _) => destruct b
    | |- passes _ => eapply spares_passes; solve [eauto with apartdb]
    end ].

(** ** Calls, SDP and SIP legs *)
Section calls.
Context {E : Env} {k : ids} {q : local} {HK : CallOf k q} {c0 : option call}.
Abbreviation passes m := (@passes k q c0 _ m).
Abbreviation spares m Q := (@spares k q c0 _ m Q).

Lemma passes_call_leg_release l : outside k l -> passes (call_leg_release l).
Proof using HK. intros Ho. unfold call_leg_release. spare. Qed.
Lemma spares_call_leg_other l : outside k l -> spares (call_leg_other l) (outside_opt k).
Proof using. intros Ho. unfold call_leg_other. spare. Qed.
Lemma passes_call_leg_rx_sdp l s : outside k l -> passes (call_leg_rx_sdp l s).
Proof using. intros Ho. apply passes_upd_base; [done|]. intros b. apply rx_sdp_update_shape. Qed.
Lemma passes_assert_type l t : passes (assert_type l t).
Proof using. unfold assert_type. spare. Qed.
Hint Resolve passes_call_leg_release spares_call_leg_other passes_assert_type : apartdb.

Lemma passes_sdp_extract_sdp l sip any : outside k l -> passes (sdp_extract_sdp l sip any).
Proof using. intros Ho. unfold sdp_extract_sdp. spare. Qed.
Lemma passes_sdp_create_file l o mode : outside k l -> passes (sdp_create_file l o mode).
Proof using. intros Ho. unfold sdp_create_file. spare. Qed.
Hint Resolve passes_sdp_extract_sdp passes_sdp_create_file : apartdb.
Lemma passes_sip_release_call l : outside k l -> passes (sip_release_call l).
Proof using HK. intros Ho. unfold sip_release_call. spare. Qed.
Hint Resolve passes_sip_release_call : apartdb.
Lemma passes_sip_ring_call l : outside k l -> passes (sip_ring_call l).
Proof using. intros Ho. unfold sip_ring_call. spare. Qed.
Lemma passes_sip_connect_call l : outside k l -> passes (sip_connect_call l).
Proof using HK. intros Ho. unfold sip_connect_call. spare. Qed.
Lemma passes_sip_dtmf_call l key : outside k l -> passes (sip_dtmf_call l key).
Proof using. intros Ho. unfold sip_dtmf_call. spare. Qed.
Lemma passes_sip_reinvite l mode s : outside k l -> passes (sip_reinvite l mode s).
Proof using HK. intros Ho. unfold sip_reinvite. spare. Qed.
Lemma passes_gcr_header cl : passes (gcr_header cl).
Proof using. unfold gcr_header. spare. Qed.
Hint Resolve passes_gcr_header : apartdb.
Lemma passes_send_invite l src dst : outside k l -> passes (send_invite l src dst).
Proof using. intros Ho. unfold send_invite. spare. Qed.
Hint Resolve passes_send_invite : apartdb.
Lemma passes_sip_create_remote_leg c : c <> id_call k -> passes (sip_create_remote_leg c).
Proof using. intros Ho. unfold sip_create_remote_leg. spare. Qed.
End calls.
#[export] Hint Resolve passes_call_leg_release spares_call_leg_other passes_call_leg_rx_sdp passes_assert_type passes_sdp_extract_sdp
  passes_sdp_create_file passes_sip_release_call passes_sip_ring_call passes_sip_connect_call passes_sip_dtmf_call passes_sip_reinvite
  passes_sip_create_remote_leg : apartdb.

(** ** The connection and MNCC legs *)
Section mncc.
Context {E : Env} {HW : WritesOk E} {k : ids} {q : local} {HK : CallOf k q} {c0 : option call}.
Abbreviation passes m := (@passes k q c0 _ m).
Abbreviation spares m Q := (@spares k q c0 _ m Q).

Lemma passes_mncc_leg_release l : outside k l -> passes (mncc_leg_release l).
Proof using HK. intros Ho. unfold mncc_leg_release. spare. Qed.
Lemma passes_start_cmd_timer l t : outside k l -> passes (start_cmd_timer l t).
Proof using. intros Ho. unfold start_cmd_timer. spare. Qed.
Lemma passes_stop_cmd_timer l t : outside k l -> passes (stop_cmd_timer l t).
Proof using. intros Ho. unfold stop_cmd_timer. spare. Qed.

(** The search by callref reads every leg, and finds another than that of the call. *)
Lemma passes_as_mncc l : passes (as_mncc l).
Proof using. unfold as_mncc. spare. Qed.
Hint Resolve passes_as_mncc | 5 : apartdb.
Lemma passes_mncc_leg_matches cr o : passes (mncc_leg_matches cr o).
Proof using. unfold mncc_leg_matches. spare. Qed.
(** What is found by a callref is a leg of another call, under another callref. *)
Definition found (cr : Z) (o : option ptr) : Prop := forall l, o = Some l -> outside k l /\ cr <> id_cr k.
Lemma found_outside cr o : found cr o -> outside_opt k o.
Proof using. intros H l Hl. by apply H. Qed.
Lemma spares_mncc_leg_matches cr o : other_cr k q cr ->
  spares (mncc_leg_matches cr o) (fun b => b = true -> found cr o).
Proof using HK.
  intros Hcr w Hw. pose proof (passes_mncc_leg_matches cr o w Hw) as Hp. destruct (mncc_leg_matches cr o w) as [b w'|] eqn:Hr; [|done].
  split; [apply Hp|]. intros -> l ->. unfold mncc_leg_matches, as_mncc, deref_leg, bind, gets in Hr. simpl in Hr.
  destruct (legs w !! l) as [[bs e]|] eqn:Hl; [|done]. simpl in Hr.
  destruct (lg_type bs); [done..|]. rewrite Hl in Hr. simpl in Hr. destruct e as [m|x]; [|done].
  injection Hr as Hm _. apply Z.eqb_eq in Hm. assert (outside k l) as Ho; [|split; [done|]].
  - split; intros ->.
    + rewrite (f_m _ _ _ _ Hw) in Hl. destruct (lc_m q) as [[b' m']|] eqn:Hq; [|done]. injection Hl as <- <-.
      destruct (co_m b' m' Hq) as [_ He]. specialize (Hcr ltac:(congruence)). congruence.
    + rewrite (f_s _ _ _ _ Hw) in Hl. by destruct (lc_s q) as [[b' x']|].
  - destruct (f_legs _ _ _ _ Hw l _ Hl Ho) as [_ Hne]. simpl in Hne. congruence.
Qed.
Lemma spares_find_leg_in cs cr : other_cr k q cr -> spares (mncc_find_leg_in cs cr) (found cr).
Proof using HK.
  pose proof spares_mncc_leg_matches. intros Hcr. induction cs; simpl; spare; auto; by intros ? [=].
Qed.
Lemma spares_find_leg cr : other_cr k q cr -> spares (mncc_find_leg cr) (found cr).
Proof using HK. intros Hcr. unfold mncc_find_leg. eapply spares_bind; [apply passes_gets|]. intros cs _. by apply spares_find_leg_in. Qed.
Lemma spares_mncc_find_leg cr : other_cr k q cr -> spares (mncc_find_leg cr) (outside_opt k).
Proof using HK. intros Hcr. eapply within_mono; [by apply spares_find_leg|]. apply found_outside. Qed.
Hint Resolve spares_mncc_find_leg : apartdb.
Lemma spares_mncc_find_leg_not_released cr : other_cr k q cr -> spares (mncc_find_leg_not_released cr) (outside_opt k).
Proof using HK. intros Hcr. unfold mncc_find_leg_not_released. spare. Qed.

(** Writing: the connection stays. *)
Lemma spares_mncc_write m : other_msg k q (mn_msg_type m) (mn_callref m) ->
  spares (mncc_write disconnected m) (fun rc => rc = sizeof_gsm_mncc).
Proof using HW.
  intros Hm w Hw. pose proof (mncc_write_wrote disconnected w m) as H. apply wp_returns in H as (rc & w' & Hrun & -> & Hrc).
  destruct (f_conn _ _ _ _ Hw) as [_ Hfd]. specialize (Hrc Hfd). rewrite Hrun. split; [|done].
  pose proof (passes_emit (TxMncc m rc) Hm _ (proj1 (passes_tick w Hw))) as [H _]. exact H.
Qed.
Lemma spares_mncc_rtp_write r : rtp_callref r <> id_cr k ->
  spares (mncc_rtp_write disconnected r) (fun rc => rc = sizeof_rtp).
Proof using HW.
  intros Hm w Hw. pose proof (mncc_rtp_write_wrote disconnected w r) as H. apply wp_returns in H as (rc & w' & Hrun & -> & Hrc).
  destruct (f_conn _ _ _ _ Hw) as [_ Hfd]. specialize (Hrc Hfd). rewrite Hrun. split; [|done].
  pose proof (passes_emit (TxRtp r rc) Hm _ (proj1 (passes_tick w Hw))) as [H _]. exact H.
Qed.
Lemma spares_mncc_fill_header t cr : other_cr k q cr ->
  spares (mncc_fill_header gsm_mncc0 t cr) (fun h => mn_callref h = cr /\ mn_msg_type h = t).
Proof using HK. intros Hcr. unfold mncc_fill_header. spare. all: by split. Qed.
Hint Resolve spares_mncc_write spares_mncc_rtp_write : apartdb.
Lemma passes_mncc_send t cr : other_msg k q t cr -> passes (mncc_send disconnected t cr).
Proof using HK HW.
  intros Hcr. unfold mncc_send. eapply spares_bind; [by eapply spares_mncc_fill_header, other_msg_cr|]. intros h [<- <-].
  by eapply spares_passes, spares_mncc_write.
Qed.
Lemma passes_mncc_rtp_send t cr s : cr <> id_cr k -> passes (mncc_rtp_send disconnected t cr s).
Proof using HW. intros Hcr. eapply spares_passes. by apply spares_mncc_rtp_write. Qed.
Lemma passes_send_rtp_connect l o : outside k l -> outside k o -> passes (send_rtp_connect disconnected l o).
Proof using HW.
  intros Hl Ho. unfold send_rtp_connect. eapply spares_bind; [by apply spares_as_mncc|]. intros m Hm.
  eapply spares_bind; [by apply spares_deref_leg|]. intros x _.
  eapply spares_bind; [apply spares_mncc_rtp_write, Hm|]. intros rc ->.
  rewrite Z.eqb_refl. apply passes_ret.
Qed.
Hint Resolve passes_mncc_send passes_send_rtp_connect passes_start_cmd_timer passes_mncc_leg_release : apartdb.

Lemma passes_mncc_call_leg_connect l : outside k l -> passes (mncc_call_leg_connect disconnected l).
Proof using HK HW. intros Ho. unfold mncc_call_leg_connect. spare. Qed.
Lemma passes_mncc_call_leg_ring l : outside k l -> passes (mncc_call_leg_ring disconnected l).
Proof using HK HW.
  intros Ho. unfold mncc_call_leg_ring. eapply spares_bind; [apply passes_assert_type|]. intros _ _.
  eapply spares_bind; [by apply spares_as_mncc|]. intros m Hm.
  eapply spares_bind; [by apply spares_mncc_fill_header, other_cr_ne|]. intros h [Hh _].
  eapply spares_bind; [apply spares_mncc_write; simpl; rewrite Hh; by apply other_msg_ne|]. intros _ _. spare.
Qed.
Lemma passes_mncc_call_leg_release l : outside k l -> passes (mncc_call_leg_release disconnected l).
Proof using HK HW. intros Ho. unfold mncc_call_leg_release, request_release. spare. Qed.

Lemma setup_req_callref b cr src dst : mn_callref (setup_req b cr src dst) = cr.
Proof using. by destruct b. Qed.
Lemma spares_add_gcr cl m cr : mn_callref m = cr -> spares (add_gcr cl m) (fun h => mn_callref h = cr).
Proof using. intros Hm. unfold add_gcr. spare; done. Qed.
Lemma passes_mncc_create_remote_leg c : c <> id_call k -> passes (mncc_create_remote_leg disconnected c).
Proof using HW.
  intros Hc. unfold mncc_create_remote_leg. eapply spares_bind; [by apply spares_deref_call|]. intros cl Hcl.
  pose proof (number_outside cl Hcl) as Hid.
  eapply spares_bind; [by apply spares_talloc_leg, new_mncc_outside|]. intros [l|] Hl; [|apply passes_ret].
  do 3 (eapply (spares_bind _ _ (fun _ => True)); [spare|intros ? _]).
  eapply spares_bind; [by apply spares_add_gcr, setup_req_callref|]. intros m Hm.
  eapply (spares_bind _ _ (fun m' => mn_callref m' = call_id cl)).
  { spare. all: done. }
  intros m' Hm'. eapply spares_bind; [apply spares_mncc_write; rewrite Hm'; by apply other_msg_ne|]. intros rc ->.
  rewrite Z.eqb_refl. spare.
Qed.

(** ** Callbacks and routing *)
Hint Resolve passes_mncc_call_leg_connect passes_mncc_call_leg_ring passes_mncc_call_leg_release passes_mncc_create_remote_leg : apartdb.
Lemma passes_call_release l : outside k l -> passes (call_release l).
Proof using HK HW. intros Ho. unfold call_release, release_leg. spare. Qed.
Hint Resolve passes_call_release : apartdb.
Lemma passes_update_rtp l : outside k l -> passes (update_rtp l).
Proof using HK HW. intros Ho. unfold update_rtp. spare. Qed.
Hint Resolve passes_update_rtp : apartdb.
Lemma passes_invoke f l : outside k l -> passes (invoke f l).
Proof using HK HW. intros Ho. unfold invoke, sip_hold_call, sip_retrieve_call. spare. Qed.
Hint Resolve passes_invoke : apartdb.
Lemma passes_invoke_member f l : outside k l -> passes (invoke_member f l).
Proof using HK HW. intros Ho. unfold invoke_member. spare. Qed.
Lemma passes_invoke_dtmf l key : outside k l -> passes (invoke_dtmf l key).
Proof using. intros Ho. unfold invoke_dtmf. spare. Qed.
Lemma passes_app_route_call c src dst : c <> id_call k -> passes (app_route_call c src dst).
Proof using HK HW. intros Ho. unfold app_route_call, route_to_sip, route_to_mncc, release_initial. spare. Qed.
End mncc.
#[export] Hint Resolve passes_mncc_leg_release passes_start_cmd_timer passes_stop_cmd_timer spares_mncc_find_leg
  spares_mncc_find_leg_not_released spares_mncc_write spares_mncc_rtp_write passes_mncc_send passes_mncc_rtp_send
  passes_send_rtp_connect passes_mncc_call_leg_connect passes_mncc_call_leg_ring passes_mncc_call_leg_release
  passes_mncc_create_remote_leg passes_call_release passes_update_rtp passes_invoke passes_invoke_member passes_invoke_dtmf
  passes_app_route_call : apartdb.

(** ** Messages from the MSC *)
Section rx.
Context {E : Env} {HW : WritesOk E} {k : ids} {q : local} {HK : CallOf k q} {c0 : option call}.
Abbreviation passes m := (@passes k q c0 _ m).
Abbreviation spares m Q := (@spares k q c0 _ m Q).

Lemma passes_send t cr : other_msg k q t cr -> passes (send t cr).
Proof using HK HW. intros Hcr. unfold send. spare. Qed.
Hint Resolve passes_send : apartdb.
Lemma passes_send_for l t : outside k l -> passes (send_for l t).
Proof using HK HW. intros Ho. unfold send_for. spare. Qed.
Lemma passes_dtmf_rsp l t key : outside k l -> passes (dtmf_rsp l t key).
Proof using HK HW.
  intros Ho. unfold dtmf_rsp. eapply spares_bind; [by apply spares_as_mncc|]. intros m Hm.
  eapply spares_bind; [by apply spares_mncc_fill_header, other_cr_ne|]. intros h [Hh _].
  eapply spares_bind; [apply spares_mncc_write; simpl; rewrite Hh; by apply other_msg_ne|]. intros _ _. apply passes_ret.
Qed.
Lemma passes_release_other_with_cause l v : outside k l -> passes (release_other_with_cause l v).
Proof using HK HW. intros Ho. unfold release_other_with_cause. spare. Qed.
Lemma passes_take_changed_sdp l : outside k l -> passes (take_changed_sdp l).
Proof using. intros Ho. unfold take_changed_sdp. spare. Qed.
Lemma passes_request_rtp_create l cr s : outside k l -> cr <> id_cr k -> passes (request_rtp_create l cr s).
Proof using HW. intros Ho Hcr. unfold request_rtp_create. spare. Qed.
Hint Resolve passes_send_for passes_dtmf_rsp passes_release_other_with_cause passes_take_changed_sdp passes_request_rtp_create : apartdb.

Lemma passes_cmd_timeout l : outside k l -> passes (cmd_timeout l).
Proof using HK HW. intros Ho. unfold cmd_timeout. spare. Qed.
Lemma passes_continue_call l : outside k l -> passes (continue_call l).
Proof using HK HW. intros Ho. unfold continue_call, continue_mo_call, continue_mt_call. spare. Qed.
Hint Resolve passes_continue_call : apartdb.

Lemma passes_check_rtp_create buf rc : sizeof_rtp <= rc -> other_cr k q (rtp_callref (view_rtp buf)) ->
  passes (check_rtp_create buf rc).
Proof using HK HW. intros Hl Hcr. unfold check_rtp_create. destruct (Z.ltb_spec rc sizeof_rtp); [lia|]. spare. Qed.
Lemma passes_check_rtp_connect buf rc : sizeof_rtp <= rc -> other_cr k q (rtp_callref (view_rtp buf)) ->
  passes (check_rtp_connect buf rc).
Proof using HK HW. intros Hl Hcr. unfold check_rtp_connect. destruct (Z.ltb_spec rc sizeof_rtp); [lia|]. spare. Qed.

Lemma passes_with_leg buf rc f : sizeof_gsm_mncc <= rc -> other_cr k q (mn_callref (view_gsm_mncc buf)) ->
  (forall l, outside k l -> mn_callref (view_gsm_mncc buf) <> id_cr k -> passes (f (view_gsm_mncc buf) l)) ->
  passes (with_leg buf rc f).
Proof using HK.
  intros Hl Hcr Hf. unfold with_leg, find_leg. destruct (Z.ltb_spec rc sizeof_gsm_mncc); [lia|].
  eapply (spares_bind _ _ (fun o => match o with Some (d, l) =>
    d = view_gsm_mncc buf /\ outside k l /\ mn_callref (view_gsm_mncc buf) <> id_cr k | None => True end)).
  - eapply spares_bind; [by apply spares_find_leg|]. intros [l|] Ho; apply spares_ret; [|done].
    split; [done|by apply Ho].
  - intros [[d l]|]; [|intros _; apply passes_ret]. intros (-> & Ho & Hne). by apply Hf.
Qed.

(** A message for a leg of another call, or for no leg. *)
Lemma passes_leg_message t buf rc : In t leg_messages -> sizeof_gsm_mncc <= rc ->
  other_cr k q (mn_callref (view_gsm_mncc buf)) -> passes (mncc_dispatch t buf rc).
Proof using HK HW.
  intros Ht Hl Hcr. repeat destruct Ht as [<-|Ht]; [..|destruct Ht]; apply passes_with_leg; try done; intros l Ho;
    generalize (view_gsm_mncc buf); intros d Hd; spare.
Qed.
End rx.
#[export] Hint Resolve passes_send passes_release_other_with_cause passes_take_changed_sdp passes_request_rtp_create passes_cmd_timeout : apartdb.

(** ** Events from sofia-sip *)
Section sip.
Context {E : Env} {HW : WritesOk E} {k : ids} {q : local} {HK : CallOf k q} {c0 : option call}.
Abbreviation passes m := (@passes k q c0 _ m).
Abbreviation spares m Q := (@spares k q c0 _ m Q).

Lemma passes_the_sip sip : passes (the_sip sip).
Proof using. unfold the_sip. spare. Qed.
Lemma passes_reject_406 h : other_h k q (Some h) -> passes (reject_406 h).
Proof using. intros Ho. unfold reject_406. spare. Qed.
Lemma passes_respond_200 h s : other_h k q (Some h) -> passes (respond_200 h s).
Proof using. intros Ho. unfold respond_200. spare. Qed.
Hint Resolve passes_the_sip passes_reject_406 passes_respond_200 : apartdb.

Lemma spares_the_leg h : other_h k q (Some h) -> spares (the_leg h) (outside k).
Proof using.
  intros Ho w Hw. unfold the_leg, bind, gets. simpl. destruct (nua w !! h) as [l|] eqn:Hl; [|done]. split; [done|].
  by apply (f_nua _ _ _ _ Hw h).
Qed.
Lemma passes_drop_leg l : outside k l -> passes (drop_leg l).
Proof using HK. intros Ho. unfold drop_leg. spare. Qed.
Hint Resolve spares_the_leg passes_drop_leg : apartdb.
Lemma passes_on_remote_hangup h : other_h k q (Some h) -> passes (on_remote_hangup h).
Proof using HK HW. intros Ho. unfold on_remote_hangup. spare. Qed.
Lemma passes_invite_failed l status : outside k l -> passes (invite_failed l status).
Proof using HK HW. intros Ho. unfold invite_failed. spare. Qed.
Lemma passes_call_progress l sip status : outside k l -> passes (call_progress l sip status).
Proof using HK HW. intros Ho. unfold call_progress. spare. Qed.
Lemma passes_call_connect l sip : outside k l -> passes (call_connect l sip).
Proof using HK HW. intros Ho. unfold call_connect. spare. Qed.
Hint Resolve passes_invite_failed passes_call_progress passes_call_connect : apartdb.
Lemma passes_on_r_invite status h sip : other_h k q (Some h) -> passes (on_r_invite status h sip).
Proof using HK HW. intros Ho. unfold on_r_invite. spare. Qed.

(** The search by handle. *)
Lemma spares_sip_leg_matches h o : other_h k q (Some h) ->
  spares (sip_leg_matches h o) (fun b => b = true -> outside_opt k o).
Proof using HK.
  intros Hh w Hw. assert (passes (sip_leg_matches h o)) as Hp by (unfold sip_leg_matches, as_sip; spare).
  specialize (Hp w Hw). destruct (sip_leg_matches h o w) as [b w'|] eqn:Hr; [|done].
  split; [apply Hp|]. intros -> l ->. unfold sip_leg_matches, as_sip, deref_leg, bind, gets in Hr. simpl in Hr.
  destruct (legs w !! l) as [[bs e]|] eqn:Hl; [|done]. simpl in Hr.
  destruct (lg_type bs); [done| |done]. rewrite Hl in Hr. simpl in Hr. destruct e as [m|x]; [done|].
  injection Hr as Hm _. apply bool_decide_eq_true in Hm. split; intros ->.
  - rewrite (f_m _ _ _ _ Hw) in Hl. by destruct (lc_m q) as [[b' m']|].
  - rewrite (f_s _ _ _ _ Hw) in Hl. destruct (lc_s q) as [[b' x']|] eqn:Hq; [|done]. injection Hl as <- <-.
    destruct (co_s b' x' Hq) as [_ He]. specialize (Hh ltac:(congruence)). congruence.
Qed.
Hint Resolve spares_sip_leg_matches : apartdb.
Lemma spares_sip_find_leg h : other_h k q (Some h) -> spares (sip_find_leg h) (outside_opt k).
Proof using HK.
  intros Hh. unfold sip_find_leg. eapply spares_bind; [apply passes_gets|]. intros cs _.
  induction cs; simpl; spare; auto.
Qed.
Hint Resolve spares_sip_find_leg : apartdb.

Lemma passes_sip_handle_reinvite l h sip : outside k l -> other_h k q (Some h) -> passes (sip_handle_reinvite l h sip).
Proof using HK HW. intros Ho Hh. unfold sip_handle_reinvite, invoke_update_rtp. spare. Qed.
Hint Resolve passes_sip_handle_reinvite : apartdb.
Lemma passes_on_i_ack h sip : other_h k q (Some h) -> passes (on_i_ack h sip).
Proof using HK HW. intros Hh. unfold on_i_ack. spare. Qed.
Lemma passes_new_call_users h sip c : other_h k q (Some h) -> c <> id_call k -> passes (new_call_users h sip c).
Proof using HK HW. intros Hh Hc. unfold new_call_users, new_call_leg. spare. Qed.
End sip.
#[export] Hint Resolve passes_reject_406 passes_new_call_users passes_sip_handle_reinvite spares_sip_find_leg passes_on_i_ack
  passes_on_r_invite passes_on_remote_hangup passes_drop_leg spares_the_leg passes_the_sip : apartdb.

(** ** Opening another call *)
Section opening.
Context {E : Env} {HW : WritesOk E} {k : ids} {q : local} {HK : CallOf k q} {c0 : option call}.
Abbreviation passes m := (@passes k q c0 _ m).
Abbreviation spares m Q := (@spares k q c0 _ m Q).

(** As [spares], from a store whose next number is not that of the call. *)
Definition opens {A} (m : MW A) (Q : A -> Prop) : Prop := forall w, frame k q c0 w -> other_number k w = true ->
  match m w with
  | Ret a w' => frame k q c0 w' /\ Q a
  | Crash _ w' => frame k q c0 w'
  end.
Lemma opens_bind {A B} (m : MW A) (f : A -> MW B) P Q :
  opens m P -> (forall a, P a -> spares (f a) Q) -> opens (bind m f) Q.
Proof using.
  intros Hm Hf w Hw Hn. specialize (Hm w Hw Hn). unfold bind. destruct (m w) as [a w'|]; [|done].
  destruct Hm as [Hw' Ha]. by apply Hf.
Qed.
Lemma opens_spares {A} (m : MW A) Q : spares m Q -> opens m Q.
Proof using. intros Hm w Hw _. by apply Hm. Qed.

(** The number is drawn, and the call made with it. *)
Lemma opens_call_create t x : leg_outside k q (Leg (call_leg_new t (Pos.succ (id_call k))) x) ->
  opens (call_create t x) (fun o => forall c, o = Some c -> c <> id_call k).
Proof using HK.
  intros [_ Hx] w Hw Hn. unfold call_create, talloc_call, tick, upd_call, deref_call, bind, gets, modify, some_or, ret.
  simpl. apply negb_true_iff, Z.eqb_neq in Hn. destruct (f_below _ _ _ _ Hw) as (B1 & B2 & B3).
  destruct (alloc_ok (n_io w)); simpl.
  2: { split; [|done]. by destruct (passes_tick w Hw). }
  rewrite lookup_insert_eq. simpl. set (w1 := set_calls _ (set_last_call_id _ _)). set (c := next_ptr w) in *. assert (c <> id_call k) as Hc by (unfold c; lia).
  assert (frame k q c0 w1) as Hw1.
  { destruct Hw as [H1 H2 H3 H4 H5 H6 H7 H8 H9 H10 H11]. split; simpl; try done.
    - by rewrite !lookup_insert_ne.
    - intros c' cl [[<- <-]|[Hne Hcl]]%lookup_insert_Some; [split; [done|by split]|].
      rewrite lookup_insert_ne in Hcl by done. by apply H7.
    - split_and!; lia. }
  pose proof (spares_talloc_leg (Leg (call_leg_new t c) x) (conj Hc Hx) w1 Hw1) as Ht.
  destruct (talloc_leg _ w1) as [[l|] w2|f w2]; [..|exact Ht]; destruct Ht as [Hw2 Hl].
  - assert (spares (upd_call c (set_initial (Some l)) ;; modify (set_g_call_list (fun cs => c :: cs)) ;; ret (Some c))
      (fun o => forall c, o = Some c -> c <> id_call k)) as Hrest.
    { spare. congruence. }
    exact (Hrest w2 Hw2).
  - assert (spares (free_call c ;; ret None) (fun o => forall c, o = Some c -> c <> id_call k)) as Hrest by (spare; done).
    exact (Hrest w2 Hw2).
Qed.

Lemma opens_setup_call d called g : mn_callref d <> id_cr k -> id_cr k <> 0 -> opens (setup_call d called g) (fun _ => True).
Proof using HK HW.
  intros Hcr H0. unfold setup_call, call_mncc_create.
  eapply opens_bind; [apply opens_call_create; split; simpl; [lia|done]|]. intros [c|] Hc; [|apply passes_send; by apply other_msg_ne].
  specialize (Hc c eq_refl). spare. by apply passes_upd_mncc; [eauto with apartdb|].
Qed.

Lemma opens_check_setup buf rc : sizeof_gsm_mncc <= rc -> mn_callref (view_gsm_mncc buf) <> id_cr k -> id_cr k <> 0 ->
  opens (check_setup buf rc) (fun _ => True).
Proof using HK HW.
  intros Hl. unfold check_setup. destruct (Z.ltb_spec rc sizeof_gsm_mncc); [lia|].
  generalize (view_gsm_mncc buf). intros d Hcr H0. cbv zeta.
  repeat match goal with
  | |- opens (if ?b then _ else _) _ => destruct b
  | |- opens (match osmo_dec_gcr ?b with _ => _ end) _ => destruct (osmo_dec_gcr b)
  end; first [by apply opens_setup_call|apply opens_spares, passes_send; by apply other_msg_ne].
Qed.

Lemma opens_new_call h sip : other_h k q (Some h) -> opens (new_call h sip) (fun _ => True).
Proof using HK HW.
  intros Hh. unfold new_call, call_sip_create. destruct (negb _); [by apply opens_spares, passes_reject_406|].
  eapply opens_bind; [by apply opens_call_create; split; simpl; [lia|]|]. intros o Ho.
  eapply spares_bind; [apply spares_some_or|]. intros c ->. specialize (Ho c eq_refl). spare.
Qed.
End opening.
