(* ===== verification/Together.v ===== *)
(** * Any number of calls at once

    [foreign k w e]: the event [e] is not about the call [k].  Such an event leaves
    the call as it is ([foreign_event_frames]), an event of another call is one
    ([own_foreign]), and so every call of a run behaves as the machine of
    Bridge.v on its own events, whatever else goes on ([calls_run_apart]). *)
From S2P Require Import Prelude Effect Codec Protocol Lib State Skel Rules Call Sdp SipLeg MnccConn App MnccRx SipUa CallFlow Stranded Bridge Local Relay System Refine Apart.

(** ** Definitions *)
Section defs.
Context {E : Env}.

(** A message that is not for the call; a SETUP opens another call, whose leg has
    the callref 0 until it gets its own. *)
Definition foreign_mncc (k : ids) (q : local) (w : world) (buf : list Z) : bool :=
  let t := rd32 buf 0 in
  let rc := Z.of_nat (length buf) in
  if rc <=? 4 then false
  else if t =? MNCC_SOCKET_HELLO then false
  else if t =? MNCC_SETUP_IND then
    (sizeof_gsm_mncc <=? rc) && negb (mn_callref (view_gsm_mncc buf) =? id_cr k) && negb (id_cr k =? 0) && other_number k w
  else if (t =? MNCC_RTP_CREATE) || (t =? MNCC_RTP_CONNECT) then
    (sizeof_rtp <=? rc) && other_cr_b k q (rtp_callref (view_rtp buf))
  else if existsb (Z.eqb t) leg_messages then
    (sizeof_gsm_mncc <=? rc) && other_cr_b k q (mn_callref (view_gsm_mncc buf))
  else true.

(** An INVITE with a handle that is not bound opens another call. *)
Definition foreign_nua (k : ids) (q : local) (w : world) (ev : nua_event) (status : Z) (h : handle) : bool :=
  other_h_b k q h &&
  match ev, nua w !! h with
  | nua_i_invite, None => negb (status =? 100) || other_number k w
  | _, _ => true
  end.

Definition foreign (k : ids) (w : world) (e : event) : bool :=
  match e with
  | EvMncc (Some buf) => foreign_mncc k (local_of k w) w buf
  | EvMncc None | EvReconnect => false
  | EvCmdTimeout l => bool_decide (l ∈ timers w) && negb (bool_decide (l = id_m k))
  | EvNua ev status h _ => foreign_nua k (local_of k w) w ev status h
  end.

(** The labels of the events of a call in a run, and what is sent as they are
    handled. *)
Definition labels_there (k : ids) (w : world) (e : event) : list label :=
  match label_of k (local_of k w) e with Some lb => [lb] | None => [] end.
Definition said_there (k : ids) (w : world) (e : event) (w' : world) : list sent :=
  match label_of k (local_of k w) e with Some _ => drop (length (out w)) (map short (out w')) | None => [] end.
Fixpoint labels_among (k : ids) (w : world) (es : list event) : list label :=
  match es with
  | [] => []
  | e :: es' => labels_there k w e ++ match handle_event e w with Ret _ w' => labels_among k w' es' | Crash _ _ => [] end
  end.
Fixpoint said_to (k : ids) (w : world) (es : list event) : list sent :=
  match es with
  | [] => []
  | e :: es' => match handle_event e w with Ret _ w' => said_there k w e w' ++ said_to k w' es' | Crash _ _ => [] end
  end.

(** A run in which the peers keep to their protocols and each event is one of a
    call of [ks] or foreign to all of them. *)
Definition sorted_event (ks : list ids) (w : world) (e : event) : bool :=
  existsb (fun k => match label_of k (local_of k w) e with Some _ => true | None => false end) ks
  || forallb (fun k => foreign k w e) ks.
Fixpoint mixed_run (ks : list ids) (w : world) (es : list event) : Prop :=
  match es with
  | [] => True
  | e :: es' => conforms w e /\ sorted_event ks w e = true /\
      match handle_event e w with Ret _ w' => mixed_run ks w' es' | Crash _ _ => True end
  end.
End defs.

(** ** One event *)
Section event.
Context {E : Env} {HE : EnvLaws E} {HW : WritesOk E}.

Lemma other_cr_b_true k q cr : other_cr_b k q cr = true -> other_cr k q cr.
Proof using.
  unfold other_cr_b, other_cr. intros [H|H]%orb_true_iff He.
  - apply negb_true_iff, Z.eqb_neq in H. done.
  - by destruct (lc_m q).
Qed.
Lemma other_h_b_true k q h : other_h_b k q h = true -> other_h k q (Some h).
Proof using.
  unfold other_h_b, other_h. intros [H|H]%orb_true_iff [= He].
  - apply negb_true_iff, bool_decide_eq_false in H. done.
  - by destruct (lc_s q).
Qed.

Lemma holds_call_of k q w : holds k q w -> CallOf k q.
Proof using. intros H. split; [apply (h_ne _ _ _ H)|apply (h_mid _ _ _ H)|apply (h_sid _ _ _ H)]. Qed.

(** A leg of the store belongs to a call that has it as one of its legs. *)
Lemma wf_call_of_leg w l x : wf w -> legs w !! l = Some x ->
  exists cl, calls w !! lg_call (base x) = Some cl /\ (initial cl = Some l \/ remote cl = Some l).
Proof using.
  intros Hw Hl. destruct (wf_leg _ (w_sk w Hw) l (shape x)) as (_ & _ & i & r & Hc & Hir); [simpl; by rewrite lookup_fmap, Hl|].
  simpl in Hc. apply fmap_lookup_inv in Hc as (cl & Hcl & [= -> ->]). eauto.
Qed.
Lemma wf_leg_of_call w c cl l : wf w -> calls w !! c = Some cl -> initial cl = Some l \/ remote cl = Some l ->
  exists x, legs w !! l = Some x /\ lg_call (base x) = c.
Proof using.
  intros Hw Hc Hl. destruct (wf_linked (sk w) c (initial cl) (remote cl) l (w_sk w Hw)) as (sh & Hsh & <-); [|done|].
  - simpl. by rewrite lookup_fmap, Hc.
  - apply sk_leg_inv in Hsh as (x & ? & <-). eauto.
Qed.

Lemma holds_outside_call k q w c cl l : holds k q w -> calls w !! c = Some cl -> c <> id_call k ->
  initial cl = Some l \/ remote cl = Some l -> outside k l.
Proof using.
  intros H Hc Hne Hl. destruct (wf_leg_of_call w c cl l (h_wf _ _ _ H) Hc Hl) as (x & Hx & Hxc). split; intros ->.
  - rewrite (h_m _ _ _ H) in Hx. destruct (lc_m q) as [[b m]|] eqn:Hq; [|done]. injection Hx as <-.
    destruct (h_mid _ _ _ H b m Hq) as [? _]. simpl in Hxc. congruence.
  - rewrite (h_s _ _ _ H) in Hx. destruct (lc_s q) as [[b x']|] eqn:Hq; [|done]. injection Hx as <-.
    destruct (h_sid _ _ _ H b x' Hq) as [? _]. simpl in Hxc. congruence.
Qed.

Lemma holds_outside_leg k q w l x : holds k q w -> legs w !! l = Some x -> outside k l -> leg_outside k q x.
Proof using.
  intros H Hl [Hm Hs]. pose proof (h_wf _ _ _ H) as Hw. split.
  - intros Hc. destruct (wf_call_of_leg w l x Hw Hl) as (cl & Hcl & Hlink). rewrite Hc in Hcl.
    pose proof (h_call _ _ _ H) as He. simpl in He. rewrite lookup_fmap, Hcl in He. simpl in He. unfold call_shape, ends in He.
    destruct (lc_m q), (lc_s q), (id_first k); simpl in He; try done; injection He as Hi Hr; destruct Hlink; congruence.
  - destruct x as [b [m|s]]; simpl.
    + intros Hcr. by apply Hm, (h_unique _ _ _ H l b m).
    + intros Hh. destruct (lc_s q) as [[b' x']|] eqn:Hq; [|done]. exfalso.
      assert (nua w !! id_h k = Some l) as Hn.
      { apply (wf_handle _ (w_sk w Hw) l (shape (Leg b (XSip s))) (s_dir s) (id_h k)); simpl.
        - by rewrite lookup_fmap, Hl.
        - by rewrite Hh. }
      destruct q as [qm qs qt qo]. simpl in Hq. subst qs. rewrite (h_nua k qm b' x' qt qo w H) in Hn. congruence.
Qed.

Lemma holds_frame k q w : holds k q w -> frame k q (calls w !! id_call k) w.
Proof using.
  intros H. pose proof (h_wf _ _ _ H) as Hw. split; try apply H.
  - done.
  - exists []. split; [|constructor]. by rewrite (h_out _ _ _ H), app_nil_r.
  - intros l x Hl Ho. by eapply holds_outside_leg.
  - intros c cl Hc Hne. split; [|split; [|by eapply (h_number _ _ _ H)]]; intros l Hl; eapply holds_outside_call; eauto.
  - intros h l Hh Ho. destruct (wf_nua _ (w_sk w Hw) h l Hh) as (sh & d & Hsh & Hext).
    apply sk_leg_inv in Hsh as (x & Hx & <-). split; intros ->.
    + rewrite (h_m _ _ _ H) in Hx. destruct (lc_m q) as [[b m]|]; [|done]. by injection Hx as <-.
    + rewrite (h_s _ _ _ H) in Hx. destruct (lc_s q) as [[b x']|] eqn:Hq; [|done]. injection Hx as <-.
      destruct (h_sid _ _ _ H b x' Hq) as [_ Hh']. simpl in Hext. rewrite Hh' in Hext. injection Hext as _ <-. specialize (Ho eq_refl). congruence.
  - intros Hs. destruct q as [qm [[b x]|] qt qo]; [|done]. by rewrite (h_nua _ _ _ _ _ _ _ H).
  - split; [apply H|by eapply h_fd].
Qed.

(** The call after an event that kept its frame. *)
Definition with_out (q : local) (o : list action) : local := Local (lc_m q) (lc_s q) (lc_timer q) o.
Lemma frame_holds k q w w' : holds k q w -> frame k q (calls w !! id_call k) w' -> wf w' -> holds k (with_out q (out w')) w'.
Proof using.
  intros H F Hw'. split; simpl; try apply H; try apply F; try done.
  - rewrite lookup_fmap, (f_call _ _ _ _ F). pose proof (h_call _ _ _ H) as He. simpl in He. by rewrite lookup_fmap in He.
  - intros l b m Hl Hcr. destruct (decide (l = id_m k)) as [|Hm]; [done|]. exfalso.
    destruct (decide (l = id_s k)) as [->|Hs].
    + rewrite (f_s _ _ _ _ F) in Hl. by destruct (lc_s q).
    + by destruct (f_legs _ _ _ _ F l _ Hl (conj Hm Hs)).
  - intros c cl Hc Hne. by apply (number_outside cl), (f_calls _ _ _ _ F c).
Qed.

(** An event that is foreign to a call keeps its frame. *)
Lemma foreign_mncc_frame k q w buf : holds k q w -> foreign_mncc k q w buf = true ->
  frame k q (calls w !! id_call k) (final (mncc_data (Some buf) w)).
Proof using HW.
  intros H. pose proof (holds_call_of _ _ _ H) as HK. pose proof (holds_frame _ _ _ H) as F.
  unfold foreign_mncc, mncc_data. generalize (Z.of_nat (length buf)). intros rc.
  destruct (rc <=? 4); [done|]. generalize (rd32 buf 0). intros t.
  destruct (Z.eqb_spec t MNCC_SOCKET_HELLO) as [|Hh]; [done|].
  destruct (Z.eqb_spec t MNCC_SETUP_IND) as [->|Hs].
  { rewrite !andb_true_iff, !negb_true_iff, Z.leb_le, !Z.eqb_neq. intros [[[Hl Hcr] H0] Hn].
    pose proof (opens_check_setup (c0 := calls w !! id_call k) buf rc Hl Hcr H0 w F Hn) as Ho.
    change (mncc_dispatch MNCC_SETUP_IND buf rc) with (check_setup buf rc). destruct (check_setup buf rc w); [apply Ho|exact Ho]. }
  destruct (_ || _) eqn:Hr.
  { rewrite andb_true_iff, Z.leb_le. intros [Hl Hcr%other_cr_b_true].
    apply orb_true_iff in Hr as [->%Z.eqb_eq| ->%Z.eqb_eq].
    - eapply within_final; [exact (passes_check_rtp_create buf rc Hl Hcr)|done].
    - eapply within_final; [exact (passes_check_rtp_connect buf rc Hl Hcr)|done]. }
  destruct (existsb (Z.eqb t) leg_messages) eqn:Ht.
  { rewrite andb_true_iff, Z.leb_le. intros [Hl Hcr%other_cr_b_true]. apply existsb_exists in Ht as (t' & Hin & ->%Z.eqb_eq).
    eapply within_final; [exact (passes_leg_message t' buf rc Hin Hl Hcr)|done]. }
  intros _. apply orb_false_iff in Hr as [H1 H2]. apply Z.eqb_neq in Hh, Hs. unfold mncc_dispatch. rewrite Hh, Hs, H1, H2.
  unfold leg_messages in Ht. cbn [existsb] in Ht. repeat (apply orb_false_iff in Ht as [? Ht]).
  repeat match goal with He : (t =? ?n) = false |- context [t =? ?n] => rewrite He end. done.
Qed.

Lemma foreign_nua_frame k q w ev status h sip : holds k q w -> foreign_nua k q w ev status h = true ->
  frame k q (calls w !! id_call k) (final (nua_callback ev status h sip w)).
Proof using HW.
  intros H [Hh%other_h_b_true Hn]%andb_true_iff. pose proof (holds_call_of _ _ _ H) as HK. pose proof (holds_frame _ _ _ H) as F.
  assert (forall m : MW unit, passes (k := k) (q := q) (c0 := calls w !! id_call k) m -> frame k q (calls w !! id_call k) (final (m w))) as Hp.
  { intros m Hm. by eapply within_final. }
  destruct ev; simpl; try exact F; try (apply Hp; by spare).
  unfold on_i_invite. destruct (status =? 100); [|done].
  pose proof (sip_find_leg_st _ _ (w_sk w (h_wf _ _ _ H)) h w (wf_st w (h_wf _ _ _ H))) as Hf.
  apply wp_returns in Hf as (o & w1 & Hf & -> & ->). rewrite (bind_returns _ _ _ _ _ Hf). simpl.
  destruct (nua w !! h) as [l|] eqn:Hl.
  - apply (f_nua _ _ _ _ F) in Hl; [|done]. apply Hp. spare.
  - destruct sip as [m|]; [|done]. simpl in Hn.
    change ((m' <- the_sip (Some m) ;; new_call h m') w) with (new_call h m w).
    pose proof (opens_new_call (c0 := calls w !! id_call k) h m Hh w F Hn) as Ho. destruct (new_call h m w); [apply Ho|exact Ho].
Qed.

Lemma foreign_frame k w e : has_call k w -> foreign k w e = true ->
  frame k (local_of k w) (calls w !! id_call k) (final (handle_event e w)).
Proof using HW.
  intros H Hf. pose proof (holds_call_of _ _ _ H) as HK. pose proof (holds_frame _ _ _ H) as F.
  destruct e as [[buf|]| |l|ev status h sip]; [|done|done|..]; simpl in Hf.
  - by apply foreign_mncc_frame.
  - apply andb_true_iff in Hf as [Hl%bool_decide_eq_true Hne%negb_true_iff%bool_decide_eq_false].
    assert (outside k l) as Ho.
    { split; [done|]. intros ->. destruct (w_timers w (h_wf _ _ _ H) _ Hl) as (sh & Hsh & Hm).
      apply sk_leg_inv in Hsh as (x & Hx & <-). rewrite (h_s _ _ _ H) in Hx. destruct (lc_s (local_of k w)); [|done].
      by injection Hx as <-. }
    simpl. unfold bind at 1, modify. eapply within_final; [by apply passes_cmd_timeout|].
    destruct F as [H1 H2 H3 H4 H5 H6 H7 H8 H9 H10 H11]. split; try done. change (timers (set_timers ?f w)) with (f (timers w)).
    simpl. rewrite <- H4. clear -Hne. set_solver.
  - by apply foreign_nua_frame.
Qed.

(** What can happen, happens: the connection of a call is up. *)
Lemma foreign_enabled k w e : has_call k w -> foreign k w e = true -> enabled w e.
Proof using.
  intros H Hf. destruct e as [[buf|]| |l|ev status h sip]; [|done|done|..]; simpl in *; [by eapply h_fd| |done].
  by apply andb_true_iff in Hf as [Hl%bool_decide_eq_true _].
Qed.

Lemma foreign_step k w e : has_call k w -> foreign k w e = true -> conforms w e ->
  exists w' o, handle_event e w = Ret tt w' /\ has_call k w' /\ local_of k w' = with_out (local_of k w) (out w') /\
    frame k (local_of k w) (calls w !! id_call k) w' /\
    out w' = out w ++ o /\ Forall (not_about k (local_of k w)) o.
Proof using HE HW.
  intros H Hf Hc. pose proof (foreign_frame k w e H Hf) as F.
  pose proof (handle_event_ok w e (h_wf _ _ _ H) (foreign_enabled k w e H Hf) Hc) as Hok.
  apply wp_returns in Hok as ([] & w' & Hr & Hok). apply ok_wf in Hok as [Hw' _]; [|apply (w_sk w (h_wf _ _ _ H))].
  rewrite Hr in F. simpl in F. pose proof (frame_holds _ _ _ _ H F Hw') as H'. pose proof (holds_local _ _ _ H') as Hl.
  destruct (f_out _ _ _ _ F) as (o & Ho & Hs). exists w', o. rewrite <- (h_out _ _ _ H) in Ho.
  split_and!; try done. unfold has_call. by rewrite Hl.
Qed.

(** ** Calls do not meet *)

(** The legs of different calls are different. *)
Lemma m_apart k k' w bm bm' : has_call k w -> has_call k' w -> id_call k <> id_call k' ->
  lc_m (local_of k w) = Some bm -> lc_m (local_of k' w) = Some bm' -> id_m k <> id_m k'.
Proof using.
  intros H H' Hne Hb Hb' He. destruct bm as [b m], bm' as [b' m'].
  pose proof (h_m _ _ _ H) as E1. pose proof (h_m _ _ _ H') as E2. rewrite He, E2, Hb, Hb' in E1. injection E1 as E1 _.
  destruct (h_mid _ _ _ H b m Hb) as [? _], (h_mid _ _ _ H' b' m' Hb') as [? _]. congruence.
Qed.
Lemma s_apart k k' w bx bx' : has_call k w -> has_call k' w -> id_call k <> id_call k' ->
  lc_s (local_of k w) = Some bx -> lc_s (local_of k' w) = Some bx' -> id_s k <> id_s k'.
Proof using.
  intros H H' Hne Hb Hb' He. destruct bx as [b x], bx' as [b' x'].
  pose proof (h_s _ _ _ H) as E1. pose proof (h_s _ _ _ H') as E2. rewrite He, E2, Hb, Hb' in E1. injection E1 as E1 _.
  destruct (h_sid _ _ _ H b x Hb) as [? _], (h_sid _ _ _ H' b' x' Hb') as [? _]. congruence.
Qed.
Lemma bound_leg k w bx : has_call k w -> lc_s (local_of k w) = Some bx -> nua w !! id_h k = Some (id_s k).
Proof using.
  intros H Hs. unfold has_call in H. destruct (local_of k w) as [qm qs qt qo]. simpl in Hs. subst qs. destruct bx as [b x].
  by eapply h_nua.
Qed.

Lemma other_callref k k' w bm : has_call k w -> has_call k' w -> id_call k <> id_call k' ->
  lc_m (local_of k w) = Some bm -> other_cr_b k' (local_of k' w) (id_cr k) = true.
Proof using.
  intros H H' Hne Hb. unfold other_cr_b. destruct (lc_m (local_of k' w)) as [bm'|] eqn:Hb'; [|by rewrite orb_true_r].
  rewrite orb_false_r. apply negb_true_iff, Z.eqb_neq. intros He. apply (m_apart k k' w bm bm' H H' Hne Hb Hb').
  destruct bm as [b m]. apply (h_unique _ _ _ H' (id_m k) b m).
  - by rewrite (h_m _ _ _ H), Hb.
  - rewrite <- He. by destruct (h_mid _ _ _ H b m Hb).
Qed.
Lemma other_handle k k' w bx : has_call k w -> has_call k' w -> id_call k <> id_call k' ->
  lc_s (local_of k w) = Some bx -> other_h_b k' (local_of k' w) (id_h k) = true.
Proof using.
  intros H H' Hne Hb. unfold other_h_b. destruct (lc_s (local_of k' w)) as [bx'|] eqn:Hb'; [|by rewrite orb_true_r].
  rewrite orb_false_r. apply negb_true_iff, bool_decide_eq_false. intros He. apply (s_apart k k' w bx bx' H H' Hne Hb Hb').
  pose proof (bound_leg k w bx H Hb) as E1. rewrite He, (bound_leg k' w bx' H' Hb') in E1. by injection E1.
Qed.

(** What the label of a message says of the message. *)
Lemma mncc_label_foreign k k' q w bm buf lb : mncc_label k bm buf = Some lb -> other_cr_b k' q (id_cr k) = true ->
  foreign_mncc k' q w buf = true.
Proof using.
  unfold mncc_label, foreign_mncc. generalize (Z.of_nat (length buf)) (rd32 buf 0) (view_rtp buf) (view_gsm_mncc buf).
  intros rc t r d Hl Ho. pose proof sizeof_gsm_mncc_min.
  assert (4 < sizeof_rtp) by reflexivity.
  destruct ((t =? MNCC_RTP_CREATE) || (t =? MNCC_RTP_CONNECT)) eqn:Hr.
  - destruct (Z.leb_spec sizeof_rtp rc); [|done]. destruct (Z.eqb_spec (rtp_callref r) (id_cr k)) as [->|]; [|done].
    destruct (Z.leb_spec rc 4); [lia|]. rewrite Ho. apply orb_true_iff in Hr as [->%Z.eqb_eq| ->%Z.eqb_eq]; done.
  - destruct (Z.leb_spec sizeof_gsm_mncc rc); [|done]. destruct (Z.eqb_spec (mn_callref d) (id_cr k)) as [->|]; [|done].
    destruct (Z.leb_spec rc 4); [lia|]. rewrite Ho. cbn [andb] in Hl.
    repeat lazymatch type of Hl with
    | (if t =? ?ty then _ else _) = _ => destruct (Z.eqb_spec t ty) as [->|_]; [done|]
    | None = _ => discriminate Hl
    end.
Qed.

(** An event of one call is foreign to the other calls. *)
Lemma own_foreign k k' w e lb : has_call k w -> has_call k' w -> id_call k <> id_call k' ->
  label_of k (local_of k w) e = Some lb -> foreign k' w e = true.
Proof using.
  intros H H' Hne Hl. destruct e as [[buf|]| |l|ev status h sip]; [|done|done|..]; cbn [label_of] in Hl; cbn [foreign].
  - destruct (lc_m (local_of k w)) as [bm|] eqn:Hb; [|done]. simpl in Hl.
    eapply mncc_label_foreign; [exact Hl|]. by eapply other_callref.
  - destruct (lc_m (local_of k w)) as [bm|] eqn:Hb; [|done]. simpl in Hl. case_bool_decide as Hlm; [subst l|done].
    destruct (bool_decide (id_m k ∈ timers w)) eqn:Ht; [|done]. simpl.
    apply negb_true_iff, bool_decide_eq_false. intros He. apply bool_decide_eq_true in Ht.
    pose proof Ht as Ht'. rewrite He in Ht'. pose proof (h_m _ _ _ H') as Hm.
    destruct (w_timers w (h_wf _ _ _ H) _ Ht) as (sh & Hsh & _). apply sk_leg_inv in Hsh as (x & Hx & _). rewrite <- He, Hx in Hm.
    destruct (lc_m (local_of k' w)) as [bm'|] eqn:Hb'; [|done]. by apply (m_apart k k' w bm bm').
  - destruct (lc_s (local_of k w)) as [bx|] eqn:Hb; [|done]. simpl in Hl. case_bool_decide as Hh; [subst h|done].
    unfold foreign_nua. rewrite (other_handle k k' w bx) by done. rewrite (bound_leg k w bx) by done. by destruct ev.
Qed.

(** ** Runs *)

(** An event of the call, from peers that keep to their protocols, has a reaction. *)
Lemma own_step k w e lb : has_call k w -> conforms w e -> label_of k (local_of k w) e = Some lb ->
  exists w' o, handle_event e w = Ret tt w' /\ has_call k w' /\ map short (out w') = map short (out w) ++ o /\
    react (abs (local_of k w)) lb = Some (o, abs (local_of k w')).
Proof using HE HW.
  intros H Hc Hl. pose proof (event_step k w e lb H Hl) as Hs.
  assert (enabled w e) as Hen.
  { destruct e as [[buf|]| |l|ev status h sip]; cbn [label_of] in Hl; [by eapply h_fd|done|done| |done].
    destruct (lc_m (local_of k w)) as [bm|]; [|done]. simpl in Hl. case_bool_decide as Hlm; [subst l|done].
    by destruct (bool_decide (id_m k ∈ timers w)) eqn:Ht; [apply bool_decide_eq_true in Ht|]. }
  pose proof (handle_event_ok w e (h_wf _ _ _ H) Hen Hc) as Hok. apply wp_returns in Hok as ([] & w1 & Hr & _).
  destruct (react (abs (local_of k w)) lb) as [[o a]|].
  - destruct Hs as (w' & Hrun & Hw' & <- & Ho). eauto 6.
  - destruct Hs as (w' & Hrun). congruence.
Qed.

Lemma mixed_step ks w e : ks <> [] -> (forall k, k ∈ ks -> has_call k w) -> NoDup (map id_call ks) ->
  conforms w e -> sorted_event ks w e = true ->
  exists w', handle_event e w = Ret tt w' /\ forall k, k ∈ ks -> has_call k w' /\
    reacts (abs (local_of k w)) (labels_there k w e) = Some (said_there k w e w', abs (local_of k w')).
Proof using HE HW.
  intros Hne Hks Hnd Hc Hs.
  assert (forall k, k ∈ ks -> label_of k (local_of k w) e = None -> foreign k w e = true) as Hf.
  { intros k Hk Hl. apply orb_true_iff in Hs as [Hs|Hs].
    - apply existsb_exists in Hs as (k0 & Hk0%list_elem_of_In & Hs).
      destruct (label_of k0 (local_of k0 w) e) as [lb|] eqn:Hl0; [|done].
      apply (own_foreign k0 k w e lb); auto. intros He. assert (k0 = k) as ->; [|congruence].
      apply list_elem_of_lookup in Hk as [i Hi], Hk0 as [j Hj].
      assert (i = j) as ->; [|congruence]. apply (NoDup_lookup (map id_call ks) i j (id_call k) Hnd).
      + by rewrite list_lookup_fmap, Hi.
      + by rewrite list_lookup_fmap, Hj, <- He.
    - by eapply (proj1 (forallb_forall _ _) Hs), list_elem_of_In. }
  assert (forall k, k ∈ ks -> exists w', handle_event e w = Ret tt w' /\ has_call k w' /\
    reacts (abs (local_of k w)) (labels_there k w e) = Some (said_there k w e w', abs (local_of k w'))) as Hk.
  { intros k Hk. unfold labels_there, said_there. destruct (label_of k (local_of k w) e) as [lb|] eqn:Hl.
    - destruct (own_step k w e lb (Hks k Hk) Hc Hl) as (w' & o & Hr & Hw' & Ho & Ha). exists w'. split_and!; [done..|].
      simpl. rewrite Ha. simpl. by rewrite Ho, app_nil_r, <- (length_map short (out w)), drop_app_length.
    - destruct (foreign_step k w e (Hks k Hk) (Hf k Hk Hl) Hc) as (w' & o & Hr & Hw' & Hl' & _).
      exists w'. split_and!; [done..|]. by rewrite Hl'. }
  destruct ks as [|k0 ks]; [done|]. destruct (Hk k0 ltac:(left)) as (w' & Hr & _). exists w'. split; [done|].
  intros k Hin. destruct (Hk k Hin) as (w1 & Hr1 & H1). congruence.
Qed.

Lemma reacts_app a l1 l2 o1 a1 : reacts a l1 = Some (o1, a1) ->
  reacts a (l1 ++ l2) = '(o2, a2) ← reacts a1 l2; Some (o1 ++ o2, a2).
Proof using.
  revert a o1. induction l1 as [|lb l1 IH]; intros a o1 H; simpl in *.
  { injection H as <- <-. by destruct (reacts a l2) as [[o2 a2]|]. }
  destruct (react a lb) as [[o a']|]; [|done]. simpl in *. destruct (reacts a' l1) as [[o' a'']|] eqn:Hr; [|done].
  injection H as <- ->. rewrite (IH _ _ Hr). destruct (reacts a1 l2) as [[o2 a2]|]; [|done]. simpl. by rewrite app_assoc.
Qed.

(** C10: an event that is not about a call leaves the call alone: when the peers keep to
    their protocols it is handled, and the two legs, the call and the timer of the MNCC
    leg are as before.  As long as the MNCC leg is there nothing is written to the MSC
    under its callref; once it is gone, nothing but the MNCC_REJ_REQ with which the
    program answers what the MSC still sends for it.  As long as the SIP leg is there
    nothing is said on its handle.  The events that are not about the call
    include the messages and timers of other calls, the SIP events of other handles,
    a SETUP and an INVITE that open a call with another number, what comes late for
    a leg that is gone, and the messages that the program does not handle. *)
Theorem foreign_event_frames k w e : has_call k w -> foreign k w e = true -> conforms w e ->
  exists w' o, handle_event e w = Ret tt w' /\ has_call k w' /\
    legs w' !! id_m k = legs w !! id_m k /\ legs w' !! id_s k = legs w !! id_s k /\
    calls w' !! id_call k = calls w !! id_call k /\ (id_m k ∈ timers w' <-> id_m k ∈ timers w) /\
    out w' = out w ++ o /\ Forall (not_about k (local_of k w)) o.
Proof using HE HW.
  intros H Hf Hc. destruct (foreign_step k w e H Hf Hc) as (w' & o & Hr & H' & _ & F & Ho & Hs).
  exists w', o. split_and!; try done.
  - by rewrite (f_m _ _ _ _ F), (h_m _ _ _ H).
  - by rewrite (f_s _ _ _ _ F), (h_s _ _ _ H).
  - apply F.
  - by rewrite (f_timer _ _ _ _ F), (h_timer _ _ _ H).
Qed.

(** C8: any number of bridged calls at once: in a run in which the peers keep to their
    protocols and each event is about one of the calls or about none of them, the
    program does not crash, and each call runs as the machine of Bridge.v on its own
    events: it ends in the state of the machine, and what was said to its peers as
    its events were handled is what the machine says, however the events of the
    calls are interleaved. *)
Theorem calls_run_apart ks w es : ks <> [] -> (forall k, k ∈ ks -> has_call k w) -> NoDup (map id_call ks) ->
  mixed_run ks w es ->
  exists w', run es w = Ret tt w' /\ forall k, k ∈ ks -> has_call k w' /\
    reacts (abs (local_of k w)) (labels_among k w es) = Some (said_to k w es, abs (local_of k w')).
Proof using HE HW.
  intros Hne Hks Hnd. revert w Hks. induction es as [|e es IH]; intros w Hks Hrun; simpl in Hrun.
  { exists w. split; [done|]. intros k Hk. split; [by apply Hks|done]. }
  destruct Hrun as (Hc & Hs & Hrun). destruct (mixed_step ks w e Hne Hks Hnd Hc Hs) as (w1 & Hr & Hst). rewrite Hr in Hrun.
  destruct (IH w1) as (w' & Hr' & Hend); [intros k Hk; by apply Hst|done|]. exists w'. split.
  { unfold run. simpl. unfold bind. by rewrite Hr. }
  intros k Hk. destruct (Hst k Hk) as [_ H1], (Hend k Hk) as [H2 H3]. split; [done|]. cbn [labels_among said_to]. rewrite Hr.
  rewrite (reacts_app _ _ _ _ _ H1), H3. done.
Qed.
End event.
