(* ===== verification/Opening.v ===== *)
(** * A call from its opening event on

    Refine.v and Together.v are about calls that are there.  Here a bridged call
    comes about: an INVITE that is accepted, or the RTP stream of a call that the
    MSC set up ([places]).  [placed_call_runs]: the handling of this event ends in
    a store that holds the call, in the first state of the machine of Bridge.v,
    and everything that follows is a run of the machine. *)
From S2P Require Import Prelude Effect Codec Protocol Lib State Skel Rules Call Sdp SipLeg MnccConn App MnccRx SipUa CallFlow SipCall Stranded Bridge Local Relay System Refine.

(** ** Definitions *)

(** No MNCC leg and no call has the number [n]. *)
Definition number_unused (w : world) (n : Z) : Prop :=
  (forall l b m, legs w !! l = Some (Leg b (XMncc m)) -> m_callref m <> n) /\
  forall c cl, calls w !! c = Some cl -> call_id cl <> n.

Section opening.
Context {E : Env}.

(** What an accepted INVITE starts with: a SETUP is out, the caller waits. *)
Definition from_sip : reaction :=
  ([ToMsc MNCC_SETUP_REQ],
   Sides (Some (MscSide MNCC_CC_INITIAL MNCC_DIR_MT false None)) (Some (SipSide SIP_CC_DLG_CNFD SIP_DIR_MO 0))).

(** What a call of the MSC, whose leg is [v], starts with: it proceeds, an INVITE is out. *)
Definition from_msc (v : msc_side) : reaction :=
  ([ToMsc MNCC_CALL_PROC_REQ; Invite],
   arrives MNCC_RTP_CREATE (enters MNCC_CC_PROCEEDING (Sides (Some v) (Some (SipSide SIP_CC_INITIAL SIP_DIR_MT 0))))).

(** The event [e] makes a bridged call with the number [n], which starts with [r]. *)
Inductive places (w : world) : event -> Z -> reaction -> Prop :=
| PlacesInvite nh sip :
    nua w !! nh = None -> sdp_screen_sdp sip = true -> is_Some (usable true None sip) ->
    is_Some (sip_to_user sip) -> is_Some (sip_from_user sip) -> invite_gcr sip <> Some None ->
    number_unused w (u32 (last_call_id w + 1)) ->
    places w (EvNua nua_i_invite 100 nh (Some sip)) (u32 (last_call_id w + 1)) from_sip
| PlacesRtpCreate buf l b m cl :
    rd32 buf 0 = MNCC_RTP_CREATE -> sizeof_rtp <= Z.of_nat (length buf) ->
    legs w !! l = Some (Leg b (XMncc m)) -> m_dir m = MNCC_DIR_MO -> in_release b = false ->
    rtp_callref (view_rtp buf) = m_callref m ->
    calls w !! lg_call b = Some cl -> initial cl = Some l -> remote cl = None ->
    callref_unique w l (m_callref m) -> number_unique w (lg_call b) (m_callref m) ->
    places w (EvMncc (Some buf)) (m_callref m) (from_msc (msc_view_of (bool_decide (l ∈ timers w)) (b, m))).
End opening.

(** ** The store after the event *)
Section runs.
Context {E : Env} {HE : EnvLaws E} {HW : WritesOk E}.

(** The store [w'] holds a call in the state and with the messages of [r]. *)
Definition begun (w w' : world) (n : Z) (r : reaction) (k : ids) : Prop :=
  id_cr k = n /\ has_call k w' /\ abs (local_of k w') = snd r /\ map short (out w') = map short (out w) ++ fst r.

Lemma ready_fd w : wf w -> cn_state (conn w) = MNCC_READY -> 0 <= cn_fd (conn w).
Proof using.
  intros Hw Hr. destruct (Z.leb_spec 0 (cn_fd (conn w))) as [|Hn]; [done|].
  apply (co_state _ (w_conn w Hw)) in Hn. congruence.
Qed.

Lemma event_wf w e : wf w -> cn_state (conn w) = MNCC_READY -> conforms w e ->
  match e with EvMncc _ | EvNua _ _ _ _ => True | _ => False end ->
  exists w', handle_event e w = Ret tt w' /\ wf w'.
Proof using HE HW.
  intros Hw Hr Hc He. assert (enabled w e) as Hen.
  { destruct e; try done. by apply ready_fd. }
  pose proof (handle_event_ok w e Hw Hen Hc) as H. apply wp_returns in H as ([] & w' & Heq & Hok).
  apply ok_wf in Hok as [Hw' _]; [eauto|apply Hw].
Qed.

(** What a leg keeps through [rx_sdp_update], and the first state of the leg of an INVITE. *)
Lemma rx_sdp_update_cause s b : cause (rx_sdp_update s b) = cause b /\ in_release (rx_sdp_update s b) = in_release b.
Proof using. unfold rx_sdp_update. destruct s; [|done]. by destruct (_ || _). Qed.
Lemma invite_leg_start c sip f port pt : let b := forwarded (invite_leg c sip f port pt) in
  lg_call b = c /\ cause b = 0.
Proof using.
  unfold forwarded, invite_leg. set (b0 := set_ops _ _).
  destruct (rx_sdp_update_shape (sip_payload sip) b0) as (_ & Hc & _), (rx_sdp_update_cause (sip_payload sip) b0) as [Hk _].
  by destruct (rx_sdp_changed _).
Qed.

Lemma setup_message_type u cl src dst b : mn_msg_type (setup_message u cl src dst b) = MNCC_SETUP_REQ.
Proof using.
  unfold setup_message, setup_gcr_msg, setup_req. destruct (osmo_enc_gcr (gcr cl)) as [rc data].
  by destruct u, (gcr_present cl), (negb (rc =? 0)), (rx_sdp_changed b).
Qed.

(** A handle that is not bound is one of a new call. *)
Lemma invite_is_new w nh sip : wf w -> nua w !! nh = None ->
  handle_event (EvNua nua_i_invite 100 nh (Some sip)) w = new_call nh sip w.
Proof using HE HW.
  intros Hw Hn. simpl. unfold on_i_invite. simpl.
  pose proof (sip_find_leg_st (sk w) (conn w) (w_sk w Hw) nh w (wf_st w Hw)) as H.
  apply wp_returns in H as (o & w1 & Hrun & -> & ->). run_step Hrun. change (sk_nua (sk w) !! nh) with (nua w !! nh).
  by rewrite Hn.
Qed.

Lemma invite_started w nh sip : let n := u32 (last_call_id w + 1) in
  wf w -> cn_state (conn w) = MNCC_READY -> resources -> conforms w (EvNua nua_i_invite 100 nh (Some sip)) ->
  nua w !! nh = None -> sdp_screen_sdp sip = true -> is_Some (usable true None sip) ->
  is_Some (sip_to_user sip) -> is_Some (sip_from_user sip) -> invite_gcr sip <> Some None -> number_unused w n ->
  exists k w', handle_event (EvNua nua_i_invite 100 nh (Some sip)) w = Ret tt w' /\ begun w w' n from_sip k.
Proof using HE HW.
  intros n Hw Hr Hres Hconf Hnh Hs [[f [port pt]] Hus] [to Hto] [from Hfrom] Hg [Hul Huc].
  assert (exists g, invite_gcr sip = Some <$> g) as [g Hgg].
  { destruct (invite_gcr sip) as [[g|]|]; [by exists (Some g)|done|by exists None]. }
  destruct (new_call_run w nh sip g f port pt to from Hw Hres (ready_fd w Hw Hr) Hs Hus Hto Hfrom Hgg)
    as (c & l & lm & w' & Hrun & Hc & Hl & Hlm & Hne & Hout & Hcs & _ & Hnu & Hcn & Ht & Hls). fold n in Hout, Hcs, Hls.
  destruct (event_wf w _ Hw Hr Hconf I) as (w1 & Hev & Hw'). rewrite (invite_is_new w nh sip Hw Hnh), Hrun in Hev.
  injection Hev as <-. set (bx := forwarded (invite_leg c sip f port pt)) in *.
  destruct (invite_leg_start c sip f port pt) as [Hbc Hbk]. fold bx in Hbc, Hbk.
  set (cl := set_remote (Some lm) _) in Hcs. set (bm := set_ops mncc_leg_ops (call_leg_new CALL_TYPE_MNCC c)).
  set (m := MnccLeg MNCC_CC_INITIAL MNCC_DIR_MT n number0 number0 EmptyString 0 0).
  assert (legs w' !! lm = Some (Leg bm (XMncc m))) as Hlm' by (rewrite Hls, lookup_insert_ne by done; apply lookup_insert_eq).
  assert (legs w' !! l = Some (Leg bx (XSip (invite_ext nh sip)))) as Hl' by (rewrite Hls; apply lookup_insert_eq).
  assert (calls w' !! c = Some cl) as Hc' by (rewrite Hcs; apply lookup_insert_eq).
  assert (mncc_sip_call w' n lm l bm m bx (invite_ext nh sip)) as Hm.
  { split; try done.
    - rewrite Hcn. by apply ready_fd.
    - split; [done|]. exists (Leg bm (XMncc m)), cl. split; [done|]. split; [done|]. by right.
    - intros l0 b0 m0. rewrite Hls. intros [[<- [=]]|[_ [[<- _]|[_ H]]%lookup_insert_Some]]%lookup_insert_Some Hn0; [done|].
      by destruct (Hul _ _ _ H). }
  assert (number_unique w' c n) as Hnum.
  { intros c0 cl0. rewrite Hcs. intros [[<- _]|[_ H]]%lookup_insert_Some; [done|]. intros _. by apply (Huc c0). }
  assert (cn_state (conn w') = MNCC_READY) as Hr' by by rewrite Hcn.
  assert (lm ∉ timers w') as Hnt.
  { rewrite Ht. intros Hin. destruct (w_timers w Hw lm Hin) as (sh & Hsh & _). simpl in Hsh. by rewrite lookup_fmap, Hlm in Hsh. }
  pose proof (bridged_has_call w' n lm l bm m bx (invite_ext nh sip) nh cl Hm eq_refl Hr' Hc' Hnum) as Hhas.
  exists (Ids c lm l nh n (bool_decide (initial cl = Some lm))), w'.
  split; [by rewrite invite_is_new|]. split; [done|]. split; [exact Hhas|]. split.
  - unfold abs, local_of. simpl. rewrite Hlm', Hl'. simpl. rewrite bool_decide_eq_false_2 by done. unfold sip_view_of. simpl. by rewrite Hbk.
  - rewrite Hout, map_app. simpl. by rewrite setup_message_type.
Qed.

(** What the timer of the leg does when the stream is there. *)
Lemma rtp_leg_view r b m t t' : t' = (if u32 (m_rsp_wanted m) =? MNCC_RTP_CREATE then false else t) ->
  Some (msc_view_of t' (rtp_leg r b, set_m_state MNCC_CC_PROCEEDING m))
  = at_msc (snd (from_msc (msc_view_of t (b, m)))).
Proof using.
  intros ->. unfold msc_view_of. simpl.
  assert (in_release (rtp_leg r b) = in_release b) as -> by (unfold rtp_leg; by rewrite (proj2 (rx_sdp_update_cause _ _))).
  destruct (Z.eqb_spec (u32 (m_rsp_wanted m)) MNCC_RTP_CREATE) as [->|Hn]; destruct t; simpl; try done.
  by rewrite decide_False by congruence.
Qed.

Lemma rtp_create_started w buf l b m cl : wf w -> cn_state (conn w) = MNCC_READY -> resources ->
  conforms w (EvMncc (Some buf)) -> rd32 buf 0 = MNCC_RTP_CREATE -> sizeof_rtp <= Z.of_nat (length buf) ->
  legs w !! l = Some (Leg b (XMncc m)) -> m_dir m = MNCC_DIR_MO -> in_release b = false ->
  rtp_callref (view_rtp buf) = m_callref m ->
  calls w !! lg_call b = Some cl -> initial cl = Some l -> remote cl = None ->
  callref_unique w l (m_callref m) -> number_unique w (lg_call b) (m_callref m) ->
  exists k w', handle_event (EvMncc (Some buf)) w = Ret tt w' /\
    begun w w' (m_callref m) (from_msc (msc_view_of (bool_decide (l ∈ timers w)) (b, m))) k.
Proof using HE HW.
  intros Hw Hr Hres Hconf Ht Hlen Hl Hd Hrel Hcr Hc Hi Hre Hu Hnum. set (c := lg_call b) in *.
  assert (handle_event (EvMncc (Some buf)) w = check_rtp_create buf (Z.of_nat (length buf)) w) as Heq.
  { simpl. unfold mncc_data. assert ((Z.of_nat (length buf) <=? 4) = false) as ->.
    { apply Z.leb_gt. assert (4 < sizeof_rtp) by done. lia. }
    by rewrite Ht. }
  destruct (check_rtp_create_run buf _ w l c b m cl Hlen Hw (ready_fd w Hw Hr) Hres Hl Hd Hrel (eq_sym Hcr) Hu eq_refl Hc Hi Hre)
    as (h & x & w' & Hrun & Hout & Hx & Hnu & Hcn & Hti & Hls & src & dst & Hcs).
  destruct (event_wf w _ Hw Hr Hconf I) as (w1 & Hev & Hw'). pose proof Hev as Hev'. rewrite Heq, Hrun in Hev. injection Hev as <-.
  set (b' := rtp_leg (view_rtp buf) b) in *. set (m' := set_m_state MNCC_CC_PROCEEDING m) in *.
  destruct (rtp_leg_shape (view_rtp buf) b) as (_ & Hbc & _). fold b' c in Hbc. assert (x <> l) as Hne by congruence.
  set (cl' := set_remote (Some x) _) in Hcs. set (sx := sdp_file_codec b' (SipLeg (Some h) SIP_CC_INITIAL SIP_DIR_MT None None)).
  set (bs := set_ops sip_mt_ops (call_leg_new CALL_TYPE_SIP c)).
  assert (s_handle sx = Some h /\ s_state sx = SIP_CC_INITIAL /\ s_dir sx = SIP_DIR_MT) as (Hsh & Hss & Hsd).
  { unfold sx, sdp_file_codec. by destruct (String.eqb _ _). }
  assert (legs w' !! l = Some (Leg b' (XMncc m'))) as Hl' by (rewrite Hls, lookup_insert_ne by done; apply lookup_insert_eq).
  assert (legs w' !! x = Some (Leg bs (XSip sx))) as Hx' by (rewrite Hls; apply lookup_insert_eq).
  assert (calls w' !! c = Some cl') as Hc' by (rewrite Hcs; apply lookup_insert_eq).
  assert (mncc_sip_call w' (m_callref m) l x b' m' bs sx) as Hm.
  { split; try done.
    - rewrite Hcn. by apply ready_fd.
    - split; [done|]. exists (Leg b' (XMncc m')), cl'. split; [done|]. simpl. rewrite Hbc. split; [done|]. by left.
    - intros l0 b0 m0. rewrite Hls. intros [[_ [=]]|[_ [[<- _]|[_ H]]%lookup_insert_Some]]%lookup_insert_Some Hn0; [done|].
      by eapply Hu. }
  assert (number_unique w' (lg_call b') (m_callref m)) as Hnum'.
  { intros c0 cl0. rewrite Hcs, Hbc. intros [[<- _]|[_ H]]%lookup_insert_Some; [done|]. intros Hn. by eapply (Hnum c0). }
  assert (cn_state (conn w') = MNCC_READY) as Hr' by by rewrite Hcn.
  assert (calls w' !! lg_call b' = Some cl') as Hc2 by by rewrite Hbc.
  pose proof (bridged_has_call w' _ l x b' m' bs sx h cl' Hm Hsh Hr' Hc2 Hnum') as Hhas.
  exists (Ids (lg_call b') l x h (m_callref m) (bool_decide (initial cl' = Some l))), w'.
  split; [done|]. split; [done|]. split; [exact Hhas|]. split; [|by rewrite Hout, map_app].
  unfold abs, local_of. simpl. rewrite Hl', Hx'. simpl.
  unfold m', b'. erewrite rtp_leg_view.
  - unfold sip_view_of. simpl. by rewrite Hss, Hsd.
  - rewrite Hti. destruct (_ =? _); [|done]. apply bool_decide_eq_false. clear. set_solver.
Qed.

Lemma places_started w e n r : wf w -> cn_state (conn w) = MNCC_READY -> resources -> conforms w e ->
  places w e n r -> exists k w', handle_event e w = Ret tt w' /\ begun w w' n r k.
Proof using HE HW.
  intros Hw Hr Hres Hc Hp. destruct Hp; [by apply invite_started|by eapply rtp_create_started].
Qed.
Lemma places_open w e n r : places w e n r -> leaving (snd r) = false /\ at_sip (snd r) <> None.
Proof using.
  intros []; [done|]. by split.
Qed.

(** C9: a call from its beginning to its end: an INVITE that is accepted, and the RTP
    stream of a call that the MSC set up, make a call that is in the first state of
    the machine of Bridge.v when the event is handled, with a SETUP to the MSC in the
    one case, and in the other a CALL_PROC to the MSC and an INVITE to the peer.
    Everything that happens to the call afterwards, in whatever order, is a run of the
    machine from this state; and when the events are clean, hanging up reaches both
    sides. *)
Theorem placed_call_runs w e n r : wf w -> cn_state (conn w) = MNCC_READY -> resources -> conforms w e ->
  places w e n r ->
  exists k w1, handle_event e w = Ret tt w1 /\ begun w w1 n r k /\
    forall es lbs, labels_of k w1 es = Some lbs ->
      match reacts (snd r) lbs with
      | Some (o, a) => exists w', run (e :: es) w = Ret tt w' /\ has_call k w' /\ abs (local_of k w') = a /\
          map short (out w') = map short (out w) ++ fst r ++ o /\
          (clean_run (snd r) lbs = true -> all_reached k w1 w')
      | None => clean_run (snd r) lbs = false /\ exists w', run (e :: es) w = Crash NullCall w'
      end.
Proof using HE HW.
  intros Hw Hr Hres Hc Hp. destruct (places_started w e n r Hw Hr Hres Hc Hp) as (k & w1 & Hev & Hst).
  exists k, w1. split; [done|]. split; [done|]. intros es lbs Hl. destruct Hst as (_ & Hk & Ha & Ho1).
  assert (forall w', run es w1 = w' -> run (e :: es) w = w') as Hgo.
  { intros w' <-. unfold run. simpl. unfold bind. by rewrite Hev. }
  pose proof (run_labels k es w1 lbs Hk Hl) as Hrun. rewrite Ha in Hrun. destruct (reacts _ lbs) as [[o a]|] eqn:Hre.
  - destruct Hrun as (w' & Hrun & Hk' & <- & Ho). exists w'. split_and!; [by apply Hgo|done|done|by rewrite Ho, Ho1, app_assoc|].
    intros Hcl. destruct (places_open _ _ _ _ Hp) as [Hlv Hs].
    apply (reached_abs k w1 w' o Hk' Ho). by eapply no_side_forgotten.
  - destruct Hrun as (w' & Hrun). split; [|exists w'; by apply Hgo].
    apply not_true_iff_false. intros Hcl. destruct (clean_reacts _ _ Hcl) as [? ?]. congruence.
Qed.
End runs.
