(* ===== verification/Typing.v ===== *)
(** * A type system for the store, whatever the peers and the system do

    The theorems of System.v hold for peers that keep to their protocols and
    writes that succeed.  Nothing of the sort is assumed here.  [typed w] says
    that every live object is what the pointers to it take it for: the type tag
    of a leg names the structure it was allocated as and its callbacks are those
    of that type, the legs of a call point back to it and have opposite types,
    a handle is bound to a SIP leg, and no pointer reaches beyond what was
    allocated.  [ty n m Q w] is a Hoare-style judgement: from the typed store [w]
    the computation [m] returns into a typed store that [grows] from [w], in which
    every leg older than the pointer [n] is what it was or further on ([leg_le]),
    with [Q], or it stops with an [excusable] fault: a NULL pointer or an object that
    was freed.  A cast to the wrong structure, a failed assertion, a copy beyond the
    end of an array and an exhausted recursion bound are not excusable. *)
From S2P Require Import Prelude Effect Codec Protocol Lib State Call Sdp SipLeg MnccConn App.

(** ** Definitions *)

(** The callbacks a leg of each type may carry; none before it is completed. *)
Definition ops_for (t : call_type) (o : leg_ops) : Prop :=
  match t with
  | CALL_TYPE_MNCC => o = leg_ops0 \/ o = mncc_leg_ops
  | CALL_TYPE_SIP => o = leg_ops0 \/ o = sip_mo_ops \/ o = sip_mt_ops
  | CALL_TYPE_NONE => False
  end.

Definition ext_type (e : leg_ext) : call_type :=
  match e with XMncc _ => CALL_TYPE_MNCC | XSip _ => CALL_TYPE_SIP end.

Definition tagged (x : leg) : Prop :=
  lg_type (base x) = ext_type (ext x) /\ ops_for (lg_type (base x)) (ops (base x)).

Definition opposite (t : call_type) : call_type :=
  match t with
  | CALL_TYPE_MNCC => CALL_TYPE_SIP
  | CALL_TYPE_SIP => CALL_TYPE_MNCC
  | CALL_TYPE_NONE => CALL_TYPE_NONE
  end.

Definition points (cl : call) (p : ptr) : Prop := initial cl = Some p \/ remote cl = Some p.

(** The two legs of one call, [l] alive. *)
Definition mates (w : world) (l l' : ptr) : Prop :=
  exists x cl, legs w !! l = Some x /\ calls w !! lg_call (base x) = Some cl
    /\ (initial cl = Some l /\ remote cl = Some l' \/ remote cl = Some l /\ initial cl = Some l').

Record typed (w : world) : Prop := {
  ty_leg : forall l x, legs w !! l = Some x -> (l < next_ptr w)%positive /\ tagged x;
  ty_call : forall c cl, calls w !! c = Some cl -> (c < next_ptr w)%positive;
  ty_link : forall c cl p, calls w !! c = Some cl -> points cl p ->
    (p < next_ptr w)%positive /\ forall x, legs w !! p = Some x -> lg_call (base x) = c;
  ty_pair : forall c cl i r x y, calls w !! c = Some cl -> initial cl = Some i -> remote cl = Some r ->
    legs w !! i = Some x -> legs w !! r = Some y -> lg_type (base y) = opposite (lg_type (base x));
  ty_nua : forall h l, nua w !! h = Some l ->
    (l < next_ptr w)%positive /\ forall x, legs w !! l = Some x -> lg_type (base x) = CALL_TYPE_SIP;
  ty_nodup : NoDup (g_call_list w);
  ty_list : forall c, c ∈ g_call_list w -> (c < next_ptr w)%positive;
  ty_conn : cn_fd (conn w) < 0 -> cn_state (conn w) <> MNCC_READY }.

(** How a leg that is not new develops: what identifies it stays, it does not
    leave its release, and the state of its dialog does not go back. *)
Definition sip_rank (st : sip_cc_state) : nat :=
  match st with SIP_CC_INITIAL => 0 | SIP_CC_DLG_CNFD => 1 | SIP_CC_CONNECTED | SIP_CC_HOLD => 2 end.
Definition sip_le (s s' : sip_leg) : Prop :=
  s_handle s' = s_handle s /\ s_dir s' = s_dir s /\ (sip_rank (s_state s) <= sip_rank (s_state s'))%nat.
Definition mncc_le (m m' : mncc_leg) : Prop :=
  m_callref m' = m_callref m /\ m_dir m' = m_dir m /\ m_called m' = m_called m /\ m_calling m' = m_calling m
  /\ m_imsi m' = m_imsi m /\ (m_state m' = MNCC_CC_INITIAL -> m_state m = MNCC_CC_INITIAL).
Definition ext_le (e e' : leg_ext) : Prop :=
  match e, e' with
  | XMncc m, XMncc m' => mncc_le m m'
  | XSip s, XSip s' => sip_le s s'
  | _, _ => False
  end.
Definition base_le (b b' : call_leg) : Prop :=
  lg_type b' = lg_type b /\ lg_call b' = lg_call b /\ ops b' = ops b
  /\ (in_release b = true -> in_release b' = true).
Definition leg_le (x x' : leg) : Prop := base_le (base x) (base x') /\ ext_le (ext x) (ext x').

(** Every leg older than [n] that is alive was alive and developed. *)
Definition develops (n : ptr) (w w' : world) : Prop := forall l x', legs w' !! l = Some x' ->
  (l < n)%positive -> exists x, legs w !! l = Some x /\ leg_le x x'.

(** What every computation does to the store, for the legs that are older than
    [n]: objects keep their type and their call while they live, a freed one
    does not come back, a leg older than [n] develops, the initial leg of a call
    is only ever unlinked, the call list loses members or gains new ones at its
    head, and a connection that is down stays down. *)
Record grows (n : ptr) (w w' : world) : Prop := {
  gr_next : (next_ptr w <= next_ptr w')%positive;
  gr_legs : forall l x', legs w' !! l = Some x' -> (l < next_ptr w)%positive ->
    exists x, legs w !! l = Some x /\ lg_type (base x') = lg_type (base x)
              /\ lg_call (base x') = lg_call (base x);
  gr_old : develops n w w';
  gr_calls : forall c cl', calls w' !! c = Some cl' -> (c < next_ptr w)%positive ->
    exists cl, calls w !! c = Some cl /\ (initial cl' = initial cl \/ initial cl' = None);
  gr_list : exists new old, g_call_list w' = new ++ old /\ old `sublist_of` g_call_list w
    /\ forall c, c ∈ new -> (next_ptr w <= c)%positive;
  gr_conn : cn_fd (conn w) < 0 -> conn w' = conn w }.

(** If the leg is alive, it has the type; it belongs to the call; the initial
    leg of the call has the type. *)
Definition has_type (w : world) (l : ptr) (t : call_type) : Prop :=
  (l < next_ptr w)%positive /\ forall x, legs w !! l = Some x -> lg_type (base x) = t.
Definition in_call (w : world) (l c : ptr) : Prop :=
  (l < next_ptr w)%positive /\ forall x, legs w !! l = Some x -> lg_call (base x) = c.
Definition has_init (w : world) (c : ptr) (t : call_type) : Prop :=
  (c < next_ptr w)%positive
  /\ forall cl i, calls w !! c = Some cl -> initial cl = Some i -> has_type w i t.

(** The initial leg of the call is not older than [n]. *)
Definition init_new (n : ptr) (w : world) (c : ptr) : Prop :=
  (c < next_ptr w)%positive
  /\ forall cl i, calls w !! c = Some cl -> initial cl = Some i -> (n <= i)%positive.

Section judgement.
Context {E : Env}.

(** The faults that remain possible. *)
Definition excusable (f : fault) : Prop :=
  match f with
  | NullDeref | NullCall | UseAfterFree => True
  | AssertFail | TypeConfusion | OutOfBounds | OutOfFuel => False
  end.

Definition ty {A} (n : ptr) (m : MW A) (Q : A -> world -> Prop) (w : world) : Prop :=
  (n <= next_ptr w)%positive ->
  match m w with
  | Ret a w' => typed w' /\ grows n w w' /\ Q a w'
  | Crash f _ => excusable f
  end.

Definition always {A} (_ : A) (_ : world) : Prop := True.
End judgement.

(** ** The growth of a store is a preorder *)
Lemma base_le_refl b : base_le b b.
Proof. by split_and!. Qed.
Lemma ext_le_refl e : ext_le e e.
Proof. destruct e; simpl; unfold mncc_le, sip_le; by split_and!. Qed.

#[export] Instance leg_le_refl : Reflexive leg_le.
Proof. intros x. split; [apply base_le_refl|apply ext_le_refl]. Qed.

#[export] Instance leg_le_trans : Transitive leg_le.
Proof.
  intros [b1 e1] [b2 e2] [b3 e3] [(? & ? & ? & ?) He] [(? & ? & ? & ?) He']. simpl in *. split; simpl.
  - unfold base_le. split_and!; try congruence. auto.
  - destruct e1, e2, e3; simpl in *; try done; unfold mncc_le, sip_le in *; destruct_ands;
      split_and!; try congruence; try lia; auto.
Qed.

(** The list part of [grows] when the list is the same. *)
Lemma list_same (w : world) (cs : list ptr) : exists new old, cs = new ++ old /\ old `sublist_of` cs
  /\ forall c, c ∈ new -> (next_ptr w <= c)%positive.
Proof. exists [], cs. split_and!; [done|done|]. intros c. by rewrite elem_of_nil. Qed.

(** Its leg part when the legs are the same. *)
Lemma develops_same n w w' : legs w' = legs w -> develops n w w'.
Proof. intros Heq l x Hx _. rewrite Heq in Hx. exists x. split; [done|apply leg_le_refl]. Qed.

Lemma develops_trans n w1 w2 w3 : develops n w1 w2 -> develops n w2 w3 -> develops n w1 w3.
Proof.
  intros H1 H2 l x Hx Hlt. destruct (H2 l x Hx Hlt) as (y & Hy & Hle). destruct (H1 l y Hy Hlt) as (z & Hz & Hle').
  exists z. split; [done|by etransitivity].
Qed.

(** Nothing changes but objects that go away. *)
Lemma grows_sub n w w' : legs w' ⊆ legs w -> calls w' ⊆ calls w -> g_call_list w' = g_call_list w ->
  conn w' = conn w -> (next_ptr w <= next_ptr w')%positive -> grows n w w'.
Proof.
  intros Hl Hc Hg Hk Hn. split; [done| | | | |done].
  - intros l x Hx _. eauto using lookup_weaken.
  - intros l x Hx _. exists x. split; [eauto using lookup_weaken|done].
  - intros c x Hx _. eauto using lookup_weaken.
  - rewrite Hg. apply list_same.
Qed.

#[export] Instance grows_refl n : Reflexive (grows n).
Proof.
  intros w. by apply grows_sub.
Qed.

#[export] Instance grows_trans n : Transitive (grows n).
Proof.
  intros w1 w2 w3 [Hn1 Hl1 Ho1 Hc1 (n1 & o1 & He1 & Hs1 & Hf1) Hd1] [Hn2 Hl2 Ho2 Hc2 (n2 & o2 & He2 & Hs2 & Hf2) Hd2].
  split.
  - lia.
  - intros l x Hx Hlt. destruct (Hl2 l x Hx) as (y & Hy & -> & ->); [lia|]. eauto.
  - by eapply develops_trans.
  - intros c cl Hx Hlt. destruct (Hc2 c cl Hx) as (y & Hy & Hi); [lia|].
    destruct (Hc1 c y Hy Hlt) as (z & Hz & Hi'). exists z. split; [done|].
    destruct Hi as [-> | ->]; [done|by right].
  - rewrite He1 in Hs2. apply sublist_app_r in Hs2 as (a & b & -> & Ha & Hb).
    exists (n2 ++ a), b. rewrite He2, app_assoc. split_and!; [done|by etransitivity|].
    intros c [Hc|Hc]%elem_of_app; [specialize (Hf2 c Hc); lia|]. apply Hf1.
    by eapply elem_of_sublist.
  - intros Hfd. rewrite <- (Hd1 Hfd). apply Hd2. by rewrite (Hd1 Hfd).
Qed.

(** Facts about pointers survive growth. *)
Lemma has_type_grows n w w' l t : grows n w w' -> has_type w l t -> has_type w' l t.
Proof.
  intros Hg [Hl Ht]. split; [pose proof (gr_next _ _ _ Hg); lia|]. intros x Hx.
  destruct (gr_legs _ _ _ Hg l x Hx Hl) as (y & Hy & -> & _). auto.
Qed.
Lemma in_call_grows n w w' l c : grows n w w' -> in_call w l c -> in_call w' l c.
Proof.
  intros Hg [Hl Ht]. split; [pose proof (gr_next _ _ _ Hg); lia|]. intros x Hx.
  destruct (gr_legs _ _ _ Hg l x Hx Hl) as (y & Hy & _ & ->). auto.
Qed.
Lemma has_init_grows n w w' c t : grows n w w' -> has_init w c t -> has_init w' c t.
Proof.
  intros Hg [Hl Ht]. split; [pose proof (gr_next _ _ _ Hg); lia|]. intros cl i Hc Hi.
  destruct (gr_calls _ _ _ Hg c cl Hc Hl) as (cl0 & Hc0 & Heq).
  apply (has_type_grows n w); [done|]. eapply Ht; [done|]. destruct Heq; congruence.
Qed.
Lemma init_new_grows n k w w' c : grows n w w' -> init_new k w c -> init_new k w' c.
Proof.
  intros Hg [Hl Ht]. split; [pose proof (gr_next _ _ _ Hg); lia|]. intros cl i Hc Hi.
  destruct (gr_calls _ _ _ Hg c cl Hc Hl) as (cl0 & Hc0 & Heq). eapply Ht; [done|]. destruct Heq; congruence.
Qed.
Lemma down_grows n w w' : grows n w w' -> cn_fd (conn w) < 0 -> cn_fd (conn w') < 0.
Proof. intros Hg Hd. by rewrite (gr_conn _ _ _ Hg Hd). Qed.

(** Facts about a live leg. *)
Lemma typed_has_type w l x : typed w -> legs w !! l = Some x -> has_type w l (lg_type (base x)).
Proof. intros Ht Hx. split; [by eapply ty_leg|]. intros y Hy. congruence. Qed.
Lemma typed_in_call w l x : typed w -> legs w !! l = Some x -> in_call w l (lg_call (base x)).
Proof. intros Ht Hx. split; [by eapply ty_leg|]. intros y Hy. congruence. Qed.
Lemma has_type_ext w l x t : typed w -> has_type w l t -> legs w !! l = Some x -> ext_type (ext x) = t.
Proof. intros Ht [_ Hl] Hx. rewrite <- (Hl x Hx). symmetry. by apply (ty_leg w Ht l x). Qed.

(** A store with fewer objects is typed. *)
Lemma typed_sub n w w' : legs w' ⊆ legs w -> calls w' ⊆ calls w -> g_call_list w' = g_call_list w ->
  nua w' = nua w -> conn w' = conn w -> (next_ptr w <= next_ptr w')%positive -> typed w -> typed w' /\ grows n w w'.
Proof.
  intros Hl Hc Hg Hn Hk Hp [Hleg Hcall Hlink Hpair Hnua Hnd Hlist Hconn]. split; [|by apply grows_sub].
  assert (forall l x, legs w' !! l = Some x -> legs w !! l = Some x) as Hl' by eauto using lookup_weaken.
  assert (forall c x, calls w' !! c = Some x -> calls w !! c = Some x) as Hc' by eauto using lookup_weaken.
  assert (forall p, (p < next_ptr w)%positive -> (p < next_ptr w')%positive) as Hp' by lia.
  split; rewrite ?Hg, ?Hn, ?Hk; eauto.
  - intros l x Hx. destruct (Hleg l x); auto.
  - intros c cl p Hcl Hpt. destruct (Hlink c cl p); auto.
  - intros h l Hh. destruct (Hnua h l Hh). auto.
Qed.

(** ** Rules of the judgement *)
Section rules.
Context {E : Env} (n : ptr).

Lemma ty_bind {A B} (m : MW A) (k : A -> MW B) P Q w :
  ty n m P w -> (forall a w', typed w' -> grows n w w' -> P a w' -> ty n (k a) Q w') -> ty n (m1 <- m ;; k m1) Q w.
Proof.
  unfold ty, bind. intros Hm Hk Hn. specialize (Hm Hn). destruct (m w) as [a w1|f w1]; [|done].
  destruct Hm as (Ht1 & Hg1 & Hp). pose proof (gr_next _ _ _ Hg1). specialize (Hk a w1 Ht1 Hg1 Hp ltac:(lia)).
  destruct (k a w1) as [b w2|f w2]; [|done]. destruct Hk as (? & ? & ?). split_and!; [done|by etransitivity|done].
Qed.

Lemma ty_mono {A} (m : MW A) (P Q : A -> world -> Prop) w :
  ty n m P w -> (forall a w', typed w' -> grows n w w' -> P a w' -> Q a w') -> ty n m Q w.
Proof. unfold ty. intros Hm HPQ Hn. specialize (Hm Hn). destruct (m w); [|done]. destruct_ands. auto. Qed.

Lemma ty_always {A} (m : MW A) Q w : ty n m Q w -> ty n m always w.
Proof. intros H. by eapply ty_mono. Qed.

(** The pointers from [n] on are those to come. *)
Lemma ty_next_ptr {A} (m : MW A) Q w : ((n <= next_ptr w)%positive -> ty n m Q w) -> ty n m Q w.
Proof. intros H Hn. by apply H. Qed.

Lemma ty_assoc {A B C} (m : MW A) (k : A -> MW B) (h : B -> MW C) Q w :
  ty n (a <- m ;; b <- k a ;; h b) Q w -> ty n (b <- (a <- m ;; k a) ;; h b) Q w.
Proof. unfold ty. by rewrite bind_assoc. Qed.

Lemma ty_keeps {A F} (f : world -> F) (m : MW A) Q w :
  keeps f m -> ty n m Q w -> ty n m (fun a w' => Q a w' /\ f w' = f w) w.
Proof.
  intros Hk Hm Hn. specialize (Hk w). specialize (Hm Hn). destruct (m w); [|done]. destruct_ands. auto.
Qed.

Lemma ty_ret {A} (a : A) (Q : A -> world -> Prop) w : typed w -> Q a w -> ty n (ret a) Q w.
Proof. intros ? ? ?. split_and!; [done|reflexivity|done]. Qed.

Lemma ty_crash {A} f (Q : A -> world -> Prop) w : excusable f -> ty n (crash f) Q w.
Proof. by intros ? ?. Qed.

(** A computation that only reads. *)
Lemma ty_gets {A B} (f : world -> A) (k : A -> MW B) Q w : ty n (k (f w)) Q w -> ty n (a <- gets f ;; k a) Q w.
Proof. done. Qed.

Lemma ty_some_or {A B} f (o : option A) (k : A -> MW B) Q w : excusable f ->
  (forall a, o = Some a -> ty n (k a) Q w) -> ty n (a <- some_or f o ;; k a) Q w.
Proof. intros Hf Hk. destruct o as [a|]; [by apply Hk|by apply ty_crash]. Qed.

Lemma ty_ret_bind {A B} (a : A) (k : A -> MW B) Q w : ty n (k a) Q w -> ty n (x <- ret a ;; k x) Q w.
Proof. done. Qed.

Lemma ty_some {A B} f (a : A) (k : A -> MW B) Q w : ty n (k a) Q w -> ty n (a <- some_or f (Some a) ;; k a) Q w.
Proof. done. Qed.

Lemma ty_assert {B} b (k : unit -> MW B) Q w : b = true -> ty n (k tt) Q w -> ty n (u <- assert b ;; k u) Q w.
Proof. by intros ->. Qed.

Lemma ty_modify f (Q : unit -> world -> Prop) w : typed (f w) -> grows n w (f w) -> Q tt (f w) -> ty n (modify f) Q w.
Proof. intros ? ? ? ?. by split_and!. Qed.

Lemma ty_when b (m : MW unit) w : typed w -> (b = true -> ty n m always w) -> ty n (when b m) always w.
Proof. destruct b; [auto|]. intros. by apply ty_ret. Qed.

(** ** Rules for the primitives *)
Context (w : world) (Hw : typed w).

Lemma ty_deref_leg {B} l (k : leg -> MW B) Q :
  (forall x, legs w !! l = Some x -> ty n (k x) Q w) -> ty n (x <- deref_leg l ;; k x) Q w.
Proof using.
  intros Hk. unfold deref_leg. apply ty_assoc, ty_gets, ty_some_or; [exact I|done].
Qed.

Lemma ty_deref_call {B} c (k : call -> MW B) Q :
  (forall cl, calls w !! c = Some cl -> ty n (k cl) Q w) -> ty n (cl <- deref_call c ;; k cl) Q w.
Proof using.
  intros Hk. unfold deref_call. apply ty_assoc, ty_gets, ty_some_or; [exact I|done].
Qed.

Lemma ty_as_mncc {B} l (k : mncc_leg -> MW B) Q : has_type w l CALL_TYPE_MNCC ->
  (forall x m, legs w !! l = Some x -> ext x = XMncc m -> ty n (k m) Q w) -> ty n (m <- as_mncc l ;; k m) Q w.
Proof using Hw.
  intros Hl Hk. unfold as_mncc. apply ty_assoc, ty_deref_leg. intros x Hx.
  pose proof (has_type_ext _ _ _ _ Hw Hl Hx) as He. destruct (ext x) as [m|m] eqn:Hxe; [by eapply Hk|done].
Qed.

Lemma ty_as_sip {B} l (k : sip_leg -> MW B) Q : has_type w l CALL_TYPE_SIP ->
  (forall x m, legs w !! l = Some x -> ext x = XSip m -> ty n (k m) Q w) -> ty n (m <- as_sip l ;; k m) Q w.
Proof using Hw.
  intros Hl Hk. unfold as_sip. apply ty_assoc, ty_deref_leg. intros x Hx.
  pose proof (has_type_ext _ _ _ _ Hw Hl Hx) as He. destruct (ext x) as [m|m] eqn:Hxe; [done|by eapply Hk].
Qed.

(** Only fields outside the type system change. *)
Lemma typed_same w' : legs w' = legs w -> calls w' = calls w -> g_call_list w' = g_call_list w ->
  nua w' = nua w -> next_ptr w' = next_ptr w -> conn w' = conn w -> typed w' /\ grows n w w'.
Proof using Hw. intros Hl Hc Hg Hn Hp Hk. apply typed_sub; rewrite ?Hl, ?Hc, ?Hp; done. Qed.

Lemma ty_modify_same f : legs (f w) = legs w -> calls (f w) = calls w -> g_call_list (f w) = g_call_list w ->
  nua (f w) = nua w -> next_ptr (f w) = next_ptr w -> conn (f w) = conn w -> ty n (modify f) always w.
Proof using Hw. intros. edestruct typed_same; [..|by apply ty_modify]; auto. Qed.

Lemma emit_ty a : ty n (emit a) always w.
Proof using Hw. by apply ty_modify_same. Qed.

Lemma tick_ty : ty n tick always w.
Proof using Hw. intros _. edestruct (typed_same (set_n_io S w)); [done..|]. by split_and!. Qed.

Lemma timer_schedule_ty l : ty n (timer_schedule l) always w.
Proof using Hw. apply ty_deref_leg. intros x Hx. by apply ty_modify_same. Qed.

Lemma timer_del_ty l : ty n (timer_del l) always w.
Proof using Hw. apply ty_deref_leg. intros x Hx. by apply ty_modify_same. Qed.

Lemma read_str_ty o : ty n (read_str o) always w.
Proof using Hw. destruct o as [[p s]|]; [|by apply ty_ret]. apply ty_deref_leg. intros x Hx. by apply ty_ret. Qed.

(** Writing a leg without changing its type and call; a leg older than [n] develops. *)
Lemma typed_set_leg l x y : legs w !! l = Some x -> lg_type (base y) = lg_type (base x) ->
  lg_call (base y) = lg_call (base x) -> tagged y -> ((l < n)%positive -> leg_le x y) ->
  typed (set_legs (<[l := y]>) w) /\ grows n w (set_legs (<[l := y]>) w).
Proof using Hw.
  intros Hx Ht Hc Htag Hle. destruct Hw as [Hleg Hcall Hlink Hpair Hnua Hnd Hlist Hconn].
  assert (forall p z, <[l := y]> (legs w) !! p = Some z -> exists z0, legs w !! p = Some z0
            /\ lg_type (base z) = lg_type (base z0) /\ lg_call (base z) = lg_call (base z0)) as Hold.
  { intros p z Hz. destruct (decide (l = p)) as [<-|];
      [rewrite lookup_insert_eq in Hz; simplify_eq; eauto|rewrite lookup_insert_ne in Hz by done; eauto]. }
  split.
  - split; simpl; auto.
    + intros p z Hz. destruct (Hold p z Hz) as (z0 & Hz0 & _). split; [by eapply Hleg|].
      destruct (decide (l = p)) as [<-|];
        [rewrite lookup_insert_eq in Hz; by simplify_eq|rewrite lookup_insert_ne in Hz by done; by eapply Hleg].
    + intros c cl p Hcl Hp. destruct (Hlink c cl p Hcl Hp) as [? Hin]. split; [done|].
      intros z Hz. destruct (Hold p z Hz) as (z0 & Hz0 & _ & ->). auto.
    + intros c cl i r u v Hcl Hi Hr Hu Hv. destruct (Hold i u Hu) as (u0 & Hu0 & -> & _).
      destruct (Hold r v Hv) as (v0 & Hv0 & -> & _). eauto.
    + intros h p Hp. destruct (Hnua h p Hp) as [? Hin]. split; [done|].
      intros z Hz. destruct (Hold p z Hz) as (z0 & Hz0 & -> & _). auto.
  - split; simpl; eauto using list_same; [done|]. intros p z Hz Hlt. simpl in Hz.
    destruct (decide (l = p)) as [<-|]; [|rewrite lookup_insert_ne in Hz by done; by exists z].
    rewrite lookup_insert_eq in Hz. simplify_eq. eauto.
Qed.

Lemma upd_leg_ty l f :
  (forall x, legs w !! l = Some x -> tagged x ->
     lg_type (base (f x)) = lg_type (base x) /\ lg_call (base (f x)) = lg_call (base x) /\ tagged (f x)
     /\ ((l < n)%positive -> leg_le x (f x))) ->
  ty n (upd_leg l f) always w.
Proof using Hw.
  intros Hf. apply ty_deref_leg. intros x Hx. destruct (Hf x Hx) as (? & ? & ? & ?); [by eapply ty_leg|].
  edestruct (typed_set_leg l x (f x)); eauto. by apply ty_modify.
Qed.

Lemma upd_base_ty l f : (forall b, base_le b (f b)) -> ty n (upd_base l f) always w.
Proof using Hw.
  intros Hf. apply upd_leg_ty. intros x _ Htag. pose proof (Hf (base x)) as Hle. pose proof Hle as (H1 & H2 & H3 & _).
  unfold tagged in *. simpl. rewrite H1, H2, H3. split_and!; try done; try apply Htag. intros _.
  split; [done|apply ext_le_refl].
Qed.

(** Completing a leg is left to those that are new. *)
Lemma set_ops_ty l t o : has_type w l t -> ops_for t o -> (n <= l)%positive ->
  ty n (upd_base l (set_ops o)) always w.
Proof using Hw.
  intros [_ Ht] Ho Hn. apply upd_leg_ty. intros x Hx [Htag _]. unfold tagged. simpl.
  split_and!; [done|done|done|by rewrite (Ht x Hx)|lia].
Qed.

Lemma upd_mncc_ty l f : has_type w l CALL_TYPE_MNCC -> (n <= l)%positive \/ (forall m, mncc_le m (f m)) ->
  ty n (upd_mncc l f) always w.
Proof using Hw.
  intros Hl Hf. apply ty_as_mncc; [done|]. intros x m Hx He. apply upd_leg_ty. intros y Hy [Ht Ho].
  simplify_eq. unfold tagged. simpl. rewrite He in Ht. split_and!; [done|done|done|done|]. intros Hlt.
  destruct Hf as [Hf|Hf]; [lia|]. split; simpl; [apply base_le_refl|]. rewrite He. apply Hf.
Qed.

Lemma upd_sip_ty l f : has_type w l CALL_TYPE_SIP ->
  (n <= l)%positive \/ (forall x s, legs w !! l = Some x -> ext x = XSip s -> sip_le s (f s)) ->
  ty n (upd_sip l f) always w.
Proof using Hw.
  intros Hl Hf. apply ty_as_sip; [done|]. intros x m Hx He. apply upd_leg_ty. intros y Hy [Ht Ho].
  simplify_eq. unfold tagged. simpl. rewrite He in Ht. split_and!; [done|done|done|done|]. intros Hlt.
  destruct Hf as [Hf|Hf]; [lia|]. split; simpl; [apply base_le_refl|]. rewrite He. by eapply Hf.
Qed.

Lemma ty_call_leg_other {B} l (k : option ptr -> MW B) Q :
  ty n (k None) Q w -> (forall l', mates w l l' -> ty n (k (Some l')) Q w) -> ty n (o <- call_leg_other l ;; k o) Q w.
Proof using Hw.
  intros Hn Hs. unfold call_leg_other. apply ty_assoc, ty_deref_leg. intros x Hx.
  apply ty_assoc, ty_deref_call. intros cl Hcl.
  destruct (decide (initial cl = Some l)) as [Hi|_]; [|destruct (decide (remote cl = Some l)) as [Hr|_]].
  - destruct (remote cl) as [l'|] eqn:Hr; [apply Hs|apply Hn]. exists x, cl. auto.
  - destruct (initial cl) as [l'|] eqn:Hi; [apply Hs|apply Hn]. exists x, cl. auto.
  - apply Hn.
Qed.
End rules.

(** ** Rules for the operations on calls, handles and the heap *)
Section heap.
Context {E : Env} (n : ptr) (w : world) (Hw : typed w).

(** Writing a call whose pointers are old or cleared. *)
Lemma typed_set_call c cl cl' : calls w !! c = Some cl ->
  (initial cl' = initial cl \/ initial cl' = None) ->
  (forall r, remote cl' = Some r -> remote cl = Some r \/
     in_call w r c /\ exists t, has_init w c t /\ has_type w r (opposite t)) ->
  typed (set_calls (<[c := cl']>) w) /\ grows n w (set_calls (<[c := cl']>) w).
Proof using Hw.
  intros Hc Hi Hr. destruct Hw as [Hleg Hcall Hlink Hpair Hnua Hnd Hlist Hconn]. split.
  - split; simpl; auto.
    + intros c' x Hx. destruct (decide (c = c')) as [<-|];
        [by eapply Hcall|rewrite lookup_insert_ne in Hx by done; by eapply Hcall].
    + intros c' x p Hx Hp. destruct (decide (c = c')) as [<-|];
        [rewrite lookup_insert_eq in Hx|rewrite lookup_insert_ne in Hx by done; by eapply Hlink].
      simplify_eq. destruct Hp as [Hp|Hp].
      * eapply Hlink; [done|]. left. destruct Hi; congruence.
      * destruct (Hr p Hp) as [Hp'|[Hin _]]; [|exact Hin]. eapply Hlink; [done|by right].
    + intros c' x i r u v Hx Hi' Hr' Hu Hv. destruct (decide (c = c')) as [<-|];
        [rewrite lookup_insert_eq in Hx|rewrite lookup_insert_ne in Hx by done; by eapply Hpair].
      simplify_eq. assert (initial cl = Some i) as Hi0 by (destruct Hi; congruence).
      destruct (Hr r Hr') as [Hr0|(_ & t & [_ Hit] & [_ Hrt])]; [by eapply Hpair|].
      destruct (Hit cl i Hc Hi0) as [_ Hit']. by rewrite (Hrt v Hv), (Hit' u Hu).
  - split; simpl; [done|eauto|by apply develops_same| | |done].
    + intros c' x Hx _. destruct (decide (c = c')) as [<-|];
        [rewrite lookup_insert_eq in Hx; simplify_eq; eauto|rewrite lookup_insert_ne in Hx by done; eauto].
    + apply list_same.
Qed.

Lemma upd_call_ty c f :
  (forall cl, (initial (f cl) = initial cl \/ initial (f cl) = None)
              /\ (remote (f cl) = remote cl \/ remote (f cl) = None)) ->
  ty n (upd_call c f) always w.
Proof using Hw.
  intros Hf. apply ty_deref_call. intros cl Hcl. destruct (Hf cl) as [Hi Hr].
  edestruct (typed_set_call c cl (f cl)); [done|done| |by apply ty_modify].
  intros r Hr'. left. destruct Hr; congruence.
Qed.

Lemma set_remote_ty c l t : in_call w l c -> has_init w c t -> has_type w l (opposite t) ->
  ty n (upd_call c (set_remote (Some l))) always w.
Proof using Hw.
  intros Hl Hi Ht. apply ty_deref_call. intros cl Hcl.
  edestruct (typed_set_call c cl (set_remote (Some l) cl)); [done|by left| |by apply ty_modify].
  intros r [= <-]. right. eauto.
Qed.

(** Objects that go away. *)
Lemma free_leg_ty l : ty n (free_leg l) always w.
Proof using Hw.
  apply ty_deref_leg. intros x Hx.
  destruct (typed_sub n w (set_legs (delete l) w)) as [Ht Hg];
    try done. apply delete_subseteq.
Qed.

Lemma free_call_ty c : ty n (free_call c) always w.
Proof using Hw.
  apply ty_deref_call. intros x Hx. unfold ty, bind, modify.
  destruct (typed_sub n w (set_legs (filter (fun kv => lg_call (base kv.2) <> c)) (set_calls (delete c) w))) as [Ht Hg];
    try done; [apply map_filter_subseteq|apply delete_subseteq].
Qed.

Lemma unlist_ty c : ty n (modify (set_g_call_list (filter (fun c' => c' <> c)))) always w.
Proof using Hw.
  destruct Hw as [Hleg Hcall Hlink Hpair Hnua Hnd Hlist Hconn]. apply ty_modify; [| |done].
  - split; simpl; auto; [by apply NoDup_filter|]. intros c' [_ Hc']%list_elem_of_filter. auto.
  - split; simpl; eauto using develops_same; [done|]. exists [], (filter (fun c' => c' <> c) (g_call_list w)).
    split_and!; [done|apply sublist_filter|]. intros c'. by rewrite elem_of_nil.
Qed.

(** Handles. *)
Lemma nua_handle_destroy_ty h : ty n (nua_handle_destroy h) always w.
Proof using Hw.
  eapply ty_bind; [by apply emit_ty|]. clear Hw. intros _ w1 Hw _ _. destruct h as [h|]; [|by apply ty_ret].
  destruct Hw as [Hleg Hcall Hlink Hpair Hnua Hnd Hlist Hconn]. apply ty_modify; [| |done].
  - split; simpl; auto. intros h' l Hl. apply lookup_delete_Some in Hl as [_ Hl]. eauto.
  - split; simpl; eauto using list_same, develops_same; done.
Qed.

Lemma nua_handle_bind_ty h l : has_type w l CALL_TYPE_SIP -> ty n (nua_handle_bind h l) always w.
Proof using Hw.
  intros Hl. destruct Hw as [Hleg Hcall Hlink Hpair Hnua Hnd Hlist Hconn]. apply ty_modify; [| |done].
  - split; simpl; auto. intros h' l'.
    destruct (decide (h = h')) as [<-|]; [rewrite lookup_insert_eq|rewrite lookup_insert_ne by done; apply Hnua].
    by intros [= <-].
  - split; simpl; eauto using list_same, develops_same; done.
Qed.

(** A new leg, which nothing points to yet. *)
Lemma typed_new_leg x : tagged x -> (n <= next_ptr w)%positive ->
  typed (set_legs (<[next_ptr w := x]>) (set_next_ptr Pos.succ w))
  /\ grows n w (set_legs (<[next_ptr w := x]>) (set_next_ptr Pos.succ w)).
Proof using Hw.
  intros Htag Hnp. destruct Hw as [Hleg Hcall Hlink Hpair Hnua Hnd Hlist Hconn].
  assert (forall p, (p < next_ptr w)%positive -> <[next_ptr w := x]> (legs w) !! p = legs w !! p) as Hold.
  { intros p Hp. apply lookup_insert_ne. lia. }
  split.
  - split; simpl; auto.
    + intros p z Hz. destruct (decide (next_ptr w = p)) as [<-|];
        [rewrite lookup_insert_eq in Hz; simplify_eq; split; [lia|done]|].
      rewrite lookup_insert_ne in Hz by done. destruct (Hleg p z Hz). split; [lia|done].
    + intros c cl Hc. specialize (Hcall c cl Hc). lia.
    + intros c cl p Hc Hp. destruct (Hlink c cl p Hc Hp) as [Hlt Hin]. rewrite (Hold p Hlt). split; [lia|done].
    + intros c cl i r u v Hc Hi Hr. rewrite (Hold i), (Hold r); [by eapply Hpair| |].
      * apply (Hlink c cl r Hc). by right.
      * apply (Hlink c cl i Hc). by left.
    + intros h p Hp. destruct (Hnua h p Hp) as [Hlt Hin]. rewrite (Hold p Hlt). split; [lia|done].
    + intros c Hc. specialize (Hlist c Hc). lia.
  - split; simpl; [lia| | |eauto| |done].
    + intros p z Hz Hp. rewrite (Hold p Hp) in Hz. eauto.
    + intros p z Hz Hp. simpl in Hz. rewrite (Hold p) in Hz by lia. by exists z.
    + apply list_same.
Qed.

End heap.

(** ** Automation

    [ty_step] runs the first operation of a sequence by a rule of [tydb] and
    carries what is known of pointers over to the next store; [ty_go] runs as
    far as it gets. *)
(** The new state of a dialog is not before the old one. *)
Ltac sip_up := repeat match goal with st : sip_cc_state |- _ => destruct st end; simpl in *; lia.

Create HintDb tydb discriminated.
#[export] Hint Constants Opaque : tydb.
#[export] Hint Resolve emit_ty tick_ty timer_schedule_ty timer_del_ty read_str_ty upd_mncc_ty upd_sip_ty
  free_leg_ty free_call_ty unlist_ty nua_handle_destroy_ty nua_handle_bind_ty set_ops_ty set_remote_ty : tydb.
#[export] Hint Extern 1 (ty _ (upd_base _ _) _ _) =>
  (apply upd_base_ty; [assumption|intros ?; by split_and!]) : tydb.
#[export] Hint Extern 1 (_ \/ forall _, mncc_le _ _) =>
  first [left; assumption|right; intros ?; by split_and!] : tydb.
#[export] Hint Extern 1 (_ \/ forall _ _, _ -> _ -> sip_le _ _) =>
  first [left; assumption|right; intros ? s ? ?; destruct s; unfold sip_le; simpl; split_and!; [done|done|sip_up]] : tydb.
#[export] Hint Extern 1 (ty _ (upd_call _ _) _ _) => (apply upd_call_ty; [assumption|by split; auto]) : tydb.
#[export] Hint Extern 1 (ty _ (modify _) _ _) => (by apply ty_modify_same) : tydb.
#[export] Hint Extern 1 (ty _ (ret _) _ _) => (apply ty_ret; [assumption|done]) : tydb.
#[export] Hint Extern 1 (ty _ (crash _) _ _) => (apply ty_crash; exact I) : tydb.
#[export] Hint Extern 1 (ops_for _ _) => (cbn [ops_for]; tauto) : tydb.
#[export] Hint Extern 2 (ty _ (when _ _) _ _) => (apply ty_when; [assumption|intros _]) : tydb.

(** The other leg of a leg with a type has the opposite type. *)
Lemma mates_has_type w l l' t : typed w -> mates w l l' -> has_type w l t -> has_type w l' (opposite t).
Proof.
  intros Hw (x & cl & Hx & Hcl & Hor) [_ Ht]. specialize (Ht x Hx) as <-.
  split; [eapply (ty_link w Hw _ cl); [done|]; unfold points; tauto|].
  intros y Hy. destruct Hor as [[Hi Hr]|[Hr Hi]]; [by eapply (ty_pair w Hw)|].
  rewrite (ty_pair w Hw _ _ _ _ _ _ Hcl Hi Hr Hy Hx). destruct (ty_leg w Hw l' y Hy) as [_ [Hty _]].
  rewrite Hty. by destruct (ext y).
Qed.

(** Move the facts about pointers from [w] to [w']. *)
Ltac carry Hg :=
  match type of Hg with
  | grows _ ?w ?w' =>
      repeat match goal with
      | H : has_type w _ _ |- _ => apply (has_type_grows _ _ _ _ _ Hg) in H
      | H : in_call w _ _ |- _ => apply (in_call_grows _ _ _ _ _ Hg) in H
      | H : has_init w _ _ |- _ => apply (has_init_grows _ _ _ _ _ Hg) in H
      | H : init_new _ w _ |- _ => apply (init_new_grows _ _ _ _ _ Hg) in H
      | H : cn_fd (conn w) < 0 |- _ => apply (down_grows _ _ _ Hg) in H
      | H : forall _, _ = Some _ -> has_type w _ _ |- _ =>
          let H' := fresh in pose proof (fun l e => has_type_grows _ _ _ _ _ Hg (H l e)) as H'; clear H; rename H' into H
      end
  end.

Ltac ty_next :=
  let Hw := fresh "Hw" in let Hg := fresh "Hg" in let HQ := fresh "HQ" in
  cbv beta; intros ? ? Hw Hg HQ; carry Hg; try clear HQ;
  repeat match goal with H : typed ?w |- _ =>
    lazymatch type of Hw with typed w => fail | _ => clear H end end;
  try clear Hg.

Ltac ty_step := eapply ty_bind; [solve [eauto with tydb]|ty_next].
Tactic Notation "ty_use" uconstr(H) := eapply ty_bind; [eapply H; eauto|].

(** The last operation. *)
Ltac ty_end := solve [eauto with tydb | eapply ty_always; eauto with tydb].

Ltac mates_type Hm :=
  match type of Hm with
  | mates ?w ?l ?l' =>
      try match goal with
      | Hw : typed w, Ht : has_type w l ?t |- _ =>
          let H := fresh "Ht" in pose proof (mates_has_type w l l' t Hw Hm Ht) as H; cbn [opposite] in H
      end
  end.

Ltac ty_core :=
  match goal with
  | |- ty _ (bind (deref_leg _) _) _ _ =>
      let x := fresh "x" in let Hx := fresh "Hx" in apply ty_deref_leg; intros x Hx
  | |- ty _ (bind (deref_call _) _) _ _ =>
      let cl := fresh "cl" in let Hcl := fresh "Hcl" in apply ty_deref_call; intros cl Hcl
  | |- ty _ (bind (as_mncc _) _) _ _ =>
      let m := fresh "m" in apply ty_as_mncc; [assumption|assumption|intros ? m _ _]
  | |- ty _ (bind (as_sip _) _) _ _ =>
      let m := fresh "m" in apply ty_as_sip; [assumption|assumption|intros ? m _ _]
  | |- ty _ (bind (call_leg_other _) _) _ _ =>
      let l' := fresh "other" in let Hm := fresh "Hm" in
      apply ty_call_leg_other; [assumption|cbv beta iota|intros l' Hm; cbv beta iota; mates_type Hm]
  | |- ty _ (bind (gets _) _) _ _ => apply ty_gets
  | |- ty _ (bind (some_or _ _) _) _ _ => apply ty_some_or; [exact I|intros ? ?]
  | |- ty _ (ret _) always _ => apply ty_ret; [assumption|exact I]
  | |- ty _ (when _ _) always _ => apply ty_when; [assumption|intros ?]
  | |- ty _ (let '(_, _) := ?p in _) _ _ => destruct p
  | |- ty _ (if ?b then _ else _) _ _ => destruct b
  | |- ty _ (match ?x with _ => _ end) _ _ => destruct x
  | |- ty _ (bind (ret _) _) _ _ => apply ty_ret_bind
  | |- ty _ (bind (bind _ _) _) _ _ => apply ty_assoc
  | |- ty _ (bind _ _) _ _ => ty_step
  | |- ty _ (bind (if ?b then _ else _) _) _ _ => destruct b
  | |- ty _ (bind (match ?x with _ => _ end) _) _ _ => destruct x
  | |- ty _ _ _ _ => ty_end
  end.
Ltac ty_go := repeat ty_core.

(** ** Calls and call legs (call.c) *)
Section call.
Context {E : Env} (n : ptr) (w : world) (Hw : typed w).

Lemma talloc_leg_ty x : tagged x ->
  ty n (talloc_leg x) (fun o w' => forall l, o = Some l -> (n <= l)%positive /\
        has_type w' l (lg_type (base x)) /\ in_call w' l (lg_call (base x))) w.
Proof using Hw.
  intros Htag. eapply ty_bind; [by apply tick_ty|]. intros k w1 Hw1 _ _.
  destruct (alloc_ok k); [|by apply ty_ret]. apply ty_gets. intros Hnp.
  destruct (typed_new_leg n w1 Hw1 x Htag Hnp) as [Ht Hg]. split_and!; [exact Ht|exact Hg|].
  intros l [= <-]. simpl. split; [done|].
  split; (split; [simpl; lia|]); intros y; simpl; rewrite lookup_insert_eq; congruence.
Qed.

Lemma talloc_str_ty p s : ty n (talloc_str p s) always w.
Proof using Hw. unfold talloc_str. ty_go. Qed.

Lemma call_leg_release_ty l : ty n (call_leg_release l) always w.
Proof using Hw. unfold call_leg_release. ty_go. Qed.

Lemma call_leg_rx_sdp_ty l sdp : ty n (call_leg_rx_sdp l sdp) always w.
Proof using Hw.
  apply upd_base_ty; [done|]. intros b. unfold rx_sdp_update. destruct sdp as [t|]; [|apply base_le_refl].
  destruct (String.eqb _ _ || _); [apply base_le_refl|by split_and!].
Qed.
End call.

(** [call_mncc_create] and [call_sip_create]: both objects are fresh. *)
Section create.
Context {E : Env} (n : ptr) (w : world) (Hw : typed w).

Lemma typed_create w' c l cl x : c = next_ptr w -> l = Pos.succ c -> initial cl = Some l -> remote cl = None ->
  tagged x -> lg_call (base x) = c -> calls w' = <[c := cl]> (calls w) -> legs w' = <[l := x]> (legs w) ->
  g_call_list w' = c :: g_call_list w -> nua w' = nua w -> next_ptr w' = Pos.succ l -> conn w' = conn w ->
  (n <= next_ptr w)%positive -> typed w' /\ grows n w w'.
Proof using Hw.
  intros Hc0 Hl0 Hi Hr Htag Hxc Hcalls Hlegs Hlst Hn Hp Hk Hnp.
  destruct Hw as [Hleg Hcall Hlink Hpair Hnua Hnd Hlist Hconn].
  assert (forall c' z, calls w' !! c' = Some z -> c' = c /\ z = cl \/ calls w !! c' = Some z) as Hins.
  { rewrite Hcalls. intros c' z. destruct (decide (c = c')) as [<-|];
      [rewrite lookup_insert_eq; left; split; congruence|rewrite lookup_insert_ne by done; auto]. }
  assert (forall p, (p < next_ptr w)%positive -> legs w' !! p = legs w !! p) as Hold.
  { intros p ?. rewrite Hlegs. apply lookup_insert_ne. lia. }
  assert (legs w' !! l = Some x) as Hlx by (rewrite Hlegs; apply lookup_insert_eq).
  split.
  - split; rewrite ?Hlst, ?Hn, ?Hp, ?Hk; auto.
    + intros p z. rewrite Hlegs. destruct (decide (l = p)) as [<-|];
        [rewrite lookup_insert_eq; intros [= <-]; split; [lia|done]|rewrite lookup_insert_ne by done].
      intros Hz. destruct (Hleg p z Hz). split; [lia|done].
    + intros c' z Hz. destruct (Hins c' z Hz) as [[-> _]|H]; [lia|]. specialize (Hcall c' z H). lia.
    + intros c' z p Hz Hpt. destruct (Hins c' z Hz) as [[-> ->]|H].
      * destruct Hpt as [Hpt|Hpt]; [|congruence]. assert (p = l) as -> by congruence. split; [lia|]. congruence.
      * destruct (Hlink c' z p H Hpt) as [Hlt Hin]. rewrite (Hold p Hlt). split; [lia|done].
    + intros c' z i r u v Hz Hi' Hr'. destruct (Hins c' z Hz) as [[_ ->]|H]; [congruence|].
      rewrite (Hold i), (Hold r); [by eapply Hpair| |]; eapply Hlink; eauto; [by right|by left].
    + intros h p Hh. destruct (Hnua h p Hh) as [Hlt Hin]. rewrite (Hold p Hlt). split; [lia|done].
    + constructor; [|done]. intros Hin. specialize (Hlist c Hin). lia.
    + intros c' [->|Hin]%elem_of_cons; [lia|]. specialize (Hlist c' Hin). lia.
  - split; [lia| | | | |done].
    + intros p z Hz Hlt. rewrite (Hold p Hlt) in Hz. eauto.
    + intros p z Hz Hlt. rewrite (Hold p) in Hz by lia. by exists z.
    + intros c' z Hz Hlt. destruct (Hins c' z Hz) as [[-> _]|H]; [lia|eauto].
    + exists [c], (g_call_list w). rewrite Hlst. split_and!; [done|done|].
      intros c' ->%list_elem_of_singleton. lia.
Qed.

Lemma call_create_ty t x : t = ext_type x ->
  ty n (call_create t x) (fun o w' => match o with
    | Some c => has_init w' c t /\ init_new n w' c
    | None => alloc_ok (n_io w) && alloc_ok (S (n_io w)) = false
    end) w.
Proof using Hw.
  intros Ht Hnp. unfold call_create, talloc_call, talloc_leg, tick, upd_call, free_call, deref_call,
    bind, gets, modify, some_or, ret, crash. simpl.
  destruct (alloc_ok (n_io w)) eqn:Ha; simpl.
  2:{ destruct (typed_sub n w (set_n_io S w)); eauto; done. }
  rewrite lookup_insert_eq. simpl. destruct (alloc_ok (S (n_io w))) eqn:Ha'; simpl; rewrite !lookup_insert_eq; simpl.
  - match goal with |- typed ?w1 /\ _ => destruct (typed_create w1 (next_ptr w) (Pos.succ (next_ptr w))
      (Call (u32 (last_call_id w + 1)) (Some (Pos.succ (next_ptr w))) None None None [] false)
      (Leg (call_leg_new t (next_ptr w)) x)) as [Htw Hg]; try done; simpl end.
    + unfold tagged. simpl. subst t. split; [done|]. destruct x; by left.
    + by rewrite !insert_insert_eq.
    + split_and!; [exact Htw|exact Hg| |split; simpl; [lia|]; intros cl i; rewrite lookup_insert_eq; intros [= <-] [= <-]; lia].
      split; [simpl; lia|]. simpl. intros cl i.
      rewrite lookup_insert_eq. intros [= <-] [= <-]. split; [simpl; lia|]. simpl. intros y.
      rewrite lookup_insert_eq. by intros [= <-].
  - match goal with |- typed ?w1 /\ _ => destruct (typed_sub n w w1) as [Htw Hg]; try done; simpl end.
    + apply map_filter_subseteq.
    + rewrite !delete_insert_eq. apply delete_subseteq.
    + lia.
Qed.
End create.
