(* ===== verification/TypeSafety.v ===== *)
(** * Type safety and termination of every handler

    The judgement of Typing.v for the functions of the program, from SDP to the
    event handlers.  No assumption is made on the peers, on writes or on memory:
    a cast to the wrong structure, a failed assertion other than the one of [new_call]
    that memory is there, and an exhausted recursion bound are impossible in every
    execution. *)
From S2P Require Import Prelude Effect Codec Protocol Lib State Call Sdp SipLeg MnccConn App MnccRx SipUa System Typing.

#[export] Hint Resolve talloc_str_ty call_leg_release_ty call_leg_rx_sdp_ty : tydb.

(** ** SDP and SIP legs *)
Section sip.
Context {E : Env} (n : ptr) (w : world) (Hw : typed w).

Lemma sdp_extract_sdp_ty l sip any : has_type w l CALL_TYPE_SIP -> ty n (sdp_extract_sdp l sip any) always w.
Proof using Hw.
  intros Hl. unfold sdp_extract_sdp. ty_core. destruct (sip_payload sip); [|ty_end].
  destruct (sdp_session_of _ _) as [sess|]; [|ty_end]. ty_core.
  destruct (extract_conn _ _) as [a found] eqn:Hconn. ty_core.
  destruct (extract_media _ _ _) as [[port pt]|]; [|ty_end]. ty_core.
  destruct found; simpl; [|ty_end]. apply ty_assert; [|ty_go].
  apply extract_conn_family in Hconn as [-> | ->]; done.
Qed.

Lemma sdp_create_file_ty l other mode : has_type w l CALL_TYPE_SIP -> ty n (sdp_create_file l other mode) always w.
Proof using Hw. intros Hl. unfold sdp_create_file. ty_go. Qed.

(** An assertion on the type of a leg that has the type. *)
Lemma assert_type_ty l t : has_type w l t -> ty n (assert_type l t) always w.
Proof using Hw.
  intros [_ Hl]. unfold assert_type. ty_core. rewrite (Hl x Hx), bool_decide_eq_true_2 by done. by apply ty_ret.
Qed.
End sip.
#[export] Hint Resolve sdp_extract_sdp_ty sdp_create_file_ty assert_type_ty : tydb.

Section sip_leg.
Context {E : Env} (n : ptr) (w : world) (Hw : typed w) (l : ptr) (Hl : has_type w l CALL_TYPE_SIP).

Lemma sip_release_call_ty : ty n (sip_release_call l) always w.
Proof using Hw Hl. unfold sip_release_call. ty_go. Qed.

Lemma sip_ring_call_ty : ty n (sip_ring_call l) always w.
Proof using Hw Hl. unfold sip_ring_call. ty_go. Qed.

Lemma sip_dtmf_call_ty k : ty n (sip_dtmf_call l k) always w.
Proof using Hw Hl. unfold sip_dtmf_call. ty_go. Qed.
End sip_leg.
#[export] Hint Resolve sip_release_call_ty sip_ring_call_ty sip_dtmf_call_ty : tydb.

Section sip_leg2.
Context {E : Env} (n : ptr) (w : world) (Hw : typed w) (l : ptr) (Hl : has_type w l CALL_TYPE_SIP).

Lemma sip_connect_call_ty : ty n (sip_connect_call l) always w.
Proof using Hw Hl. unfold sip_connect_call. ty_go. Qed.

Lemma sip_reinvite_ty mode st : sip_rank st = 2%nat -> ty n (sip_reinvite l mode st) always w.
Proof using Hw Hl. intros Hst. unfold sip_reinvite. ty_go. Qed.

Lemma sip_hold_call_ty : ty n (sip_hold_call l) always w.
Proof using Hw Hl. by apply sip_reinvite_ty. Qed.

Lemma sip_retrieve_call_ty : ty n (sip_retrieve_call l) always w.
Proof using Hw Hl. by apply sip_reinvite_ty. Qed.

Lemma new_nua_handle_ty : ty n (new_nua_handle l) always w.
Proof using Hw Hl. unfold new_nua_handle. ty_go. Qed.
End sip_leg2.
#[export] Hint Resolve sip_connect_call_ty sip_hold_call_ty sip_retrieve_call_ty new_nua_handle_ty : tydb.

(** A remote leg is of the type opposite to that of the initial leg. *)
Section sip_remote.
Context {E : Env} (n : ptr) (w : world) (Hw : typed w).

Lemma gcr_header_ty cl : ty n (gcr_header cl) always w.
Proof using Hw. unfold gcr_header. ty_go. Qed.
End sip_remote.
#[export] Hint Resolve gcr_header_ty : tydb.

Section sip_remote2.
Context {E : Env} (n : ptr) (w : world) (Hw : typed w).

Lemma send_invite_ty l c src dst : (n <= l)%positive -> has_type w l CALL_TYPE_SIP -> in_call w l c ->
  has_init w c CALL_TYPE_MNCC -> ty n (send_invite l src dst) always w.
Proof using Hw.
  intros Hn Hl Hc Hi. unfold send_invite. ty_core. destruct Hc as [Hlt Hc]. specialize (Hc x Hx) as Heq.
  assert (in_call w l c) as Hc' by done. clear Hc. rewrite Heq. ty_go.
Qed.

End sip_remote2.
#[export] Hint Extern 4 (ty _ (send_invite _ _ _) _ _) => (eapply send_invite_ty; eassumption) : tydb.

(** Allocating a leg and going on with it. *)
Lemma ty_talloc_leg {E : Env} {B} n w x (k : option ptr -> MW B) Q : typed w -> tagged x ->
  (forall w', typed w' -> grows n w w' -> ty n (k None) Q w') ->
  (forall w' l, typed w' -> grows n w w' -> (n <= l)%positive -> has_type w' l (lg_type (base x)) ->
     in_call w' l (lg_call (base x)) -> ty n (k (Some l)) Q w') ->
  ty n (o <- talloc_leg x ;; k o) Q w.
Proof.
  intros Hw Htag Hn Hs. eapply ty_bind; [by apply talloc_leg_ty|]. intros [l|] w' Hw' Hg Hl; [|by apply Hn].
  destruct (Hl l eq_refl) as (? & ? & ?). by apply Hs.
Qed.
Ltac ty_alloc := apply ty_talloc_leg; [assumption|split; [done|simpl; auto]| |];
  [intros ? ? Hg; carry Hg; ty_go|intros ? l ? Hg ? ? ?; carry Hg].

Section sip_create.
Context {E : Env} (n : ptr) (w : world) (Hw : typed w).

Lemma sip_create_remote_leg_ty c : has_init w c CALL_TYPE_MNCC -> ty n (sip_create_remote_leg c) always w.
Proof using Hw. intros Hi. unfold sip_create_remote_leg. ty_core. ty_alloc. simpl in *. ty_go. Qed.
End sip_create.
#[export] Hint Resolve sip_create_remote_leg_ty : tydb.

(** ** The connection and MNCC legs *)
Section mncc.
Context {E : Env} (n : ptr) (w : world) (Hw : typed w).

Lemma mncc_leg_release_ty l : ty n (mncc_leg_release l) always w.
Proof using Hw. unfold mncc_leg_release. ty_go. Qed.

Lemma start_cmd_timer_ty l t : has_type w l CALL_TYPE_MNCC -> ty n (start_cmd_timer l t) always w.
Proof using Hw. intros Hl. unfold start_cmd_timer. ty_go. Qed.

Lemma stop_cmd_timer_ty l t : has_type w l CALL_TYPE_MNCC -> ty n (stop_cmd_timer l t) always w.
Proof using Hw. intros Hl. unfold stop_cmd_timer. ty_go. Qed.

(** The search returns a leg with the tag of an MNCC leg. *)
Lemma mncc_leg_matches_ty cr o :
  ty n (mncc_leg_matches cr o) (fun b w' => w' = w /\ (b = true -> forall l, o = Some l -> has_type w l CALL_TYPE_MNCC)) w.
Proof using Hw.
  destruct o as [l|]; [|by apply ty_ret]. simpl. ty_core.
  pose proof (typed_has_type w l x Hw Hx) as Ht. destruct (lg_type (base x)); try by apply ty_ret.
  ty_core. apply ty_ret; [done|]. split; [done|]. by intros _ l' [= <-].
Qed.

Definition finds (o : option ptr) (w' : world) : Prop :=
  w' = w /\ forall l, o = Some l -> has_type w l CALL_TYPE_MNCC.

Lemma mncc_find_leg_in_ty cs cr : ty n (mncc_find_leg_in cs cr) finds w.
Proof using Hw.
  induction cs as [|c cs IH]; simpl; [by apply ty_ret|]. ty_core.
  eapply ty_bind; [apply mncc_leg_matches_ty|]. intros b ? _ _ [-> Hb]. destruct b; [apply ty_ret; [done|by split; auto]|].
  eapply ty_bind; [apply mncc_leg_matches_ty|]. intros b ? _ _ [-> Hb']. destruct b; [apply ty_ret; [done|by split; auto]|].
  exact IH.
Qed.
End mncc.
#[export] Hint Resolve mncc_leg_release_ty start_cmd_timer_ty stop_cmd_timer_ty : tydb.

(** Going on with the leg found. *)
Section find.
Context {E : Env} (n : ptr) (w : world) (Hw : typed w).

Lemma ty_mncc_find_leg {B} cr (k : option ptr -> MW B) Q :
  ty n (k None) Q w -> (forall l, has_type w l CALL_TYPE_MNCC -> ty n (k (Some l)) Q w) ->
  ty n (o <- mncc_find_leg cr ;; k o) Q w.
Proof using Hw.
  intros Hn Hs. unfold mncc_find_leg. apply ty_assoc, ty_gets.
  eapply ty_bind; [by apply mncc_find_leg_in_ty|]. intros o ? _ _ [-> Ho]. destruct o; auto.
Qed.

Lemma ty_mncc_find_leg_not_released {B} cr (k : option ptr -> MW B) Q :
  ty n (k None) Q w -> (forall l, has_type w l CALL_TYPE_MNCC -> ty n (k (Some l)) Q w) ->
  ty n (o <- mncc_find_leg_not_released cr ;; k o) Q w.
Proof using Hw.
  intros Hn Hs. unfold mncc_find_leg_not_released. apply ty_assoc, ty_mncc_find_leg; [done|].
  intros l Hl. apply ty_assoc, ty_deref_leg. intros x _. destruct (in_release (base x)); [exact Hn|exact (Hs l Hl)].
Qed.

Lemma mncc_fill_header_ty m t cr : ty n (mncc_fill_header m t cr) always w.
Proof using Hw.
  unfold mncc_fill_header. destruct (_ || _); [|ty_end]. apply ty_mncc_find_leg; ty_go. intros l Hl. ty_go.
Qed.
End find.
#[export] Hint Resolve mncc_fill_header_ty : tydb.

(** A connection that is up may be changed. *)
Lemma set_conn_ty {E : Env} n f w : typed w -> 0 <= cn_fd (conn w) ->
  (cn_fd (f (conn w)) < 0 -> cn_state (f (conn w)) <> MNCC_READY) ->
  ty n (modify (set_conn f)) (fun _ w' => conn w' = f (conn w)) w.
Proof.
  intros [Hleg Hcall Hlink Hpair Hnua Hnd Hlist Hconn] Hfd Hf _. split_and!; [by split| |done].
  split; simpl; eauto using list_same, develops_same; [done|lia].
Qed.

(** A leg, if alive, has the other in its call. *)
Definition paired (w : world) (l l' : ptr) : Prop :=
  exists c cl, calls w !! c = Some cl /\ in_call w l c
    /\ (initial cl = Some l /\ remote cl = Some l' \/ remote cl = Some l /\ initial cl = Some l').

Lemma mates_paired w l l' : typed w -> mates w l l' -> paired w l' l.
Proof.
  intros Hw (x & cl & Hx & Hcl & Hor). exists (lg_call (base x)), cl. split; [done|]. split; [|tauto].
  apply (ty_link w Hw _ cl); [done|]. unfold points. tauto.
Qed.

Lemma paired_grows n w w' l l' : grows n w w' -> calls w' = calls w -> paired w l l' -> paired w' l l'.
Proof.
  intros Hg Hc (c & cl & Hcl & Hl & Hor). exists c, cl. rewrite Hc. split_and!; [done| |done].
  by eapply in_call_grows.
Qed.

Lemma ty_call_leg_other_paired {E : Env} {B} n w l l' (k : option ptr -> MW B) Q : paired w l l' ->
  ty n (k (Some l')) Q w -> ty n (o <- call_leg_other l ;; k o) Q w.
Proof.
  intros (c & cl & Hcl & [_ Hl] & Hor) Hk. unfold call_leg_other.
  apply ty_assoc, ty_deref_leg. intros x Hx. apply ty_assoc, ty_deref_call. rewrite (Hl x Hx). intros cl' Hcl'.
  simplify_eq. destruct (decide (initial cl = Some l)) as [Hi|Hi]; [|destruct (decide (remote cl = Some l)) as [Hr|Hr]].
  - assert (remote cl = Some l') as Hr by (destruct Hor as [[_ ?]|[? ?]]; congruence). rewrite Hr. exact Hk.
  - assert (initial cl = Some l') as -> by (destruct Hor as [[? _]|[_ ?]]; congruence). exact Hk.
  - destruct Hor as [[? _]|[? _]]; congruence.
Qed.

Lemma ty_assert_type {E : Env} {B} n w l t (k : unit -> MW B) Q : has_type w l t ->
  ty n (k tt) Q w -> ty n (u <- assert_type l t ;; k u) Q w.
Proof.
  intros [_ Hl] Hk. unfold assert_type. apply ty_assoc, ty_deref_leg. intros x Hx.
  apply ty_assert; [|done]. by rewrite bool_decide_eq_true, (Hl x Hx).
Qed.

(** ** Sending

    [disc] is what [conn->on_disconnect] does; it is entered with the connection
    down. *)
Section sending.
Context {E : Env} {HE : EnvLaws E} (n : ptr) (disc : MW unit).
Context (Hdisc : forall w, typed w -> cn_fd (conn w) < 0 -> ty n disc always w).

Lemma close_connection_ty w : typed w -> ty n (close_connection disc) always w.
Proof using E Hdisc.
  intros Hw. unfold close_connection. ty_core. destruct (Z.ltb_spec (cn_fd (conn w)) 0) as [Hd|Hd]; [ty_end|].
  eapply ty_bind; [apply (ty_keeps n conn); [by apply keeps_modify|by apply emit_ty]|].
  intros [] w1 Hw1 _ [_ Hc1]. eapply ty_bind; [apply set_conn_ty; [done|by rewrite Hc1|done]|].
  intros [] w2 Hw2 _ Hc2. apply ty_when; [done|]. intros _. apply Hdisc; [done|]. by rewrite Hc2.
Qed.
Hint Resolve close_connection_ty : tydb.

Lemma mncc_write_ty w m : typed w -> ty n (mncc_write disc m) always w.
Proof using Hdisc. intros Hw. unfold mncc_write. ty_go. Qed.

Lemma mncc_rtp_write_ty w r : typed w -> ty n (mncc_rtp_write disc r) always w.
Proof using Hdisc. intros Hw. unfold mncc_rtp_write. ty_go. Qed.
Hint Resolve mncc_write_ty mncc_rtp_write_ty : tydb.

Lemma mncc_send_ty w t cr : typed w -> ty n (mncc_send disc t cr) always w.
Proof using Hdisc. intros Hw. unfold mncc_send. ty_go. Qed.

Lemma mncc_rtp_send_ty w t cr sdp : typed w -> ty n (mncc_rtp_send disc t cr sdp) always w.
Proof using Hdisc. intros Hw. unfold mncc_rtp_send. ty_go. Qed.

Lemma send_rtp_connect_ty w l other : typed w -> has_type w l CALL_TYPE_MNCC ->
  ty n (send_rtp_connect disc l other) always w.
Proof using Hdisc. intros Hw Hl. unfold send_rtp_connect. ty_go. Qed.
Hint Resolve mncc_send_ty mncc_rtp_send_ty send_rtp_connect_ty : tydb.

(** ** The callbacks of an MNCC leg *)
Lemma mncc_call_leg_ring_ty w l : typed w -> has_type w l CALL_TYPE_MNCC ->
  ty n (mncc_call_leg_ring disc l) always w.
Proof using Hdisc. intros Hw Hl. unfold mncc_call_leg_ring. ty_go. Qed.

Lemma request_release_ty w l t m : typed w -> has_type w l CALL_TYPE_MNCC ->
  ty n (request_release disc l t m) always w.
Proof using Hdisc. intros Hw Hl. unfold request_release. ty_go. Qed.
Hint Resolve request_release_ty : tydb.

Lemma mncc_call_leg_release_ty w l : typed w -> has_type w l CALL_TYPE_MNCC ->
  ty n (mncc_call_leg_release disc l) always w.
Proof using Hdisc. intros Hw Hl. unfold mncc_call_leg_release. ty_go. Qed.

(** The assertion that the call has another leg. *)
Lemma mncc_call_leg_connect_ty w l l' : typed w -> has_type w l CALL_TYPE_MNCC -> paired w l l' ->
  ty n (mncc_call_leg_connect disc l) always w.
Proof using Hdisc.
  intros Hw Hl Hm. unfold mncc_call_leg_connect. apply ty_assert_type; [done|].
  eapply ty_call_leg_other_paired; [done|].
  apply ty_some. ty_go.
Qed.

Lemma add_gcr_ty w cl m : typed w -> ty n (add_gcr cl m) always w.
Proof using HE.
  intros Hw. unfold add_gcr. destruct (gcr_present cl); [|ty_end]. ty_core.
  pose proof (osmo_enc_gcr_fits (gcr cl)) as Hfit. destruct (osmo_enc_gcr (gcr cl)) as [rc data]. simpl in Hfit.
  destruct (_ && _); [|ty_end]. destruct (Z.leb_spec 0 rc), (Z.leb_spec rc 16); try lia. simpl. ty_end.
Qed.
Hint Resolve add_gcr_ty : tydb.

Lemma mncc_create_remote_leg_ty w c : typed w -> has_init w c CALL_TYPE_SIP ->
  ty n (mncc_create_remote_leg disc c) always w.
Proof using HE Hdisc.
  intros Hw Hi. unfold mncc_create_remote_leg. ty_core. ty_alloc. simpl in *. ty_go.
Qed.
End sending.

(** ** Releasing a leg through its callback *)

(** The release callback of a live leg fits its type. *)
Lemma tagged_release x f : tagged x -> release_call (ops (base x)) = Some f ->
  lg_type (base x) = CALL_TYPE_MNCC /\ f = FN_mncc_call_leg_release
  \/ lg_type (base x) = CALL_TYPE_SIP /\ f = FN_sip_release_call.
Proof.
  intros [_ Ho]. destruct (lg_type (base x)); simpl in Ho; [done| |];
    repeat (destruct Ho as [Ho|Ho]); rewrite ?Ho; simpl; intros [= <-]; auto.
Qed.

Section release.
Context {E : Env} (n : ptr) (disc : MW unit).

Lemma release_leg_with w l : typed w ->
  (has_type w l CALL_TYPE_MNCC -> ty n (mncc_call_leg_release disc l) always w) ->
  ty n (release_leg disc l) always w.
Proof.
  intros Hw Hm. unfold release_leg. ty_core. apply ty_some_or; [exact I|]. intros f Hf.
  destruct (ty_leg w Hw l x Hx) as [_ Htag]. pose proof (typed_has_type w l x Hw Hx) as Ht.
  destruct (tagged_release x f Htag Hf) as [[Heq ->]|[Heq ->]]; rewrite Heq in Ht; [auto|ty_end].
Qed.

(** While the connection is down nothing is sent and the callback is not entered. *)
Lemma release_leg_down_ty w l : typed w -> cn_fd (conn w) < 0 -> ty n (release_leg disc l) always w.
Proof.
  intros Hw Hd. apply release_leg_with; [done|]. intros Hl. unfold mncc_call_leg_release.
  apply ty_assert_type; [done|]. ty_core. ty_core.
  rewrite bool_decide_eq_false_2 by by apply (ty_conn w Hw). simpl. ty_end.
Qed.

Lemma release_leg_ty w l : (forall w, typed w -> cn_fd (conn w) < 0 -> ty n disc always w) -> typed w ->
  ty n (release_leg disc l) always w.
Proof. intros Hd Hw. apply release_leg_with; [done|]. intros Hl. by apply mncc_call_leg_release_ty. Qed.

(** ** Losing the connection: the loop over the calls *)
Lemma is_mncc_leg_ty w o : typed w -> ty n (is_mncc_leg o) always w.
Proof. intros Hw. destruct o as [l|]; simpl; [ty_go|ty_end]. Qed.
Hint Resolve is_mncc_leg_ty release_leg_down_ty : tydb.

Lemma disconnect_call_ty w c : typed w -> cn_fd (conn w) < 0 -> ty n (disconnect_call (release_leg disc) c) always w.
Proof. intros Hw Hd. unfold disconnect_call, release_opt. ty_go. Qed.

(** The fuel covers what follows [c] in the list. *)
Definition covers (fuel : nat) (cs : list ptr) (cur : option ptr) : Prop :=
  forall c, cur = Some c -> (1 <= fuel)%nat /\ forall pre post, cs = pre ++ c :: post -> (length post < fuel)%nat.

Lemma next_in_split cs c d : next_in cs c = Some d -> exists pre post, cs = pre ++ c :: d :: post.
Proof using.
  induction cs as [|c' cs IH]; simpl; [done|]. destruct (decide (c' = c)) as [->|].
  - destruct cs as [|d' cs]; [done|]. intros [= ->]. by exists [], cs.
  - intros (pre & post & ->)%IH. by exists (c' :: pre), post.
Qed.

(** A sublist has no more after an element than the list, when there are no duplicates. *)
Lemma sublist_after (x : ptr) xs ys pre post : NoDup (xs ++ x :: ys) ->
  (pre ++ x :: post) `sublist_of` (xs ++ x :: ys) -> (length post <= length ys)%nat.
Proof using.
  intros Hnd Hs. apply sublist_app_r in Hs as (k1 & k2 & Heq & Hk1 & Hk2).
  apply NoDup_app in Hnd as (_ & Hdis & [Hx _]%NoDup_cons).
  assert (x ∉ k1) as Hn1. { intros Hin. apply (Hdis x); [by eapply elem_of_sublist|left]. }
  assert (exists p, k2 = p ++ x :: post) as [p ->].
  { revert k1 Heq Hk1 Hn1. induction pre as [|y pre IH]; intros [|z k1] Heq Hk1 Hn1; simpl in *.
    - by exists [].
    - injection Heq as -> _. destruct Hn1. left.
    - by exists (y :: pre).
    - injection Heq as -> Heq. apply (IH k1); [done| |]; [|set_solver].
      etransitivity; [|exact Hk1]. by apply sublist_cons. }
  apply sublist_length in Hk2. rewrite length_app in Hk2. simpl in Hk2. lia.
Qed.

Lemma covers_next w w' c d fuel : typed w -> grows n w w' -> covers (S fuel) (g_call_list w) (Some c) ->
  next_in (g_call_list w) c = Some d -> covers fuel (g_call_list w') (Some d).
Proof using.
  intros Hw Hg Hc (p & q & Heq)%next_in_split x [= <-].
  destruct (Hc c eq_refl) as [_ Hlen]. specialize (Hlen p (d :: q) Heq). simpl in Hlen. split; [lia|].
  intros pre post Hpost. destruct (gr_list _ _ _ Hg) as (new & old & Hnew & Hsub & Hfresh).
  assert (d ∈ g_call_list w) as Hin by (rewrite Heq; set_solver).
  pose proof (ty_list w Hw d Hin) as Hlt. rewrite Hnew in Hpost.
  assert (exists pre', old = pre' ++ d :: post) as [pre' ->].
  { clear -Hpost Hfresh Hlt. revert pre Hpost. induction new as [|y new IH]; intros pre Hpost; simpl in Hpost.
    - by exists pre.
    - assert (next_ptr w <= y)%positive by (apply Hfresh; left).
      destruct pre as [|z pre]; simpl in Hpost; [injection Hpost as -> _; lia|]. injection Hpost as _ Hpost.
      apply (IH ltac:(intros; apply Hfresh; by right) pre Hpost). }
  rewrite Heq in Hsub. replace (p ++ c :: d :: q) with ((p ++ [c]) ++ d :: q) in Hsub by by rewrite <- app_assoc.
  apply sublist_after in Hsub; [lia|]. rewrite <- app_assoc. simpl. rewrite <- Heq. apply Hw.
Qed.

Lemma disconnect_loop_ty fuel : forall w cur, typed w -> cn_fd (conn w) < 0 -> covers fuel (g_call_list w) cur ->
  ty n (disconnect_loop (release_leg disc) fuel cur) always w.
Proof.
  induction fuel as [|fuel IH]; intros w [c|] Hw Hd Hc; simpl; [destruct (Hc c eq_refl); lia|ty_end| |ty_end].
  ty_core. ty_core. eapply ty_bind; [by apply disconnect_call_ty|]. intros _ w1 Hw1 Hg _.
  apply IH; [done|by eapply down_grows|]. destruct (next_in (g_call_list w) c) as [d|] eqn:Hn; [|done].
  by eapply (covers_next w).
Qed.

Lemma app_mncc_disconnected_ty w : typed w -> cn_fd (conn w) < 0 ->
  ty n (app_mncc_disconnected (release_leg disc)) always w.
Proof.
  intros Hw Hd. unfold app_mncc_disconnected. ty_core. apply disconnect_loop_ty; [done|done|].
  intros c Hc. destruct (g_call_list w) as [|c' cs] eqn:Hl; [done|]. injection Hc as ->. simpl. split; [lia|].
  intros pre post Heq. apply (f_equal length) in Heq. rewrite length_app in Heq. simpl in Heq. lia.
Qed.
End release.

Lemma disconnected_ty {E : Env} n w : typed w -> cn_fd (conn w) < 0 -> ty n disconnected always w.
Proof. apply app_mncc_disconnected_ty. Qed.

#[export] Hint Extern 2 (ty _ (close_connection disconnected) _ _) =>
  (apply close_connection_ty; [exact (disconnected_ty _)|assumption]) : tydb.
#[export] Hint Extern 2 (ty _ (mncc_write disconnected _) _ _) =>
  (apply mncc_write_ty; [exact (disconnected_ty _)|assumption]) : tydb.
#[export] Hint Extern 2 (ty _ (mncc_send disconnected _ _) _ _) =>
  (apply mncc_send_ty; [exact (disconnected_ty _)|assumption]) : tydb.
#[export] Hint Extern 2 (ty _ (mncc_rtp_send disconnected _ _ _) _ _) =>
  (apply mncc_rtp_send_ty; [exact (disconnected_ty _)|assumption]) : tydb.
#[export] Hint Extern 2 (ty _ (send_rtp_connect disconnected _ _) _ _) =>
  (apply send_rtp_connect_ty; [exact (disconnected_ty _)|assumption|assumption]) : tydb.
#[export] Hint Extern 2 (ty _ (mncc_call_leg_ring disconnected _) _ _) =>
  (apply mncc_call_leg_ring_ty; [exact (disconnected_ty _)|assumption|assumption]) : tydb.
#[export] Hint Extern 2 (ty _ (mncc_call_leg_release disconnected _) _ _) =>
  (apply mncc_call_leg_release_ty; [exact (disconnected_ty _)|assumption|assumption]) : tydb.
#[export] Hint Extern 2 (ty _ (mncc_create_remote_leg disconnected _) _ _) =>
  (apply mncc_create_remote_leg_ty; [exact (disconnected_ty _)|assumption|assumption]) : tydb.
#[export] Hint Extern 2 (ty _ (call_release _) _ _) =>
  (apply release_leg_ty; [exact (disconnected_ty _)|assumption]) : tydb.

(** ** Callbacks and routing (app.c) *)
Section app.
Context {E : Env} {HE : EnvLaws E} (n : ptr) (w : world) (Hw : typed w).

(** The leg [update_rtp] is given is whatever [call->remote] holds. *)
Lemma update_rtp_ty l : ty n (update_rtp l) always w.
Proof using Hw.
  unfold update_rtp. ty_core. pose proof (typed_has_type w l x Hw Hx) as Ht.
  destruct (ty_leg w Hw l x Hx) as [_ [Htag _]].
  destruct (lg_type (base x)); [by destruct (ext x)| |]; ty_go.
Qed.

(** The callbacks that do not connect. *)
Lemma invoke_member_ty l (member : leg_ops -> option leg_fn) :
  member = ring_call \/ member = hold_call \/ member = retrieve_call ->
  ty n (invoke_member member l) always w.
Proof using Hw.
  intros Hm. unfold invoke_member. ty_core. pose proof (typed_has_type w l x Hw Hx) as Ht.
  destruct (ty_leg w Hw l x Hx) as [_ [_ Ho]]. unfold invoke, ops_for in *.
  destruct (lg_type (base x)); [done| |]; repeat destruct Ho as [Ho|Ho]; rewrite Ho;
    repeat destruct Hm as [Hm|Hm]; subst member; cbn [mncc_leg_ops sip_mo_ops sip_mt_ops leg_ops0
      ring_call hold_call retrieve_call]; try exact (fun _ => I); apply ty_some; cbv beta iota; ty_end.
Qed.

Lemma invoke_connect_ty l l' : paired w l l' -> ty n (invoke_member connect_call l) always w.
Proof using Hw.
  intros Hp. unfold invoke_member. ty_core. pose proof (typed_has_type w l x Hw Hx) as Ht.
  destruct (ty_leg w Hw l x Hx) as [_ [_ Ho]]. unfold invoke, ops_for in *.
  destruct (lg_type (base x)); [done| |]; repeat destruct Ho as [Ho|Ho]; rewrite Ho;
    cbn [mncc_leg_ops sip_mo_ops sip_mt_ops leg_ops0 connect_call]; try exact (fun _ => I); apply ty_some; cbv beta iota.
  - ty_end.
  - by eapply mncc_call_leg_connect_ty; [exact (disconnected_ty _)|..].
Qed.

(** Connecting a SIP leg answers the INVITE, whatever is left of the call. *)
Lemma invoke_connect_sip_ty l : has_type w l CALL_TYPE_SIP -> ty n (invoke_member connect_call l) always w.
Proof using Hw.
  intros Ht. unfold invoke_member. ty_core. destruct (ty_leg w Hw l x Hx) as [_ [_ Ho]].
  unfold invoke, ops_for in *. rewrite (proj2 Ht x Hx) in Ho. repeat destruct Ho as [Ho|Ho]; rewrite Ho;
    cbn [sip_mo_ops sip_mt_ops leg_ops0 connect_call]; try exact (fun _ => I); apply ty_some; cbv beta iota; ty_end.
Qed.

Lemma invoke_dtmf_ty l k : ty n (invoke_dtmf l k) always w.
Proof using Hw.
  unfold invoke_dtmf. ty_core. pose proof (typed_has_type w l x Hw Hx) as Ht.
  destruct (ty_leg w Hw l x Hx) as [_ [_ Ho]]. unfold ops_for in *.
  destruct (lg_type (base x)); [done| |]; repeat destruct Ho as [Ho|Ho]; rewrite Ho;
    cbn [mncc_leg_ops sip_mo_ops sip_mt_ops leg_ops0 dtmf]; ty_end.
Qed.

Lemma release_initial_ty c : ty n (release_initial c) always w.
Proof using Hw. unfold release_initial. ty_go. Qed.
End app.
#[export] Hint Resolve update_rtp_ty invoke_dtmf_ty release_initial_ty invoke_connect_ty invoke_connect_sip_ty : tydb.
#[export] Hint Extern 2 (ty _ (invoke_member _ _) _ _) => (apply invoke_member_ty; [assumption|tauto]) : tydb.

Section route.
Context {E : Env} {HE : EnvLaws E} (n : ptr) (w : world) (Hw : typed w).

Lemma app_route_call_ty c src dst : ty n (app_route_call c src dst) always w.
Proof using HE Hw.
  unfold app_route_call. destruct src as [src|], dst as [dst|]; try ty_end. ty_core. ty_core.
  apply ty_some_or; [exact I|]. intros i Hi. ty_core.
  assert (forall t, lg_type (base x) = t -> has_init w' c t) as Hinit.
  { intros t <-. split; [by eapply ty_call|]. intros cl' i' Hcl' Hi'. simplify_eq. by apply typed_has_type. }
  unfold route_to_sip, route_to_mncc. destruct (decide (lg_type (base x) = CALL_TYPE_MNCC)) as [Ht|Ht].
  - apply Hinit in Ht. ty_go.
  - assert (lg_type (base x) = CALL_TYPE_SIP) as Ht'.
    { destruct (ty_leg w' Hw0 i x Hx) as [_ [Htag _]]. rewrite Htag in *. by destruct (ext x). }
    apply Hinit in Ht'. ty_go.
Qed.
End route.
#[export] Hint Resolve app_route_call_ty : tydb.

(** ** Messages from the MSC (mncc.c) *)
Section rx.
Context {E : Env} {HE : EnvLaws E} (n : ptr).

Lemma close_conn_ty w : typed w -> ty n close_conn always w.
Proof using. intros Hw. unfold close_conn. ty_end. Qed.

Lemma send_ty w t cr : typed w -> ty n (send t cr) always w.
Proof using. intros Hw. unfold send. ty_go. Qed.
Hint Resolve close_conn_ty send_ty : tydb.

Lemma cmd_timeout_ty w l : typed w -> ty n (cmd_timeout l) always w.
Proof using. intros Hw. unfold cmd_timeout. ty_go. Qed.

Lemma continue_mo_call_ty w l : typed w -> has_type w l CALL_TYPE_MNCC -> ty n (continue_mo_call l) always w.
Proof using HE. intros Hw Hl. unfold continue_mo_call. ty_go. Qed.

Lemma continue_mt_call_ty w l : typed w -> ty n (continue_mt_call l) always w.
Proof using. intros Hw. unfold continue_mt_call. ty_go. Qed.
Hint Resolve continue_mo_call_ty continue_mt_call_ty : tydb.

Lemma continue_call_ty w l : typed w -> has_type w l CALL_TYPE_MNCC -> ty n (continue_call l) always w.
Proof using HE. intros Hw Hl. unfold continue_call. ty_go. Qed.

Lemma take_changed_sdp_ty w l : typed w -> ty n (take_changed_sdp l) always w.
Proof using. intros Hw. unfold take_changed_sdp. ty_go. Qed.

Lemma request_rtp_create_ty w l cr sdp : typed w -> has_type w l CALL_TYPE_MNCC ->
  ty n (request_rtp_create l cr sdp) always w.
Proof using. intros Hw Hl. unfold request_rtp_create. ty_go. Qed.

Lemma release_other_with_cause_ty w l v : typed w -> ty n (release_other_with_cause l v) always w.
Proof using. intros Hw. unfold release_other_with_cause. ty_go. Qed.

Lemma send_for_ty w l t : typed w -> has_type w l CALL_TYPE_MNCC -> ty n (send_for l t) always w.
Proof using. intros Hw Hl. unfold send_for. ty_go. Qed.

Lemma dtmf_rsp_ty w l t k : typed w -> has_type w l CALL_TYPE_MNCC -> ty n (dtmf_rsp l t k) always w.
Proof using. intros Hw Hl. unfold dtmf_rsp. ty_go. Qed.
Hint Resolve continue_call_ty take_changed_sdp_ty request_rtp_create_ty release_other_with_cause_ty
  send_for_ty dtmf_rsp_ty : tydb.

Lemma check_hello_ty w buf rc : typed w -> 0 <= cn_fd (conn w) -> ty n (check_hello disconnected buf rc) always w.
Proof using.
  intros Hw Hfd. unfold check_hello. destruct (negb _); [ty_end|]. destruct (negb _); [ty_end|].
  eapply ty_always, set_conn_ty; [done|done|]. simpl. lia.
Qed.

Lemma check_rtp_connect_ty w buf rc : typed w -> ty n (check_rtp_connect buf rc) always w.
Proof using.
  intros Hw. unfold check_rtp_connect. destruct (_ <? _); [ty_end|].
  apply ty_mncc_find_leg_not_released; [done|ty_end|]. intros l Hl. ty_go.
Qed.

Lemma check_rtp_create_ty w buf rc : typed w -> ty n (check_rtp_create buf rc) always w.
Proof using HE.
  intros Hw. unfold check_rtp_create. destruct (_ <? _); [ty_end|].
  apply ty_mncc_find_leg_not_released; [done|ty_end|]. intros l Hl. ty_go.
Qed.

Lemma setup_call_ty w d called g : typed w -> ty n (setup_call d called g) always w.
Proof using.
  intros Hw. unfold setup_call, call_mncc_create. eapply ty_bind; [by apply call_create_ty|].
  intros [c|] w1 Hw1 _ Hc; [|ty_end]. destruct Hc as [[_ Hi] [_ Hnew]]. ty_core. apply ty_some_or; [exact I|].
  intros l Hl. specialize (Hi cl l Hcl Hl). specialize (Hnew cl l Hcl Hl). ty_go.
Qed.
Hint Resolve setup_call_ty : tydb.

Lemma check_setup_ty w buf rc : typed w -> ty n (check_setup buf rc) always w.
Proof using. intros Hw. unfold check_setup. ty_go. Qed.

Lemma with_leg_ty w buf rc k : typed w -> (forall d l, has_type w l CALL_TYPE_MNCC -> ty n (k d l) always w) ->
  ty n (with_leg buf rc k) always w.
Proof using.
  intros Hw Hk. unfold with_leg, find_leg. destruct (_ <? _); [apply ty_assoc; ty_go|].
  apply ty_assoc, ty_mncc_find_leg; [done|by apply ty_ret_bind, ty_ret|].
  intros l Hl. apply ty_ret_bind. by apply Hk.
Qed.

(** The handlers that start from a leg with the callref. *)
Ltac handler := intros Hw; apply with_leg_ty; [done|]; intros d l Hl; ty_go.

Lemma check_disc_ind_ty w buf rc : typed w -> ty n (check_disc_ind buf rc) always w.
Proof using. handler. Qed.
Lemma check_rel_ind_ty w buf rc : typed w -> ty n (check_rel_ind buf rc) always w.
Proof using. handler. Qed.
Lemma check_rel_cnf_ty w buf rc : typed w -> ty n (check_rel_cnf buf rc) always w.
Proof using. handler. Qed.
Lemma check_stp_cmpl_ind_ty w buf rc : typed w -> ty n (check_stp_cmpl_ind buf rc) always w.
Proof using. handler. Qed.
Lemma check_rej_ind_ty w buf rc : typed w -> ty n (check_rej_ind buf rc) always w.
Proof using. handler. Qed.
Lemma check_cnf_ind_ty w buf rc : typed w -> ty n (check_cnf_ind buf rc) always w.
Proof using. handler. Qed.
Lemma check_alrt_ind_ty w buf rc : typed w -> ty n (check_alrt_ind buf rc) always w.
Proof using HE. handler. Qed.
Lemma check_hold_ind_ty w buf rc : typed w -> ty n (check_hold_ind buf rc) always w.
Proof using HE. handler. Qed.
Lemma check_retrieve_ind_ty w buf rc : typed w -> ty n (check_retrieve_ind buf rc) always w.
Proof using HE. handler. Qed.
Lemma check_dtmf_start_ty w buf rc : typed w -> ty n (check_dtmf_start buf rc) always w.
Proof using HE. handler. Qed.
Lemma check_dtmf_stop_ty w buf rc : typed w -> ty n (check_dtmf_stop buf rc) always w.
Proof using. handler. Qed.
Lemma check_stp_cnf_ty w buf rc : typed w -> ty n (check_stp_cnf buf rc) always w.
Proof using HE. handler. Qed.
Hint Resolve check_hello_ty check_setup_ty check_rtp_create_ty check_rtp_connect_ty check_disc_ind_ty
  check_rel_ind_ty check_rej_ind_ty check_rel_cnf_ty check_stp_cmpl_ind_ty check_stp_cnf_ty check_cnf_ind_ty
  check_alrt_ind_ty check_hold_ind_ty check_retrieve_ind_ty check_dtmf_start_ty check_dtmf_stop_ty : tydb.

Lemma mncc_data_ty w rd : typed w -> 0 <= cn_fd (conn w) -> ty n (mncc_data rd) always w.
Proof using HE. intros Hw Hfd. unfold mncc_data, mncc_dispatch. destruct rd; ty_go. Qed.
End rx.

(** ** Events from sofia-sip (sip.c) *)
Section ua.
Context {E : Env} {HE : EnvLaws E} (n : ptr) (w : world) (Hw : typed w).

(** The search returns a leg with the tag of a SIP leg. *)
Lemma sip_leg_matches_ty nh o :
  ty n (sip_leg_matches nh o) (fun b w' => w' = w /\ (b = true -> forall l, o = Some l -> has_type w l CALL_TYPE_SIP)) w.
Proof using Hw.
  destruct o as [l|]; [|by apply ty_ret]. simpl. ty_core.
  pose proof (typed_has_type w l x Hw Hx) as Ht. destruct (lg_type (base x)); try by apply ty_ret.
  ty_core. apply ty_ret; [done|]. split; [done|]. by intros _ l' [= <-].
Qed.

Lemma sip_find_leg_in_ty cs nh :
  ty n (sip_find_leg_in cs nh) (fun o w' => w' = w /\ forall l, o = Some l -> has_type w l CALL_TYPE_SIP) w.
Proof using Hw.
  induction cs as [|c cs IH]; simpl; [by apply ty_ret|]. ty_core.
  eapply ty_bind; [apply sip_leg_matches_ty|]. intros b ? _ _ [-> Hb]. destruct b; [apply ty_ret; [done|by split; auto]|].
  eapply ty_bind; [apply sip_leg_matches_ty|]. intros b ? _ _ [-> Hb']. destruct b; [apply ty_ret; [done|by split; auto]|].
  exact IH.
Qed.

Lemma ty_sip_find_leg {B} nh (k : option ptr -> MW B) Q :
  ty n (k None) Q w -> (forall l, has_type w l CALL_TYPE_SIP -> ty n (k (Some l)) Q w) ->
  ty n (o <- sip_find_leg nh ;; k o) Q w.
Proof using Hw.
  intros Hn Hs. unfold sip_find_leg. apply ty_assoc, ty_gets.
  eapply ty_bind; [by apply sip_find_leg_in_ty|]. intros o ? _ _ [-> Ho]. destruct o; auto.
Qed.

(** A handle is bound to a SIP leg, alive or not. *)
Lemma ty_the_leg {B} nh (k : ptr -> MW B) Q :
  (forall l, has_type w l CALL_TYPE_SIP -> ty n (k l) Q w) -> ty n (l <- the_leg nh ;; k l) Q w.
Proof using Hw.
  intros Hk. unfold the_leg. apply ty_assoc, ty_gets, ty_some_or; [exact I|]. intros l Hl.
  apply Hk. by apply (ty_nua w Hw nh).
Qed.

Lemma the_sip_ty sip : ty n (the_sip sip) always w.
Proof using Hw. destruct sip; simpl; ty_end. Qed.

Lemma reject_406_ty nh : ty n (reject_406 nh) always w.
Proof using Hw. unfold reject_406. ty_go. Qed.

Lemma respond_200_ty nh sdp : ty n (respond_200 nh sdp) always w.
Proof using Hw. unfold respond_200. ty_end. Qed.

Lemma drop_leg_ty l : has_type w l CALL_TYPE_SIP -> ty n (drop_leg l) always w.
Proof using Hw. intros Hl. unfold drop_leg. ty_go. Qed.
End ua.
#[export] Hint Resolve the_sip_ty reject_406_ty respond_200_ty drop_leg_ty : tydb.

Section events.
Context {E : Env} {HE : EnvLaws E} (n : ptr) (w : world) (Hw : typed w).

Lemma invoke_update_rtp_ty l other : ty n (invoke_update_rtp l other) always w.
Proof using Hw.
  unfold invoke_update_rtp. ty_core. destruct (ty_leg w Hw other x Hx) as [_ [_ Ho]]. unfold ops_for in Ho.
  destruct (lg_type (base x)); [done| |]; repeat destruct Ho as [Ho|Ho]; rewrite Ho;
    cbn [sip_mo_ops sip_mt_ops leg_ops0 mncc_leg_ops update_rtp_cb]; try ty_end.
  unfold invoke. do 3 ty_core. apply ty_some. ty_end.
Qed.
Hint Resolve invoke_update_rtp_ty : tydb.
End events.
#[export] Hint Resolve invoke_update_rtp_ty : tydb.

Section events2.
Context {E : Env} {HE : EnvLaws E} (n : ptr).

Lemma sip_handle_reinvite_ty w l nh sip : typed w -> has_type w l CALL_TYPE_SIP ->
  ty n (sip_handle_reinvite l nh sip) always w.
Proof using. intros Hw Hl. unfold sip_handle_reinvite. ty_go. Qed.

Lemma call_progress_ty w l sip status : typed w -> has_type w l CALL_TYPE_SIP ->
  ty n (call_progress l sip status) always w.
Proof using HE. intros Hw Hl. unfold call_progress. ty_go. Qed.

(** Answering: the other leg still has this one in its call. *)
Lemma call_connect_ty w l sip : typed w -> has_type w l CALL_TYPE_SIP -> ty n (call_connect l sip) always w.
Proof using HE.
  intros Hw Hl. unfold call_connect. apply ty_call_leg_other; [done|ty_go|]. intros other Hm.
  pose proof (mates_paired w l other Hw Hm) as Hp. destruct sip as [m|]; [|done]. apply ty_some.
  eapply ty_bind; [apply (ty_keeps n calls); [|by apply sdp_extract_sdp_ty]|].
  { unfold sdp_extract_sdp, as_sip, upd_base, upd_leg, deref_leg. keeps. }
  intros ok w1 Hw1 Hg1 [_ Hc1]. apply (paired_grows _ _ _ _ _ Hg1 Hc1) in Hp. carry Hg1.
  destruct ok; simpl; [|ty_go].
  eapply ty_bind; [apply (ty_keeps n calls); [|by eauto with tydb]|].
  { unfold upd_sip, as_sip, upd_leg, deref_leg. keeps. }
  intros u w2 Hw2 Hg2 [_ Hc2]. apply (paired_grows _ _ _ _ _ Hg2 Hc2) in Hp. carry Hg2.
  eapply ty_bind; [by eapply invoke_connect_ty|]. ty_next. ty_go.
Qed.

Lemma new_call_leg_ty w nh sip c to from : typed w -> has_init w c CALL_TYPE_SIP -> init_new n w c ->
  ty n (new_call_leg nh sip c to from) always w.
Proof using HE.
  intros Hw [_ Hi] [_ Hnew]. unfold new_call_leg. ty_core. apply ty_some_or; [exact I|].
  intros l Hl. specialize (Hi cl l Hcl Hl). specialize (Hnew cl l Hcl Hl). ty_go.
Qed.

Lemma new_call_users_ty w nh sip c : typed w -> has_init w c CALL_TYPE_SIP -> init_new n w c ->
  ty n (new_call_users nh sip c) always w.
Proof using HE.
  intros Hw Hi Hnew. unfold new_call_users. destruct (sip_to_user sip), (sip_from_user sip); try ty_end.
  by apply new_call_leg_ty.
Qed.
Hint Resolve new_call_users_ty : tydb.

(** The assertion after [call_sip_create] fails only when memory is short: [ty_or P] is
    [ty], with the assertion allowed when [P]. *)
Definition ty_or (P : Prop) {A} (m : MW A) (Q : A -> world -> Prop) (w : world) : Prop :=
  (n <= next_ptr w)%positive ->
  match m w with
  | Ret a w' => typed w' /\ grows n w w' /\ Q a w'
  | Crash f _ => excusable f \/ f = AssertFail /\ P
  end.
Lemma ty_or_ty P {A} (m : MW A) Q w : ty n m Q w -> ty_or P m Q w.
Proof using. intros Hm Hn. specialize (Hm Hn). destruct (m w); auto. Qed.

Lemma new_call_ty w nh sip : typed w ->
  ty_or (sdp_screen_sdp sip = true /\ alloc_ok (n_io w) && alloc_ok (S (n_io w)) = false) (new_call nh sip) always w.
Proof using HE.
  intros Hw Hn. unfold new_call. destruct (sdp_screen_sdp sip); cbn [negb].
  2: { apply (ty_or_ty _ (reject_406 nh) always w); [by apply reject_406_ty|done]. }
  pose proof (call_create_ty n w Hw CALL_TYPE_SIP (XSip sip_leg0) eq_refl Hn) as Hc. fold call_sip_create in Hc.
  unfold bind at 1. destruct (call_sip_create w) as [[c|] w1|f w1]; [..|by left]; destruct Hc as (Hw1 & Hg & Hc).
  2: { simpl. by right. }
  destruct Hc as [Hi Hnew]. assert (n <= next_ptr w1)%positive as Hn1 by (pose proof (gr_next _ _ _ Hg); lia).
  match goal with |- match ?m w1 with _ => _ end => assert (ty n m always w1) as Hm end.
  { apply ty_some. ty_go. }
  specialize (Hm Hn1). match goal with |- match ?r with _ => _ end => destruct r as [[] w2|f w2] end; [|by left].
  destruct Hm as (Hw2 & Hg2 & _). split_and!; [done|by etransitivity|done].
Qed.
Hint Resolve sip_handle_reinvite_ty call_progress_ty call_connect_ty : tydb.

Lemma invite_failed_ty w l status : typed w -> has_type w l CALL_TYPE_SIP -> ty n (invite_failed l status) always w.
Proof using. intros Hw Hl. unfold invite_failed. ty_go. Qed.
Hint Resolve invite_failed_ty : tydb.

Lemma on_r_invite_ty w status nh sip : typed w -> ty n (on_r_invite status nh sip) always w.
Proof using HE.
  intros Hw. unfold on_r_invite. apply ty_the_leg; [done|]. intros l Hl. ty_core.
  apply ty_as_sip; [done|done|]. intros x s Hx Hs.
  eapply (ty_bind _ _ _ always).
  - destruct (decide (s_state s = SIP_CC_INITIAL)) as [Hi|]; [|ty_end].
    apply upd_sip_ty; [done|done|]. right. intros x' s' Hx' Hs'. assert (s' = s) as -> by congruence. unfold sip_le. rewrite Hi. simpl.
    split_and!; [done|done|lia].
  - ty_next. ty_go.
Qed.

Lemma on_remote_hangup_ty w nh : typed w -> ty n (on_remote_hangup nh) always w.
Proof using. intros Hw. unfold on_remote_hangup. apply ty_the_leg; [done|]. intros l Hl. ty_go. Qed.

Lemma on_i_invite_ty w status nh sip : typed w ->
  ty_or (status = 100 /\ sip_find_leg nh w = Ret None w /\ exists m, sip = Some m /\ sdp_screen_sdp m = true
         /\ alloc_ok (n_io w) && alloc_ok (S (n_io w)) = false)
    (on_i_invite status nh sip) always w.
Proof using HE.
  intros Hw Hn. unfold on_i_invite. destruct (Z.eqb_spec status 100) as [->|]; [|apply (ty_or_ty _ (ret tt) always w); [by apply ty_ret|done]].
  pose proof (sip_find_leg_in_ty n w Hw (g_call_list w) nh Hn) as Hf.
  change (sip_find_leg_in (g_call_list w) nh w) with (sip_find_leg nh w) in Hf. unfold bind at 1.
  destruct (sip_find_leg nh w) as [[l|] w1|f w1]; [..|by left]; destruct Hf as (_ & _ & -> & Hl).
  - assert (ty n (call_leg_rx_sdp l (sip_get_sdp sip) ;; m <- the_sip sip ;; sip_handle_reinvite l nh m) always w) as Hm.
    { specialize (Hl l eq_refl). ty_go. }
    exact (ty_or_ty _ _ _ w Hm Hn).
  - destruct sip as [m|]; [|by left]. pose proof (new_call_ty w nh m Hw Hn) as Hm. simpl the_sip. rewrite bind_ret_l.
    destruct (new_call nh m w) as [|f w2]; [done|]. destruct Hm as [|(-> & Hs & Ha)]; [by left|right]. split_and!; eauto.
Qed.

Lemma on_i_ack_ty w nh sip : typed w -> ty n (on_i_ack nh sip) always w.
Proof using.
  intros Hw. unfold on_i_ack. ty_core. destruct (sip_payload _); [|ty_end].
  apply ty_sip_find_leg; [done|ty_go|]. intros l Hl. ty_go.
Qed.
Hint Resolve on_r_invite_ty on_remote_hangup_ty on_i_ack_ty : tydb.

(** The only event for which an assertion may fail. *)
Definition asserts (w : world) (e : event) : Prop :=
  exists nh m, e = EvNua nua_i_invite 100 nh (Some m) /\ sip_find_leg nh w = Ret None w /\
    sdp_screen_sdp m = true /\ alloc_ok (n_io w) && alloc_ok (S (n_io w)) = false.

Lemma nua_callback_ty w ev status nh sip : typed w ->
  ty_or (asserts w (EvNua ev status nh sip)) (nua_callback ev status nh sip) always w.
Proof using HE.
  intros Hw. unfold nua_callback. destruct ev; try (apply ty_or_ty; ty_end);
    try (apply ty_or_ty, ty_the_leg; [done|]; intros l Hl; ty_end).
  intros Hn. pose proof (on_i_invite_ty w status nh sip Hw Hn) as H. destruct (on_i_invite status nh sip w); [done|].
  destruct H as [|(-> & -> & Hf & m & -> & Hs & Ha)]; [by left|right]. split; [done|]. by exists nh, m.
Qed.
End events2.

(** ** Executions of the program among arbitrary peers *)

(** One turn of the main loop, whatever was received and whatever the system
    answered; a crash ends the execution. *)
Inductive may_step {E : Env} (w : world) : world -> Prop :=
| May_step e w' : enabled w e -> handle_event e w = Ret tt w' -> may_step w w'.

Section system.
Context {E : Env} {HE : EnvLaws E}.

Lemma booted_typed g : typed (booted g).
Proof.
  split; simpl; try (intros *; by rewrite lookup_empty); try done; [constructor|].
  intros c. by rewrite elem_of_nil.
Qed.

(** The connection of a store in which it is down is opened by a reconnect only. *)
Lemma typed_set_conn f w : typed w -> (cn_fd (f (conn w)) < 0 -> cn_state (f (conn w)) <> MNCC_READY) ->
  typed (set_conn f w).
Proof. intros [] Hf. by split. Qed.

Lemma handle_event_typed n w e : typed w -> enabled w e -> (n <= next_ptr w)%positive ->
  match handle_event e w with
  | Ret _ w' => typed w' /\ develops n w w' /\ (next_ptr w <= next_ptr w')%positive
  | Crash f _ => excusable f \/ f = AssertFail /\ asserts w e
  end.
Proof using HE.
  intros Hw Hen Hn. assert (forall m : MW unit, ty_or n (asserts w e) m always w ->
    match m w with
    | Ret _ w' => typed w' /\ develops n w w' /\ (next_ptr w <= next_ptr w')%positive
    | Crash f _ => excusable f \/ f = AssertFail /\ asserts w e
    end) as Hty.
  { intros m Hm. specialize (Hm Hn). destruct (m w); [|done]. destruct Hm as (? & Hg & _).
    split_and!; [done|apply Hg|apply Hg]. }
  destruct e as [rd| |l|ev status nh sip]; simpl in *.
  - by apply Hty, ty_or_ty, mncc_data_ty.
  - unfold mncc_reconnect, tick, bind, gets, modify, ret. simpl.
    destruct Hw. destruct (unix_connect (n_io w)); (split_and!; [by split|by apply develops_same|done]).
  - apply Hty, ty_or_ty. eapply ty_bind; [by apply ty_modify_same|]. ty_next. by apply cmd_timeout_ty.
  - apply Hty. by apply nua_callback_ty.
Qed.

Lemma may_steps_develop n w w' : rtc may_step w w' -> typed w -> (n <= next_ptr w)%positive ->
  typed w' /\ develops n w w'.
Proof using HE.
  intros Hs. induction Hs as [w|w w1 w2 [e w1' Hen Heq] _ IH]; intros Hw Hn; [split; [done|by apply develops_same]|].
  pose proof (handle_event_typed n w e Hw Hen Hn) as H. rewrite Heq in H. destruct H as (Hw1 & Hd & Hle).
  destruct IH as [Hw2 Hd2]; [done|lia|]. split; [done|by eapply develops_trans].
Qed.

Lemma may_steps_typed w w' : typed w -> rtc may_step w w' -> typed w'.
Proof using HE. intros Hw Hs. by apply (may_steps_develop (next_ptr w) w w' Hs Hw). Qed.

(** C2: whatever the MSC, the SIP side and the system do, and in whatever order,
    every store the program reaches is typed, and the handling of every event
    ends in a typed store or in a fault of memory: a cast to the wrong leg
    structure, a copy beyond an array and an exhausted bound are impossible, and so
    is a failed assertion, except for one: that of new_call, for an INVITE with a new
    handle and an acceptable session, when one of the two allocations of the
    call failed. *)
Theorem type_safety g w0 w e : boot (zeroed g) = Ret tt w0 -> rtc may_step w0 w -> enabled w e ->
  typed w /\
  match handle_event e w with
  | Ret _ w' => typed w'
  | Crash f _ => f = NullDeref \/ f = NullCall \/ f = UseAfterFree \/ f = AssertFail /\ asserts w e
  end.
Proof using HE.
  intros Hb Hs Hen. rewrite boot_booted in Hb. injection Hb as <-.
  pose proof (may_steps_typed _ _ (booted_typed g) Hs) as Hw. split; [done|].
  pose proof (handle_event_typed 1 w e Hw Hen ltac:(lia)) as H.
  destruct (handle_event e w) as [|f ?]; [apply H|]. destruct H as [H|]; [|by auto 6]. destruct f; simpl in H; auto 6; done.
Qed.

(** C3: a leg keeps what it is for the whole of its life, whatever happens: its
    type, its call and its callbacks; an MNCC leg its callref, direction,
    numbers and IMSI, a SIP leg its handle and direction.  A release that has
    begun is never taken back, an MNCC leg does not return to its initial
    state, the dialog of a SIP leg goes from the initial state to confirmed to
    established (or held) and never back, and a leg that was freed is never
    alive again. *)
Theorem leg_lifecycle g w0 w w' l x' : boot (zeroed g) = Ret tt w0 -> rtc may_step w0 w -> rtc may_step w w' ->
  (l < next_ptr w)%positive -> legs w' !! l = Some x' ->
  exists x, legs w !! l = Some x /\ base_le (base x) (base x') /\ ext_le (ext x) (ext x').
Proof using HE.
  intros Hb Hs Hs' Hl Hx. rewrite boot_booted in Hb. injection Hb as <-.
  pose proof (may_steps_typed _ _ (booted_typed g) Hs) as Hw.
  destruct (may_steps_develop (next_ptr w) w w' Hs' Hw) as [_ Hd]; [done|]. by apply Hd.
Qed.
End system.

(** ** The recursion bounds are never reached *)
Section fuel.
Context {E : Env}.

(** A loop that ends before its fuel does not depend on the fuel. *)
Lemma disconnect_loop_more rel n : forall m cur w, (n <= m)%nat ->
  (forall w', disconnect_loop rel n cur w <> Crash OutOfFuel w') ->
  disconnect_loop rel m cur w = disconnect_loop rel n cur w.
Proof using.
  induction n as [|n IH]; intros m [c|] w Hle Hn; simpl in *.
  - by destruct (Hn w).
  - by destruct m.
  - destruct m as [|m]; [lia|]. simpl. unfold bind in *.
    destruct (deref_call c w) as [? w1|]; [|done]. destruct (gets g_call_list w1) as [cs w2|]; [|done].
    destruct (disconnect_call rel c w2) as [? w3|]; [|done]. apply IH; [lia|done].
  - by destruct m.
Qed.

(** C15: when the connection is lost, the walk over the calls ends in every typed
    store, however the calls are linked: the length of the call list bounds its
    turns and one level of the mutual recursion between releasing a leg and
    losing the connection is enough, and any larger bounds give the same
    result. *)
Theorem disconnect_terminates n fuel w : typed w -> cn_fd (conn w) < 0 -> (length (g_call_list w) <= fuel)%nat ->
  disconnect_loop (release_leg (on_disconnect n)) fuel (head (g_call_list w)) w = disconnected w
  /\ (forall w', disconnected w <> Crash OutOfFuel w').
Proof using.
  intros Hw Hd Hle. pose proof (ty_conn w Hw Hd) as Hdown.
  assert (forall w', disconnected w <> Crash OutOfFuel w') as Hn.
  { intros w' Heq. pose proof (disconnected_ty 1 w Hw Hd ltac:(lia)) as H. by rewrite Heq in H. }
  split; [|done]. rewrite <- (on_disconnect_fuel n w Hdown) in *. simpl in *. unfold app_mncc_disconnected in *.
  apply disconnect_loop_more; [done|exact Hn].
Qed.
End fuel.
