(* ===== verification/Wire.v ===== *)
(** * What the program says to its peers

    Every message it writes to the MSC, in every execution, whatever the MSC, the
    SIP side and the system do: of a type the side that takes calls may send, with
    a mask that announces exactly the fields that are filled, and with strings that end
    within their arrays; and every SIP response has a status of a final or
    provisional response.  [emits m Q] is the judgement: [m] adds only such
    actions to the trace, on the way to a fault too, and returns a value with
    [Q]. *)
From S2P Require Import Prelude Effect Codec Protocol Lib State Call Sdp SipLeg MnccConn App MnccRx SipUa System Typing TypeSafety.

(** ** Definitions *)

(** The masks a message may carry; none for a type the program may not send. *)
Definition allowed_fields (t : Z) : list Z :=
  if t =? MNCC_SETUP_REQ then
    [MNCC_F_CALLING; Z.lor MNCC_F_CALLING MNCC_F_CALLED; Z.lor MNCC_F_CALLING MNCC_F_GCR;
     Z.lor (Z.lor MNCC_F_CALLING MNCC_F_CALLED) MNCC_F_GCR]
  else if existsb (Z.eqb t) [MNCC_DISC_REQ; MNCC_REL_REQ] then [MNCC_F_CAUSE]
  else if t =? MNCC_ALERT_REQ then [MNCC_F_PROGRESS]
  else if existsb (Z.eqb t) [MNCC_START_DTMF_RSP; MNCC_STOP_DTMF_RSP] then [MNCC_F_KEYPAD]
  else if existsb (Z.eqb t) [MNCC_CALL_PROC_REQ; MNCC_SETUP_RSP; MNCC_SETUP_COMPL_REQ; MNCC_REJ_REQ;
                             MNCC_HOLD_CNF; MNCC_HOLD_REJ; MNCC_RETRIEVE_CNF] then [0]
  else [].

Section wire.
Context {E : Env}.

(** A part is filled exactly when the mask announces it: a number is one of the ISDN
    plan, a cause and a progress have coding and location, the GCR is what the
    encoder made, and a part that is not announced is as [memset] left it. *)
Definition announced (m : gsm_mncc) : Prop :=
  let f := has_flag (mn_fields m) in
  (if f MNCC_F_CALLED then nr_plan (mn_called m) = GSM48_NPI_ISDN_E164 else mn_called m = number0)
  /\ (if f MNCC_F_CALLING then nr_plan (mn_calling m) = GSM48_NPI_ISDN_E164 else mn_calling m = number0)
  /\ (if f MNCC_F_CAUSE then exists v, mn_cause m = Cause GSM48_CAUSE_CODING_GSM GSM48_CAUSE_LOC_PUN_S_LU v
      else mn_cause m = Cause 0 0 0)
  /\ mn_progress m = (if f MNCC_F_PROGRESS
                      then Progress GSM48_CAUSE_CODING_GSM GSM48_CAUSE_LOC_PRN_S_LU GSM48_PROGR_IN_BAND_AVAIL
                      else Progress 0 0 0)
  /\ (f MNCC_F_KEYPAD = false -> mn_keypad m = 0)
  /\ (if f MNCC_F_GCR
      then exists g rc data, osmo_enc_gcr g = (rc, data) /\ rc <> 0 /\
             mn_gcr m = take (Z.to_nat rc) data ++ drop (Z.to_nat rc) (replicate 16 0)
      else mn_gcr m = replicate 16 0)
  /\ mn_emergency m = 0.

Definition mncc_ok (m : gsm_mncc) : Prop :=
  In (mn_fields m) (allowed_fields (mn_msg_type m)) /\ announced m
  /\ (String.length (nr_number (mn_called m)) <= sizeof_number - 1)%nat
  /\ (String.length (nr_number (mn_calling m)) <= sizeof_number - 1)%nat
  /\ (String.length (mn_imsi m) <= 15)%nat /\ (length (mn_gcr m) <= 16)%nat
  /\ (String.length (mn_sdp m) <= 1023)%nat.

Definition rtp_ok (r : gsm_mncc_rtp) : Prop :=
  In (rtp_msg_type r) [MNCC_RTP_CREATE; MNCC_RTP_CONNECT] /\ (String.length (rtp_sdp r) <= 1023)%nat.

Definition act_ok (a : action) : Prop :=
  match a with
  | TxMncc m _ => mncc_ok m
  | TxRtp r _ => rtp_ok r
  | NuaRespond _ status _ _ _ => status = 180 \/ status = 200 \/ 300 <= status <= 699
  | _ => True
  end.

Definition wire_ok (w : world) : Prop := Forall act_ok (out w).
Definition emits {A} (m : MW A) (Q : A -> Prop) : Prop := within wire_ok m Q.
Definition quiet {A} (m : MW A) : Prop := emits m (fun _ => True).

(** ** Rules *)
Lemma emits_bind {A B} (m : MW A) (k : A -> MW B) P Q :
  emits m P -> (forall a, P a -> emits (k a) Q) -> emits (bind m k) Q.
Proof using. apply within_bind. Qed.
Lemma emits_seq {A B} (m : MW A) (k : A -> MW B) Q : quiet m -> (forall a, emits (k a) Q) -> emits (bind m k) Q.
Proof using. intros Hm Hk. eapply emits_bind; [exact Hm|]. auto. Qed.
Lemma quiet_bind {A B} (m : MW A) (k : A -> MW B) : quiet m -> (forall a, quiet (k a)) -> quiet (bind m k).
Proof using. apply emits_seq. Qed.
Lemma emits_ret {A} (a : A) (Q : A -> Prop) : Q a -> emits (ret a) Q.
Proof using. apply within_ret. Qed.
Lemma quiet_ret {A} (a : A) : quiet (ret a).
Proof using. by apply emits_ret. Qed.
Lemma emits_crash {A} f (Q : A -> Prop) : emits (crash f) Q.
Proof using. apply within_crash. Qed.
Lemma quiet_crash {A} f : quiet (crash f : MW A).
Proof using. apply emits_crash. Qed.
Lemma quiet_gets {A} (f : world -> A) : quiet (gets f).
Proof using. by apply within_gets. Qed.
Lemma quiet_some_or {A} f (o : option A) : quiet (some_or f o).
Proof using. by apply within_some_or. Qed.
Lemma quiet_assert b : quiet (assert b).
Proof using. by apply within_assert. Qed.
Lemma quiet_modify f : (forall w, out (f w) = out w) -> quiet (modify f).
Proof using. intros Hf. apply within_modify; [|done]. intros w. unfold wire_ok. by rewrite Hf. Qed.
Lemma quiet_when b m : quiet m -> quiet (when b m).
Proof using. intros Hm. by apply within_when. Qed.
Lemma quiet_emit a : act_ok a -> quiet (emit a).
Proof using. intros Ha. apply within_modify; [|done]. intros w Hw. apply Forall_app. by repeat constructor. Qed.
End wire.

Create HintDb emitsdb discriminated.
#[export] Hint Constants Opaque : emitsdb.
#[export] Hint Resolve quiet_ret quiet_crash quiet_gets quiet_some_or quiet_assert quiet_when : emitsdb.
#[export] Hint Extern 1 (quiet (modify _)) => (apply quiet_modify; reflexivity) : emitsdb.
#[export] Hint Extern 2 (quiet (emit _)) => (apply quiet_emit; cbn [act_ok]; lia || exact I) : emitsdb.

Ltac emits := repeat first
  [ solve [auto with emitsdb]
  | match goal with
    | |- forall _, _ => intro
    | |- quiet (bind _ _) => apply quiet_bind
    | |- emits (bind _ _) _ => apply emits_seq
    | |- quiet (if ?b then _ else _) => destruct b
    | |- quiet (match ?x with _ => _ end) => destruct x
    | |- emits (if ?b then _ else _) _ => destruct b
    | |- emits (match ?x with _ => _ end) _ => destruct x
    | |- emits (ret _) _ => apply emits_ret
    | |- emits (crash _) _ => apply emits_crash
    end ].

(** ** Calls, SDP and SIP legs *)
Section quiet.
Context {E : Env}.

Lemma quiet_deref_leg l : quiet (deref_leg l).
Proof using. unfold deref_leg. emits. Qed.
Lemma quiet_deref_call c : quiet (deref_call c).
Proof using. unfold deref_call. emits. Qed.
Lemma quiet_as_mncc l : quiet (as_mncc l).
Proof using. unfold as_mncc, deref_leg. emits. Qed.
Lemma quiet_as_sip l : quiet (as_sip l).
Proof using. unfold as_sip, deref_leg. emits. Qed.
Lemma quiet_upd_leg l f : quiet (upd_leg l f).
Proof using. unfold upd_leg, deref_leg. emits. Qed.
Lemma quiet_upd_call c f : quiet (upd_call c f).
Proof using. unfold upd_call, deref_call. emits. Qed.
Lemma quiet_tick : quiet tick.
Proof using. unfold tick. emits. Qed.
Hint Resolve quiet_deref_leg quiet_deref_call quiet_as_mncc quiet_as_sip quiet_upd_leg quiet_upd_call quiet_tick : emitsdb.
Lemma quiet_upd_base l f : quiet (upd_base l f).
Proof using. apply quiet_upd_leg. Qed.
Lemma quiet_upd_mncc l f : quiet (upd_mncc l f).
Proof using. unfold upd_mncc. emits. Qed.
Lemma quiet_upd_sip l f : quiet (upd_sip l f).
Proof using. unfold upd_sip. emits. Qed.
Lemma quiet_timer_schedule l : quiet (timer_schedule l).
Proof using. unfold timer_schedule. emits. Qed.
Lemma quiet_timer_del l : quiet (timer_del l).
Proof using. unfold timer_del. emits. Qed.
Lemma quiet_free_leg l : quiet (free_leg l).
Proof using. unfold free_leg. emits. Qed.
Lemma quiet_free_call c : quiet (free_call c).
Proof using. unfold free_call. emits. Qed.
Lemma quiet_nua_handle_destroy h : quiet (nua_handle_destroy h).
Proof using. unfold nua_handle_destroy. emits. Qed.
Lemma quiet_read_str o : quiet (read_str o).
Proof using. unfold read_str. emits. Qed.
Lemma quiet_talloc_call x : quiet (talloc_call x).
Proof using. unfold talloc_call. emits. Qed.
Lemma quiet_talloc_leg x : quiet (talloc_leg x).
Proof using. unfold talloc_leg. emits. Qed.
Lemma quiet_talloc_str p s : quiet (talloc_str p s).
Proof using. unfold talloc_str. emits. Qed.
End quiet.
#[export] Hint Resolve quiet_deref_leg quiet_deref_call quiet_as_mncc quiet_as_sip quiet_upd_leg quiet_upd_call quiet_tick
  quiet_upd_base quiet_upd_mncc quiet_upd_sip quiet_timer_schedule quiet_timer_del quiet_free_leg quiet_free_call
  quiet_nua_handle_destroy quiet_read_str quiet_talloc_call quiet_talloc_leg quiet_talloc_str : emitsdb.

Section legs.
Context {E : Env}.

Lemma quiet_call_leg_release l : quiet (call_leg_release l).
Proof using. unfold call_leg_release. emits. Qed.
Lemma quiet_call_create t x : quiet (call_create t x).
Proof using. unfold call_create. emits. Qed.
Lemma quiet_call_leg_other l : quiet (call_leg_other l).
Proof using. unfold call_leg_other. emits. Qed.
Lemma quiet_call_leg_rx_sdp l s : quiet (call_leg_rx_sdp l s).
Proof using. unfold call_leg_rx_sdp. emits. Qed.
Lemma quiet_sdp_extract_sdp l sip any : quiet (sdp_extract_sdp l sip any).
Proof using. unfold sdp_extract_sdp. emits. Qed.
Lemma quiet_sdp_create_file l o mode : quiet (sdp_create_file l o mode).
Proof using. unfold sdp_create_file. emits. Qed.
Lemma quiet_assert_type l t : quiet (assert_type l t).
Proof using. unfold assert_type. emits. Qed.
Hint Resolve quiet_call_leg_release quiet_call_leg_other quiet_sdp_create_file quiet_assert_type : emitsdb.

(** Every row of the table of causes has the status of a failure or, for normal
    clearing, 200, and the search ends at a row. *)
Definition final_status (s : Z) : Prop := s = 200 \/ 300 <= s <= 699.
Lemma cause_row_status i : (i < length cause_map)%nat -> final_status (sip_status (cause_row_at i)).
Proof using.
  intros Hi. assert (Forall (fun r => final_status (sip_status r)) cause_map) as H.
  { unfold cause_map, final_status. repeat (apply Forall_cons; split; [simpl; lia|]). by constructor. }
  rewrite Forall_forall in H. apply H, list_elem_of_In, nth_In, Hi.
Qed.
Lemma cause2status_status c : final_status (fst (cause2status c)).
Proof using.
  assert (0 < length cause_map)%nat as Hpos by (simpl; lia). unfold cause2status. rewrite cause_loop_spec by lia.
  destruct (List.find _ _) as [j|] eqn:Hj; apply cause_row_status; [|lia].
  apply List.find_some in Hj as [Hj%in_seq _]. lia.
Qed.

Lemma quiet_sip_release_call l : quiet (sip_release_call l).
Proof using.
  unfold sip_release_call. do 3 (apply quiet_bind; [emits|intros ?]). pose proof (cause2status_status (cause (base a0))) as Hs.
  destruct (cause2status _) as [st text]. unfold final_status in Hs. simpl in Hs. emits.
Qed.
Hint Resolve quiet_sip_release_call : emitsdb.
Lemma quiet_sip_ring_call l : quiet (sip_ring_call l).
Proof using. unfold sip_ring_call. emits. Qed.
Lemma quiet_sip_connect_call l : quiet (sip_connect_call l).
Proof using. unfold sip_connect_call. emits. Qed.
Lemma quiet_sip_dtmf_call l k : quiet (sip_dtmf_call l k).
Proof using. unfold sip_dtmf_call. emits. Qed.
Lemma quiet_sip_reinvite l mode s : quiet (sip_reinvite l mode s).
Proof using. unfold sip_reinvite. emits. Qed.
Lemma quiet_send_invite l src dst : quiet (send_invite l src dst).
Proof using. unfold send_invite, gcr_header. emits. Qed.
Hint Resolve quiet_send_invite : emitsdb.
Lemma quiet_sip_create_remote_leg c : quiet (sip_create_remote_leg c).
Proof using. unfold sip_create_remote_leg, new_nua_handle, nua_handle_bind. emits. Qed.
End legs.
#[export] Hint Resolve quiet_call_leg_release quiet_call_create quiet_call_leg_other quiet_call_leg_rx_sdp quiet_sdp_extract_sdp
  quiet_sdp_create_file quiet_assert_type quiet_sip_release_call quiet_sip_ring_call quiet_sip_connect_call quiet_sip_dtmf_call
  quiet_sip_reinvite quiet_send_invite quiet_sip_create_remote_leg : emitsdb.

(** ** The connection and MNCC legs *)
Section mncc.
Context {E : Env} {HE : EnvLaws E}.

Lemma strlcpy_le n s : (String.length (osmo_strlcpy n s) <= n - 1)%nat.
Proof using HE. rewrite osmo_strlcpy_spec. apply str_take_length. Qed.

Lemma quiet_mncc_leg_release l : quiet (mncc_leg_release l).
Proof using. unfold mncc_leg_release. emits. Qed.
Lemma quiet_start_cmd_timer l t : quiet (start_cmd_timer l t).
Proof using. unfold start_cmd_timer. emits. Qed.
Lemma quiet_stop_cmd_timer l t : quiet (stop_cmd_timer l t).
Proof using. unfold stop_cmd_timer. emits. Qed.
Lemma quiet_mncc_leg_matches cr o : quiet (mncc_leg_matches cr o).
Proof using. unfold mncc_leg_matches. emits. Qed.
Hint Resolve quiet_mncc_leg_release quiet_start_cmd_timer quiet_stop_cmd_timer quiet_mncc_leg_matches : emitsdb.
Lemma quiet_mncc_find_leg_in cs cr : quiet (mncc_find_leg_in cs cr).
Proof using. induction cs; simpl; emits. Qed.
Hint Resolve quiet_mncc_find_leg_in : emitsdb.
Lemma quiet_mncc_find_leg cr : quiet (mncc_find_leg cr).
Proof using. unfold mncc_find_leg. emits. Qed.
Hint Resolve quiet_mncc_find_leg : emitsdb.
Lemma quiet_mncc_find_leg_not_released cr : quiet (mncc_find_leg_not_released cr).
Proof using. unfold mncc_find_leg_not_released. emits. Qed.

(** A header: nothing but the type, the callref and, where it belongs, a cause. *)
Definition has_cause (t : Z) : bool := (MNCC_DISC_REQ =? t) || (MNCC_REL_REQ =? t).
Definition header (t cr v : Z) : gsm_mncc :=
  let m := set_mn_header t cr gsm_mncc0 in
  if has_cause t
  then set_mn_cause (Cause GSM48_CAUSE_CODING_GSM GSM48_CAUSE_LOC_PUN_S_LU v) (add_field MNCC_F_CAUSE m) else m.
Definition bare (t : Z) (m : gsm_mncc) : Prop := exists cr v, m = header t cr v.

Lemma emits_fill_header t cr : emits (mncc_fill_header gsm_mncc0 t cr) (bare t).
Proof using.
  unfold mncc_fill_header, bare, header, has_cause.
  destruct (_ || _); [emits|apply emits_ret; by exists cr, 0]. by exists cr, (cause (base a1)).
Qed.

(** A type whose header alone is a message the program may send. *)
Definition sendable (t : Z) : bool :=
  existsb (Z.eqb (if has_cause t then MNCC_F_CAUSE else 0)) (allowed_fields t).

Lemma bare_sendable t m : bare t m -> sendable t = true -> mncc_ok m.
Proof using.
  intros (cr & v & ->) Hs. apply existsb_exists in Hs as (f & Hin & Hf%Z.eqb_eq). subst f.
  unfold mncc_ok, announced, header in *. destruct (has_cause t); simpl in *; split_and!; try done; try lia. by exists v.
Qed.

(** A SETUP_REQ, before and after the GCR. *)
Lemma setup_numbers_ok s : nr_plan (setup_calling s) = GSM48_NPI_ISDN_E164
  /\ (String.length (nr_number (setup_calling s)) <= sizeof_number - 1)%nat.
Proof using HE. destruct s as [s|]; simpl; [destruct (str_hd_is "+" s)|]; (split; [done|apply strlcpy_le]). Qed.

Lemma setup_req_ok b cr src dst : mncc_ok (setup_req b cr src dst).
Proof using HE.
  pose proof (setup_numbers_ok src) as [? ?].
  pose proof (str_take_length 14 (fmt_s dst)). pose proof (strlcpy_le sizeof_number (default EmptyString dst)).
  unfold mncc_ok, announced, setup_req. destruct b; simpl; split_and!; try done; try lia; auto 6.
Qed.
Lemma setup_gcr_ok b cr src dst g rc data : osmo_enc_gcr g = (rc, data) -> rc <> 0 -> 0 <= rc <= 16 ->
  mncc_ok (add_field MNCC_F_GCR (copy_gcr rc data (setup_req b cr src dst))).
Proof using HE.
  intros Hg Hne Hrc. destruct (setup_req_ok b cr src dst) as (_ & (H1 & H2 & H3 & H4 & H5 & _) & H6 & H7 & H8 & _ & H9).
  assert (length (take (Z.to_nat rc) data ++ drop (Z.to_nat rc) (replicate 16 0%Z))%list <= 16)%nat as Hl.
  { rewrite length_app, length_take, length_drop, length_replicate. lia. }
  unfold mncc_ok, announced. destruct b; cbn in *; split_and!; try done; try lia; auto 6; by exists g, rc, data.
Qed.

Lemma emits_add_gcr cl b cr src dst : emits (add_gcr cl (setup_req b cr src dst)) mncc_ok.
Proof using HE.
  pose proof (setup_req_ok b cr src dst) as H1. unfold add_gcr. destruct (gcr_present cl); [|by apply emits_ret].
  apply emits_seq; [emits|]. intros n. destruct (osmo_enc_gcr (gcr cl)) as [rc data] eqn:Hg.
  destruct (alloc_ok n && _) eqn:Hn; [|by apply emits_ret]. destruct ((0 <=? rc) && _) eqn:Hb; [|apply emits_crash]. apply emits_ret.
  apply andb_true_iff in Hb as [?%Z.leb_le ?%Z.leb_le]. apply andb_true_iff in Hn as [_ Hn%negb_true_iff%Z.eqb_neq].
  by apply (setup_gcr_ok b cr src dst (gcr cl)).
Qed.
End mncc.
#[export] Hint Resolve quiet_mncc_leg_release quiet_start_cmd_timer quiet_stop_cmd_timer quiet_mncc_leg_matches
  quiet_mncc_find_leg_in quiet_mncc_find_leg quiet_mncc_find_leg_not_released : emitsdb.

(** [disc] is what [conn->on_disconnect] does. *)
Section sending.
Context {E : Env} {HE : EnvLaws E} (disc : MW unit) (Hdisc : quiet disc).

Lemma quiet_close_connection : quiet (close_connection disc).
Proof using Hdisc. unfold close_connection. emits. Qed.
Hint Resolve quiet_close_connection : emitsdb.

Lemma quiet_mncc_write m : mncc_ok m -> quiet (mncc_write disc m).
Proof using Hdisc. intros Hm. unfold mncc_write. emits. by apply quiet_emit. Qed.

Lemma quiet_mncc_rtp_write r : rtp_ok r -> quiet (mncc_rtp_write disc r).
Proof using Hdisc. intros Hr. unfold mncc_rtp_write. emits. by apply quiet_emit. Qed.

Lemma quiet_mncc_send t cr : sendable t = true -> quiet (mncc_send disc t cr).
Proof using Hdisc.
  intros Ht. unfold mncc_send. eapply emits_bind; [apply emits_fill_header|]. intros m Hm.
  by apply quiet_mncc_write, (bare_sendable t).
Qed.
#[local] Hint Extern 2 (quiet (mncc_send _ _ _)) => (apply quiet_mncc_send; reflexivity) : emitsdb.

Lemma quiet_mncc_rtp_send cr s : quiet (mncc_rtp_send disc MNCC_RTP_CREATE cr s).
Proof using Hdisc HE.
  apply quiet_mncc_rtp_write. split; [by left|]. destruct s as [t|]; simpl; [|lia].
  pose proof (strlcpy_le 1024 t). lia.
Qed.

Lemma quiet_send_rtp_connect l o : quiet (send_rtp_connect disc l o).
Proof using Hdisc HE.
  unfold send_rtp_connect. emits. apply quiet_mncc_rtp_write. split; [right; by left|]. apply (strlcpy_le 1024).
Qed.
Hint Resolve quiet_send_rtp_connect : emitsdb.

Lemma quiet_mncc_call_leg_connect l : quiet (mncc_call_leg_connect disc l).
Proof using Hdisc HE. unfold mncc_call_leg_connect. emits. Qed.

Lemma quiet_mncc_call_leg_ring l : quiet (mncc_call_leg_ring disc l).
Proof using Hdisc HE.
  unfold mncc_call_leg_ring. do 2 (apply quiet_bind; [emits|intros ?]).
  eapply emits_bind; [apply emits_fill_header|]. intros h Hh. apply emits_seq; [|emits].
  apply quiet_mncc_write. destruct Hh as (cr & v & ->). unfold mncc_ok, announced. cbn. split_and!; try done; try lia. by left.
Qed.

Lemma quiet_mncc_call_leg_release l : quiet (mncc_call_leg_release disc l).
Proof using Hdisc. unfold mncc_call_leg_release, request_release. emits. Qed.

Lemma quiet_mncc_create_remote_leg c : quiet (mncc_create_remote_leg disc c).
Proof using Hdisc HE.
  unfold mncc_create_remote_leg. do 2 (apply quiet_bind; [emits|intros ?]). destruct a0; [|emits].
  do 3 (apply quiet_bind; [emits|intros ?]). eapply emits_bind; [apply emits_add_gcr|]. intros m Hm.
  eapply (emits_bind _ _ mncc_ok); [|intros m' Hm'; emits; by apply quiet_mncc_write].
  emits; [|done..]. destruct Hm as (? & ? & ? & ? & ? & ? & _). split_and!; try done. apply (strlcpy_le 1024).
Qed.

(** Releasing a leg through its callback, and losing the connection. *)
Lemma quiet_release_leg l : quiet (release_leg disc l).
Proof using Hdisc. unfold release_leg. emits. all: by apply quiet_mncc_call_leg_release. Qed.

Lemma quiet_disconnect_loop fuel : forall cur, quiet (disconnect_loop (release_leg disc) fuel cur).
Proof using Hdisc.
  pose proof quiet_release_leg. induction fuel as [|fuel IH]; intros [c|]; simpl; [emits..| |emits].
  unfold disconnect_call, release_opt, is_mncc_leg. emits.
Qed.

Lemma quiet_check_hello buf rc : quiet (check_hello disc buf rc).
Proof using Hdisc. unfold check_hello. emits. Qed.
End sending.

(** ** Every handler *)
Section handlers.
Context {E : Env} {HE : EnvLaws E}.

Lemma quiet_on_disconnect n : quiet (on_disconnect n).
Proof using HE.
  induction n as [|n IH]; simpl; [emits|]. unfold app_mncc_disconnected.
  apply quiet_bind; [emits|intros cs]. by apply quiet_disconnect_loop.
Qed.
Lemma quiet_disconnected : quiet disconnected.
Proof using HE. apply quiet_on_disconnect. Qed.
Hint Resolve quiet_disconnected : emitsdb.

(** The functions that write, with the callback of the program. *)
Lemma quiet_close_conn : quiet close_conn.
Proof using HE. by apply quiet_close_connection, quiet_disconnected. Qed.
Lemma quiet_send t cr : sendable t = true -> quiet (send t cr).
Proof using HE. intros Ht. unfold send. apply quiet_bind; [|emits]. apply quiet_mncc_send; [emits|done]. Qed.
Lemma quiet_send_for l t : sendable t = true -> quiet (send_for l t).
Proof using HE. intros Ht. unfold send_for. emits. by apply quiet_send. Qed.
Lemma quiet_call_release l : quiet (call_release l).
Proof using HE. apply quiet_release_leg, quiet_disconnected. Qed.
Lemma quiet_send_rtp l o : quiet (send_rtp_connect disconnected l o).
Proof using HE. apply quiet_send_rtp_connect, quiet_disconnected. Qed.
#[local] Hint Extern 2 (quiet (send _ _)) => (apply quiet_send; reflexivity) : emitsdb.
#[local] Hint Extern 2 (quiet (send_for _ _)) => (apply quiet_send_for; reflexivity) : emitsdb.
Hint Resolve quiet_close_conn quiet_call_release quiet_send_rtp quiet_mncc_call_leg_connect quiet_mncc_call_leg_ring
  quiet_mncc_call_leg_release quiet_mncc_create_remote_leg quiet_mncc_rtp_send quiet_check_hello : emitsdb.

Lemma quiet_update_rtp l : quiet (update_rtp l).
Proof using HE. unfold update_rtp. emits. Qed.
Hint Resolve quiet_update_rtp : emitsdb.
Lemma quiet_invoke f l : quiet (invoke f l).
Proof using HE. unfold invoke, sip_hold_call, sip_retrieve_call. emits. Qed.
Hint Resolve quiet_invoke : emitsdb.
Lemma quiet_invoke_member f l : quiet (invoke_member f l).
Proof using HE. unfold invoke_member. emits. Qed.
Lemma quiet_invoke_dtmf l k : quiet (invoke_dtmf l k).
Proof using. unfold invoke_dtmf. emits. Qed.
Lemma quiet_app_route_call c src dst : quiet (app_route_call c src dst).
Proof using HE. unfold app_route_call, route_to_sip, route_to_mncc, release_initial. emits. Qed.
Hint Resolve quiet_invoke_member quiet_invoke_dtmf quiet_app_route_call : emitsdb.

Lemma quiet_dtmf_rsp l t k : existsb (Z.eqb t) [MNCC_START_DTMF_RSP; MNCC_STOP_DTMF_RSP] = true ->
  quiet (dtmf_rsp l t k).
Proof using HE.
  intros Ht. unfold dtmf_rsp. apply quiet_bind; [emits|intros m].
  eapply emits_bind; [apply emits_fill_header|]. intros h Hh. apply quiet_bind; [|emits].
  apply quiet_mncc_write; [emits|]. apply existsb_exists in Ht as (t' & Hin & ->%Z.eqb_eq).
  destruct Hh as (cr & v & ->). unfold mncc_ok, announced.
  destruct Hin as [<-|[<-|[]]]; cbn; split_and!; try done; try lia; by left.
Qed.
#[local] Hint Extern 2 (quiet (dtmf_rsp _ _ _)) => (apply quiet_dtmf_rsp; reflexivity) : emitsdb.

Lemma quiet_with_leg buf rc k : (forall d l, quiet (k d l)) -> quiet (with_leg buf rc k).
Proof using HE. intros Hk. unfold with_leg, find_leg. emits. Qed.

Lemma quiet_release_other_with_cause l v : quiet (release_other_with_cause l v).
Proof using HE. unfold release_other_with_cause. emits. Qed.
Lemma quiet_take_changed_sdp l : quiet (take_changed_sdp l).
Proof using. unfold take_changed_sdp. emits. Qed.
Lemma quiet_request_rtp_create l cr s : quiet (request_rtp_create l cr s).
Proof using HE. unfold request_rtp_create. emits. Qed.
Hint Resolve quiet_release_other_with_cause quiet_take_changed_sdp quiet_request_rtp_create : emitsdb.

Lemma quiet_setup_call d called g : quiet (setup_call d called g).
Proof using HE. unfold setup_call, call_mncc_create. emits. Qed.
Hint Resolve quiet_setup_call : emitsdb.
Lemma quiet_check_setup buf rc : quiet (check_setup buf rc).
Proof using HE. unfold check_setup. emits. Qed.
Lemma quiet_check_rtp_connect buf rc : quiet (check_rtp_connect buf rc).
Proof using HE. unfold check_rtp_connect. emits. Qed.
Lemma quiet_check_rtp_create buf rc : quiet (check_rtp_create buf rc).
Proof using HE. unfold check_rtp_create, continue_call, continue_mo_call, continue_mt_call. emits. Qed.

Lemma quiet_mncc_dispatch t buf rc : quiet (mncc_dispatch t buf rc).
Proof using HE.
  pose proof quiet_check_setup. pose proof quiet_check_rtp_create. pose proof quiet_check_rtp_connect.
  unfold mncc_dispatch. emits; apply quiet_with_leg; emits.
Qed.

(** The events of sofia-sip. *)
Lemma quiet_sip_find_leg nh : quiet (sip_find_leg nh).
Proof using.
  unfold sip_find_leg. apply quiet_bind; [emits|]. intros cs. induction cs; simpl; unfold sip_leg_matches; emits.
Qed.
Lemma quiet_call_progress l sip status : quiet (call_progress l sip status).
Proof using HE. unfold call_progress, the_sip. emits. Qed.
Lemma quiet_call_connect l sip : quiet (call_connect l sip).
Proof using HE. unfold call_connect, the_sip. emits. Qed.
Lemma quiet_new_call nh sip : quiet (new_call nh sip).
Proof using HE.
  unfold new_call, call_sip_create, new_call_users, new_call_leg, reject_406, nua_handle_bind. emits.
Qed.
Lemma quiet_sip_handle_reinvite l nh sip : quiet (sip_handle_reinvite l nh sip).
Proof using HE. unfold sip_handle_reinvite, reject_406, respond_200, invoke_update_rtp. emits. Qed.
Hint Resolve quiet_sip_find_leg quiet_call_progress quiet_call_connect quiet_new_call quiet_sip_handle_reinvite : emitsdb.
Lemma quiet_on_r_invite status nh sip : quiet (on_r_invite status nh sip).
Proof using HE. unfold on_r_invite, the_leg, invite_failed. emits. Qed.
Hint Resolve quiet_on_r_invite : emitsdb.
Lemma quiet_nua_callback ev status nh sip : quiet (nua_callback ev status nh sip).
Proof using HE.
  unfold nua_callback, on_i_ack, on_i_invite, on_remote_hangup, drop_leg, the_leg, the_sip. destruct ev; emits.
Qed.

Lemma quiet_handle_event e : quiet (handle_event e).
Proof using HE.
  pose proof quiet_mncc_dispatch. pose proof quiet_nua_callback.
  destruct e as [rd| |l|ev status nh sip]; simpl; unfold mncc_data, mncc_reconnect, cmd_timeout; emits.
Qed.

(** C4: whatever the MSC, the SIP side and the system do, the program speaks its
    protocols: each message it ever writes to the MSC is of one of the types that
    the side which takes calls may send, with one of the masks of this type; a part
    is filled exactly when the mask announces it (a number with the ISDN plan, a
    cause and a progress with their coding and location, the GCR with what the
    encoder made; any keypad value counts as filled) and zero otherwise; its strings
    end within their arrays and the GCR stays within its 16 bytes; each SIP response
    has the status 180, 200 or one of a failure.  This holds of what is written before a fault, too. *)
Theorem speaks_protocol g w0 w e : boot (zeroed g) = Ret tt w0 -> rtc may_step w0 w ->
  Forall act_ok (out w) /\
  match handle_event e w with Ret _ w' | Crash _ w' => Forall act_ok (out w') end.
Proof using HE.
  intros Hb Hs. rewrite boot_booted in Hb. injection Hb as <-.
  assert (Forall act_ok (out w)) as Hw.
  { assert (Forall act_ok (out (booted g))) as H0 by constructor. revert H0.
    induction Hs as [w|w w1 w2 [e' w1' _ Heq] _ IH]; [done|]. intros H0. apply IH.
    pose proof (quiet_handle_event e' w H0) as H. rewrite Heq in H. apply H. }
  split; [done|]. pose proof (quiet_handle_event e w Hw) as H. destruct (handle_event e w); [apply H|done].
Qed.
End handlers.
