(* ===== verification/Fits.v ===== *)
(** * Every number and string within its field

    The fields of the structures have widths: callrefs and payload types are
    [uint32_t], the cause and the keypad [int], an address has 128 bytes, a string
    has no more characters than its array.  [world_fits] says so of every leg, every call and
    every message written.  It holds of every store the program reaches,
    whatever bytes the MSC sends, so that what is written is what a reader of
    the bytes gets ([written_as_read]).  [yields m Q] is the judgement: [m]
    preserves [world_fits] and returns a value with [Q]. *)
From S2P Require Import Prelude Effect Codec Protocol Lib State Call Sdp SipLeg MnccConn App MnccRx SipUa System Typing TypeSafety.

(** ** Definitions *)

(** A C string of at most [n] characters. *)
Definition text (n : nat) (s : string) : Prop := no_nul s /\ (String.length s <= n)%nat.
Definition opt {A} (P : A -> Prop) (o : option A) : Prop := match o with Some a => P a | None => True end.

(** What the libraries return fits, too: constants and causes are [int]s, the GCR
    encoder returns bytes and their number, [inet_pton] an address of its family,
    a payload type of SDP has 7 bits, and the array for a number has room for
    the word emergency. *)
Class FitLaws (E : Env) := {
  mncc_lib_laws :: MnccLibLaws mncc_lib;
  cause_value_int : forall c, is_int (cause_value c);
  constants_int : Forall is_int
    [GSM48_CAUSE_CODING_GSM; GSM48_CAUSE_LOC_PUN_S_LU; GSM48_CAUSE_LOC_PRN_S_LU; GSM48_PROGR_IN_BAND_AVAIL;
     GSM48_NPI_UNKNOWN; GSM48_NPI_ISDN_E164; GSM48_TON_UNKNOWN; GSM48_TON_INTERNATIONAL];
  number_room : (9 <= sizeof_number)%nat;
  osmo_enc_gcr_bytes : forall g, Forall byte (snd (osmo_enc_gcr g))
    /\ fst (osmo_enc_gcr g) = Z.of_nat (length (snd (osmo_enc_gcr g)));
  inet_pton_4 : forall s b, inet_pton AF_INET s = Some b -> length b = 4%nat /\ Forall byte b;
  inet_pton_6 : forall s b, inet_pton AF_INET6 s = Some b -> length b = 16%nat /\ Forall byte b;
  sdp_parse_pt : forall fl s sess, sdp_parse fl s = Some (Some sess) ->
    Forall (fun m => Forall (fun r => 0 <= rm_pt r < 128) (m_rtpmaps m)) (s_media sess) }.

Section fits.
Context {E : Env}.

Definition mncc_leg_fits (m : mncc_leg) : Prop :=
  is_u32 (m_callref m) /\ number_wf (m_called m) /\ number_wf (m_calling m) /\ text 16 (m_imsi m)
  /\ is_int (m_rsp_wanted m) /\ is_int (m_cause m).
Definition leg_fits (x : leg) : Prop :=
  sockaddr_wf (addr (base x)) /\ is_u32 (payload_type (base x)) /\ is_u32 (payload_msg_type (base x))
  /\ is_int (cause (base x)) /\ text 1023 (rx_sdp (base x))
  /\ match ext x with XMncc m => mncc_leg_fits m | XSip _ => True end.
Definition owned_text (o : option (ptr * string)) : Prop := opt (fun os => no_nul (snd os)) o.
Definition call_fits (cl : call) : Prop :=
  is_u32 (call_id cl) /\ owned_text (source cl) /\ owned_text (dest cl).
Definition act_fits (a : action) : Prop :=
  match a with
  | TxMncc m _ => mncc_wf m
  | TxRtp r _ => rtp_wf r
  | _ => True
  end.

Record world_fits (w : world) : Prop := {
  wf_fit_legs : map_Forall (fun _ => leg_fits) (legs w);
  wf_fit_calls : map_Forall (fun _ => call_fits) (calls w);
  wf_fit_id : is_u32 (last_call_id w);
  wf_fit_out : Forall act_fits (out w) }.

(** What an event may carry: bytes, and C strings. *)
Definition sip_fits (m : sip_t) : Prop :=
  opt no_nul (sip_payload m) /\ opt no_nul (sip_to_user m) /\ opt no_nul (sip_from_user m).
Definition event_fits (e : event) : Prop :=
  match e with
  | EvMncc rd => opt (Forall byte) rd
  | EvNua _ _ _ sip => opt sip_fits sip
  | _ => True
  end.

Definition yields {A} (m : MW A) (Q : A -> Prop) : Prop := within world_fits m Q.
Definition tidy {A} (m : MW A) : Prop := yields m (fun _ => True).

(** ** Rules *)
Lemma yields_bind {A B} (m : MW A) (k : A -> MW B) P Q :
  yields m P -> (forall a, P a -> yields (k a) Q) -> yields (bind m k) Q.
Proof using. apply within_bind. Qed.
Lemma yields_tidy {A} (m : MW A) Q : yields m Q -> tidy m.
Proof using. intros H. by eapply within_mono. Qed.
Lemma yields_ret {A} (a : A) (Q : A -> Prop) : Q a -> yields (ret a) Q.
Proof using. apply within_ret. Qed.
Lemma tidy_ret {A} (a : A) : tidy (ret a).
Proof using. by apply within_ret. Qed.
Lemma yields_crash {A} f (Q : A -> Prop) : yields (crash f) Q.
Proof using. apply within_crash. Qed.
Lemma tidy_crash {A} f : tidy (crash f : MW A).
Proof using. apply yields_crash. Qed.
Lemma tidy_gets {A} (f : world -> A) : tidy (gets f).
Proof using. by apply within_gets. Qed.
Lemma yields_some_or {A} f (o : option A) : yields (some_or f o) (fun a => o = Some a).
Proof using. by apply within_some_or. Qed.
Lemma tidy_assert b : tidy (assert b).
Proof using. by apply within_assert. Qed.
Lemma tidy_when b m : tidy m -> tidy (when b m).
Proof using. intros H. by apply within_when. Qed.

(** An update of the rest of the store. *)
Lemma tidy_modify f : (forall w, legs (f w) ⊆ legs w /\ calls (f w) ⊆ calls w /\ last_call_id (f w) = last_call_id w
  /\ out (f w) = out w) -> tidy (modify f).
Proof using.
  intros Hf. apply within_modify; [|done]. intros w [Hl Hc Hi Ho]. destruct (Hf w) as (H1 & H2 & H3 & H4).
  split; [| |by rewrite H3|by rewrite H4]; intros p x Hx; [eapply Hl|eapply Hc]; by eapply lookup_weaken.
Qed.

Lemma tidy_emit a : act_fits a -> tidy (emit a).
Proof using.
  intros Ha. apply within_modify; [|done]. intros w [Hl Hc Hi Ho]. split; try done.
  apply Forall_app. by repeat constructor.
Qed.

Lemma yields_deref_leg l : yields (deref_leg l) leg_fits.
Proof using.
  intros w Hw. unfold deref_leg, bind, gets. simpl. destruct (legs w !! l) as [x|] eqn:Hx; [|done].
  split; [done|]. by eapply (wf_fit_legs w Hw).
Qed.
Lemma yields_deref_call c : yields (deref_call c) call_fits.
Proof using.
  intros w Hw. unfold deref_call, bind, gets. simpl. destruct (calls w !! c) as [x|] eqn:Hx; [|done].
  split; [done|]. by eapply (wf_fit_calls w Hw).
Qed.
Lemma yields_as_mncc l : yields (as_mncc l) mncc_leg_fits.
Proof using.
  eapply yields_bind; [apply yields_deref_leg|]. intros [b [m|s]] Hx; [|apply yields_crash].
  apply yields_ret. apply Hx.
Qed.
Lemma tidy_as_sip l : tidy (as_sip l).
Proof using.
  eapply yields_bind; [apply yields_deref_leg|]. intros [b [m|s]] Hx; [apply yields_crash|by apply yields_ret].
Qed.

Lemma tidy_upd_leg l f : (forall x, leg_fits x -> leg_fits (f x)) -> tidy (upd_leg l f).
Proof using.
  intros Hf. eapply yields_bind; [apply yields_deref_leg|]. intros x Hx. apply within_modify; [|done].
  intros w [Hl Hc Hi Ho]. split; try done. apply map_Forall_insert_2; [by apply Hf|done].
Qed.
Lemma tidy_upd_call c f : (forall x, call_fits x -> call_fits (f x)) -> tidy (upd_call c f).
Proof using.
  intros Hf. eapply yields_bind; [apply yields_deref_call|]. intros x Hx. apply within_modify; [|done].
  intros w [Hl Hc Hi Ho]. split; try done. apply map_Forall_insert_2; [by apply Hf|done].
Qed.
Lemma tidy_upd_base l f : (forall b e, leg_fits (Leg b e) -> leg_fits (Leg (f b) e)) -> tidy (upd_base l f).
Proof using. intros Hf. apply tidy_upd_leg. intros [b e]. apply Hf. Qed.
Lemma tidy_upd_mncc l f : (forall m, mncc_leg_fits m -> mncc_leg_fits (f m)) -> tidy (upd_mncc l f).
Proof using.
  intros Hf. eapply yields_bind; [apply yields_as_mncc|]. intros m Hm. apply tidy_upd_leg.
  intros [b e] (? & ? & ? & ? & ? & _). split_and!; try done. by apply Hf.
Qed.
Lemma tidy_upd_sip l f : tidy (upd_sip l f).
Proof using.
  eapply yields_bind; [apply tidy_as_sip|]. intros m _. apply tidy_upd_leg.
  intros [b e] (? & ? & ? & ? & ? & _). by split_and!.
Qed.
End fits.

Create HintDb fitsdb discriminated.
#[export] Hint Constants Opaque : fitsdb.
#[export] Hint Resolve tidy_ret tidy_gets tidy_crash yields_crash tidy_assert tidy_when yields_some_or yields_deref_leg yields_deref_call
  yields_as_mncc tidy_as_sip tidy_upd_sip : fitsdb.
#[export] Hint Extern 1 (tidy (emit _)) => (apply tidy_emit; exact I) : fitsdb.
#[export] Hint Extern 1 (tidy (modify _)) => (apply tidy_modify; intros; simpl; split_and!; reflexivity) : fitsdb.

(** One computation after the other: its value is known by a lemma of the
    database, or does not matter. *)
Ltac fits := repeat first
  [ solve [eauto with fitsdb]
  | match goal with
    | |- forall _, _ => intro
    | |- yields ?m (fun _ => True) => change (tidy m)
    | |- tidy (bind _ _) => eapply yields_bind; [solve [eauto with fitsdb]|intros ? ?]
    | |- yields (bind _ _) _ => eapply yields_bind; [solve [eauto with fitsdb]|intros ? ?]
    | |- tidy (bind _ _) => eapply (yields_bind _ _ (fun _ => True)); [|intros ? _]
    | |- yields (bind _ _) _ => eapply (yields_bind _ _ (fun _ => True)); [|intros ? _]
    | |- tidy (if ?b then _ else _) => destruct b eqn:?
    | |- tidy (match ?x with _ => _ end) => destruct x eqn:?
    | |- yields (if ?b then _ else _) _ => destruct b eqn:?
    | |- yields (match ?x with _ => _ end) _ => destruct x eqn:?
    | |- yields (ret _) _ => apply yields_ret
    | |- tidy _ => eapply yields_tidy; solve [eauto with fitsdb]
    end ].

(** ** Calls and legs *)
Section calls.
Context {E : Env}.

Lemma tidy_timer_schedule l : tidy (timer_schedule l).
Proof using. unfold timer_schedule. fits. Qed.
Lemma tidy_timer_del l : tidy (timer_del l).
Proof using. unfold timer_del. fits. Qed.
Lemma tidy_free_leg l : tidy (free_leg l).
Proof using.
  unfold free_leg. fits. apply tidy_modify. intros w. simpl. split_and!; try done. apply delete_subseteq.
Qed.
Lemma tidy_free_call c : tidy (free_call c).
Proof using.
  unfold free_call. fits; apply tidy_modify; intros w; simpl; split_and!; try done.
  - apply delete_subseteq.
  - apply map_filter_subseteq.
Qed.
Lemma tidy_nua_handle_destroy h : tidy (nua_handle_destroy h).
Proof using. unfold nua_handle_destroy. fits. Qed.
Lemma tidy_tick : tidy tick.
Proof using. unfold tick. fits. Qed.
Hint Resolve tidy_timer_schedule tidy_timer_del tidy_free_leg tidy_free_call tidy_nua_handle_destroy tidy_tick : fitsdb.

(** The parts of what fits. *)
Lemma call_fits_source cl : call_fits cl -> owned_text (source cl).
Proof using. by intros (_ & ? & _). Qed.
Lemma call_fits_dest cl : call_fits cl -> owned_text (dest cl).
Proof using. by intros (_ & _ & ?). Qed.
Lemma leg_callref_fits m : mncc_leg_fits m -> is_u32 (m_callref m).
Proof using. by intros (? & _). Qed.
Lemma mncc_wf_callref d : mncc_wf d -> is_u32 (mn_callref d).
Proof using. by intros (_ & ? & _). Qed.
Lemma mncc_wf_sdp d : mncc_wf d -> opt no_nul (Some (mn_sdp d)).
Proof using. intros Hd. apply Hd. Qed.
Lemma leg_rx_sdp_fits x : leg_fits x -> no_nul (rx_sdp (base x)).
Proof using. intros Hx. apply Hx. Qed.
Hint Resolve call_fits_source call_fits_dest : fitsdb.

Lemma yields_read_str o : owned_text o -> yields (read_str o) (opt no_nul).
Proof using. intros Ho. unfold read_str. destruct o as [[p s]|]; fits; simpl; auto. Qed.
Lemma yields_talloc_str p s : no_nul s -> yields (talloc_str p s) owned_text.
Proof using. intros Hs. unfold talloc_str. fits. by destruct (alloc_ok a). Qed.
Lemma tidy_talloc_call x : call_fits x -> tidy (talloc_call x).
Proof using.
  intros Hx. unfold talloc_call. fits. apply within_modify; [|done].
  intros w [Hl Hc Hi Ho]. split; try done. by apply map_Forall_insert_2.
Qed.
Lemma tidy_talloc_leg x : leg_fits x -> tidy (talloc_leg x).
Proof using.
  intros Hx. unfold talloc_leg. fits. apply within_modify; [|done].
  intros w [Hl Hc Hi Ho]. split; try done. by apply map_Forall_insert_2.
Qed.

Lemma tidy_call_leg_release l : tidy (call_leg_release l).
Proof using. unfold call_leg_release. fits. all: by apply tidy_upd_call. Qed.
Lemma tidy_call_leg_other l : tidy (call_leg_other l).
Proof using. unfold call_leg_other. fits. Qed.
Lemma tidy_assert_type l t : tidy (assert_type l t).
Proof using. unfold assert_type. fits. Qed.
End calls.
#[export] Hint Resolve tidy_timer_schedule tidy_timer_del tidy_free_leg tidy_free_call tidy_nua_handle_destroy tidy_tick
  call_fits_source call_fits_dest leg_callref_fits mncc_wf_callref mncc_wf_sdp leg_rx_sdp_fits
  yields_read_str yields_talloc_str tidy_talloc_call tidy_talloc_leg tidy_call_leg_release tidy_call_leg_other tidy_assert_type : fitsdb.

(** ** SDP and SIP legs *)
Section sip.
Context {E : Env} {HE : EnvLaws E} {HF : FitLaws E}.

Lemma is_int_of_u32 z : 0 <= z < 128 -> is_int z.
Proof using. unfold is_int. lia. Qed.
Lemma text_strlcpy n s : no_nul s -> text (n - 1) (osmo_strlcpy n s).
Proof using HE. intros Hs. rewrite osmo_strlcpy_spec. split; [by apply no_nul_take|apply str_take_length]. Qed.
Lemma text_empty n : text n EmptyString.
Proof using. split; [constructor|simpl; lia]. Qed.

Lemma sockaddr0_wf : sockaddr_wf sockaddr0.
Proof using. unfold sockaddr_wf, bytes_of. simpl ss_family. simpl sin_port. split_and!; try lia; try done; apply zeros_bytes. Qed.
Lemma leg_new_fits t c o e : match e with XMncc m => mncc_leg_fits m | XSip _ => True end ->
  leg_fits (Leg (set_ops o (call_leg_new t c)) e).
Proof using.
  intros He. unfold leg_fits. simpl. pose proof sockaddr0_wf. pose proof (text_empty 1023).
  unfold is_u32, is_int. split_and!; try done; lia.
Qed.
Lemma mncc_leg0_fits : mncc_leg_fits mncc_leg0.
Proof using.
  assert (number_wf number0) by (split_and!; simpl; try (unfold is_int; lia); constructor).
  unfold mncc_leg_fits, is_u32, is_int. simpl. split_and!; try done; try lia. apply text_empty.
Qed.

Lemma tidy_call_create t x : match x with XMncc m => mncc_leg_fits m | XSip _ => True end -> tidy (call_create t x).
Proof using.
  intros Hx. unfold call_create.
  eapply yields_bind; [apply tidy_talloc_call; repeat split; unfold is_u32; simpl; lia|]. intros [c|] _; [|fits].
  apply (yields_bind _ _ (fun _ => True)).
  { apply within_modify; [|done]. intros w [Hl Hc Hi Ho]. split; try done. apply u32_range. }
  intros _ _. apply (yields_bind _ _ is_u32).
  { apply within_gets. intros w Hw. apply Hw. }
  intros n Hn. fits.
  - apply tidy_upd_call. intros cl (_ & ? & ?). by split_and!.
  - by apply tidy_talloc_leg, (leg_new_fits _ _ leg_ops0).
  - by apply tidy_upd_call.
Qed.

Lemma tidy_call_leg_rx_sdp l s : opt no_nul s -> tidy (call_leg_rx_sdp l s).
Proof using HE.
  intros Hs. apply tidy_upd_base. intros b e Hb. unfold rx_sdp_update. destruct s as [s|]; [|done].
  destruct (_ || _); [done|]. destruct Hb as (? & ? & ? & ? & _ & ?). split_and!; try done.
  by apply (text_strlcpy 1024).
Qed.

Lemma extract_conn_wf cs : forall a, sockaddr_wf a -> sockaddr_wf (fst (extract_conn cs a)).
Proof using HF.
  induction cs as [|c cs IH]; intros a Ha; simpl; [done|].
  destruct (c_addrtype c); [destruct (inet_pton AF_INET _) as [b|] eqn:Hb|
    destruct (inet_pton AF_INET6 _) as [b|] eqn:Hb|]; [|exact (IH a Ha)| |exact (IH a Ha)..].
  all: destruct Ha as (? & ? & ? & ? & ?).
  - apply inet_pton_4 in Hb. unfold sockaddr_wf. simpl. split_and!; done || unfold AF_INET; lia.
  - apply inet_pton_6 in Hb. unfold sockaddr_wf. simpl. split_and!; done || unfold AF_INET6; lia.
Qed.

Lemma extract_media_pt any wanted ms port pt :
  Forall (fun m => Forall (fun r => 0 <= rm_pt r < 128) (m_rtpmaps m)) ms ->
  extract_media any wanted ms = Some (port, pt) -> 0 <= port < 2 ^ 16 /\ is_u32 pt.
Proof using.
  induction 1 as [|m ms Hm _ IH]; simpl; [done|]. destruct (rtp_audio m); [|done].
  destruct (List.find _ _) as [r|] eqn:Hr; [|done]. intros [= <- <-]. apply List.find_some in Hr as [Hr _].
  rewrite Forall_forall in Hm. specialize (Hm r). rewrite list_elem_of_In in Hm.
  split; [apply Z.mod_pos_bound; lia|]. unfold is_u32. specialize (Hm Hr). lia.
Qed.

Lemma tidy_sdp_extract_sdp l sip any : tidy (sdp_extract_sdp l sip any).
Proof using HE HF.
  unfold sdp_extract_sdp. eapply yields_bind; [apply tidy_as_sip|]. intros s _.
  destruct (sip_payload sip) as [data|]; [|fits]. destruct (sdp_session_of _ data) as [sess|] eqn:Hs; [|fits].
  eapply yields_bind; [apply yields_deref_leg|]. intros x Hx.
  destruct (extract_conn _ _) as [a2 found] eqn:Hc.
  assert (sockaddr_wf a2) as Ha.
  { change a2 with (fst (a2, found)). rewrite <- Hc. apply extract_conn_wf, Hx. }
  eapply (yields_bind _ _ (fun _ => True)).
  { apply tidy_upd_base. intros b e (_ & H2). exact (conj Ha H2). }
  intros _ _. destruct (extract_media _ _ _) as [[port pt]|] eqn:Hm; [|fits].
  assert (0 <= port < 2 ^ 16 /\ is_u32 pt) as [Hport Hpt].
  { eapply extract_media_pt; [|exact Hm]. unfold sdp_session_of in Hs.
    destruct (sdp_parse _ _) as [[s'|]|] eqn:Hp; simplify_eq. by eapply sdp_parse_pt. }
  eapply (yields_bind _ _ (fun _ => True)).
  { apply tidy_upd_base. intros b e (H1 & _ & H3). exact (conj H1 (conj Hpt H3)). }
  intros _ _. fits. apply tidy_upd_base. intros b e (_ & H2). refine (conj _ H2).
  destruct Ha as (H1 & _ & H3). exact (conj H1 (conj Hport H3)).
Qed.

Lemma tidy_sdp_create_file l o mode : tidy (sdp_create_file l o mode).
Proof using. unfold sdp_create_file. fits. Qed.
Hint Resolve tidy_sdp_extract_sdp tidy_sdp_create_file : fitsdb.

Lemma tidy_sip_release_call l : tidy (sip_release_call l).
Proof using. unfold sip_release_call. fits. Qed.
Hint Resolve tidy_sip_release_call : fitsdb.
Lemma tidy_sip_ring_call l : tidy (sip_ring_call l).
Proof using. unfold sip_ring_call. fits. Qed.
Lemma tidy_sip_connect_call l : tidy (sip_connect_call l).
Proof using. unfold sip_connect_call. fits. Qed.
Lemma tidy_sip_dtmf_call l k : tidy (sip_dtmf_call l k).
Proof using. unfold sip_dtmf_call. fits. Qed.
Lemma tidy_sip_reinvite l mode s : tidy (sip_reinvite l mode s).
Proof using. unfold sip_reinvite. fits. Qed.
Lemma tidy_send_invite l src dst : tidy (send_invite l src dst).
Proof using. unfold send_invite, gcr_header. fits. all: by apply tidy_upd_call. Qed.
Hint Resolve tidy_send_invite : fitsdb.
Lemma tidy_sip_create_remote_leg c : tidy (sip_create_remote_leg c).
Proof using.
  unfold sip_create_remote_leg, new_nua_handle, nua_handle_bind. fits. by apply tidy_talloc_leg, leg_new_fits.
Qed.
End sip.
#[export] Hint Resolve tidy_call_leg_rx_sdp tidy_sdp_extract_sdp tidy_sdp_create_file tidy_sip_release_call tidy_sip_ring_call
  tidy_sip_connect_call tidy_sip_dtmf_call tidy_sip_reinvite tidy_sip_create_remote_leg : fitsdb.

(** ** The connection and MNCC legs *)
Section mncc.
Context {E : Env} {HE : EnvLaws E} {HF : FitLaws E}.

Lemma tidy_mncc_leg_release l : tidy (mncc_leg_release l).
Proof using. unfold mncc_leg_release. fits. Qed.
Lemma tidy_start_cmd_timer l t : is_int t -> tidy (start_cmd_timer l t).
Proof using.
  intros Ht. unfold start_cmd_timer. fits. apply tidy_upd_mncc. intros m (? & ? & ? & ? & _ & ?). by split_and!.
Qed.
Lemma tidy_stop_cmd_timer l t : tidy (stop_cmd_timer l t).
Proof using. unfold stop_cmd_timer. fits. Qed.
Lemma tidy_mncc_leg_matches cr o : tidy (mncc_leg_matches cr o).
Proof using. unfold mncc_leg_matches. fits. Qed.
Hint Resolve tidy_mncc_leg_release tidy_stop_cmd_timer tidy_mncc_leg_matches : fitsdb.
Lemma tidy_mncc_find_leg_in cs cr : tidy (mncc_find_leg_in cs cr).
Proof using. induction cs; simpl; fits. Qed.
Hint Resolve tidy_mncc_find_leg_in : fitsdb.
Lemma tidy_mncc_find_leg cr : tidy (mncc_find_leg cr).
Proof using. unfold mncc_find_leg. fits. Qed.
Hint Resolve tidy_mncc_find_leg : fitsdb.
Lemma tidy_mncc_find_leg_not_released cr : tidy (mncc_find_leg_not_released cr).
Proof using. unfold mncc_find_leg_not_released. fits. Qed.

Lemma constant_int z : In z
    [GSM48_CAUSE_CODING_GSM; GSM48_CAUSE_LOC_PUN_S_LU; GSM48_CAUSE_LOC_PRN_S_LU; GSM48_PROGR_IN_BAND_AVAIL;
     GSM48_NPI_UNKNOWN; GSM48_NPI_ISDN_E164; GSM48_TON_UNKNOWN; GSM48_TON_INTERNATIONAL] -> is_int z.
Proof using HF. intros Hz. pose proof constants_int as Hc. rewrite List.Forall_forall in Hc. auto. Qed.

Lemma number0_wf : number_wf number0.
Proof using. unfold number_wf, is_int. simpl. split_and!; try lia. constructor. Qed.

(** The zeroed message with a header. *)
Lemma mncc_wf_header t cr : is_u32 t -> is_u32 cr -> mncc_wf (set_mn_header t cr gsm_mncc0).
Proof using HF.
  intros Ht Hcr. pose proof number0_wf. unfold mncc_wf. rewrite cause_fits, progress_fits. simpl.
  assert (is_int 0 /\ is_u32 0) as [??] by (unfold is_int, is_u32; lia).
  split_and!; try done; try lia; exact (zeros_bytes 16) || constructor.
Qed.

Lemma mncc_wf_fields f m : is_u32 (Z.lor (mn_fields m) f) -> mncc_wf m -> mncc_wf (add_field f m).
Proof using. intros Hf (H1 & H2 & _ & H4). exact (conj H1 (conj H2 (conj Hf H4))). Qed.
Lemma mncc_wf_cause c m : is_int (ca_coding c) -> is_int (ca_location c) -> is_int (ca_value c) ->
  mncc_wf m -> mncc_wf (set_mn_cause c m).
Proof using HF.
  intros Hc Hl Hv (H1 & H2 & H3 & H4 & H5 & _ & H7).
  refine (conj H1 (conj H2 (conj H3 (conj H4 (conj H5 (conj _ H7)))))). by apply cause_fits.
Qed.

Lemma mncc_wf_set_sdp s m : text 1023 s -> mncc_wf m -> mncc_wf (set_mn_sdp s m).
Proof using.
  intros [Hs Hl] (H1 & H2 & H3 & H4 & H5 & H6 & H7 & H8 & H9 & H10 & H11 & _).
  refine (conj H1 (conj H2 (conj H3 (conj H4 (conj H5 (conj H6 (conj H7 (conj H8 (conj H9 (conj H10 (conj H11 _))))))))))).
  split; [done|simpl; lia].
Qed.

Lemma yields_fill_header t cr : is_u32 t -> is_u32 cr -> yields (mncc_fill_header gsm_mncc0 t cr)
  (fun m => mncc_wf m /\ mn_fields m = (if (MNCC_DISC_REQ =? t) || (MNCC_REL_REQ =? t) then MNCC_F_CAUSE else 0)).
Proof using HF.
  intros Ht Hcr. pose proof (mncc_wf_header t cr Ht Hcr) as Hm. unfold mncc_fill_header.
  destruct (_ || _); [|by apply yields_ret].
  eapply yields_bind; [apply tidy_mncc_find_leg|]. intros o _.
  eapply yields_bind; [apply yields_some_or|]. intros l _.
  eapply yields_bind; [apply yields_deref_leg|]. intros x (_ & _ & _ & Hc & _). apply yields_ret.
  split; [|done]. apply mncc_wf_cause; [apply constant_int; simpl; auto|apply constant_int; simpl; auto|done|].
  apply mncc_wf_fields; [|done]. by split; vm_compute.
Qed.

Lemma setup_calling_wf src : opt no_nul src -> number_wf (setup_calling src).
Proof using HE HF.
  intros Hs. assert (forall s, no_nul s -> no_nul (osmo_strlcpy sizeof_number s)
    /\ (String.length (osmo_strlcpy sizeof_number s) <= sizeof_number)%nat) as Hc.
  { intros s H. destruct (text_strlcpy sizeof_number s H). split; [done|lia]. }
  assert (no_nul EmptyString) as He by constructor.
  unfold number_wf, setup_calling. destruct src as [s|]; [destruct (str_hd_is "+" s)|]; simpl.
  - assert (no_nul (str_tl s)) as Ht by (destruct s; [done|by apply Forall_cons in Hs as [_ ?]]).
    destruct (Hc _ Ht). split_and!; try done; apply constant_int; simpl; auto 10.
  - destruct (Hc s Hs). split_and!; try done; apply constant_int; simpl; auto 10.
  - destruct (Hc _ He). split_and!; try done; apply constant_int; simpl; auto 10.
Qed.

Lemma setup_req_wf b cr src dst : is_u32 cr -> opt no_nul src -> opt no_nul dst -> mncc_wf (setup_req b cr src dst).
Proof using HE HF.
  intros Hcr Hs Hd. pose proof (setup_calling_wf src Hs) as Hc. pose proof number0_wf.
  assert (is_int 0 /\ is_u32 0) as [??] by (unfold is_int, is_u32; lia).
  assert (no_nul (fmt_s dst)) as Hf by (destruct dst; [done|]; apply (bool_decide_unpack _); by vm_compute).
  assert (no_nul (default EmptyString dst)) as Hdf by (destruct dst; [done|constructor]).
  pose proof (no_nul_take 14 _ Hf). pose proof (str_take_length 14 (fmt_s dst)).
  destruct (text_strlcpy sizeof_number _ Hdf) as [??].
  assert (forall f, 0 <= f < 100 -> is_u32 f) as Hm by (unfold is_u32; lia).
  unfold mncc_wf, setup_req. rewrite cause_fits, progress_fits.
  destruct b; simpl; split_and!; try done; try lia; try exact (zeros_bytes 16); try (by constructor); try (apply Hm; simpl; lia).
  all: unfold number_wf; simpl; split_and!; try done; try lia; apply constant_int; simpl; auto 10.
Qed.
End mncc.
#[export] Hint Extern 2 (tidy (start_cmd_timer _ _)) => (apply tidy_start_cmd_timer; by split; vm_compute) : fitsdb.
#[export] Hint Resolve tidy_mncc_leg_release tidy_stop_cmd_timer tidy_mncc_leg_matches
  tidy_mncc_find_leg_in tidy_mncc_find_leg tidy_mncc_find_leg_not_released : fitsdb.

(** [disc] is what [conn->on_disconnect] does. *)
Section sending.
Context {E : Env} {HE : EnvLaws E} {HF : FitLaws E} (disc : MW unit) (Hdisc : tidy disc).

Lemma tidy_close_connection : tidy (close_connection disc).
Proof using Hdisc. unfold close_connection. fits. Qed.
Hint Resolve tidy_close_connection : fitsdb.

Lemma tidy_mncc_write m : mncc_wf m -> tidy (mncc_write disc m).
Proof using Hdisc. intros Hm. unfold mncc_write. fits. by apply tidy_emit. Qed.
Lemma tidy_mncc_rtp_write r : rtp_wf r -> tidy (mncc_rtp_write disc r).
Proof using Hdisc. intros Hr. unfold mncc_rtp_write. fits. by apply tidy_emit. Qed.

Lemma tidy_mncc_send t cr : is_u32 t -> is_u32 cr -> tidy (mncc_send disc t cr).
Proof using Hdisc HF.
  intros Ht Hcr. unfold mncc_send. eapply yields_bind; [by apply yields_fill_header|]. intros m [Hm _].
  by apply tidy_mncc_write.
Qed.

Lemma tidy_mncc_rtp_send t cr s : is_u32 t -> is_u32 cr -> opt no_nul s -> tidy (mncc_rtp_send disc t cr s).
Proof using Hdisc HE.
  intros Ht Hcr Hs. apply tidy_mncc_rtp_write. pose proof sockaddr0_wf.
  assert (is_u32 0) by (unfold is_u32; lia). unfold rtp_wf. simpl rtp_sdp. split_and!; try done.
  - destruct s as [s|]; [by apply (text_strlcpy 1024)|constructor].
  - destruct s as [s|]; [by apply (text_strlcpy 1024)|simpl; lia].
Qed.

Lemma tidy_send_rtp_connect l o : tidy (send_rtp_connect disc l o).
Proof using Hdisc HE.
  unfold send_rtp_connect. eapply yields_bind; [apply yields_as_mncc|]. intros m Hm.
  eapply yields_bind; [apply yields_deref_leg|]. intros x (Ha & Hp & _ & _ & Hs & _).
  apply (yields_bind _ _ (fun _ => True)); [|fits].
  destruct (text_strlcpy 1024 (rx_sdp (base x)) (proj1 Hs)) as [??].
  assert (is_u32 0 /\ is_u32 MNCC_RTP_CONNECT) as [??] by (by split; split; vm_compute).
  apply tidy_mncc_rtp_write. split_and!; try done. apply Hm.
Qed.
Hint Resolve tidy_send_rtp_connect : fitsdb.
#[local] Hint Extern 2 (tidy (mncc_send _ _ _)) =>
  (apply tidy_mncc_send; [by split; vm_compute|auto with fitsdb]) : fitsdb.

Lemma tidy_mncc_call_leg_connect l : tidy (mncc_call_leg_connect disc l).
Proof using Hdisc HE HF. unfold mncc_call_leg_connect. fits. Qed.

Lemma tidy_mncc_call_leg_ring l : tidy (mncc_call_leg_ring disc l).
Proof using Hdisc HE HF.
  unfold mncc_call_leg_ring. eapply yields_bind; [apply tidy_assert_type|]. intros _ _.
  eapply yields_bind; [apply yields_as_mncc|]. intros m Hm.
  eapply yields_bind; [apply yields_fill_header; [by split; vm_compute|apply Hm]|]. intros h [Hh Hf].
  apply (yields_bind _ _ (fun _ => True)); [|fits]. apply tidy_mncc_write.
  assert (mncc_wf (add_field MNCC_F_PROGRESS h)) as (H1 & H2 & H3 & H4 & H5 & H6 & _ & H8).
  { apply mncc_wf_fields; [rewrite Hf; by split; vm_compute|done]. }
  refine (conj H1 (conj H2 (conj H3 (conj H4 (conj H5 (conj H6 (conj _ H8))))))).
  apply progress_fits. simpl. split_and!; apply constant_int; simpl; auto.
Qed.

Lemma tidy_mncc_call_leg_release l : tidy (mncc_call_leg_release disc l).
Proof using Hdisc HE HF.
  unfold mncc_call_leg_release, request_release. fits. all: by apply tidy_upd_base.
Qed.

Lemma yields_add_gcr cl m : mncc_wf m -> is_u32 (Z.lor (mn_fields m) MNCC_F_GCR) -> yields (add_gcr cl m) mncc_wf.
Proof using HF.
  intros Hm Hf. unfold add_gcr. destruct (gcr_present cl); [|by apply yields_ret].
  eapply yields_bind; [apply tidy_tick|]. intros n _.
  destruct (osmo_enc_gcr_bytes (gcr cl)) as [Hb Hrc]. destruct (osmo_enc_gcr (gcr cl)) as [rc data]. simpl in *.
  destruct (_ && _); [|by apply yields_ret]. destruct (_ && _) eqn:Hr; [|apply yields_crash]. apply yields_ret.
  apply andb_true_iff in Hr as [?%Z.leb_le ?%Z.leb_le]. apply mncc_wf_fields; [done|].
  destruct Hm as (H1 & H2 & H3 & H4 & H5 & H6 & H7 & H8 & H9 & H10 & [Hlen Hg] & H12).
  refine (conj H1 (conj H2 (conj H3 (conj H4 (conj H5 (conj H6 (conj H7 (conj H8 (conj H9 (conj H10 (conj _ H12))))))))))).
  split; simpl.
  - rewrite length_app, length_take, length_drop, Hlen. lia.
  - apply Forall_app. split; [by apply Forall_take|by apply Forall_drop].
Qed.

Lemma tidy_mncc_create_remote_leg c : tidy (mncc_create_remote_leg disc c).
Proof using Hdisc HE HF.
  unfold mncc_create_remote_leg. eapply yields_bind; [apply yields_deref_call|]. intros cl Hcl.
  pose proof number0_wf. pose proof (text_empty 16).
  eapply yields_bind.
  { apply tidy_talloc_leg, leg_new_fits. split_and!; try done. apply Hcl. }
  intros [l|] _; [|fits]. eapply yields_bind; [apply tidy_gets|]. intros g _.
  eapply yields_bind; [apply yields_read_str, Hcl|]. intros src Hs.
  eapply yields_bind; [apply yields_read_str, Hcl|]. intros dst Hd.
  eapply yields_bind.
  { apply yields_add_gcr; [apply setup_req_wf; [apply Hcl|done|done]|].
    destruct (use_imsi_as_id g); by split; vm_compute. }
  intros m Hm. apply (yields_bind _ _ mncc_wf).
  - destruct (initial cl) as [i|]; [|by apply yields_ret].
    eapply yields_bind; [apply yields_deref_leg|]. intros x Hx.
    destruct (rx_sdp_changed (base x)); [|by apply yields_ret].
    eapply yields_bind; [by apply tidy_upd_base|]. intros _ _. apply yields_ret.
    apply mncc_wf_set_sdp; [|done]. by apply (text_strlcpy 1024), leg_rx_sdp_fits.
  - intros m' Hm'. apply (yields_bind _ _ (fun _ => True)); [by apply tidy_mncc_write|]. fits. by apply tidy_upd_call.
Qed.

Lemma tidy_release_leg l : tidy (release_leg disc l).
Proof using Hdisc HE HF. unfold release_leg. fits. all: by apply tidy_mncc_call_leg_release. Qed.

Lemma tidy_disconnect_loop fuel : forall cur, tidy (disconnect_loop (release_leg disc) fuel cur).
Proof using Hdisc HE HF.
  pose proof tidy_release_leg. induction fuel as [|fuel IH]; intros [c|]; simpl; [fits..| |fits].
  unfold disconnect_call, release_opt, is_mncc_leg. fits.
Qed.

Lemma tidy_check_hello buf rc : tidy (check_hello disc buf rc).
Proof using Hdisc. unfold check_hello. fits. Qed.
End sending.

(** ** Every handler *)
Section handlers.
Context {E : Env} {HE : EnvLaws E} {HF : FitLaws E}.

Lemma tidy_on_disconnect n : tidy (on_disconnect n).
Proof using HE HF.
  induction n as [|n IH]; simpl; [fits|]. unfold app_mncc_disconnected.
  eapply yields_bind; [apply tidy_gets|]. intros cs _. by apply tidy_disconnect_loop.
Qed.
Lemma tidy_disconnected : tidy disconnected.
Proof using HE HF. apply tidy_on_disconnect. Qed.
Hint Resolve tidy_disconnected : fitsdb.

(** The functions that write, with the callback of the program. *)
Lemma tidy_close_conn : tidy close_conn.
Proof using HE HF. by apply tidy_close_connection, tidy_disconnected. Qed.
Lemma tidy_send t cr : is_u32 t -> is_u32 cr -> tidy (send t cr).
Proof using HE HF. intros Ht Hcr. unfold send. fits. apply tidy_mncc_send; [apply tidy_disconnected|done..]. Qed.
Lemma tidy_send_for l t : is_u32 t -> tidy (send_for l t).
Proof using HE HF.
  intros Ht. unfold send_for. eapply yields_bind; [apply yields_as_mncc|]. intros m Hm. apply tidy_send; [done|apply Hm].
Qed.
Lemma tidy_call_release l : tidy (call_release l).
Proof using HE HF. apply tidy_release_leg, tidy_disconnected. Qed.
Lemma tidy_send_rtp l o : tidy (send_rtp_connect disconnected l o).
Proof using HE HF. apply tidy_send_rtp_connect, tidy_disconnected. Qed.
#[local] Hint Extern 2 (tidy (send _ _)) => (apply tidy_send; [by split; vm_compute|auto with fitsdb]) : fitsdb.
#[local] Hint Extern 2 (tidy (send_for _ _)) => (apply tidy_send_for; by split; vm_compute) : fitsdb.
Hint Resolve tidy_close_conn tidy_call_release tidy_send_rtp tidy_mncc_call_leg_connect tidy_mncc_call_leg_ring
  tidy_mncc_call_leg_release tidy_mncc_create_remote_leg tidy_check_hello : fitsdb.

Lemma tidy_update_rtp l : tidy (update_rtp l).
Proof using HE HF. unfold update_rtp. fits. Qed.
Hint Resolve tidy_update_rtp : fitsdb.
Lemma tidy_invoke f l : tidy (invoke f l).
Proof using HE HF. unfold invoke, sip_hold_call, sip_retrieve_call. fits. Qed.
Hint Resolve tidy_invoke : fitsdb.
Lemma tidy_invoke_member f l : tidy (invoke_member f l).
Proof using HE HF. unfold invoke_member. fits. Qed.
Lemma tidy_invoke_dtmf l k : tidy (invoke_dtmf l k).
Proof using. unfold invoke_dtmf. fits. Qed.
Lemma tidy_app_route_call c src dst : owned_text src -> owned_text dst -> tidy (app_route_call c src dst).
Proof using HE HF.
  intros Hs Hd. unfold app_route_call, route_to_sip, route_to_mncc, release_initial. fits.
  apply tidy_upd_call. intros cl (? & _ & _). by split_and!.
Qed.
Hint Resolve tidy_invoke_member tidy_invoke_dtmf tidy_app_route_call : fitsdb.

Lemma tidy_dtmf_rsp l t k : is_u32 t -> (MNCC_DISC_REQ =? t) || (MNCC_REL_REQ =? t) = false -> is_int k -> tidy (dtmf_rsp l t k).
Proof using HE HF.
  intros Ht Hn Hk. unfold dtmf_rsp. eapply yields_bind; [apply yields_as_mncc|]. intros m Hm.
  eapply yields_bind; [apply yields_fill_header; [done|apply Hm]|]. intros h [Hh Hf]. rewrite Hn in Hf.
  apply (yields_bind _ _ (fun _ => True)); [|fits]. apply tidy_mncc_write; [apply tidy_disconnected|].
  assert (mncc_wf (add_field MNCC_F_KEYPAD h)) as (H1 & H2 & H3 & H4 & H5 & H6 & H7 & _ & H9).
  { apply mncc_wf_fields; [rewrite Hf; by split; vm_compute|done]. }
  exact (conj H1 (conj H2 (conj H3 (conj H4 (conj H5 (conj H6 (conj H7 (conj Hk H9)))))))).
Qed.

(** A message that is long enough has a representation. *)
Lemma tidy_with_leg buf k : Forall byte buf -> (forall d l, mncc_wf d -> tidy (k d l)) ->
  tidy (with_leg buf (Z.of_nat (length buf)) k).
Proof using HE HF.
  intros Hb Hk. unfold with_leg.
  eapply (yields_bind _ _ (opt (fun dl => mncc_wf (fst dl)))); [|intros [[d l]|] Hd; [by apply Hk|fits]].
  unfold find_leg. destruct (Z.ltb_spec (Z.of_nat (length buf)) sizeof_gsm_mncc) as [|Hl]; [by fits|].
  eapply yields_bind; [apply tidy_mncc_find_leg|]. intros [l|] _; apply yields_ret; [|done].
  by apply view_mncc_wf.
Qed.

Lemma tidy_release_other_with_cause l v : is_int v -> tidy (release_other_with_cause l v).
Proof using HE HF.
  intros Hv. unfold release_other_with_cause. fits. apply tidy_upd_base.
  intros b e (H1 & H2 & H3 & _ & H5). exact (conj H1 (conj H2 (conj H3 (conj Hv H5)))).
Qed.
Lemma yields_take_changed_sdp l : yields (take_changed_sdp l) (opt no_nul).
Proof using.
  unfold take_changed_sdp. eapply yields_bind; [apply tidy_call_leg_other|]. intros [o|] _; [|by apply yields_ret].
  eapply yields_bind; [apply yields_deref_leg|]. intros x Hx. destruct (_ && _); [|by apply yields_ret].
  eapply yields_bind; [by apply tidy_upd_base|]. intros _ _. apply yields_ret. by apply leg_rx_sdp_fits.
Qed.
Lemma tidy_request_rtp_create l cr s : is_u32 cr -> opt no_nul s -> tidy (request_rtp_create l cr s).
Proof using HE HF.
  intros Hcr Hs. unfold request_rtp_create. fits.
  apply tidy_mncc_rtp_send; [apply tidy_disconnected|by split; vm_compute|done..].
Qed.
Hint Resolve yields_take_changed_sdp tidy_request_rtp_create : fitsdb.

(** The cause of a message. *)
Lemma cause_int d : mncc_wf d -> is_int (ca_value (mn_cause d)).
Proof using HF. intros (_ & _ & _ & _ & _ & Hc & _). by apply cause_fits in Hc as (_ & _ & ?). Qed.
#[local] Hint Extern 2 (tidy (release_other_with_cause _ _)) => (apply tidy_release_other_with_cause, cause_int; assumption) : fitsdb.

Lemma emergency_number_wf : number_wf emergency_number.
Proof using HF.
  pose proof number_room. unfold number_wf. simpl. split_and!; [unfold is_int; lia|apply constant_int; simpl; auto 10| |lia].
  apply (bool_decide_unpack _). by vm_compute.
Qed.

Lemma tidy_setup_call d called g : mncc_wf d -> number_wf called -> tidy (setup_call d called g).
Proof using HE HF.
  intros Hd Hc. unfold setup_call, call_mncc_create.
  eapply yields_bind; [apply tidy_call_create, mncc_leg0_fits|]. intros [c|] _; [|fits].
  fits; try (by apply tidy_upd_base); try (by apply tidy_upd_call).
  apply tidy_upd_mncc. intros m (_ & _ & _ & _ & Hrw & Hca). destruct Hd as (_ & Hcr & _ & _ & Hcg & _ & _ & _ & _ & Hi & _).
  exact (conj Hcr (conj Hc (conj Hcg (conj Hi (conj Hrw Hca))))).
Qed.

Lemma tidy_check_setup buf : Forall byte buf -> tidy (check_setup buf (Z.of_nat (length buf))).
Proof using HE HF.
  intros Hb. unfold check_setup. destruct (Z.ltb_spec (Z.of_nat (length buf)) sizeof_gsm_mncc) as [|Hl]; [fits|].
  pose proof (view_mncc_wf buf Hb Hl) as Hd. fits.
  all: apply tidy_setup_call; [done|]; destruct (has_flag _ MNCC_F_CALLED); [apply Hd|apply emergency_number_wf].
Qed.

Lemma view_rtp_wf buf : Forall byte buf -> sizeof_rtp <= Z.of_nat (length buf) -> let r := view_rtp buf in
  is_u32 (rtp_callref r) /\ sockaddr_wf (rtp_addr r) /\ is_u32 (rtp_payload_type r)
  /\ is_u32 (rtp_payload_msg_type r) /\ no_nul (rtp_sdp r).
Proof using.
  intros Hb Hl r. pose proof (view_rtp_fits buf Hb Hl) as Hr. cbn -[sockaddr_codec view_rtp] in Hr. fold r in Hr.
  rewrite <- sockaddr_wf_fits in Hr. tauto.
Qed.

Lemma tidy_check_rtp_connect buf : Forall byte buf -> tidy (check_rtp_connect buf (Z.of_nat (length buf))).
Proof using HE HF.
  intros Hb. unfold check_rtp_connect. destruct (Z.ltb_spec (Z.of_nat (length buf)) sizeof_rtp) as [|Hl]; [fits|].
  destruct (view_rtp_wf buf Hb Hl) as (? & ? & ? & ? & ?). fits.
Qed.

Lemma mo_dest_fits m : mncc_leg_fits m -> no_nul (mo_dest m).
Proof using.
  intros (_ & (_ & _ & Hc & _) & _). unfold mo_dest. pose proof (no_nul_take 32 _ Hc).
  destruct (_ =? _); [|done]. apply no_nul_app. split; [apply (bool_decide_unpack _); by vm_compute|done].
Qed.
Lemma mo_source_fits b m : mncc_leg_fits m -> no_nul (mo_source b m).
Proof using.
  intros (_ & _ & (_ & _ & Hc & _) & (Hi & _) & _). unfold mo_source. destruct b; by apply no_nul_take.
Qed.
Hint Resolve mo_dest_fits mo_source_fits : fitsdb.

Lemma tidy_continue_call l : tidy (continue_call l).
Proof using HE HF.
  unfold continue_call, continue_mo_call, continue_mt_call. eapply yields_bind; [apply yields_as_mncc|]. intros m Hm.
  destruct (decide _).
  - fits. by apply tidy_upd_mncc.
  - eapply yields_bind; [apply tidy_call_leg_other|]. intros [o|] _; [|fits].
    eapply yields_bind; [apply yields_deref_leg|]. intros x (_ & Hp & _). apply tidy_upd_base.
    intros b e (H1 & _ & H3). exact (conj H1 (conj Hp H3)).
Qed.
Hint Resolve tidy_continue_call : fitsdb.

Lemma tidy_check_rtp_create buf : Forall byte buf -> tidy (check_rtp_create buf (Z.of_nat (length buf))).
Proof using HE HF.
  intros Hb. unfold check_rtp_create. destruct (Z.ltb_spec (Z.of_nat (length buf)) sizeof_rtp) as [|Hl]; [fits|].
  destruct (view_rtp_wf buf Hb Hl) as (? & Ha & Hp & Hm & ?). fits.
  apply tidy_upd_base. intros b e (_ & _ & _ & H4). exact (conj Ha (conj Hp (conj Hm H4))).
Qed.

Lemma tidy_rejected l v : is_int v -> tidy (upd_mncc l (set_m_cause v)).
Proof using.
  intros Hv. apply tidy_upd_mncc. intros m (H1 & H2 & H3 & H4 & H5 & _).
  exact (conj H1 (conj H2 (conj H3 (conj H4 (conj H5 Hv))))).
Qed.

Lemma tidy_mncc_dispatch t buf : Forall byte buf -> tidy (mncc_dispatch t buf (Z.of_nat (length buf))).
Proof using HE HF.
  intros Hb. pose proof (tidy_check_setup buf Hb). pose proof (tidy_check_rtp_create buf Hb).
  pose proof (tidy_check_rtp_connect buf Hb). unfold mncc_dispatch.
  fits; apply tidy_with_leg; try done; fits; try (by apply tidy_upd_base);
    try (by apply tidy_upd_mncc); try (apply tidy_rejected; by apply cause_int).
  all: apply tidy_dtmf_rsp; [by split; vm_compute|done|].
  all: match goal with H : mncc_wf ?d |- _ => apply H end.
Qed.

(** The events of sofia-sip. *)
Lemma tidy_sip_find_leg nh : tidy (sip_find_leg nh).
Proof using.
  unfold sip_find_leg. eapply yields_bind; [apply tidy_gets|]. intros cs _. induction cs; simpl; unfold sip_leg_matches; fits.
Qed.
Lemma tidy_call_progress l sip status : tidy (call_progress l sip status).
Proof using HE HF. unfold call_progress, the_sip. fits. Qed.
Lemma tidy_call_connect l sip : tidy (call_connect l sip).
Proof using HE HF. unfold call_connect, the_sip. fits. Qed.

Lemma tidy_new_call nh sip : sip_fits sip -> tidy (new_call nh sip).
Proof using HE HF.
  intros (Hp & Ht & Hf).
  assert (forall c, tidy (new_call_users nh sip c)) as Hu.
  { intros c. unfold new_call_users. destruct (sip_to_user sip) as [to|], (sip_from_user sip) as [from|];
      unfold new_call_leg, reject_406, nua_handle_bind; fits.
    by apply tidy_upd_base. }
  unfold new_call, call_sip_create. destruct (negb _); [unfold reject_406; fits|].
  eapply yields_bind; [by apply tidy_call_create|]. intros o _. unfold reject_406. fits. by apply tidy_upd_call.
Qed.

Lemma tidy_sip_handle_reinvite l nh sip : sip_fits sip -> tidy (sip_handle_reinvite l nh sip).
Proof using HE HF.
  intros (Hp & _). unfold sip_handle_reinvite, reject_406, respond_200, invoke_update_rtp. fits.
Qed.

Lemma sip_get_sdp_fits sip : opt sip_fits sip -> opt no_nul (sip_get_sdp sip).
Proof using. destruct sip as [m|]; [|done]. by intros (? & _). Qed.
Lemma the_sip_fits sip m : opt sip_fits sip -> sip = Some m -> sip_fits m.
Proof using. by intros H ->. Qed.
Hint Resolve tidy_sip_find_leg tidy_call_progress tidy_call_connect sip_get_sdp_fits the_sip_fits
  tidy_new_call tidy_sip_handle_reinvite : fitsdb.

(** The cause of a status is that of a row. *)
Lemma status2cause_int st : is_int (status2cause st).
Proof using HF. unfold status2cause. destruct (cause_loop _ _ _) as [n []]; apply cause_value_int. Qed.

Lemma tidy_on_r_invite status nh sip : opt sip_fits sip -> tidy (on_r_invite status nh sip).
Proof using HE HF.
  intros Hs. unfold on_r_invite, the_leg, invite_failed. fits. apply tidy_upd_base.
  intros b e (H1 & H2 & H3 & _ & H5). exact (conj H1 (conj H2 (conj H3 (conj (status2cause_int _) H5)))).
Qed.

Lemma tidy_nua_callback ev status nh sip : opt sip_fits sip -> tidy (nua_callback ev status nh sip).
Proof using HE HF.
  intros Hs. pose proof (tidy_on_r_invite status nh sip Hs).
  unfold nua_callback, on_i_ack, on_i_invite, on_remote_hangup, drop_leg, the_leg, the_sip. destruct ev; fits.
Qed.

Lemma tidy_handle_event e : event_fits e -> tidy (handle_event e).
Proof using HE HF.
  intros He. destruct e as [[buf|]| |l|ev status nh sip]; simpl in *; unfold mncc_data, mncc_reconnect, cmd_timeout.
  - destruct (_ <=? _); [fits|]. by apply tidy_mncc_dispatch.
  - fits.
  - fits.
  - fits.
  - by apply tidy_nua_callback.
Qed.
End handlers.

(** ** Executions *)

(** One turn of the loop, whatever the peers do: the MSC sends bytes, sofia-sip
    passes C strings. *)
Inductive fit_step {E : Env} (w : world) : world -> Prop :=
| Fit_step e w' : enabled w e -> event_fits e -> handle_event e w = Ret tt w' -> fit_step w w'.

Section system.
Context {E : Env} {HE : EnvLaws E} {HF : FitLaws E}.

Lemma booted_fits g : world_fits (booted g).
Proof using. split; simpl; try apply map_Forall_empty; [unfold is_u32; lia|constructor]. Qed.

Lemma handle_event_fits w e : world_fits w -> event_fits e -> world_fits (final (handle_event e w)).
Proof using HE HF. intros Hw He. eapply within_final; [by apply tidy_handle_event|done]. Qed.

Lemma reachable_fits g w0 w : boot (zeroed g) = Ret tt w0 -> rtc fit_step w0 w -> world_fits w.
Proof using HE HF.
  intros Hb Hs. rewrite boot_booted in Hb. injection Hb as <-.
  pose proof (booted_fits g) as H0. revert H0. induction Hs as [w|w w1 w2 [e w1' _ He Heq] _ IH]; [done|].
  intros Hw. apply IH. pose proof (handle_event_fits w e Hw He) as H. by rewrite Heq in H.
Qed.

(** C5: whatever bytes the MSC sends and whatever C strings sofia-sip passes, in
    every store the program reaches, after a fault too, each number of a leg, of
    a call and of a message written is within the width of its field, each
    address has the bytes of a [sockaddr_storage], and no string has more
    characters than its array: the SDP of a leg leaves room for the NUL, while the
    numbers and the IMSI, which a leg takes over from the MSC with memcpy, may fill
    their arrays ([show_safe_iff] says what comes of it; the strings of a message
    that is written end within theirs, by [speaks_protocol]). *)
Theorem fields_fit g w0 w e : boot (zeroed g) = Ret tt w0 -> rtc fit_step w0 w -> event_fits e ->
  world_fits w /\ world_fits (final (handle_event e w)).
Proof using HE HF.
  intros Hb Hs He. pose proof (reachable_fits _ _ _ Hb Hs) as Hw. split; [done|]. by apply handle_event_fits.
Qed.

(** C6: each message the program ever writes to the MSC has the size of its
    structure, and a program with the same layout that receives its bytes reads
    the message the handler meant, whatever follows them in its buffer. *)
Theorem written_as_read g w0 w e a rest : boot (zeroed g) = Ret tt w0 -> rtc fit_step w0 w -> event_fits e ->
  In a (out (final (handle_event e w))) ->
  match a with
  | TxMncc m _ => Z.of_nat (length (mncc_bytes m)) = sizeof_gsm_mncc /\ view_gsm_mncc (mncc_bytes m ++ rest) = m
  | TxRtp r _ => Z.of_nat (length (rtp_bytes r)) = sizeof_rtp /\ view_rtp (rtp_bytes r ++ rest) = r
  | _ => True
  end.
Proof using HE HF.
  intros Hb Hs He Ha. pose proof (handle_event_fits w e (reachable_fits _ _ _ Hb Hs) He) as Hw.
  pose proof (wf_fit_out _ Hw) as Ho. rewrite List.Forall_forall in Ho. specialize (Ho a Ha).
  destruct a; try done; simpl in Ho.
  - split; [by apply mncc_bytes_length|by apply view_mncc_bytes].
  - split; [by apply rtp_bytes_length|by apply view_rtp_bytes].
Qed.
End system.
