(* ===== verification/Drain.v ===== *)
(** * When the MSC hangs up, or stays silent

    [check_disc_ind_spec]: a Disconnect from the MSC (check_disc_ind of src/mncc.c),
    with the store it leaves, in which the leg waits for the MSC.  Each command timer
    that is armed waits for the MSC.  [timers_drain]: whatever the order in which they
    fire, each firing releases the SIP side of its call, drops the MNCC leg and
    touches no other call. *)
From S2P Require Import Prelude Effect Codec Protocol Lib State Skel Rules Call SipLeg MnccConn App MnccRx SipUa CallFlow Local System.
#[local] Open Scope effect_scope.

(** ** Definitions *)

(** The other leg of the call of [l]. *)
Definition partner (s : skel) (l : ptr) : option ptr :=
  sh ← sk_legs s !! l;
  '(i, r) ← sk_calls s !! sh_call sh;
  if decide (i = Some l) then r else i.

Section drain.
Context {E : Env}.

(** The SIP leg in the call of [l]. *)
Definition sip_partner (w : world) (l : ptr) : option (ptr * (call_leg * sip_leg)) :=
  ls ← partner (sk w) l;
  match legs w !! ls with Some (Leg b (XSip x)) => Some (ls, (b, x)) | _ => None end.
(** What its peer is told when the call is released. *)
Definition farewell (w : world) (l : ptr) : list action :=
  match sip_partner w l with Some (_, (b, x)) => sip_release_actions b x | None => [] end.
(** The legs that go when the timer of [l] fires. *)
Definition ended (w : world) (l : ptr) : list ptr :=
  l :: match sip_partner w l with
       | Some (ls, (_, x)) => if sip_release_drops x then [ls] else []
       | None => []
       end.
Definition without (ls : list ptr) (g : gmap ptr leg) : gmap ptr leg := filter (fun kv => kv.1 ∉ ls) g.

(** ** Lemmas *)

Lemma sip_release_call_timers l : keeps timers (sip_release_call l).
Proof using. unfold sip_release_call, assert_type, as_sip, nua_handle_destroy, emit, deref_leg. keeps. Qed.

Lemma call_leg_other_eq w l : wf w -> is_Some (legs w !! l) -> call_leg_other l w = Ret (partner (sk w) l) w.
Proof using.
  intros Hw [x Hx]. unfold call_leg_other. run_step (deref_leg_eq w l _ Hx).
  assert (sk_legs (sk w) !! l = Some (shape x)) as Hl by (simpl; by rewrite lookup_fmap, Hx).
  destruct (wf_leg _ (w_sk w Hw) l _ Hl) as (_ & _ & i & r & Hc & Hir). unfold partner. rewrite Hl. simpl in Hc |- *. rewrite Hc.
  simpl. apply fmap_lookup_inv in Hc as (cl & Hcl & [= -> ->]). run_step (deref_call_eq w _ _ Hcl).
  case_decide; [done|]. destruct Hir as [|Hr]; [done|]. by rewrite decide_True.
Qed.

(** The partner of an MNCC leg is a SIP leg that can be released. *)
Lemma partner_sip w l b m ls : wf w -> legs w !! l = Some (Leg b (XMncc m)) -> partner (sk w) l = Some ls ->
  ls <> l /\ exists bs x, legs w !! ls = Some (Leg bs (XSip x)) /\ sip_partner w l = Some (ls, (bs, x)) /\
    established (shape (Leg bs (XSip x))) /\ lg_call bs = lg_call b.
Proof using.
  intros Hw Hx Hp. assert (sk_legs (sk w) !! l = Some (shape (Leg b (XMncc m)))) as Hl by (simpl; by rewrite lookup_fmap, Hx).
  pose proof (call_leg_other_st (sk w) (conn w) w l _ (w_sk w Hw) (wf_st w Hw) Hl) as Ho.
  unfold wp in Ho. rewrite (call_leg_other_eq w l Hw) in Ho by (by eexists). rewrite Hp in Ho.
  destruct Ho as (_ & _ & sh' & Hl' & Hne & Hcall & _ & Hest & Hty & _). split; [done|].
  destruct (wf_leg _ (w_sk w Hw) l _ Hl) as [Htag _], (wf_leg _ (w_sk w Hw) ls _ Hl') as [Htag' _].
  simpl in Hl'. apply fmap_lookup_inv in Hl' as ([bs [m'|x]] & Hls & ->).
  { unfold tag_ok in *. simpl in *. congruence. }
  exists bs, x. split_and!; [done| |done|done]. unfold sip_partner. rewrite Hp. simpl. by rewrite Hls.
Qed.

(** Releasing a SIP leg writes no leg. *)
Lemma sip_release_fewer l w0 : within (fewer w0) (sip_release_call l) (fun _ => True).
Proof using.
  assert (forall c, within (fewer w0) (deref_leg c) (fun _ => True)) as Hd.
  { intros c. eapply within_bind; [by apply (within_gets _ id (fun _ => True))|]. intros w _. by apply within_some_or. }
  assert (forall a, within (fewer w0) (emit a) (fun _ => True)) as He by (intros a; by apply within_modify).
  assert (forall h, within (fewer w0) (nua_handle_destroy h) (fun _ => True)) as Hn.
  { intros h. eapply within_bind; [apply He|]. intros _ _. destruct h; [by apply within_modify|by apply within_ret]. }
  assert (forall h, within (fewer w0) (nua_handle_destroy h ;; call_leg_release l) (fun _ => True)) as Hdr.
  { intros h. eapply within_bind; [apply Hn|]. intros _ _. apply release_fewer. }
  unfold sip_release_call. eapply within_bind.
  { unfold assert_type. eapply within_bind; [apply Hd|]. intros x _. by apply (within_assert _ _ (fun _ => True)). }
  intros _ _. eapply within_bind; [apply Hd|]. intros x _. eapply within_bind.
  { unfold as_sip. eapply within_bind; [apply Hd|]. intros y _. destruct (ext y); [apply within_crash|by apply (within_ret _ _ (fun _ => True))]. }
  intros s _. destruct (cause2status _). destruct (s_state s); [apply Hdr| |apply He|apply He].
  case_decide; [apply He|]. eapply within_bind; [apply He|]. intros _ _. apply Hdr.
Qed.

(** ** Releasing a leg, with the store it leaves *)

(** A store with fewer legs but the same shapes has the same legs. *)
Lemma fewer_same w w' : legs w' ⊆ legs w -> sk_legs (sk w') = sk_legs (sk w) -> legs w' = legs w.
Proof using.
  intros Hsub Hsk. apply map_eq. intros l. pose proof (f_equal (lookup l) Hsk) as He. simpl in He. rewrite !lookup_fmap in He.
  destruct (legs w' !! l) as [x|] eqn:Hx; [symmetry; by eapply lookup_weaken|]. by destruct (legs w !! l).
Qed.

(** Releasing a SIP leg through its callback, with the store it leaves. *)
Lemma sip_leg_released w ls bs x : wf w -> legs w !! ls = Some (Leg bs (XSip x)) -> established (shape (Leg bs (XSip x))) ->
  exists w', call_release ls w = Ret tt w' /\ st (if sip_release_drops x then sk_release ls (sk w) else sk w) (conn w) w' /\
    out w' = out w ++ sip_release_actions bs x /\ timers w' = timers w /\
    legs w' = if sip_release_drops x then delete ls (legs w) else legs w.
Proof using.
  intros Hw Hls Hest. pose proof (sip_release_call_out _ _ w ls bs x (w_sk w Hw) (wf_st w Hw) Hls) as H.
  apply (wp_keeps timers) in H; [|apply sip_release_call_timers].
  apply wp_returns in H as ([] & w' & Hrun & [Hout Hst] & Ht).
  pose proof (sip_release_fewer ls w w (fewer_refl w)) as Hf. rewrite Hrun in Hf. destruct Hf as [[Hsub _] _].
  exists w'. split_and!; [|done|done|done|].
  - unfold call_release, release_leg. run_step (deref_leg_eq w ls _ Hls).
    destruct (established_release _ Hest) as [[[] _]|(_ & Hop & _)]. simpl in Hop |- *. by rewrite Hop.
  - destruct (sip_release_drops x); [|apply fewer_same; [done|by rewrite (st_sk _ _ _ Hst)]].
    assert (sk_legs (sk w) !! ls = Some (shape (Leg bs (XSip x)))) as Hl by (simpl; by rewrite lookup_fmap, Hls).
    by destruct (release_leaves w w' ls _ Hw Hl Hst Hsub) as (_ & _ & -> & _).
Qed.

(** Dropping an MNCC leg, with the store it leaves. *)
Lemma mncc_leg_dropped w l b m : wf w -> legs w !! l = Some (Leg b (XMncc m)) ->
  exists w', mncc_leg_release l w = Ret tt w' /\ st (sk_release l (sk w)) (conn w) w' /\ wf w' /\
    out w' = out w /\ timers w' = timers w ∖ {[l]} /\ legs w' = delete l (legs w).
Proof using.
  intros Hw Hx. assert (sk_legs (sk w) !! l = Some (shape (Leg b (XMncc m)))) as Hl by (simpl; by rewrite lookup_fmap, Hx).
  destruct (mncc_gone _ _ w l _ _ _ (w_sk w Hw) (wf_st w Hw) Hl eq_refl) as (w' & Hrun & Hst & Hout).
  exists w'. pose proof Hrun as Hr. unfold mncc_leg_release, timer_del in Hr. rewrite bind_assoc in Hr.
  erewrite bind_returns in Hr by exact (deref_leg_eq w _ _ Hx). unfold modify at 1 in Hr. unfold bind at 1 in Hr.
  pose proof (release_fewer l w (set_timers (fun ts => ts ∖ {[l]}) w) (fewer_refl w)) as Hf. rewrite Hr in Hf.
  destruct (release_leaves w w' l _ Hw Hl Hst (proj1 (proj1 Hf))) as (Hw' & _ & Hlegs & _). split_and!; try done.
  by apply (keeps_run timers _ _ _ _ (call_leg_release_keeps timers l ltac:(done) ltac:(done) ltac:(done))) in Hr.
Qed.

Lemma without_delete l ls (g : gmap ptr leg) : without (l :: ls) g = delete l (without ls g).
Proof using.
  unfold without. apply map_eq. intros i. destruct (decide (i = l)) as [->|Hne].
  - rewrite lookup_delete_eq. apply map_lookup_filter_None. right. intros ? _. simpl. set_solver.
  - rewrite lookup_delete_ne by done. apply option_eq. intros x. rewrite !map_lookup_filter_Some. simpl. set_solver.
Qed.
Lemma without_nil (g : gmap ptr leg) : without [] g = g.
Proof using. apply map_filter_id. simpl. set_solver. Qed.

(** One timer fires. *)
Lemma timeout_fires w l b m : wf w -> l ∈ timers w -> legs w !! l = Some (Leg b (XMncc m)) ->
  exists w', handle_event (EvCmdTimeout l) w = Ret tt w' /\ wf w' /\ timers w' = timers w ∖ {[l]}
    /\ out w' = out w ++ farewell w l /\ legs w' = without (ended w l) (legs w)
    /\ (forall c, c <> lg_call b -> sk_calls (sk w') !! c = sk_calls (sk w) !! c).
Proof using.
  intros Hw Hin Hx. simpl handle_event. unfold bind at 1, modify. set (w1 := set_timers _ w).
  assert (wf w1) as Hw1.
  { destruct Hw as [H1 H2 H3]. split; [exact H1|by apply timers_ok_minus|exact H3]. }
  assert (timers w1 ∖ {[l]} = timers w ∖ {[l]}) as Ht1 by (unfold w1; simpl; set_solver).
  assert (sk_legs (sk w) !! l = Some (shape (Leg b (XMncc m)))) as Hl by (simpl; by rewrite lookup_fmap, Hx).
  unfold cmd_timeout. run_step (call_leg_other_eq w1 l Hw1 (ex_intro _ _ Hx)). change (sk w1) with (sk w).
  unfold farewell, ended. destruct (partner (sk w) l) as [ls|] eqn:Hp.
  - destruct (partner_sip w l b m ls Hw Hx Hp) as (Hne & bs & x & Hls & Hsp & Hest & Hcall). rewrite Hsp.
    destruct (sip_leg_released w1 ls bs x Hw1 Hls Hest) as (w2 & Hrun2 & Hst2 & Hout2 & Ht2 & Hl2). run_step Hrun2.
    change (sk w1) with (sk w) in Hst2.
    assert (sk_legs (sk w) !! ls = Some (shape (Leg bs (XSip x)))) as Hls' by (simpl; by rewrite lookup_fmap, Hls).
    assert (wf w2) as Hw2.
    { eapply st_wf; [exact Hst2|destruct (sip_release_drops x); [by eapply sk_release_wf, Hls'; apply Hw|apply Hw]|apply Hw1]. }
    assert (legs w2 !! l = Some (Leg b (XMncc m))) as Hx2.
    { rewrite Hl2. destruct (sip_release_drops x); [by rewrite lookup_delete_ne|done]. }
    destruct (mncc_leg_dropped w2 l b m Hw2 Hx2) as (w3 & Hrun3 & Hst3 & Hw3 & Hout3 & Ht3 & Hl3).
    exists w3. split_and!; [exact Hrun3|done|by rewrite Ht3, Ht2|by rewrite Hout3|..].
    + rewrite Hl3, Hl2. change (legs w1) with (legs w). rewrite without_delete.
      destruct (sip_release_drops x); by rewrite ?without_delete, without_nil.
    + intros c Hc. rewrite (st_sk _ _ _ Hst3).
      assert (sk_legs (sk w2) !! l = Some (shape (Leg b (XMncc m)))) as Hl2' by (simpl; by rewrite lookup_fmap, Hx2).
      rewrite (sk_release_other_call _ l _ (w_sk w2 Hw2) Hl2') by done. rewrite (st_sk _ _ _ Hst2).
      destruct (sip_release_drops x); [|done].
      apply (sk_release_other_call _ ls _ (w_sk w Hw) Hls'). simpl. by rewrite Hcall.
  - assert (sip_partner w l = None) as -> by (unfold sip_partner; by rewrite Hp).
    rewrite (bind_returns _ _ w1 tt w1 eq_refl).
    destruct (mncc_leg_dropped w1 l b m Hw1 Hx) as (w3 & Hrun3 & Hst3 & Hw3 & Hout3 & Ht3 & Hl3).
    exists w3. split_and!; [exact Hrun3|done|by rewrite Ht3|by rewrite Hout3, app_nil_r|..].
    + by rewrite Hl3, without_delete, without_nil.
    + intros c Hc. rewrite (st_sk _ _ _ Hst3). by apply (sk_release_other_call _ l _ (w_sk w Hw) Hl).
Qed.

(** The legs that an armed timer ends are in the call of its leg. *)
Lemma timer_leg w l : wf w -> l ∈ timers w -> exists b m, legs w !! l = Some (Leg b (XMncc m)).
Proof using.
  intros Hw Hin. destruct (w_timers w Hw l Hin) as (sh & Hl & Hm).
  simpl in Hl. apply fmap_lookup_inv in Hl as ([b [m|x]] & Hx & ->); [by exists b, m|done].
Qed.
Lemma ended_call w l b m l' : wf w -> legs w !! l = Some (Leg b (XMncc m)) -> l' ∈ ended w l ->
  exists x, legs w !! l' = Some x /\ lg_call (base x) = lg_call b.
Proof using.
  intros Hw Hx. unfold ended. rewrite elem_of_cons. intros [->|Hl']; [by exists (Leg b (XMncc m))|].
  unfold sip_partner in Hl'. destruct (partner (sk w) l) as [ls|] eqn:Hp; simpl in Hl'; [|by apply elem_of_nil in Hl'].
  destruct (partner_sip w l b m ls Hw Hx Hp) as (_ & bs & x & Hls & _ & _ & Hc). rewrite Hls in Hl'.
  destruct (sip_release_drops x); [|by apply elem_of_nil in Hl']. apply list_elem_of_singleton in Hl' as ->.
  by exists (Leg bs (XSip x)).
Qed.

(** Two MNCC legs are in different calls. *)
Lemma mncc_legs_apart w l l' b m b' m' : wf w -> l <> l' -> legs w !! l = Some (Leg b (XMncc m)) ->
  legs w !! l' = Some (Leg b' (XMncc m')) -> lg_call b <> lg_call b'.
Proof using.
  intros Hw Hne Hx Hx' Hc. pose proof (w_sk w Hw) as Hwf.
  assert (sk_legs (sk w) !! l = Some (shape (Leg b (XMncc m)))) as Hl by (simpl; by rewrite lookup_fmap, Hx).
  assert (sk_legs (sk w) !! l' = Some (shape (Leg b' (XMncc m')))) as Hl' by (simpl; by rewrite lookup_fmap, Hx').
  destruct (wf_leg _ Hwf l _ Hl) as (Htag & _ & i & r & Hcl & Hir), (wf_leg _ Hwf l' _ Hl') as (Htag' & _ & i' & r' & Hcl' & Hir').
  simpl in Hcl, Hcl', Htag, Htag'. rewrite <- Hc, Hcl in Hcl'. injection Hcl' as <- <-. unfold tag_ok in *. simpl in *.
  assert (lg_type b = lg_type b') as Hty by congruence.
  destruct Hir as [-> | ->], Hir' as [Hi|Hr]; simplify_eq.
  - by apply (wf_types _ Hwf _ _ _ _ _ Hcl Hl Hl').
  - apply (wf_types _ Hwf _ _ _ _ _ Hcl Hl' Hl). by symmetry.
Qed.

Lemma ended_not w l b m l' b' m' : wf w -> l <> l' -> legs w !! l = Some (Leg b (XMncc m)) ->
  legs w !! l' = Some (Leg b' (XMncc m')) -> forall p x, legs w !! p = Some x -> lg_call (base x) = lg_call b' -> p ∉ ended w l.
Proof using.
  intros Hw Hne Hx Hx' p x Hp Hc Hin. destruct (ended_call w l b m p Hw Hx Hin) as (y & Hy & Hcy).
  apply (mncc_legs_apart w l l' b m b' m' Hw Hne Hx Hx'). congruence.
Qed.

(** What the timer of another leg does is the same before and after. *)
Lemma sip_partner_kept w w1 l b m l' b' m' : wf w -> l <> l' -> legs w !! l = Some (Leg b (XMncc m)) ->
  legs w !! l' = Some (Leg b' (XMncc m')) -> legs w1 = without (ended w l) (legs w) ->
  (forall c, c <> lg_call b -> sk_calls (sk w1) !! c = sk_calls (sk w) !! c) ->
  legs w1 !! l' = legs w !! l' /\ sip_partner w1 l' = sip_partner w l'.
Proof using.
  intros Hw Hne Hx Hx' Hl1 Hc1.
  assert (forall p x, legs w !! p = Some x -> lg_call (base x) = lg_call b' -> legs w1 !! p = Some x) as Hkeep.
  { intros p x Hp Hc. rewrite Hl1. apply map_lookup_filter_Some. split; [done|].
    exact (ended_not w l b m l' b' m' Hw Hne Hx Hx' p x Hp Hc). }
  pose proof (Hkeep l' _ Hx' eq_refl) as Hx1. split; [by rewrite Hx1|].
  assert (partner (sk w1) l' = partner (sk w) l') as Hp1.
  { unfold partner. cbn [sk_legs sk]. rewrite !lookup_fmap, Hx1, Hx'. simpl mbind. cbn [sh_call shape base].
    rewrite Hc1; [done|]. apply not_eq_sym. exact (mncc_legs_apart w l l' b m b' m' Hw Hne Hx Hx'). }
  unfold sip_partner. rewrite Hp1. destruct (partner (sk w) l') as [ls|] eqn:Hp; [|done]. simpl.
  destruct (partner_sip w l' b' m' ls Hw Hx' Hp) as (_ & bs & x & Hls & _ & _ & Hc).
  by rewrite (Hkeep ls _ Hls Hc), Hls.
Qed.

Lemma without_app l1 l2 (g : gmap ptr leg) : without l2 (without l1 g) = without (l1 ++ l2) g.
Proof using.
  apply map_eq. intros i. apply option_eq. intros x. unfold without. rewrite !map_lookup_filter_Some. simpl. set_solver.
Qed.

(** A call is there as long as it has a leg. *)
Lemma call_of_leg w c : wf w -> is_Some (calls w !! c) <-> exists l x, legs w !! l = Some x /\ lg_call (base x) = c.
Proof using.
  intros Hw. pose proof (w_sk w Hw) as Hwf. split.
  - intros [cl Hc]. pose proof (sk_call_of w c cl Hc) as Hs. pose proof (wf_nonempty _ Hwf c) as Hn. rewrite Hs in Hn.
    assert (exists l, initial cl = Some l \/ remote cl = Some l) as [l Hl].
    { destruct (initial cl) as [l|]; [by exists l; left|]. destruct (remote cl) as [l|]; [by exists l; right|done]. }
    destruct (wf_linked _ c _ _ l Hwf Hs Hl) as (sh & Hsh & <-). apply sk_leg_inv in Hsh as (y & ? & <-). by exists l, y.
  - intros (l & x & Hx & <-). assert (sk_legs (sk w) !! l = Some (shape x)) as Hl by (simpl; by rewrite lookup_fmap, Hx).
    destruct (wf_leg _ Hwf l _ Hl) as (_ & _ & i & r & Hc & _). simpl in Hc. apply fmap_lookup_inv in Hc as (cl & Hcl & _).
    by exists cl.
Qed.

(** C17: when the MSC stays silent every call it left waiting is released: whatever the
    order in which the armed command timers fire, each firing returns and no timer is
    armed anew.  Each of them, in turn, tells the SIP peer of its call what the state of
    the dialog calls for ([farewell]: CANCEL, a final response, BYE or the end of the
    handle) and nothing else is sent; afterwards the MNCC legs are gone, and with each
    of them the SIP leg of its call where sofia-sip has nothing left to confirm
    ([sip_release_drops]); every other leg is as it was, and a call is there
    exactly as long as one of its legs is. *)
Theorem timers_drain ls : forall w, wf w -> NoDup ls -> (forall l, l ∈ ls -> l ∈ timers w) ->
  exists w', run (map EvCmdTimeout ls) w = Ret tt w' /\ wf w'
    /\ timers w' = timers w ∖ list_to_set ls
    /\ out w' = out w ++ concat (map (farewell w) ls)
    /\ legs w' = without (concat (map (ended w) ls)) (legs w)
    /\ (forall c, is_Some (calls w' !! c) <-> exists l x, legs w' !! l = Some x /\ lg_call (base x) = c).
Proof using.
  induction ls as [|l ls IH]; intros w Hw Hnd Hin.
  - exists w. split_and!; [done|done|set_solver|by rewrite app_nil_r|by rewrite without_nil|intros c; by apply call_of_leg].
  - apply NoDup_cons in Hnd as [Hl Hnd]. assert (l ∈ timers w) as Hlt by (apply Hin; left).
    destruct (timer_leg w l Hw Hlt) as (b & m & Hx).
    destruct (timeout_fires w l b m Hw Hlt Hx) as (w1 & Hrun & Hw1 & Ht1 & Ho1 & Hl1 & Hc1).
    assert (forall l', l' ∈ ls -> sip_partner w1 l' = sip_partner w l') as Hkept.
    { intros l' Hl'. assert (l <> l') as Hne by (by intros ->). destruct (timer_leg w l' Hw) as (b' & m' & Hx'); [apply Hin; by right|].
      by apply (sip_partner_kept w w1 l b m l' b' m'). }
    destruct (IH w1 Hw1 Hnd) as (w2 & Hrun2 & Hw2 & Ht2 & Ho2 & Hl2 & Hc2).
    { intros l' Hl'. rewrite Ht1. apply elem_of_difference. split; [apply Hin; by right|]. set_solver. }
    exists w2. split_and!; [|done|rewrite Ht2, Ht1; set_solver|..|done].
    + unfold run in *. simpl map. simpl foldr. by rewrite (bind_returns _ _ _ _ _ Hrun).
    + assert (map (farewell w1) ls = map (farewell w) ls) as Hf.
      { apply map_ext_in. intros l' Hl'%list_elem_of_In. unfold farewell. by rewrite Hkept. }
      by rewrite Ho2, Ho1, <- app_assoc, Hf.
    + assert (map (ended w1) ls = map (ended w) ls) as He.
      { apply map_ext_in. intros l' Hl'%list_elem_of_In. unfold ended. by rewrite Hkept. }
      by rewrite Hl2, Hl1, without_app, He.
Qed.
End drain.

(** ** The MSC hangs up *)
Section disconnect.
Context {E : Env} {HE : EnvLaws E} {HW : WritesOk E}.

(** C26: when the MSC disconnects a bridged call, it is sent one Release for the callref,
    with the cause of the MNCC leg, and then the SIP peer what the state of its dialog calls
    for, with the cause of the Disconnect: the mapped final response with a Q.850
    Reason, CANCEL or BYE.  The MNCC leg stays, is marked as in release and waits for
    MNCC_REL_CNF with its timer armed; the SIP leg is gone where sofia-sip has nothing
    left to confirm, and keeps the cause otherwise; no other leg and no other timer
    is touched. *)
Theorem check_disc_ind_spec buf w lm ls bm m bs x : let d := view_gsm_mncc buf in
  mncc_sip_call w (mn_callref d) lm ls bm m bs x ->
  let bs1 := set_cause (ca_value (mn_cause d)) bs in
  let legs1 := <[lm := Leg (set_in_release true bm) (XMncc (set_m_rsp_wanted MNCC_REL_CNF m))]> (legs w) in
  exists w', check_disc_ind buf sizeof_gsm_mncc w = Ret tt w' /\
    out w' = out w ++ TxMncc (with_cause MNCC_REL_REQ (mn_callref d) (cause bm)) sizeof_gsm_mncc
                   :: sip_release_actions bs1 x /\
    legs w' = (if sip_release_drops x then delete ls legs1 else <[ls := Leg bs1 (XSip x)]> legs1) /\
    timers w' = {[lm]} ∪ timers w.
Proof using HW.
  intros d Hm bs1 legs1. unfold check_disc_ind. rewrite (msc_with_leg w lm ls bm m bs x buf _ Hm). fold d.
  destruct (disc_mark _ _ _ _ _ _ _ _ Hm) as (w1 & Hrun & Hm1 & _ & Hout1 & _ & Ht1 & Hl1). rewrite Hrun.
  run_step (disc_release_req _ _ _ _ _ _ _ _ Hm1). change (cause (set_in_release true bm)) with (cause bm).
  set (a := TxMncc _ _). pose proof (msc_wrote w1 _ lm ls _ _ bs x a Hm1) as Hm2. set (w2 := wrote a w1) in *.
  unfold release_other_with_cause. run_step (bridged_other w2 lm ls (msc_bridge _ _ _ _ _ _ _ _ Hm2)).
  run_step (upd_base_eq w2 ls (set_cause (ca_value (mn_cause d))) bs _ (msc_sip _ _ _ _ _ _ _ _ Hm2)). fold bs1.
  pose proof (msc_set_sip w2 _ lm ls _ _ bs x bs1 x Hm2 eq_refl) as Hm3. set (w3 := set_legs _ w2) in *.
  pose proof Hm3 as [Hw3 _ _ Hls3 Hb3 _ _].
  destruct (sip_leg_released w3 ls bs1 x Hw3 Hls3) as (w4 & Hrun4 & _ & Hout & Ht & Hl).
  { exact (bridged_established w3 ls lm _ Hw3 (bridged_sym _ _ _ Hw3 Hb3) Hls3). }
  exists w4. split; [exact Hrun4|]. split_and!.
  - rewrite Hout. change (out w3) with (out w1 ++ [a]). by rewrite Hout1, <- app_assoc.
  - rewrite Hl. change (legs w3) with (<[ls := Leg bs1 (XSip x)]> (legs w1)). rewrite Hl1. fold legs1.
    destruct (sip_release_drops x); [|done]. by rewrite delete_insert_eq.
  - rewrite Ht. exact Ht1.
Qed.
End disconnect.
