(* ===== verification/Main.v ===== *)
(** * Start-up (src/main.c, and sip_agent_init and sip_agent_start of src/sip.c)

    The command line, the order in which main() brings the parts of the program
    up, and the four ways in which it gives up.  What the libraries answer is a
    field of [Startup]; the calls themselves are recorded in order.  A run ends
    with an exit code, or comes to the main loop with the store of the theorems of
    System.v. *)
From S2P Require Import Prelude Effect Codec Protocol Lib State Call SipLeg MnccConn App Vty System.
From Stdlib Require Import Ascii.
#[local] Open Scope effect_scope.

(** ** Definitions *)

(** [struct log_info_cat], the categories of logging.h and their table *)
Inductive log_category := DSIP | DMNCC | DAPP | DCALL.
Inductive log_level := LOGL_DEBUG | LOGL_INFO | LOGL_NOTICE | LOGL_ERROR.
Record log_info_cat := LogCat { lc_name : string; lc_description : string; lc_enabled : bool; lc_loglevel : log_level }.
Definition mncc_sip_categories (c : log_category) : log_info_cat :=
  match c with
  | DSIP => LogCat "DSIP" "SIP interface" true LOGL_NOTICE
  | DMNCC => LogCat "DMNCC" "MNCC interface" true LOGL_NOTICE
  | DAPP => LogCat "DAPP" "Application interface" true LOGL_NOTICE
  | DCALL => LogCat "DCALL" "Call management" true LOGL_NOTICE
  end.
Definition mncc_sip_info : list log_info_cat := map mncc_sip_categories [DSIP; DMNCC; DAPP; DCALL].

(** The calls that leave the program while it starts. *)
Inductive call_out :=
| talloc_named_const (name : string)
| osmo_init_ignore_signals
| osmo_init_logging2 (info : list log_info_cat)
| osmo_stats_init
| mncc_sip_vty_init                       (* its defaults are [vty_defaults] *)
| logging_vty_add_cmds
| osmo_stats_vty_add_cmds
| printf (line : string)
| print_version (print_copyright : Z)
| vty_read_config_file (path : string)
| telnet_init_default
| logp (c : log_category) (l : log_level) (line : string)
| perror (s : string)
| su_init
| su_home_init
| su_log_redirect_default | su_log_redirect_global   (* to sip_logger *)
| su_glib_root_create
| su_root_threading (enable : Z)
| nua_create (url : string) (autoack autoalert autoanswer : Z)
| osmo_daemonize
| g_main_loop_new
| g_source_attach
| g_main_context_set_poll_func            (* to evpoll *)
| g_main_loop_run
| g_main_loop_unref.

(** What the libraries answer. *)
Class Startup := {
  (** the results of [getopt_long] for the command line, up to -1, each with [optarg] *)
  getopt_long : list string -> list (ascii * string);
  (** the result of reading the file and the configuration its commands leave *)
  read_config : string -> app_config -> Z * app_config;
  telnet_rc : Z;
  nua_created : string -> bool;           (* nua_create returned an agent *)
  daemonize_rc : Z;
}.

(** The state of the process: the store, the two variables the options set, and
    the calls so far. *)
Record proc := Proc { p_world : world; config_file : string; daemonize : bool; did : list call_out }.

(** A computation of main(): it returns, calls [exit], or crashes. *)
Inductive result (A : Type) :=
| Go (a : A) (p : proc)
| Exit (code : Z) (p : proc)
| Die (f : fault) (p : proc).
Arguments Go {A}.
Arguments Exit {A}.
Arguments Die {A}.
Definition MP (A : Type) : Type := proc -> result A.

Definition pret {A} (a : A) : MP A := fun p => Go a p.
Definition pbind {A B} (m : MP A) (k : A -> MP B) : MP B :=
  fun p => match m p with
           | Go a p' => k a p'
           | Exit c p' => Exit c p'
           | Die f p' => Die f p'
           end.
Declare Scope main_scope.
Delimit Scope main_scope with main.
Notation "'let*' x ':=' m 'in' k" := (pbind m (fun x => k)) (at level 10, x name, m at level 100, k at level 200) : main_scope.
Notation "'do' m 'in' k" := (pbind m (fun _ => k)) (at level 10, m at level 100, k at level 200) : main_scope.
#[local] Open Scope main_scope.

Definition exit {A} (code : Z) : MP A := fun p => Exit code p.
Definition lib (c : call_out) : MP unit :=
  fun p => Go tt (Proc (p_world p) (config_file p) (daemonize p) (did p ++ [c])).
Definition set_config_file (f : string) : MP unit := fun p => Go tt (Proc (p_world p) f (daemonize p) (did p)).
Definition set_daemonize : MP unit := fun p => Go tt (Proc (p_world p) (config_file p) true (did p)).
Definition get {A} (f : proc -> A) : MP A := fun p => Go (f p) p.
(** Run a function of the program on the store. *)
Definition on_world {A} (m : MW A) : MP A :=
  fun p => match m (p_world p) with
           | Ret a w => Go a (Proc w (config_file p) (daemonize p) (did p))
           | Crash f w => Die f (Proc w (config_file p) (daemonize p) (did p))
           end.

(** The assignments of [mncc_sip_vty_init] and of main(). *)
Definition mncc_sip_vty_defaults (g : app_config) : app_config :=
  Config "127.0.0.1" 5060 "pbx" 5060 (sofia_log_level g) "/tmp/msc_mncc" (use_imsi_as_id g).
Definition set_sofia_log_level (n : Z) (g : app_config) : app_config :=
  Config (sip_local_addr g) (sip_local_port g) (sip_remote_addr g) (sip_remote_port g) n (mncc_path g) (use_imsi_as_id g).

(** [calls_init] has an empty body. *)
Definition calls_init : MW unit := ret tt.

Section main.
Context {S : Startup}.

Definition print_help : MP unit :=
  do lib (printf ("OsmoSIPcon: MNCC to SIP bridge" +:+ str_nl)) in
  do lib (printf ("  -h --help" +:+ str_tab +:+ "This text" +:+ str_nl)) in
  let* f := get config_file in
  do lib (printf ("  -c --config-file NAME" +:+ str_tab +:+ "The config file to use [" +:+ f +:+ "]" +:+ str_nl)) in
  do lib (printf ("  -D --daemonize" +:+ str_tab +:+ "Fork the process into a background daemon" +:+ str_nl)) in
  lib (printf ("  -V --version" +:+ str_tab +:+ "Print the version number" +:+ str_nl)).

(** The loop of [handle_options] over the results of [getopt_long]. *)
Fixpoint handle_options (opts : list (ascii * string)) : MP unit :=
  match opts with
  | [] => pret tt
  | (c, optarg) :: opts' =>
      if Ascii.eqb c "h" then do print_help in exit 0
      else if Ascii.eqb c "c" then do set_config_file optarg in handle_options opts'
      else if Ascii.eqb c "D" then do set_daemonize in handle_options opts'
      else if Ascii.eqb c "V" then do lib (print_version 1) in exit 0
      else handle_options opts'
  end.

Definition sip_agent_init : MP unit :=
  do lib su_init in
  do lib su_home_init in
  do lib su_log_redirect_default in
  do lib su_log_redirect_global in
  do lib su_glib_root_create in
  lib (su_root_threading 0).

(** 0, or -1 when sofia-sip gives no agent *)
Definition sip_agent_start : MP Z :=
  let* g := get (fun p => cfg (p_world p)) in
  let url := make_sip_uri g in
  do lib (nua_create url 0 0 0) in
  pret (if nua_created url then 0 else -1).

(** [osmo_daemonize] when it was asked for *)
Definition enter_background : MP unit :=
  let* d := get daemonize in
  if d : bool then
    do lib osmo_daemonize in
    if daemonize_rc <? 0 then do lib (perror "Error during daemonize") in exit 1 else pret tt
  else pret tt.

(** main() after the options. *)
Definition after_options : MP Z :=
  let* file := get config_file in
  do lib (vty_read_config_file file) in
  let* g := get (fun p => cfg (p_world p)) in
  let '(rc, g') := read_config file g in
  do on_world (modify (set_cfg (fun _ => g'))) in
  if rc <? 0 then
    do lib (logp DAPP LOGL_ERROR ("Can not parse config: " +:+ file +:+ " " +:+ fmt_d rc +:+ str_nl)) in exit 1
  else
  do lib telnet_init_default in
  if telnet_rc <? 0 then exit 1 else
  do on_world mncc_connection_init in
  do on_world mncc_connection_start in
  do sip_agent_init in
  let* rc := sip_agent_start in
  if rc <? 0 then do lib (logp DSIP LOGL_ERROR ("Failed to initialize SIP" +:+ str_nl)) in exit 1 else
  do on_world calls_init in
  do on_world app_setup in
  do enter_background in
  do lib g_main_loop_new in
  do lib g_source_attach in
  do lib g_main_context_set_poll_func in
  do lib g_main_loop_run in
  do lib g_main_loop_unref in
  pret 0.

Definition main (argv : list string) : MP Z :=
  do lib (talloc_named_const "MNCC CTX") in
  do lib osmo_init_ignore_signals in
  do lib (osmo_init_logging2 mncc_sip_info) in
  do lib osmo_stats_init in
  do lib mncc_sip_vty_init in
  do on_world (modify (set_cfg mncc_sip_vty_defaults)) in
  do lib logging_vty_add_cmds in
  do lib osmo_stats_vty_add_cmds in
  do on_world (modify (set_cfg (set_sofia_log_level 2))) in
  do handle_options (getopt_long argv) in
  after_options.
End main.

(** The process when main() is entered: globals zeroed, [last_call_id] at 5000. *)
Definition blank_config : app_config := Config EmptyString 0 EmptyString 0 0 EmptyString false.
Definition started : proc := Proc (zeroed blank_config) "osmo-sip-connector.cfg" false [].

(** ** The specification *)

(** The options that end the program, the last file named, and whether the
    background was asked for. *)
Definition quits (o : ascii * string) : bool := Ascii.eqb (fst o) "h" || Ascii.eqb (fst o) "V".
Definition chosen_file (f : string) (opts : list (ascii * string)) : string :=
  foldl (fun f o => if Ascii.eqb (fst o) "c" then snd o else f) f opts.
Definition wants_background (opts : list (ascii * string)) : bool :=
  existsb (fun o => Ascii.eqb (fst o) "D") opts.

Definition prints (c : call_out) : Prop :=
  match c with printf _ | print_version _ => True | _ => False end.

(** What is called up to the options, to start the agent, and to loop. *)
Definition init_calls : list call_out :=
  [talloc_named_const "MNCC CTX"; osmo_init_ignore_signals; osmo_init_logging2 mncc_sip_info; osmo_stats_init;
   mncc_sip_vty_init; logging_vty_add_cmds; osmo_stats_vty_add_cmds].
Definition agent_calls (url : string) : list call_out :=
  [su_init; su_home_init; su_log_redirect_default; su_log_redirect_global; su_glib_root_create;
   su_root_threading 0; nua_create url 0 0 0].
Definition loop_calls : list call_out :=
  [g_main_loop_new; g_source_attach; g_main_context_set_poll_func; g_main_loop_run; g_main_loop_unref].

Section spec.
Context {S : Startup}.

Lemma pbind_go {A B} (m : MP A) (k : A -> MP B) p a p' : m p = Go a p' -> pbind m k p = k a p'.
Proof. unfold pbind. by intros ->. Qed.

Lemma handle_options_go opts : forall w f d t, existsb quits opts = false ->
  handle_options opts (Proc w f d t) = Go tt (Proc w (chosen_file f opts) (d || wants_background opts) t).
Proof.
  induction opts as [|[c a] opts IH]; intros w f d t Hq; simpl; [by rewrite orb_false_r|].
  simpl in Hq. apply orb_false_iff in Hq as [[Hh HV]%orb_false_iff Hq]. simpl in Hh, HV. rewrite Hh, HV.
  destruct (Ascii.eqb_spec c "c") as [->|_]; [by apply IH|].
  destruct (Ascii.eqb_spec c "D") as [->|_]; [|by apply IH].
  simpl. rewrite orb_true_r. exact (IH w f true t Hq).
Qed.

Lemma handle_options_quit opts : forall w f d t, existsb quits opts = true ->
  exists f' d' ps, handle_options opts (Proc w f d t) = Exit 0 (Proc w f' d' (t ++ ps)) /\ Forall prints ps.
Proof.
  induction opts as [|[c a] opts IH]; intros w f d t Hq; simpl in *; [done|]. unfold quits in Hq. simpl in Hq.
  destruct (Ascii.eqb_spec c "h") as [->|_].
  { eexists _, _, _. unfold print_help, pbind, lib, get, exit. simpl. rewrite <- !app_assoc. simpl.
    split; [reflexivity|]. by repeat constructor. }
  destruct (Ascii.eqb_spec c "c") as [->|_]; [by apply IH|].
  destruct (Ascii.eqb_spec c "D") as [->|_]; [by apply IH|].
  destruct (Ascii.eqb_spec c "V") as [->|_]; [|by apply IH].
  eexists _, _, _. unfold pbind, lib, exit. simpl. split; [reflexivity|]. by repeat constructor.
Qed.

Lemma lib_go c w f d t : lib c (Proc w f d t) = Go tt (Proc w f d (t ++ [c])).
Proof. done. Qed.
Lemma modify_go f w fl d t : on_world (modify f) (Proc w fl d t) = Go tt (Proc (f w) fl d t).
Proof. done. Qed.

Lemma calls_init_go w f d t : on_world calls_init (Proc w f d t) = Go tt (Proc w f d t).
Proof. done. Qed.

Lemma sip_agent_init_go w f d t : sip_agent_init (Proc w f d t) =
  Go tt (Proc w f d (t ++ [su_init; su_home_init; su_log_redirect_default; su_log_redirect_global;
                           su_glib_root_create; su_root_threading 0])).
Proof. unfold sip_agent_init, pbind. rewrite !lib_go, <- !app_assoc. done. Qed.

Lemma sip_agent_start_go w f d t : sip_agent_start (Proc w f d t) =
  Go (if nua_created (make_sip_uri (cfg w)) then 0 else -1) (Proc w f d (t ++ [nua_create (make_sip_uri (cfg w)) 0 0 0])).
Proof. done. Qed.

Lemma pbind_exit {A B} (m : MP A) (k : A -> MP B) p c p' : m p = Exit c p' -> pbind m k p = Exit c p'.
Proof. unfold pbind. by intros ->. Qed.

Lemma enter_background_go w f d t : let t' := t ++ if d : bool then [osmo_daemonize] else [] in
  enter_background (Proc w f d t) =
    if d && (daemonize_rc <? 0) then Exit 1 (Proc w f d (t' ++ [perror "Error during daemonize"]))
    else Go tt (Proc w f d t').
Proof.
  unfold enter_background, pbind, get. destruct d; simpl; [by destruct (daemonize_rc <? 0)|by rewrite app_nil_r].
Qed.

(** C19: main() sets the defaults, reads the options and the configuration file,
    opens the telnet port, connects to the MSC and starts the SIP agent, in this
    order.  A request for help or the version ends it with code 0 before anything
    is read or opened; a file that cannot be read, a port that cannot be opened,
    a SIP agent that does not start and a failure to enter the background end it
    with code 1, each before the next step; otherwise it comes to the main loop
    with the connection idle, its first connect scheduled, its callback
    installed and the configuration read. *)
Theorem main_spec argv : let opts := getopt_long argv in
  let file := chosen_file "osmo-sip-connector.cfg" opts in
  let g := snd (read_config file vty_defaults) in
  let read := init_calls ++ [vty_read_config_file file] in
  let agent := read ++ [telnet_init_default] ++ agent_calls (make_sip_uri g) in
  let back := if wants_background opts then [osmo_daemonize] else [] in
  exists p,
  if existsb quits opts then
    main argv started = Exit 0 p /\ p_world p = zeroed vty_defaults
    /\ exists ps, did p = init_calls ++ ps /\ Forall prints ps
  else if fst (read_config file vty_defaults) <? 0 then
    main argv started = Exit 1 p /\ p_world p = zeroed g /\ exists line, did p = read ++ [logp DAPP LOGL_ERROR line]
  else if telnet_rc <? 0 then
    main argv started = Exit 1 p /\ p_world p = zeroed g /\ did p = read ++ [telnet_init_default]
  else if negb (nua_created (make_sip_uri g)) then
    main argv started = Exit 1 p /\ exists line, did p = agent ++ [logp DSIP LOGL_ERROR line]
  else if wants_background opts && (daemonize_rc <? 0) then
    main argv started = Exit 1 p /\ did p = agent ++ back ++ [perror "Error during daemonize"]
  else
    main argv started = Go 0 p /\ boot (zeroed g) = Ret tt (p_world p) /\ did p = agent ++ back ++ loop_calls.
Proof.
  intros opts file g read agent back.
  assert (main argv started = pbind (handle_options opts) (fun _ => after_options)
    (Proc (zeroed vty_defaults) "osmo-sip-connector.cfg" false init_calls)) as -> by reflexivity.
  destruct (existsb quits opts) eqn:Hq.
  { destruct (handle_options_quit opts (zeroed vty_defaults) "osmo-sip-connector.cfg" false init_calls Hq)
      as (f' & d' & ps & Hrun & Hps).
    eexists. unfold pbind. rewrite Hrun. simpl. eauto. }
  rewrite (pbind_go _ _ _ _ _ (handle_options_go opts _ _ _ _ Hq)). change (chosen_file _ opts) with file.
  unfold after_options, read, agent, g. erewrite pbind_go by reflexivity.
  cbn [config_file]. rewrite (pbind_go _ _ _ _ _ (lib_go _ _ _ _ _)). erewrite pbind_go by reflexivity.
  change (cfg _) with vty_defaults. destruct (read_config file vty_defaults) as [rc g']. cbn [fst snd].
  rewrite (pbind_go _ _ _ _ _ (modify_go _ _ _ _ _)). change (set_cfg (fun _ => g') (zeroed vty_defaults)) with (zeroed g').
  destruct (rc <? 0); [eexists; by split_and!; eauto|]. rewrite (pbind_go _ _ _ _ _ (lib_go _ _ _ _ _)).
  destruct (telnet_rc <? 0); [eexists; by split_and!|].
  unfold mncc_connection_init, mncc_connection_start, app_setup. do 2 rewrite (pbind_go _ _ _ _ _ (modify_go _ _ _ _ _)).
  rewrite (pbind_go _ _ _ _ _ (sip_agent_init_go _ _ _ _)), (pbind_go _ _ _ _ _ (sip_agent_start_go _ _ _ _)).
  change (cfg (set_conn _ _)) with g'. destruct (nua_created (make_sip_uri g')); simpl negb; cbv iota.
  2:{ change (-1 <? 0) with true. cbv iota. rewrite (pbind_go _ _ _ _ _ (lib_go _ _ _ _ _)).
      eexists. split; [reflexivity|]. eexists. simpl did. by rewrite <- !app_assoc. }
  change (0 <? 0) with false. cbv iota.
  rewrite (pbind_go _ _ _ _ _ (calls_init_go _ _ _ _)), (pbind_go _ _ _ _ _ (modify_go _ _ _ _ _)).
  match goal with |- context [pbind enter_background ?k (Proc ?w ?f ?d ?t)] =>
    pose proof (enter_background_go w f d t) as Hback; change d with (wants_background opts) in * end.
  cbv zeta in Hback. destruct (wants_background opts && (daemonize_rc <? 0)).
  - rewrite (pbind_exit _ _ _ _ _ Hback). eexists. split; [reflexivity|]. simpl did. by rewrite <- !app_assoc.
  - rewrite (pbind_go _ _ _ _ _ Hback). repeat rewrite (pbind_go _ _ _ _ _ (lib_go _ _ _ _ _)).
    eexists. split_and!; [reflexivity|reflexivity|]. simpl did. by rewrite <- !app_assoc.
Qed.

(** When main() returns, it does so from the loop, with 0, and entered it in the
    store of [boot]. *)
Lemma main_go argv rc p : main argv started = Go rc p -> rc = 0 /\ exists g, p_world p = booted g.
Proof.
  assert (main argv started = pbind (handle_options (getopt_long argv)) (fun _ => after_options)
    (Proc (zeroed vty_defaults) "osmo-sip-connector.cfg" false init_calls)) as -> by reflexivity.
  destruct (existsb quits (getopt_long argv)) eqn:Hq.
  { destruct (handle_options_quit _ (zeroed vty_defaults) "osmo-sip-connector.cfg" false init_calls Hq)
      as (f' & d' & ps & Hrun & _). by rewrite (pbind_exit _ _ _ _ _ Hrun). }
  rewrite (pbind_go _ _ _ _ _ (handle_options_go _ _ _ _ _ Hq)).
  unfold after_options, sip_agent_init, sip_agent_start, enter_background, pbind, get, on_world, exit, pret, lib.
  simpl. destruct (read_config _ _) as [r g]. simpl.
  repeat case_match; intros [= <- <-]; simplify_eq; (split; [done|]); by exists g.
Qed.
End spec.
