(* ===== verification/Logging.v ===== *)
(** * What the log lines are made from (log_mncc of src/mncc.c, sip_logger of src/sip.c)

    Two functions that only print, but handle memory while they do: [log_mncc]
    reads an SDP out of the receive buffer before the handlers have checked the
    size of the message, and [sip_logger] edits a formatted line in a buffer of
    256 bytes.  [None] is a line that is not printed. *)
From S2P Require Import Prelude Codec Protocol Lib State Main.
From Stdlib Require Import Ascii.

(** ** Definitions *)

(** libosmocore's names and quoting, where the compiler puts [sdp] in a
    [struct gsm_mncc], and the size of a pointer. *)
Class LogLib := {
  osmo_mncc_name : Z -> string;
  osmo_quote_str : string -> string;
  offsetof_sdp : nat;
  sizeof_pointer : Z;
}.

(** The offset of [sdp] in a [struct gsm_mncc_rtp]. *)
Definition offsetof_rtp_sdp : nat := 144.

(** [memcpy (p, bs, length bs)] at [off] of an array. *)
Definition put (off : nat) (bs : list Z) (arr : list Z) : option (list Z) :=
  if (off + length bs <=? length arr)%nat
  then Some (take off arr ++ bs ++ drop (off + length bs) arr) else None.

Section log.
Context {L : LogLib}.

(** The messages that carry SDP in a [struct gsm_mncc] *)
Definition carries_sdp (t : Z) : bool :=
  existsb (Z.eqb t)
    [MNCC_SETUP_IND; MNCC_DISC_IND; MNCC_REL_IND; MNCC_REJ_IND; MNCC_REL_CNF; MNCC_SETUP_COMPL_IND;
     MNCC_SETUP_CNF; MNCC_CALL_CONF_IND; MNCC_ALERT_IND; MNCC_HOLD_IND; MNCC_RETRIEVE_IND].
Definition is_rtp (t : Z) : bool := existsb (Z.eqb t) [MNCC_RTP_CREATE; MNCC_RTP_CONNECT].

(** [mem] is the memory from [buf] on: the [buflen] bytes of the message and
    what the stack held before.  The guards compare with [sizeof] of the local
    pointers; the string is read up to its NUL. *)
Definition log_mncc (label : string) (mem : list Z) (buflen : Z) : option string :=
  if buflen <? 4 then None
  else
    let msg_type := rd32 mem 0 in
    let line := label +:+ "MNCC " +:+ osmo_mncc_name msg_type in
    let with_sdp off := Some (line +:+ " with SDP=" +:+ osmo_quote_str (cstr (drop off mem)) +:+ str_nl) in
    if carries_sdp msg_type then
      if buflen <? sizeof_pointer then None else with_sdp offsetof_sdp
    else if is_rtp msg_type then
      if buflen <? sizeof_pointer then None else with_sdp offsetof_rtp_sdp
    else Some (line +:+ str_nl).
End log.

(** [sip_logger]: [enabled] is log_check_level, [text] the bytes of the line that
    [vsnprintf] formats and [rc] what it returns, the length of [text] or an
    error; [stack] the 256 bytes of [log_line] before.  The line, or [None]
    where a byte outside the buffer would be written. *)
Definition sip_logger (enabled : bool) (rc : Z) (text stack : list Z) : option (option string) :=
  if negb enabled then Some None
  else if 0 <? rc then
    let n := Nat.min (Z.to_nat rc) (length stack - 1) in
    match put 0 (take n text ++ [0]) stack with
    | None => None
    | Some log_line =>
        let end_ := Z.to_nat (Z.min rc (Z.of_nat (length stack) - 2)) in
        match put end_ [10; 0] log_line with
        | None => None
        | Some log_line' => Some (Some (cstr log_line'))
        end
    end
  else Some (Some ("unknown logging from sip" +:+ str_nl)).

(** ** Lemmas *)
Lemma put_length off bs arr arr' : put off bs arr = Some arr' -> length arr' = length arr.
Proof.
  unfold put. destruct (Nat.leb_spec (off + length bs) (length arr)); [|done]. intros [= <-].
  rewrite !length_app, length_take, length_drop. lia.
Qed.

Lemma put_fits off bs arr : (off + length bs <= length arr)%nat ->
  put off bs arr = Some (take off arr ++ bs ++ drop (off + length bs) arr).
Proof. intros H. unfold put. by destruct (Nat.leb_spec (off + length bs) (length arr)); [|lia]. Qed.

(** A C string that ends within the first part. *)
Lemma cstr_app bs rest : 0 ∈ bs -> cstr (bs ++ rest) = cstr bs.
Proof.
  induction bs as [|b bs IH]; simpl; [by rewrite elem_of_nil|]. rewrite elem_of_cons.
  destruct (Z.eqb_spec b 0) as [->|Hb]; [done|]. intros [?|Hin]; [done|]. by rewrite IH.
Qed.

Lemma rd32_app_l buf rest : (4 <= length buf)%nat -> rd32 (buf ++ rest) 0 = rd32 buf 0.
Proof. intros H. unfold rd32, bytes_at. by rewrite !drop_0, take_app_le. Qed.

(** ** The logged SDP *)
Section log_spec.
Context {L : LogLib}.

(** C39: the line that announces a message with SDP quotes the SDP of the message
    when that ends within the bytes received; for a message cut off before its
    SDP, which the guard lets pass as soon as it is as long as a pointer, the
    line quotes what the stack held before, whatever that is. *)
Theorem log_mncc_stack label buf rest : let t := rd32 buf 0 in
  let off := if is_rtp t then offsetof_rtp_sdp else offsetof_sdp in
  (4 <= length buf)%nat -> sizeof_pointer <= Z.of_nat (length buf) -> carries_sdp t || is_rtp t = true ->
  exists sdp,
    log_mncc label (buf ++ rest) (Z.of_nat (length buf))
      = Some ((label +:+ "MNCC " +:+ osmo_mncc_name t) +:+ " with SDP=" +:+ osmo_quote_str sdp +:+ str_nl)
    /\ (0 ∈ drop off buf -> sdp = cstr (drop off buf))
    /\ ((length buf <= off)%nat -> sdp = cstr (drop (off - length buf) rest)).
Proof.
  intros t off H4 Hp Ht. exists (cstr (drop off (buf ++ rest))). split_and!.
  - unfold log_mncc. rewrite rd32_app_l by done. fold t. destruct (Z.ltb_spec (Z.of_nat (length buf)) 4); [lia|].
    destruct (Z.ltb_spec (Z.of_nat (length buf)) sizeof_pointer); [lia|].
    assert (carries_sdp t = true -> is_rtp t = false) as Hdis.
    { unfold carries_sdp, is_rtp. rewrite existsb_exists. intros (z & Hz & ->%Z.eqb_eq).
      by repeat (destruct Hz as [<-|Hz]; [reflexivity|]). }
    unfold off. destruct (carries_sdp t); [by rewrite Hdis|]. simpl in Ht. by rewrite Ht.
  - intros Hin. destruct (decide (off <= length buf)%nat) as [Hle|Hgt].
    + rewrite drop_app_le by done. by apply cstr_app.
    + rewrite drop_ge in Hin by lia. by apply elem_of_nil in Hin.
  - intros Hle. by rewrite drop_app_ge.
Qed.
End log_spec.

(** The line of sofia-sip is cut to 254 bytes, gets a newline and stays within
    the buffer of 256 bytes, however long it is; a line that ends in a newline
    gets a second one. *)
Lemma sip_logger_bounds enabled rc text stack : length stack = 256%nat ->
  (0 < rc -> rc = Z.of_nat (length text)) ->
  sip_logger enabled rc text stack =
    Some (if negb enabled then None
          else if 0 <? rc then Some (cstr (take 254 text ++ [10; 0]))
          else Some ("unknown logging from sip" +:+ str_nl)).
Proof.
  intros Hs Hrc. unfold sip_logger. destruct enabled; simpl; [|done].
  destruct (Z.ltb_spec 0 rc) as [Hpos|_]; [|done]. specialize (Hrc Hpos). rewrite Hs, Hrc, Nat2Z.id.
  set (n := length text) in *. rewrite put_fits by (rewrite length_app, length_take; simpl; fold n; lia).
  replace (Z.to_nat (Z.min (Z.of_nat n) (Z.of_nat 256 - 2))) with (Nat.min n 254) by lia.
  rewrite put_fits.
  2: { rewrite ?length_app, ?length_drop, ?length_app, ?length_take, ?Hs. simpl. fold n. lia. }
  do 2 f_equal. rewrite app_assoc. rewrite cstr_app by set_solver. do 2 f_equal.
  rewrite take_0. simpl. rewrite <- app_assoc, take_app_le by (rewrite length_take; fold n; lia).
  rewrite take_take. replace (Nat.min (Nat.min n 254) (Nat.min n 255)) with (Nat.min n 254) by lia.
  destruct (Nat.min_spec n 254) as [[? ->]|[? ->]]; [|done]. by rewrite !take_ge by (fold n; lia).
Qed.
