(* ===== verification/MainLoop.v ===== *)
(** * The main loop: turns of the poll function

    [evpoll] with libosmocore's descriptors and timers wired to the handlers of the
    program runs them one after the other.  [program_runs]: whatever arrives from the
    MSC, from the SIP side and from the timers, main() followed by any number of
    turns of its loop goes through stores that [may_step] reaches, and a fault
    of it is one of those that [type_safety] leaves. *)
From S2P Require Import Prelude Effect Evpoll Codec Protocol Lib State Rules System Typing TypeSafety Main.
#[local] Open Scope effect_scope.

Section turn.
Context {E : Env} {HE : EnvLaws E}.

(** ** Definitions *)

(** The callbacks: of the timers, of the socket, of sofia-sip. *)
Definition of_timer (e : event) : Prop := match e with EvReconnect | EvCmdTimeout _ => True | _ => False end.
Definition of_socket (e : event) : Prop := match e with EvMncc _ => True | _ => False end.
Definition of_sofia (e : event) : Prop := match e with EvNua _ _ _ _ => True | _ => False end.

(** Callbacks of one kind, one after the other, each registered when its turn comes. *)
Fixpoint callable (P : event -> Prop) (es : list event) (w : world) : Prop :=
  match es with
  | [] => True
  | e :: es' => P e /\ enabled w e /\ forall w', handle_event e w = Ret tt w' -> callable P es' w'
  end.
Definition calls_back (P : event -> Prop) (m : MW unit) : Prop := forall w, exists es, callable P es w /\ m w = run es w.

(** libosmocore's event loop, as its documentation has it: [osmo_timers_update] calls
    back the timers that are armed, [osmo_fd_disp_fds] the descriptor that is
    registered, with whatever read returns; reading the clock and waiting leave the
    store of the program alone. *)
Class LoopLaws (O : Osmo world) : Prop := {
  loop_check : forall w, osmo_timers_check w = Ret tt w;
  loop_prepare : forall w, osmo_timers_prepare w = Ret tt w;
  loop_select : forall n sets tv w, exists r, select n sets tv w = Ret r w;
  loop_timers : calls_back of_timer osmo_timers_update;
  loop_fds : forall sets, calls_back of_socket (osmo_fd_disp_fds sets) }.

(** glib, which dispatches the sources of the descriptors that [evpoll] reports: the
    only source of the program is that of sofia-sip, which calls back [nua_callback]. *)
Class Glib := { g_dispatch : list pollfd -> MW unit }.
Class GlibLaws (G : Glib) : Prop := { glib_dispatch : forall fds, calls_back of_sofia (g_dispatch fds) }.

(** [g_main_loop_run]: glib calls its poll function, with the descriptors and the
    timeout of its own sources, and dispatches the sources that are ready; again
    and again. *)
Fixpoint g_main_loop {O : Osmo world} {G : Glib} (polls : list (list pollfd * Z)) : MW unit :=
  match polls with
  | [] => ret tt
  | (fds, timeout) :: polls' => r <- evpoll fds timeout ;; g_dispatch (snd r) ;; g_main_loop polls'
  end.

(** From [w], the store stays typed and is reached by events, or one of the faults
    that are left occurs. *)
Definition goes {A} (w : world) (r : outcome world A) : Prop :=
  match r with
  | Ret _ w' => typed w' /\ rtc may_step w w'
  | Crash f _ => f = NullDeref \/ f = NullCall \/ f = UseAfterFree
                 \/ f = AssertFail /\ exists w1 e, rtc may_step w w1 /\ asserts w1 e
  end.

(** ** Lemmas *)

Lemma goes_ret {A} (a : A) w : typed w -> goes w (Ret a w).
Proof using. by split. Qed.
Lemma goes_after {A} w w1 (r : outcome world A) : rtc may_step w w1 -> goes w1 r -> goes w r.
Proof using.
  intros Hs. destruct r as [a w2|f w2]; simpl; [by intros [? ?]; split; [|etransitivity]|].
  intros [|[|[|(? & w3 & e & ? & ?)]]]; [by auto..|]. do 3 right. split; [done|]. exists w3, e.
  split; [by etransitivity|done].
Qed.
Lemma goes_bind {A B} (m : MW A) (k : A -> MW B) w : goes w (m w) ->
  (forall a w1, typed w1 -> goes w1 (k a w1)) -> goes w (bind m k w).
Proof using.
  unfold bind. destruct (m w) as [a w1|]; [|done]. intros [Hw1 Hs] Hk. eapply goes_after; [exact Hs|by apply Hk].
Qed.

Lemma event_goes w e : typed w -> enabled w e -> goes w (handle_event e w).
Proof using HE.
  intros Hw Hen. pose proof (handle_event_typed 1 w e Hw Hen ltac:(lia)) as H.
  destruct (handle_event e w) as [[] w'|f w'] eqn:Heq.
  - destruct H as [Hw' _]. split; [done|]. apply rtc_once. by exists e.
  - destruct H as [H|[-> Ha]]; [destruct f; simpl in *; auto; done|]. do 3 right. split; [done|].
    exists w, e. split; [apply rtc_refl|done].
Qed.

Lemma callbacks_go P m w : calls_back P m -> typed w -> goes w (m w).
Proof using HE.
  intros Hm Hw. destruct (Hm w) as (es & Hes & ->). clear Hm. revert w Hw Hes.
  induction es as [|e es IH]; intros w Hw Hes; [by apply goes_ret|]. destruct Hes as (_ & Hen & Hes).
  pose proof (event_goes w e Hw Hen) as Hg. unfold run in *. simpl foldr. unfold bind.
  destruct (handle_event e w) as [[] w1|]; [|done]. destruct Hg as [Hw1 Hs].
  eapply goes_after; [exact Hs|]. by apply IH, Hes.
Qed.

(** A turn of the poll function. *)
Lemma poll_turn {O : Osmo world} {HO : LoopLaws O} fds timeout w :
  typed w -> Forall (fun p => pf_fd p < FD_SETSIZE) fds -> goes w (evpoll fds timeout w).
Proof using HE.
  intros Hw Hfds. unfold evpoll.
  destruct (add_fds_eq fds (fst (osmo_fd_fill_fds w)) (snd (osmo_fd_fill_fds w)) w Hfds) as (sets & maxfd & Hadd & _).
  rewrite (bind_returns _ _ w _ w (eq_refl : gets osmo_fd_fill_fds w = Ret _ w)), (bind_returns _ _ _ _ _ Hadd).
  rewrite (bind_returns _ _ _ _ _ (loop_check w)), (bind_returns _ _ _ _ _ (loop_prepare w)).
  rewrite (bind_returns _ _ w _ w (eq_refl : gets osmo_timers_nearest w = Ret _ w)).
  destruct (loop_select (snd (sets, maxfd) + 1) (fst (sets, maxfd)) (evpoll_wait timeout (osmo_timers_nearest w)) w)
    as [r Hr].
  rewrite (bind_returns _ _ _ _ _ Hr). destruct (fst r <? 0); [by apply goes_ret|].
  apply goes_bind; [by eapply callbacks_go, Hw; apply loop_timers|]. intros _ w1 Hw1.
  apply goes_bind; [by eapply callbacks_go, Hw1; apply loop_fds|]. intros _ w2 Hw2.
  rewrite (bind_returns _ _ _ _ _ (report_fds_eq (snd r) fds w2 Hfds)). by apply goes_ret.
Qed.

Lemma loop_turns {O : Osmo world} {HO : LoopLaws O} {G : Glib} {HG : GlibLaws G} polls : forall w, typed w ->
  Forall (fun turn => Forall (fun p => pf_fd p < FD_SETSIZE) (fst turn)) polls -> goes w (g_main_loop polls w).
Proof using HE.
  induction polls as [|[fds timeout] polls IH]; intros w Hw Hf; [by apply goes_ret|].
  apply Forall_cons in Hf as [Hfds Hf]. simpl. apply goes_bind; [by apply poll_turn|]. intros r w1 Hw1.
  apply goes_bind; [by eapply callbacks_go, Hw1; apply glib_dispatch|]. intros _ w2 Hw2. by apply IH.
Qed.

(** The whole program, from the command line on. *)
Lemma program_runs {S : Startup} {O : Osmo world} {HO : LoopLaws O} {G : Glib} {HG : GlibLaws G} argv rc p polls :
  main argv started = Go rc p ->
  Forall (fun turn => Forall (fun p => pf_fd p < FD_SETSIZE) (fst turn)) polls ->
  rc = 0 /\ goes (p_world p) (g_main_loop polls (p_world p)).
Proof using HE.
  intros Hm Hf. apply main_go in Hm as (-> & g & Hg). split; [done|]. apply loop_turns; [|done].
  rewrite Hg. apply booted_typed.
Qed.
End turn.
