(* ===== verification/Scenario.v ===== *)
(** * Complete calls in the concrete environment

    A checker for executions ([run_checked]) and two calls from start to end,
    evaluated in [demo_env]: one from a phone to the SIP side, one from the SIP
    side to a phone.  The stores of the two calls while they are bridged are the
    concrete inputs of Instances.v. *)
From S2P Require Import Prelude Effect Codec Protocol Lib State Skel Rules Call Sdp SipLeg MnccConn App MnccRx SipUa Bridge Demo System.

(** ** Definitions *)
Section check.
Context {E : Env}.

Definition callref_of (w : world) (l : ptr) : option Z :=
  match legs w !! l with
  | Some (Leg _ (XMncc m)) => Some (m_callref m)
  | _ => None
  end.

(** The decidable form of [no_remote_for]. *)
Definition unrouted (w : world) (cr : Z) : bool :=
  forallb (fun kv => match initial (snd kv), remote (snd kv) with
                     | Some l, Some _ => bool_decide (callref_of w l <> Some cr)
                     | _, _ => true
                     end) (map_to_list (calls w)).

Definition enabledb (w : world) (e : event) : bool :=
  match e with
  | EvMncc _ => 0 <=? cn_fd (conn w)
  | EvReconnect => bool_decide (cn_reconnect (conn w) <> None)
  | EvCmdTimeout l => bool_decide (l ∈ timers w)
  | EvNua _ _ _ _ => true
  end.

Definition conformsb (w : world) (e : event) : bool :=
  match e with
  | EvMncc (Some buf) =>
      let t := rd32 buf 0 in
      (negb ((t =? MNCC_ALERT_IND) || (t =? MNCC_SETUP_CNF)) || unrouted w (mn_callref (view_gsm_mncc buf)))
      && (negb (t =? MNCC_RTP_CREATE) || unrouted w (rtp_callref (view_rtp buf)))
  | EvNua ev status nh sip =>
      let known := bool_decide (is_Some (nua w !! nh)) in
      let some_sip := bool_decide (is_Some sip) in
      match ev with
      | nua_r_invite => known && (negb ((status =? 180) || (status =? 183) || (status =? 200)) || some_sip)
      | nua_i_ack => some_sip
      | nua_r_bye | nua_r_cancel | nua_i_bye | nua_i_cancel => known
      | nua_i_invite => negb (status =? 100)
          || some_sip && (known || alloc_ok (n_io w) && alloc_ok (S (n_io w)))
      | nua_e_other _ => true
      end
  | _ => true
  end.

(** Handle the events, as long as each may happen; [None] when one may not, or
    when a handler crashes. *)
Fixpoint run_checked (es : list event) (w : world) : option world :=
  match es with
  | [] => Some w
  | e :: es' =>
      if enabledb w e && conformsb w e
      then match handle_event e w with Ret _ w' => run_checked es' w' | Crash _ _ => None end
      else None
  end.
End check.

(** The messages the MSC sends, as bytes. *)
Definition mncc_event {E : Env} (m : gsm_mncc) : event := EvMncc (Some (demo_bytes m)).
Definition plain_msg (t cr : Z) : gsm_mncc := set_mn_header t cr gsm_mncc0.
Definition hello_event : event :=
  EvMncc (Some (hello_bytes (Hello MNCC_SOCKET_HELLO MNCC_SOCK_VERSION 0 0 0 0 0 0))).
Definition demo_addr : sockaddr :=
  Sockaddr AF_INET 4100 [10; 0; 0; 9] (replicate 16 0) (replicate 104 0).
Definition rtp_msg (t cr : Z) (sdp : string) : gsm_mncc_rtp := Rtp t cr demo_addr 3 GSM_TCHF_FRAME sdp.
Definition rtp_event (t cr : Z) : event := EvMncc (Some (rtp_bytes (rtp_msg t cr EmptyString))).
Definition sip_msg : sip_t := Sip (Some "v=0"%string) (Some "49301"%string) (Some "+4930"%string) [].

Section demo.
#[local] Existing Instance demo_env.

(** The SETUP of a phone that dials 301. *)
Definition setup_msg (cr : Z) : gsm_mncc :=
  Mncc MNCC_SETUP_IND cr (Z.lor MNCC_F_CALLED MNCC_F_CALLING) (Number 1 1 "301") (Number 0 1 "100")
       (Cause 0 0 0) (Progress 0 0 0) 0 0 "262420000000001" (replicate 16 0) EmptyString.

(** Connect and handshake. *)
Definition start_events : list event := [EvReconnect; hello_event].

(** A phone calls, the peer rings and answers; the SIP handle is 1. *)
Definition mo_events : list event :=
  [mncc_event (setup_msg 77); rtp_event MNCC_RTP_CREATE 77;
   EvNua nua_r_invite 180 1%positive (Some sip_msg); EvNua nua_r_invite 200 1%positive (Some sip_msg);
   mncc_event (plain_msg MNCC_SETUP_COMPL_IND 77)].
(** The peer hangs up and the MSC confirms. *)
Definition mo_end_events : list event :=
  [EvNua nua_i_bye 0 1%positive None; mncc_event (plain_msg MNCC_REL_IND 77)].

(** The SIP side calls a phone (our callref is 5001); it rings and answers. *)
Definition mt_events : list event :=
  [EvNua nua_i_invite 100 5%positive (Some sip_msg);
   mncc_event (plain_msg MNCC_CALL_CONF_IND 5001); rtp_event MNCC_RTP_CREATE 5001].
Definition mt_answer_events : list event :=
  [mncc_event (plain_msg MNCC_ALERT_IND 5001); mncc_event (plain_msg MNCC_SETUP_CNF 5001)].
(** The phone hangs up: the MSC disconnects, the peer answers our BYE. *)
Definition mt_end_events : list event :=
  [mncc_event (plain_msg MNCC_DISC_IND 5001); mncc_event (plain_msg MNCC_REL_CNF 5001);
   EvNua nua_r_bye 200 5%positive None].

Definition world_after (es : list event) : world := default (booted initial_config) (run_checked es (booted initial_config)).

(** The bridged calls: answered from the SIP side, and answered by the phone. *)
Definition mo_talk : world := Eval vm_compute in world_after (start_events ++ mo_events).
Definition mt_talk : world := Eval vm_compute in world_after (start_events ++ mt_events ++ mt_answer_events).
End demo.

(** ** The checker is sound *)
Section sound.
Context {E : Env}.

Lemma callref_of_has w l cr : has_callref (sk w) cr l -> callref_of w l = Some cr.
Proof using.
  intros (sh & d & Hl & He). apply sk_leg_inv in Hl as ([b [m|x]] & Hl & <-); simpl in He; [|done].
  injection He as _ He. unfold callref_of. rewrite Hl. by f_equal.
Qed.

Lemma unrouted_sound w cr : unrouted w cr = true -> no_remote_for (sk w) cr.
Proof using.
  intros H c l r Hc Hcr. simpl in Hc. apply fmap_lookup_inv in Hc as (x & Hx & [= Hi Hr]).
  unfold unrouted in H. rewrite forallb_forall in H.
  specialize (H (c, x)). simpl in H. rewrite <- Hi, <- Hr in H.
  assert (In (c, x) (map_to_list (calls w))) as Hin by (apply list_elem_of_In, elem_of_map_to_list, Hx).
  specialize (H Hin). apply bool_decide_eq_true in H. by apply H, callref_of_has.
Qed.

Lemma enabledb_sound w e : enabledb w e = true -> enabled w e.
Proof using.
  destruct e; simpl; try done; [by intros ?%Z.leb_le| |]; by intros ?%bool_decide_eq_true.
Qed.

Lemma conformsb_sound w e : conformsb w e = true -> conforms w e.
Proof using.
  destruct e as [[buf|]| | |ev status nh sip]; simpl; try done.
  - intros [H1 H2]%andb_true_iff. split.
    + intros Ht. apply unrouted_sound. rewrite orb_true_iff, negb_true_iff, orb_false_iff, !Z.eqb_neq in H1. naive_solver.
    + intros Ht. apply unrouted_sound. rewrite orb_true_iff, negb_true_iff, Z.eqb_neq in H2. naive_solver.
  - destruct ev; simpl; try done;
      repeat rewrite ?orb_true_iff, ?andb_true_iff, ?negb_true_iff, ?orb_false_iff, ?Z.eqb_neq, ?bool_decide_eq_true.
    all: try tauto.
    intros [?|[Hs [Hk|Ha]]] Heq; [done| |]; (split; [done|]); [|tauto].
    intros Hn. rewrite Hn in Hk. by apply is_Some_None in Hk.
Qed.

Lemma run_checked_sound es w w' : run_checked es w = Some w' -> rtc step w w'.
Proof using.
  revert w. induction es as [|e es IH]; intros w; simpl; [by intros [= ->]|].
  destruct (enabledb w e && conformsb w e) eqn:Hb; [|done]. apply andb_true_iff in Hb as [Hen Hco].
  destruct (handle_event e w) as [[] w1|] eqn:Heq; [|done]. intros H.
  eapply rtc_l; [|by apply IH]. econstructor; eauto using enabledb_sound, conformsb_sound.
Qed.
End sound.

Section worlds.
#[local] Existing Instance demo_env.

Lemma mo_talk_run : run_checked (start_events ++ mo_events) (booted initial_config) = Some mo_talk.
Proof. vm_compute. reflexivity. Qed.
Lemma mt_talk_run : run_checked (start_events ++ mt_events ++ mt_answer_events) (booted initial_config) = Some mt_talk.
Proof. vm_compute. reflexivity. Qed.

Lemma checked_wf es w : run_checked es (booted initial_config) = Some w -> wf w.
Proof. intros H. exact (proj1 (steps_wf _ _ (booted_wf initial_config) (run_checked_sound _ _ _ H))). Qed.
End worlds.

(** Two calls from start to end, one to the SIP side and one from it: each is a run of
    the program from start-up, the messages are the expected ones, and nothing of
    the call is left in the store. *)
Lemma complete_calls :
  (exists w, rtc (@step demo_env) (booted initial_config) w /\
     calls w = ∅ /\ legs w = ∅ /\ g_call_list w = [] /\ timers w = ∅ /\ nua w = ∅ /\
     map short (out w) =
       [ToMscRtp MNCC_RTP_CREATE; ToMsc MNCC_CALL_PROC_REQ; Invite;
        ToMsc MNCC_ALERT_REQ; ToMscRtp MNCC_RTP_CONNECT;
        ToMscRtp MNCC_RTP_CONNECT; ToMsc MNCC_SETUP_RSP; Ack;
        Destroy; ToMsc MNCC_DISC_REQ]) /\
  (exists w, rtc (@step demo_env) (booted initial_config) w /\
     calls w = ∅ /\ legs w = ∅ /\ g_call_list w = [] /\ timers w = ∅ /\ nua w = ∅ /\
     map short (out w) =
       [ToMsc MNCC_SETUP_REQ; ToMscRtp MNCC_RTP_CREATE; Respond 180;
        ToMscRtp MNCC_RTP_CONNECT; ToMsc MNCC_SETUP_COMPL_REQ; Respond 200;
        ToMsc MNCC_REL_REQ; Bye; Destroy]).
Proof.
  split.
  - eexists. split; [apply (run_checked_sound (start_events ++ mo_events ++ mo_end_events)); vm_compute; reflexivity|].
    vm_compute. done.
  - eexists. split; [apply (run_checked_sound (start_events ++ mt_events ++ mt_answer_events ++ mt_end_events)); vm_compute; reflexivity|].
    vm_compute. done.
Qed.
