(* ===== verification/Instances.v ===== *)
(** * The theorems at concrete inputs

    Each theorem with hypotheses is applied in [demo_env]: to the stores of the
    two calls of Scenario.v, where the hypotheses are evaluated. *)
From S2P Require Import Prelude Effect Evpoll Codec Protocol Lib State Skel Rules Call Sdp SipLeg MnccConn App MnccRx SipUa CallFlow Replies SipCall Stranded Unroll Bridge Local Relay Faults Vty Demo System Refine Apart Together Opening Scenario.

(** ** Definitions *)

(** What a pointer points to; used where it points to a leg of the kind. *)
Definition base_at (w : world) (l : ptr) : call_leg :=
  match legs w !! l with Some y => base y | None => call_leg_new CALL_TYPE_NONE 1 end.
Definition mncc_at (w : world) (l : ptr) : mncc_leg :=
  match legs w !! l with Some (Leg _ (XMncc m)) => m | _ => mncc_leg0 end.
Definition sip_at (w : world) (l : ptr) : sip_leg :=
  match legs w !! l with Some (Leg _ (XSip x)) => x | _ => sip_leg0 end.

(** The decidable form of [callref_unique]. *)
Definition unique_b (w : world) (l : ptr) (cr : Z) : bool :=
  forallb (fun kv => match ext (snd kv) with
                     | XMncc m => negb (m_callref m =? cr) || bool_decide (fst kv = l)
                     | XSip _ => true
                     end) (map_to_list (legs w)).

Lemma unique_b_sound w l cr : unique_b w l cr = true -> callref_unique w l cr.
Proof.
  intros H l' b m Hl Hcr. unfold unique_b in H. rewrite forallb_forall in H.
  assert (In (l', Leg b (XMncc m)) (map_to_list (legs w))) as Hin by (apply list_elem_of_In, elem_of_map_to_list, Hl).
  specialize (H _ Hin). simpl in H. apply orb_true_iff in H as [H|H].
  - apply negb_true_iff, Z.eqb_neq in H. done.
  - by apply bool_decide_eq_true in H.
Qed.

Section instances.
#[local] Existing Instance demo_env.

(** The stores, with the events that lead to them. *)
Definition idle : world := Eval vm_compute in world_after start_events.
Definition mo_setup : world := Eval vm_compute in world_after (start_events ++ [mncc_event (setup_msg 77)]).
Definition mo_calling : world :=
  Eval vm_compute in world_after (start_events ++ [mncc_event (setup_msg 77); rtp_event MNCC_RTP_CREATE 77]).
Definition mt_setup : world := Eval vm_compute in world_after (start_events ++ mt_events).

Definition mo_ringing : world :=
  Eval vm_compute in world_after (start_events ++ [mncc_event (setup_msg 77); rtp_event MNCC_RTP_CREATE 77;
                                                   EvNua nua_r_invite 180 1%positive (Some sip_msg)]).

Lemma idle_wf : wf idle.
Proof. apply (checked_wf start_events). by vm_compute. Qed.
Lemma mo_setup_wf : wf mo_setup.
Proof. apply (checked_wf (start_events ++ [mncc_event (setup_msg 77)])). by vm_compute. Qed.
Lemma mo_calling_wf : wf mo_calling.
Proof. apply (checked_wf (start_events ++ [mncc_event (setup_msg 77); rtp_event MNCC_RTP_CREATE 77])). by vm_compute. Qed.
Lemma mt_setup_wf : wf mt_setup.
Proof. apply (checked_wf (start_events ++ mt_events)). by vm_compute. Qed.
Lemma mo_talk_wf : wf mo_talk.
Proof. apply (checked_wf _ _ mo_talk_run). Qed.
Lemma mt_talk_wf : wf mt_talk.
Proof. apply (checked_wf _ _ mt_talk_run). Qed.

Lemma mo_ringing_wf : wf mo_ringing.
Proof.
  apply (checked_wf (start_events ++ [mncc_event (setup_msg 77); rtp_event MNCC_RTP_CREATE 77;
                                      EvNua nua_r_invite 180 1%positive (Some sip_msg)])). by vm_compute.
Qed.

(** In the store a call is bridged. *)
Definition bridged_b (w : world) (cr : Z) (lm ls : ptr) : bool :=
  (0 <=? cn_fd (conn w)) && negb (bool_decide (lm = ls)) &&
  match legs w !! lm, legs w !! ls with
  | Some (Leg bm (XMncc m)), Some (Leg _ (XSip _)) =>
      (m_callref m =? cr) && unique_b w lm cr &&
      match calls w !! lg_call bm with
      | Some cl => bool_decide (initial cl = Some lm /\ remote cl = Some ls)
                   || bool_decide (initial cl = Some ls /\ remote cl = Some lm)
      | None => false
      end
  | _, _ => false
  end.

Lemma bridged_b_sound w cr lm ls : wf w -> bridged_b w cr lm ls = true ->
  mncc_sip_call w cr lm ls (base_at w lm) (mncc_at w lm) (base_at w ls) (sip_at w ls).
Proof.
  intros Hw H. unfold bridged_b, base_at, mncc_at, sip_at in *.
  apply andb_true_iff in H as [[Hfd Hne]%andb_true_iff H].
  apply negb_true_iff, bool_decide_eq_false in Hne. apply Z.leb_le in Hfd.
  destruct (legs w !! lm) as [[bm [m|]]|] eqn:Hlm; try done.
  destruct (legs w !! ls) as [[bs [|x]]|] eqn:Hls; try done. simpl.
  apply andb_true_iff in H as [[Hcr%Z.eqb_eq Hu%unique_b_sound]%andb_true_iff H].
  destruct (calls w !! lg_call bm) as [cl|] eqn:Hc; [|done].
  split; try done. split; [done|]. exists (Leg bm (XMncc m)), cl. split_and!; [done|done|].
  apply orb_true_iff in H as [H|H]; apply bool_decide_eq_true in H; auto.
Qed.

Lemma mo_talk_bridged : mncc_sip_call mo_talk 77 2 3
  (base_at mo_talk 2) (mncc_at mo_talk 2) (base_at mo_talk 3) (sip_at mo_talk 3).
Proof. apply bridged_b_sound; [apply mo_talk_wf|by vm_compute]. Qed.
Lemma mo_calling_bridged : mncc_sip_call mo_calling 77 2 3
  (base_at mo_calling 2) (mncc_at mo_calling 2) (base_at mo_calling 3) (sip_at mo_calling 3).
Proof. apply bridged_b_sound; [apply mo_calling_wf|by vm_compute]. Qed.
Lemma mt_setup_bridged : mncc_sip_call mt_setup 5001 3 2
  (base_at mt_setup 3) (mncc_at mt_setup 3) (base_at mt_setup 2) (sip_at mt_setup 2).
Proof. apply bridged_b_sound; [apply mt_setup_wf|by vm_compute]. Qed.
Lemma mt_talk_bridged : mncc_sip_call mt_talk 5001 3 2
  (base_at mt_talk 3) (mncc_at mt_talk 3) (base_at mt_talk 2) (sip_at mt_talk 2).
Proof. apply bridged_b_sound; [apply mt_talk_wf|by vm_compute]. Qed.

Lemma mo_ringing_bridged : mncc_sip_call mo_ringing 77 2 3
  (base_at mo_ringing 2) (mncc_at mo_ringing 2) (base_at mo_ringing 3) (sip_at mo_ringing 3).
Proof. apply bridged_b_sound; [apply mo_ringing_wf|by vm_compute]. Qed.

(** The messages name the calls. *)
Lemma msg_callref t : mn_callref (view_gsm_mncc (demo_bytes (plain_msg t 77))) = 77 /\
  mn_callref (view_gsm_mncc (demo_bytes (plain_msg t 5001))) = 5001.
Proof. split; vm_compute; reflexivity. Qed.
Lemma mo_talk_msg t : mncc_sip_call mo_talk (mn_callref (view_gsm_mncc (demo_bytes (plain_msg t 77)))) 2 3
  (base_at mo_talk 2) (mncc_at mo_talk 2) (base_at mo_talk 3) (sip_at mo_talk 3).
Proof. rewrite (proj1 (msg_callref t)). apply mo_talk_bridged. Qed.
Lemma mt_setup_msg t : mncc_sip_call mt_setup (mn_callref (view_gsm_mncc (demo_bytes (plain_msg t 5001)))) 3 2
  (base_at mt_setup 3) (mncc_at mt_setup 3) (base_at mt_setup 2) (sip_at mt_setup 2).
Proof. rewrite (proj2 (msg_callref t)). apply mt_setup_bridged. Qed.

Lemma demo_resources : resources.
Proof. split; done. Qed.
(** ** The instances *)

(** An event adds these messages to the trace. *)
Definition adds (m : MW unit) (w : world) (o : list sent) : Prop :=
  exists w', m w = Ret tt w' /\ map short (out w') = map short (out w) ++ o.

Lemma adds_intro m w w' a o : m w = Ret tt w' -> out w' = out w ++ a -> map short a = o -> adds m w o.
Proof. intros Hr Ho <-. exists w'. split; [done|]. by rewrite Ho, map_app. Qed.

Lemma event_safe_witness : exists w', handle_event (EvNua nua_i_bye 0 1%positive None) mo_talk = Ret tt w' /\
  wf w' /\ evolves (sk mo_talk) (sk w').
Proof.
  apply (event_safe mo_talk (EvNua nua_i_bye 0 1%positive None)); [apply mo_talk_wf|exact I|].
  apply conformsb_sound. by vm_compute.
Defined.

Lemma booted_run : boot (zeroed initial_config) = Ret tt (booted initial_config).
Proof. reflexivity. Qed.
Lemma mo_talk_steps : rtc step (booted initial_config) mo_talk.
Proof. apply (run_checked_sound _ _ _ mo_talk_run). Qed.

Lemma no_dangling_witness : exists b x, legs mo_talk !! 3%positive = Some (Leg b (XSip x)) /\ s_handle x = Some 1%positive.
Proof.
  destruct (no_dangling initial_config (booted initial_config) mo_talk booted_run mo_talk_steps) as (_ & Hn & _).
  apply (Hn 1%positive 3%positive). reflexivity.
Defined.

Lemma disconnect_clears_witness : exists w', mncc_data None mo_talk = Ret tt w' /\ timers w' = ∅.
Proof.
  destruct (disconnect_clears mo_talk mo_talk_wf) as (w' & Hr & Ht & _); [by vm_compute|]. exists w'. auto.
Defined.

Lemma cause_roundtrip_witness : status2cause (fst (cause2status (status2cause 486))) = status2cause 486.
Proof. apply (cause_roundtrip 486). vm_compute. tauto. Defined.

Lemma sip_release_call_spec_witness : adds (sip_release_call 3) mo_talk [Bye].
Proof.
  destruct (sip_release_call_spec mo_talk 3 (base_at mo_talk 3) (sip_at mo_talk 3) mo_talk_wf eq_refl) as (w' & Hr & Ho & _).
  eapply adds_intro; [exact Hr|exact Ho|reflexivity].
Defined.

Lemma sdp_extract_spec_witness : exists b', sdp_extract_sdp 3 sip_msg true mo_talk
  = Ret true (set_legs (<[3%positive := Leg b' (XSip (sip_at mo_talk 3))]>) mo_talk).
Proof.
  destruct (sdp_extract_spec mo_talk 3 (base_at mo_talk 3) (sip_at mo_talk 3) sip_msg true eq_refl) as (b' & Hr & _).
  exists b'. exact Hr.
Defined.

Lemma check_setup_opens_witness :
  adds (check_setup (demo_bytes (setup_msg 77)) sizeof_gsm_mncc) idle [ToMscRtp MNCC_RTP_CREATE] /\
  adds (check_setup (demo_bytes (plain_msg MNCC_SETUP_IND 77)) sizeof_gsm_mncc) idle [ToMsc MNCC_REJ_REQ].
Proof.
  split.
  - pose proof (check_setup_opens (demo_bytes (setup_msg 77)) sizeof_gsm_mncc idle idle_wf) as H. cbv zeta in H.
    destruct (setup_refused _) eqn:Hd in H; [by vm_compute in Hd|].
    destruct H as (c & l & w' & Hr & _ & _ & _ & _ & _ & _ & Ho); [by vm_compute..|].
    eapply adds_intro; [exact Hr|exact Ho|reflexivity].
  - pose proof (check_setup_opens (demo_bytes (plain_msg MNCC_SETUP_IND 77)) sizeof_gsm_mncc idle idle_wf) as H. cbv zeta in H.
    destruct (setup_refused _) eqn:Hd in H; [|by vm_compute in Hd].
    eapply adds_intro; [apply H; by vm_compute|reflexivity|reflexivity].
Defined.

Lemma check_rtp_create_spec_witness :
  adds (check_rtp_create (rtp_bytes (rtp_msg MNCC_RTP_CREATE 77 EmptyString)) sizeof_rtp) mo_setup [ToMsc MNCC_CALL_PROC_REQ; Invite].
Proof.
  destruct (check_rtp_create_spec (rtp_bytes (rtp_msg MNCC_RTP_CREATE 77 EmptyString)) mo_setup 2 1 (base_at mo_setup 2) (mncc_at mo_setup 2)
    (Call 5001 (Some 2%positive) None None None [] false) mo_setup_wf) as (h & x & w' & Hr & Ho & _);
    [by vm_compute|apply demo_resources|try reflexivity..|].
  - apply unique_b_sound. by vm_compute.
  - by eapply adds_intro.
Defined.

(** The MSC has no media for the answered call: both legs are released. *)
Lemma check_rtp_connect_spec_witness : let r := Rtp MNCC_RTP_CONNECT 77 (Sockaddr 0 0 [] [] []) 0 0 EmptyString in
  adds (check_rtp_connect (rtp_bytes r ++ replicate 200 0) (Z.of_nat (length (rtp_bytes r ++ replicate 200 0)))) mo_talk [Bye; ToMsc MNCC_DISC_REQ].
Proof.
  intros r.
  destruct (check_rtp_connect_spec (rtp_bytes r ++ replicate 200 0) mo_talk 2 3 (base_at mo_talk 2) (mncc_at mo_talk 2)
    (base_at mo_talk 3) (sip_at mo_talk 3)) as (w' & Hr & Ho).
  - assert (rtp_callref (view_rtp (rtp_bytes r ++ replicate 200 0)) = 77) as -> by by vm_compute. apply mo_talk_bridged.
  - done.
  - by vm_compute.
  - assert (no_media (view_rtp (rtp_bytes r ++ replicate 200 0)) = true) as Hn by by vm_compute.
    rewrite Hn in Ho. change (in_release (base_at mo_talk 2)) with false in Ho. cbv iota in Ho.
    eapply adds_intro; [exact Hr|exact Ho|by vm_compute].
Defined.

(** The phone hangs up while it rings, and the 200 crosses the CANCEL. *)
Lemma crossed_answer_stranded_witness :
  adds (check_disc_ind (demo_bytes (plain_msg MNCC_DISC_IND 77)) sizeof_gsm_mncc ;; nua_callback nua_r_invite 200 1 (Some sip_msg) ;;
        check_rel_cnf (demo_bytes (plain_msg MNCC_REL_CNF 77)) sizeof_gsm_mncc) mo_ringing
    [ToMsc MNCC_REL_REQ; Cancel; ToMscRtp MNCC_RTP_CONNECT; ToMsc MNCC_SETUP_RSP; Ack].
Proof.
  destruct (crossed_answer_stranded (demo_bytes (plain_msg MNCC_DISC_IND 77)) (demo_bytes (plain_msg MNCC_REL_CNF 77)) mo_ringing 2 3
    (base_at mo_ringing 2) (mncc_at mo_ringing 2) (base_at mo_ringing 3) (sip_at mo_ringing 3) 1 sip_msg (AF_INET, [10; 0; 0; 2]) 4000 3)
    as (w' & cl & Hr & Ho & _).
  - rewrite (proj1 (msg_callref _)). apply mo_ringing_bridged.
  - by rewrite !(proj1 (msg_callref _)).
  - reflexivity.
  - reflexivity.
  - reflexivity.
  - reflexivity.
  - eapply adds_intro; [exact Hr|exact Ho|by vm_compute].
Defined.

(** The phone declines with the cause of normal clearing. *)
Lemma cleared_is_answered_200_witness :
  adds (check_disc_ind (demo_bytes (set_mn_cause (Cause 0 0 16) (plain_msg MNCC_DISC_IND 5001))) sizeof_gsm_mncc) mt_setup
    [ToMsc MNCC_REL_REQ; Respond 200; Destroy].
Proof.
  destruct (cleared_is_answered_200 (demo_bytes (set_mn_cause (Cause 0 0 16) (plain_msg MNCC_DISC_IND 5001))) mt_setup 3 2
    (base_at mt_setup 3) (mncc_at mt_setup 3) (base_at mt_setup 2) (sip_at mt_setup 2)) as (w' & reason & Hr & Ho & _).
  - assert (mn_callref (@view_gsm_mncc (@mncc_lib demo_env) (demo_bytes (set_mn_cause (Cause 0 0 16) (plain_msg MNCC_DISC_IND 5001)))) = 5001) as ->
      by by vm_compute.
    apply mt_setup_bridged.
  - reflexivity.
  - reflexivity.
  - by vm_compute.
  - eapply adds_intro; [exact Hr|exact Ho|by vm_compute].
Defined.

(** The decidable form of [number_unique]. *)
Definition number_b (w : world) (c : ptr) (cr : Z) : bool :=
  forallb (fun kv => bool_decide (fst kv = c) || negb (call_id (snd kv) =? cr)) (map_to_list (calls w)).
Lemma number_b_sound w c cr : number_b w c cr = true -> number_unique w c cr.
Proof.
  intros H c' cl Hc Hne. unfold number_b in H. rewrite forallb_forall in H.
  assert (In (c', cl) (map_to_list (calls w))) as Hin by (apply list_elem_of_In, elem_of_map_to_list, Hc).
  specialize (H _ Hin). simpl in H. rewrite bool_decide_eq_false_2 in H by done. by apply negb_true_iff, Z.eqb_neq in H.
Qed.

(** The calls as the abstract machine sees them. *)
Definition mo_ids : ids := Ids 1 2 3 1 77 true.
Lemma mo_talk_call : has_call mo_ids mo_talk.
Proof. exact (bridged_has_call mo_talk 77 2 3 _ _ _ _ 1 (default call0 (calls mo_talk !! 1%positive)) mo_talk_bridged eq_refl eq_refl eq_refl
  (number_b_sound mo_talk 1 77 eq_refl)). Qed.
Lemma mo_calling_call : has_call mo_ids mo_calling.
Proof. exact (bridged_has_call mo_calling 77 2 3 _ _ _ _ 1 (default call0 (calls mo_calling !! 1%positive)) mo_calling_bridged eq_refl eq_refl eq_refl
  (number_b_sound mo_calling 1 77 eq_refl)). Qed.

(** The peer rings and answers, the phone holds, comes back and dials on, the peer
    offers new media and hangs up, the MSC releases. *)
Definition whole_call : list event :=
  [EvNua nua_r_invite 180 1%positive (Some sip_msg); EvNua nua_r_invite 200 1%positive (Some sip_msg);
   mncc_event (plain_msg MNCC_SETUP_COMPL_IND 77); mncc_event (plain_msg MNCC_HOLD_IND 77);
   mncc_event (plain_msg MNCC_RETRIEVE_IND 77); mncc_event (plain_msg MNCC_START_DTMF_IND 77);
   EvNua nua_i_invite 100 1%positive (Some sip_msg); EvNua nua_i_bye 0 1%positive None;
   mncc_event (plain_msg MNCC_REL_IND 77)].
Lemma whole_labels : labels_of mo_ids mo_calling whole_call =
  Some [SRing true; SAnswer true; MCompl; MHold; MRetrieve; MDtmf; SOffer (Usable false); SHangup; MRel 0].
Proof. vm_compute. reflexivity. Qed.

Lemma runs_as_machine_witness : adds (run whole_call) mo_calling
  [ToMsc MNCC_ALERT_REQ; ToMscRtp MNCC_RTP_CONNECT; ToMscRtp MNCC_RTP_CONNECT; ToMsc MNCC_SETUP_RSP; Ack;
   Invite; ToMsc MNCC_HOLD_CNF; Invite; ToMsc MNCC_RETRIEVE_CNF; ToMscRtp MNCC_RTP_CONNECT;
   Info; ToMsc MNCC_START_DTMF_RSP; Respond 200; Destroy; ToMsc MNCC_DISC_REQ].
Proof.
  pose proof (runs_as_machine mo_ids mo_calling whole_call _ mo_calling_call whole_labels) as H.
  assert (exists a, reacts (abs (local_of mo_ids mo_calling)) [SRing true; SAnswer true; MCompl; MHold; MRetrieve; MDtmf; SOffer (Usable false); SHangup; MRel 0]
    = Some ([ToMsc MNCC_ALERT_REQ; ToMscRtp MNCC_RTP_CONNECT; ToMscRtp MNCC_RTP_CONNECT; ToMsc MNCC_SETUP_RSP; Ack;
             Invite; ToMsc MNCC_HOLD_CNF; Invite; ToMsc MNCC_RETRIEVE_CNF; ToMscRtp MNCC_RTP_CONNECT;
             Info; ToMsc MNCC_START_DTMF_RSP; Respond 200; Destroy; ToMsc MNCC_DISC_REQ], a)) as [a Ha]
    by (eexists; vm_compute; reflexivity).
  rewrite Ha in H. destruct H as (w' & Hr & _ & _ & Ho). exists w'. split; [exact Hr|exact Ho].
Defined.


(** The phone of a call from SIP answers. *)
Lemma check_stp_cnf_spec_witness : adds (check_stp_cnf (demo_bytes (plain_msg MNCC_SETUP_CNF 5001)) sizeof_gsm_mncc) mt_setup
  [ToMscRtp MNCC_RTP_CONNECT; ToMsc MNCC_SETUP_COMPL_REQ; Respond 200].
Proof.
  destruct (check_stp_cnf_spec (demo_bytes (plain_msg MNCC_SETUP_CNF 5001)) mt_setup 3 2 _ _ _ _ (mt_setup_msg MNCC_SETUP_CNF))
    as (w' & Hr & Ho & _); [by vm_compute|].
  eapply adds_intro; [exact Hr|exact Ho|by vm_compute].
Defined.

(** The dialog ends without a BYE of either side. *)
Lemma unclean_event_strands_witness : exists w', handle_event (EvNua nua_r_bye 481 1%positive None) mo_talk = Ret tt w' /\
  ~ all_reached mo_ids mo_talk w'.
Proof.
  exact (unclean_event_strands mo_ids mo_talk (EvNua nua_r_bye 481 1%positive None) SEnded (base_at mo_talk 2) (mncc_at mo_talk 2)
    (base_at mo_talk 3) (sip_at mo_talk 3) mo_talk_call eq_refl eq_refl eq_refl eq_refl).
Defined.

(** Two calls at once: the one from the phone, and one from the SIP side with the
    handle 6 and the callref 5002. *)
Definition two_events : list event :=
  start_events ++ [mncc_event (setup_msg 77); rtp_event MNCC_RTP_CREATE 77; EvNua nua_i_invite 100 6%positive (Some sip_msg)].
Definition two_calls : world := Eval vm_compute in world_after two_events.
Definition mt_ids : ids := Ids 4 6 5 6 5002 false.
Lemma two_calls_wf : wf two_calls.
Proof. apply (checked_wf two_events). by vm_compute. Qed.
Lemma two_calls_mo : has_call mo_ids two_calls.
Proof.
  exact (bridged_has_call two_calls 77 2 3 _ _ _ _ 1 (default call0 (calls two_calls !! 1%positive))
    (bridged_b_sound two_calls 77 2 3 two_calls_wf eq_refl) eq_refl eq_refl eq_refl (number_b_sound two_calls 1 77 eq_refl)).
Qed.
Lemma two_calls_mt : has_call mt_ids two_calls.
Proof.
  exact (bridged_has_call two_calls 5002 6 5 _ _ _ _ 6 (default call0 (calls two_calls !! 4%positive))
    (bridged_b_sound two_calls 5002 6 5 two_calls_wf eq_refl) eq_refl eq_refl eq_refl (number_b_sound two_calls 4 5002 eq_refl)).
Qed.

Lemma unused_sound w n : legs w !! next_ptr w = None -> calls w !! next_ptr w = None ->
  unique_b w (next_ptr w) n = true -> number_b w (next_ptr w) n = true -> number_unused w n.
Proof.
  intros Hl Hc Hu Hn. split.
  - intros l b m Hm Hcr. pose proof (unique_b_sound _ _ _ Hu l b m Hm Hcr) as ->. congruence.
  - intros c cl Hcl. apply (number_b_sound _ _ _ Hn c cl Hcl). congruence.
Qed.

(** Opened: a call from SIP while another one talks, and a call of a phone. *)
Lemma invite_places : places mo_talk (EvNua nua_i_invite 100 6%positive (Some sip_msg)) 5002 from_sip.
Proof.
  apply (PlacesInvite mo_talk 6 sip_msg); try (by vm_compute); [by eexists; vm_compute|by eexists|by eexists|].
  apply unused_sound; by vm_compute.
Qed.
Lemma rtp_create_places : places mo_setup (rtp_event MNCC_RTP_CREATE 77) 77
  (from_msc (MscSide MNCC_CC_INITIAL MNCC_DIR_MO false (Some MNCC_RTP_CREATE))).
Proof.
  apply (PlacesRtpCreate mo_setup (rtp_bytes (rtp_msg MNCC_RTP_CREATE 77 EmptyString)) 2 (base_at mo_setup 2) (mncc_at mo_setup 2)
    (default call0 (calls mo_setup !! 1%positive))); try (by vm_compute); [apply unique_b_sound|apply number_b_sound]; by vm_compute.
Qed.
Lemma placed_call_runs_witness :
  (exists k w', handle_event (EvNua nua_i_invite 100 6%positive (Some sip_msg)) mo_talk = Ret tt w' /\ begun mo_talk w' 5002 from_sip k) /\
  exists k w', handle_event (rtp_event MNCC_RTP_CREATE 77) mo_setup = Ret tt w' /\ has_call k w' /\ id_cr k = 77 /\
    abs (local_of k w') = Sides (Some (MscSide MNCC_CC_PROCEEDING MNCC_DIR_MO false None)) (Some (SipSide SIP_CC_INITIAL SIP_DIR_MT 0)).
Proof.
  split.
  - destruct (placed_call_runs mo_talk (EvNua nua_i_invite 100 6%positive (Some sip_msg)) 5002 from_sip mo_talk_wf eq_refl demo_resources
      (@conformsb_sound demo_env mo_talk (EvNua nua_i_invite 100 6%positive (Some sip_msg)) eq_refl) invite_places)
      as (k & w' & Hr & Hs & _). by exists k, w'.
  - destruct (placed_call_runs mo_setup (rtp_event MNCC_RTP_CREATE 77) 77 _ mo_setup_wf eq_refl demo_resources
      (conformsb_sound mo_setup (rtp_event MNCC_RTP_CREATE 77) eq_refl) rtp_create_places)
      as (k & w' & Hr & (Hn & Hk & Ha & _) & _). by exists k, w'.
Defined.

(** The phone of the other call rings; a stray message; a third call. *)
Lemma foreign_event_frames_witness :
  Forall (fun e => exists w', handle_event e two_calls = Ret tt w' /\ has_call mo_ids w' /\ legs w' !! 2%positive = legs two_calls !! 2%positive)
    [mncc_event (plain_msg MNCC_ALERT_IND 5002); mncc_event (plain_msg MNCC_REL_CNF 99); EvNua nua_i_invite 100 9%positive (Some sip_msg)].
Proof.
  repeat apply Forall_cons_2; [..|apply Forall_nil_2].
  - destruct (foreign_event_frames mo_ids two_calls (mncc_event (plain_msg MNCC_ALERT_IND 5002)) two_calls_mo) as (w' & o & H1 & H2 & H3 & _);
      [by vm_compute|apply conformsb_sound; by vm_compute|]. exists w'. split; [exact H1|]. split; [exact H2|exact H3].
  - destruct (foreign_event_frames mo_ids two_calls (mncc_event (plain_msg MNCC_REL_CNF 99)) two_calls_mo) as (w' & o & H1 & H2 & H3 & _);
      [by vm_compute|apply conformsb_sound; by vm_compute|]. exists w'. split; [exact H1|]. split; [exact H2|exact H3].
  - destruct (foreign_event_frames mo_ids two_calls (EvNua nua_i_invite 100 9%positive (Some sip_msg)) two_calls_mo) as (w' & o & H1 & H2 & H3 & _);
      [by vm_compute|apply conformsb_sound; by vm_compute|]. exists w'. split; [exact H1|]. split; [exact H2|exact H3].
Defined.

(** The decidable form of [mixed_run]. *)
Fixpoint mixed_b (ks : list ids) (w : world) (es : list event) : bool :=
  match es with
  | [] => true
  | e :: es' => conformsb w e && sorted_event ks w e &&
      match handle_event e w with Ret _ w' => mixed_b ks w' es' | Crash _ _ => true end
  end.
Lemma mixed_b_sound ks es : forall w, mixed_b ks w es = true -> mixed_run ks w es.
Proof.
  induction es as [|e es IH]; intros w H; simpl in *; [done|].
  apply andb_true_iff in H as [[Hc Hs]%andb_true_iff H]. split; [by apply conformsb_sound|]. split; [done|].
  destruct (handle_event e w); [by apply IH|done].
Qed.

(** Both calls are answered, a third is opened, the first ends, then the second; the
    events alternate. *)
Definition two_runs : list event :=
  [EvNua nua_r_invite 180 1%positive (Some sip_msg); mncc_event (plain_msg MNCC_ALERT_IND 5002);
   EvNua nua_r_invite 200 1%positive (Some sip_msg); mncc_event (setup_msg 78); mncc_event (plain_msg MNCC_SETUP_CNF 5002);
   mncc_event (plain_msg MNCC_SETUP_COMPL_IND 77); EvNua nua_i_bye 0 1%positive None;
   mncc_event (plain_msg MNCC_DISC_IND 5002); mncc_event (plain_msg MNCC_REL_IND 77);
   mncc_event (plain_msg MNCC_REL_CNF 5002); mncc_event (plain_msg MNCC_REL_CNF 77)].
Lemma calls_run_apart_witness :
  (exists w', run two_runs two_calls = Ret tt w' /\ has_call mo_ids w' /\ has_call mt_ids w') /\
  said_to mo_ids two_calls two_runs = [ToMsc MNCC_ALERT_REQ; ToMscRtp MNCC_RTP_CONNECT; ToMscRtp MNCC_RTP_CONNECT; ToMsc MNCC_SETUP_RSP; Ack;
    Destroy; ToMsc MNCC_DISC_REQ] /\
  said_to mt_ids two_calls two_runs = [Respond 180; ToMscRtp MNCC_RTP_CONNECT; ToMsc MNCC_SETUP_COMPL_REQ; Respond 200;
    ToMsc MNCC_REL_REQ; Bye].
Proof.
  assert (mixed_run [mo_ids; mt_ids] two_calls two_runs) as Hm by (apply mixed_b_sound; by vm_compute).
  destruct (calls_run_apart [mo_ids; mt_ids] two_calls two_runs) as (w' & Hr & Hend).
  - discriminate.
  - intros k [->|[->|[]%elem_of_nil]%elem_of_cons]%elem_of_cons; [exact two_calls_mo|exact two_calls_mt].
  - apply (bool_decide_unpack _). by vm_compute.
  - exact Hm.
  - destruct (Hend mo_ids ltac:(left)) as [H1 E1], (Hend mt_ids ltac:(right; left)) as [H2 E2].
    split; [exists w'; split; [exact Hr|split; [exact H1|exact H2]]|]. split; vm_compute; reflexivity.
Defined.

(** A write with the callback unrolled four times. *)
Lemma unrolling_exact_witness : mncc_send (on_disconnect 4) MNCC_ALERT_REQ 77 ≈ mncc_send disconnected MNCC_ALERT_REQ 77.
Proof.
  destruct (unrolling_exact 3) as (_ & _ & _ & H).
  apply (H Z (fun d => mncc_send d MNCC_ALERT_REQ 77)). intros d1 d2 Hd. by apply mncc_send_proper.
Defined.

Lemma reinvite_spec_witness : adds (sip_handle_reinvite 3 1 sip_msg) mo_talk [Respond 200].
Proof. destruct (reinvite_spec mo_talk 77 2 3 _ _ _ _ 1 sip_msg mo_talk_bridged eq_refl) as (w' & Hr & Ho). eapply adds_intro; [exact Hr|exact Ho|reflexivity]. Defined.

Lemma answered_spec_witness : adds (nua_callback nua_r_invite 200 1 (Some sip_msg)) mo_calling [ToMscRtp MNCC_RTP_CONNECT; ToMsc MNCC_SETUP_RSP; Ack].
Proof. destruct (answered_spec mo_calling 77 2 3 _ _ _ _ 1 sip_msg mo_calling_bridged eq_refl eq_refl) as (w' & Hr & Ho & _). eapply adds_intro; [exact Hr|exact Ho|reflexivity]. Defined.

Lemma find_legs_spec_witness : mncc_find_leg 77 mo_talk = Ret (Some 2%positive) mo_talk /\
  sip_find_leg 1 mo_talk = Ret (Some 3%positive) mo_talk /\ mncc_find_leg 78 mo_talk = Ret None mo_talk.
Proof.
  split_and!.
  - etransitivity; [apply (find_legs_spec mo_talk mo_talk_wf 77 1)|by vm_compute].
  - etransitivity; [apply (find_legs_spec mo_talk mo_talk_wf 77 1)|by vm_compute].
  - etransitivity; [apply (find_legs_spec mo_talk mo_talk_wf 78 1)|by vm_compute].
Defined.

Lemma lost_write_faults_witness :
  faults UseAfterFree (@check_disc_ind (env_failing (n_io mo_talk)) (demo_bytes (plain_msg MNCC_DISC_IND 77)) sizeof_gsm_mncc) mo_talk.
Proof.
  destruct (@lost_write_faults (env_failing (n_io mo_talk)) (demo_bytes (plain_msg MNCC_DISC_IND 77)) mo_talk 2 3 _ _ _ _
    (mo_talk_msg MNCC_DISC_IND)) as [H _]. apply H. by vm_compute.
Defined.

Lemma wrong_direction_faults_witness :
  faults NullCall (check_alrt_ind (demo_bytes (plain_msg MNCC_ALERT_IND 77)) sizeof_gsm_mncc) mo_talk.
Proof.
  destruct (wrong_direction_faults (demo_bytes (plain_msg MNCC_ALERT_IND 77)) mo_talk 2 3 _ _ _ _ (mo_talk_msg MNCC_ALERT_IND) eq_refl)
    as [H _]. exact H.
Defined.

Lemma new_call_refused_late_witness : adds (new_call 6 (Sip (Some "v=0"%string) None None [])) mo_talk [Respond 406; Destroy].
Proof.
  destruct (new_call_refused_late mo_talk 6 (Sip (Some "v=0"%string) None None []) mo_talk_wf demo_resources eq_refl
    (or_intror (or_introl eq_refl))) as (c & l & w' & Hr & Ho & _).
  eapply adds_intro; [exact Hr|exact Ho|reflexivity].
Defined.

Lemma new_call_opens_witness : adds (new_call 6 sip_msg) idle [ToMsc MNCC_SETUP_REQ].
Proof.
  destruct (new_call_opens idle 6 sip_msg None (AF_INET, [10; 0; 0; 2]) 4000 3 "49301" "+4930" idle_wf demo_resources)
    as (c & l & lm & w' & Hr & _ & _ & _ & Ho & _); [by vm_compute|reflexivity..|].
  eapply adds_intro; [exact Hr|exact Ho|reflexivity].
Defined.
Lemma evpoll_spec_witness : exists report,
  evpoll [Pollfd 5 POLLIN 0; Pollfd (-1) POLLIN 9; Pollfd 6 POLLOUT 0] 3000 []
  = Ret (1, map report [Pollfd 5 POLLIN 0; Pollfd (-1) POLLIN 9; Pollfd 6 POLLOUT 0]) [Some (Timeval 2 500000)].
Proof.
  destruct (evpoll_spec [Pollfd 5 POLLIN 0; Pollfd (-1) POLLIN 9; Pollfd 6 POLLOUT 0] 3000 [])
    as (sets & nfds & report & _ & _ & _ & Hrun); [by repeat constructor|done|].
  exists (report (Fdsets (readset sets ∩ {[5]}) ∅ ∅)). exact Hrun.
Defined.

Lemma config_roundtrip_witness :
  exec_sections (config_write str_nl initial_config) (Vty CONFIG_NODE vty_defaults 3) = Ret true (Vty CONFIG_NODE initial_config 2).
Proof. by apply (config_roundtrip str_nl (or_introl eq_refl) initial_config vty_defaults 3). Defined.

Lemma show_safe_iff_witness : exists t, show_calls_sum str_nl mo_talk = Ret t mo_talk.
Proof.
  pose proof (proj2 (show_safe_iff str_nl (fun _ => "0x1"%string) mo_talk mo_talk_wf)) as H.
  destruct (show_calls_sum str_nl mo_talk) as [t w'|f w']; [by destruct H as [-> _]; exists t|]. destruct H as [_ []].
  intros c cl Hc. assert (c = 1%positive) as -> by by apply list_elem_of_singleton in Hc. intros [= <-].
  split; vm_compute; lia.
Defined.
End instances.
