(* ===== verification/Surroundings.v ===== *)
(** * The surroundings at concrete inputs

    A command line, a configuration file, a log and an event loop that compute,
    and the theorems about start-up, the main loop and arbitrary peers applied
    in them. *)
From S2P Require Import Prelude Effect Evpoll Codec Protocol Lib State Skel Rules Call Sdp SipLeg MnccConn App MnccRx SipUa CallFlow Stranded Unroll Bridge Faults Vty Demo System Typing TypeSafety Wire Fits Drain Main Logging MainLoop Scenario Instances.
From Stdlib Require Import Ascii.
#[local] Open Scope effect_scope.

(** ** Definitions *)

(** The short options, and one configuration file: the one the program would
    write; its commands run from the configuration node. *)
Fixpoint demo_getopt (argv : list string) : list (ascii * string) :=
  match argv with
  | [] => []
  | a :: argv' =>
      if String.eqb a "-h" then ("h"%char, EmptyString) :: demo_getopt argv'
      else if String.eqb a "-V" then ("V"%char, EmptyString) :: demo_getopt argv'
      else if String.eqb a "-D" then ("D"%char, EmptyString) :: demo_getopt argv'
      else if String.eqb a "-c" then
        match argv' with
        | f :: argv'' => ("c"%char, f) :: demo_getopt argv''
        | [] => [("?"%char, EmptyString)]
        end
      else demo_getopt argv'
  end.

Definition demo_file : app_config := Config "10.0.0.1" 5061 "10.0.0.2" 5062 5 "/tmp/sock" true.

Definition demo_read_config (file : string) (g : app_config) : Z * app_config :=
  if String.eqb file "sip.cfg" then
    match exec_sections (config_write str_nl demo_file) (Vty CONFIG_NODE g 3) with
    | Ret true v => (0, g_app v)
    | Ret false v | Crash _ v => (-1, g_app v)
    end
  else (-2, g).

#[export] Instance demo_startup : Startup := {|
  getopt_long := fun argv => demo_getopt (tail argv);
  read_config := demo_read_config;
  telnet_rc := 0;
  nua_created := fun _ => true;
  daemonize_rc := 0 |}.

#[export] Instance demo_log : LogLib := {|
  osmo_mncc_name := fun t => if t =? MNCC_SETUP_IND then "MNCC_SETUP_IND" else "?";
  osmo_quote_str := fun s => "'" +:+ s +:+ "'";
  offsetof_sdp := 144;
  sizeof_pointer := 8 |}.

Section loop.
#[local] Existing Instance demo_env.

(** An MSC that is always there: the reconnect timer fires when it is armed, and
    whenever the socket, descriptor 7, is readable a hello arrives. *)
#[export] Instance hello_loop : Osmo world := {|
  osmo_fd_fill_fds := fun w => (Fdsets {[cn_fd (conn w)]} ∅ ∅, cn_fd (conn w));
  osmo_timers_check := ret tt;
  osmo_timers_prepare := ret tt;
  osmo_timers_nearest := fun w => (fun d => Timeval d 0) <$> cn_reconnect (conn w);
  osmo_timers_update := fun w => match cn_reconnect (conn w) with
                                 | Some _ => handle_event EvReconnect w
                                 | None => Ret tt w
                                 end;
  osmo_fd_disp_fds := fun sets w => if bool_decide (7 ∈ readset sets) && (0 <=? cn_fd (conn w))
                                    then handle_event hello_event w else Ret tt w;
  select := fun _ sets _ w => Ret (1, Fdsets {[7]} ∅ ∅) w |}.

Lemma run_one e w : run [e] w = handle_event e w.
Proof. unfold run. simpl foldr. unfold bind. by destruct (handle_event e w) as [[] w'|]. Qed.

#[export] Instance hello_laws : LoopLaws hello_loop.
Proof.
  split; try done.
  - simpl. eauto.
  - intros w. simpl. destruct (cn_reconnect (conn w)) as [d|] eqn:Hr; [|by exists []].
    exists [EvReconnect]. split; [split_and!; [done|by simpl; rewrite Hr|done]|]. by rewrite run_one.
  - intros sets w. simpl. destruct (bool_decide _ && _) eqn:Hb; [|by exists []].
    apply andb_true_iff in Hb as [_ ?%Z.leb_le]. exists [hello_event]. split; [by split_and!|]. by rewrite run_one.
Qed.

(** sofia-sip delivers an INVITE as soon as the MSC is there and no call is up. *)
#[export] Instance invite_glib : Glib := {|
  g_dispatch := fun _ w => if bool_decide (cn_state (conn w) = MNCC_READY /\ g_call_list w = [])
                           then handle_event (EvNua nua_i_invite 100 5 (Some sip_msg)) w else Ret tt w |}.

#[export] Instance invite_laws : GlibLaws invite_glib.
Proof.
  split. intros fds w. simpl. destruct (bool_decide _); [|by exists []].
  exists [EvNua nua_i_invite 100 5 (Some sip_msg)]. split; [by split_and!|by rewrite run_one].
Qed.

(** ** The instances *)

(** Two turns after the start: the connection is up, the hello has arrived, and a
    call from the SIP side is set up. *)
Lemma program_runs_witness : exists p w', main ["osmo-sip-connector"; "-c"; "sip.cfg"]%string started = Go 0 p /\
  g_main_loop [([], -1); ([Pollfd 5 POLLIN 0], 100)] (p_world p) = Ret tt w' /\
  map short (out w') = [ToMsc MNCC_SETUP_REQ] /\ rtc may_step (p_world p) w' /\ typed w'.
Proof.
  assert (exists p, main ["osmo-sip-connector"; "-c"; "sip.cfg"]%string started = Go 0 p /\ p_world p = booted demo_file)
    as (p & Hm & Hp) by (eexists; split; vm_compute; reflexivity).
  destruct (program_runs _ _ _ [([], -1); ([Pollfd 5 POLLIN 0], 100)] Hm) as (_ & Hg); [by repeat constructor|].
  rewrite Hp in *. assert (exists w', g_main_loop [([], -1); ([Pollfd 5 POLLIN 0], 100)] (booted demo_file) = Ret tt w' /\
    map short (out w') = [ToMsc MNCC_SETUP_REQ]) as (w' & Hrun & Ho) by (eexists; split; vm_compute; reflexivity).
  rewrite Hrun in Hg. destruct Hg as [Hty Hs]. exists p, w'. rewrite Hp. split_and!; [exact Hm|exact Hrun|exact Ho|exact Hs|exact Hty].
Defined.

(** The phone hangs up while the two talk. *)
Lemma check_disc_ind_spec_witness : exists w',
  check_disc_ind (demo_bytes (plain_msg MNCC_DISC_IND 77)) sizeof_gsm_mncc mo_talk = Ret tt w' /\
  map short (out w') = map short (out mo_talk) ++ [ToMsc MNCC_REL_REQ; Bye] /\ timers w' = {[2%positive]}.
Proof.
  destruct (check_disc_ind_spec (demo_bytes (plain_msg MNCC_DISC_IND 77)) mo_talk 2 3 _ _ _ _ (mo_talk_msg MNCC_DISC_IND))
    as (w' & Hr & Ho & _ & Ht).
  exists w'. split_and!; [exact Hr|rewrite Ho, map_app; reflexivity|rewrite Ht; by vm_compute].
Defined.

(** The SIP peer has answered and the MSC does not confirm the answer. *)
Definition waiting_events : list event := start_events ++
  [mncc_event (setup_msg 77); rtp_event MNCC_RTP_CREATE 77; EvNua nua_r_invite 200 1%positive (Some sip_msg)].
Definition mo_waiting : world := Eval vm_compute in world_after waiting_events.
Lemma mo_waiting_wf : wf mo_waiting.
Proof. apply (checked_wf waiting_events). by vm_compute. Qed.

(** The timer ends the MNCC leg and sends BYE; the SIP leg waits for its answer. *)
Lemma timers_drain_witness : exists w', run [EvCmdTimeout 2] mo_waiting = Ret tt w' /\ timers w' = ∅ /\
  out w' = out mo_waiting ++ [NuaBye (Some 1%positive)] /\
  legs w' !! 2%positive = None /\ legs w' !! 3%positive = legs mo_waiting !! 3%positive.
Proof.
  destruct (timers_drain [2%positive] mo_waiting mo_waiting_wf) as (w' & Hr & _ & Ht & Ho & Hl & _).
  - apply NoDup_singleton.
  - intros l ->%list_elem_of_singleton. by vm_compute.
  - exists w'. split_and!; [exact Hr|rewrite Ht; by vm_compute|rewrite Ho; by vm_compute|rewrite Hl; by vm_compute..].
Defined.

(** A message of 8 bytes passes the guard of a SETUP_IND. *)
Lemma log_mncc_stack_witness :
  log_mncc "<- " (le_encode 4 MNCC_SETUP_IND ++ [0; 0; 0; 0] ++ replicate 136 1 ++ [115; 116; 97; 108; 101; 0]) 8
  = Some ("<- MNCC MNCC_SETUP_IND with SDP='stale'" +:+ str_nl)%string.
Proof.
  destruct (log_mncc_stack "<- " (le_encode 4 MNCC_SETUP_IND ++ [0; 0; 0; 0])
    (replicate 136 1 ++ [115; 116; 97; 108; 101; 0])) as (sdp & Hl & _ & Hs); [simpl; lia|by vm_compute|by vm_compute|].
  rewrite <- app_assoc in Hl. etransitivity; [exact Hl|]. rewrite Hs by (vm_compute; lia). by vm_compute.
Defined.

Lemma main_spec_witness : exists w, main ["osmo-sip-connector"; "-D"; "-c"; "sip.cfg"]%string started
  = Go 0 (Proc w "sip.cfg" true (init_calls ++ [vty_read_config_file "sip.cfg"; telnet_init_default]
      ++ agent_calls "sip:10.0.0.1:5061" ++ [osmo_daemonize] ++ loop_calls)).
Proof.
  destruct (main_spec ["osmo-sip-connector"; "-D"; "-c"; "sip.cfg"]%string) as (p & H).
  cbv zeta in H. change (existsb quits _) with false in H. cbv iota in H.
  assert (read_config (chosen_file "osmo-sip-connector.cfg" (getopt_long ["osmo-sip-connector"; "-D"; "-c"; "sip.cfg"]%string)) vty_defaults
    = (0, demo_file)) as Hf by by vm_compute.
  rewrite Hf in H. destruct H as (Hm & _). exists (p_world p). etransitivity; [exact Hm|]. f_equal.
  enough (Go 0 p = main ["osmo-sip-connector"; "-D"; "-c"; "sip.cfg"]%string started) as Hp by (vm_compute in Hp; injection Hp as ->; by vm_compute).
  by symmetry.
Defined.
End loop.

(** ** Arbitrary peers *)
Lemma run_checked_may {E : Env} es w w' : run_checked es w = Some w' -> rtc may_step w w'.
Proof.
  intros H. apply run_checked_sound in H. eapply rtc_subrel; [|exact H]. intros u v [e w1 He _ Hr]. by econstructor.
Qed.

Lemma run_checked_fit {E : Env} es w w' : Forall event_fits es -> run_checked es w = Some w' -> rtc fit_step w w'.
Proof.
  intros Hes. revert w. induction Hes as [|e es He _ IH]; intros w; simpl; [by intros [= ->]|].
  destruct (enabledb w e && conformsb w e) eqn:Hb; [|done]. apply andb_true_iff in Hb as [Hen _].
  destruct (handle_event e w) as [[] w1|] eqn:Heq; [|done]. intros H.
  eapply rtc_l; [|by apply IH]. econstructor; eauto using enabledb_sound.
Qed.

(** The decidable form of [event_fits]. *)
Definition no_nulb (o : option string) : bool :=
  match o with Some s => forallb (fun b => negb (b =? 0)) (str_bytes s) | None => true end.
Definition event_fitsb (e : event) : bool :=
  match e with
  | EvMncc (Some buf) => forallb (fun b => (0 <=? b) && (b <? 256)) buf
  | EvNua _ _ _ (Some m) => no_nulb (sip_payload m) && no_nulb (sip_to_user m) && no_nulb (sip_from_user m)
  | _ => true
  end.

Lemma forallb_sound {A} (p : A -> bool) (P : A -> Prop) xs :
  (forall x, p x = true -> P x) -> forallb p xs = true -> Forall P xs.
Proof. intros Hp H. apply List.Forall_forall. intros x Hx. apply Hp. rewrite forallb_forall in H. by apply H. Qed.
Lemma no_nulb_sound o : no_nulb o = true -> opt no_nul o.
Proof. destruct o; [|done]. apply forallb_sound. by intros x ?%negb_true_iff%Z.eqb_neq. Qed.
Lemma event_fitsb_sound e : event_fitsb e = true -> event_fits e.
Proof.
  destruct e as [[buf|]| | |ev status nh [m|]]; simpl; try done.
  - apply forallb_sound. by intros x [?%Z.leb_le ?%Z.ltb_lt]%andb_true_iff.
  - intros [[H1 H2]%andb_true_iff H3]%andb_true_iff. split_and!; by apply no_nulb_sound.
Qed.

#[export] Instance demo_fit_laws : FitLaws demo_env.
Proof.
  split.
  - apply _.
  - intros []; by vm_compute.
  - repeat constructor; by vm_compute.
  - simpl. lia.
  - intros g. simpl. destruct (Nat.leb_spec (length g) 16); simpl; [|done]. rewrite length_map. split; [|done].
    apply List.Forall_map, List.Forall_forall. intros b _. apply Z.mod_pos_bound. lia.
  - intros s b. simpl. destruct (String.eqb _ _); [|done]. intros [= <-]. split; [done|]. repeat constructor; by vm_compute.
  - done.
  - intros fl s sess [= H]. destruct (String.eqb s "v=0"); [|destruct (String.eqb s "v=0 named"); [|done]];
      injection H as <-; repeat constructor; by vm_compute.
Qed.

Section arbitrary.
#[local] Existing Instance demo_env.

Lemma mo_talk_typed : typed mo_talk.
Proof. apply (may_steps_typed (booted initial_config)); [apply booted_typed|apply (run_checked_may _ _ _ mo_talk_run)]. Qed.

(** The SIP leg from the INVITE to the answer. *)
Lemma leg_lifecycle_witness : exists b x, legs mo_calling !! 3%positive = Some (Leg b (XSip x)) /\
  s_handle (sip_at mo_talk 3) = s_handle x /\ (sip_rank (s_state x) <= 2)%nat.
Proof.
  destruct (leg_lifecycle initial_config (booted initial_config) mo_calling mo_talk 3
    (Leg (base_at mo_talk 3) (XSip (sip_at mo_talk 3))) (boot_booted initial_config)) as ([b [m|x]] & Hx & _ & He).
  - apply (run_checked_may (start_events ++ [mncc_event (setup_msg 77); rtp_event MNCC_RTP_CREATE 77])). by vm_compute.
  - apply (run_checked_may [EvNua nua_r_invite 180 1%positive (Some sip_msg); EvNua nua_r_invite 200 1%positive (Some sip_msg);
      mncc_event (plain_msg MNCC_SETUP_COMPL_IND 77)]). by vm_compute.
  - by vm_compute.
  - by vm_compute.
  - destruct He.
  - exists b, x. destruct He as (Hh & _ & Hr). split_and!; [exact Hx|exact Hh|exact Hr].
Defined.

(** What was said up to the call being bridged, and what a REL_IND adds. *)
Lemma speaks_protocol_witness : Forall act_ok (out mo_talk) /\ (length (out mo_talk) = 8)%nat /\
  exists w', handle_event (mncc_event (plain_msg MNCC_REL_IND 77)) mo_talk = Ret tt w' /\ Forall act_ok (out w').
Proof.
  destruct (speaks_protocol initial_config (booted initial_config) mo_talk (mncc_event (plain_msg MNCC_REL_IND 77))
    (boot_booted initial_config) (run_checked_may _ _ _ mo_talk_run)) as [Ho H].
  split_and!; [exact Ho|by vm_compute|].
  assert (exists w', handle_event (mncc_event (plain_msg MNCC_REL_IND 77)) mo_talk = Ret tt w') as [w' Hr]
    by (eexists; vm_compute; reflexivity).
  exists w'. split; [exact Hr|]. rewrite Hr in H. exact H.
Defined.

(** The bridged call, from bytes and C strings; its RTP_CONNECT as the MSC reads it. *)
Lemma mo_talk_fits_run : rtc fit_step (booted initial_config) mo_talk.
Proof.
  apply (run_checked_fit (start_events ++ mo_events)); [|apply mo_talk_run].
  apply (forallb_sound event_fitsb); [apply event_fitsb_sound|by vm_compute].
Qed.
Lemma fields_fit_witness : world_fits mo_talk /\ exists w', handle_event (mncc_event (plain_msg MNCC_REL_IND 77)) mo_talk = Ret tt w' /\ world_fits w'.
Proof.
  assert (exists w', handle_event (mncc_event (plain_msg MNCC_REL_IND 77)) mo_talk = Ret tt w') as [w' Hr]
    by (eexists; vm_compute; reflexivity).
  destruct (fields_fit initial_config (booted initial_config) mo_talk (mncc_event (plain_msg MNCC_REL_IND 77))
    (boot_booted initial_config) mo_talk_fits_run) as [Hw H]; [apply event_fitsb_sound; by vm_compute|].
  rewrite Hr in H. split; [exact Hw|]. exists w'. split; [exact Hr|exact H].
Defined.

Definition mo_connect : gsm_mncc_rtp :=
  match out mo_talk !! 4%nat with Some (TxRtp r _) => r | _ => rtp_msg 0 0 EmptyString end.
Lemma written_as_read_witness : rtp_msg_type mo_connect = MNCC_RTP_CONNECT /\
  Z.of_nat (length (rtp_bytes mo_connect)) = sizeof_rtp /\ view_rtp (rtp_bytes mo_connect ++ [1; 2; 3]) = mo_connect.
Proof.
  split; [by vm_compute|].
  apply (written_as_read initial_config (booted initial_config) mo_talk (EvMncc None) (TxRtp mo_connect sizeof_rtp) [1; 2; 3]
    (boot_booted initial_config) mo_talk_fits_run I).
  vm_compute. tauto.
Defined.

(** The connection of the bridged call breaks. *)
Lemma disconnect_terminates_witness : let w := set_conn (fun _ => Conn MNCC_DISCONNECTED (-1) None true) mo_talk in
  exists w', disconnect_loop (release_leg (on_disconnect 7)) 3 (head (g_call_list w)) w = Ret tt w' /\ timers w' = ∅.
Proof.
  intros w. destruct (disconnect_terminates 7 3 w) as [Heq _].
  - by apply typed_set_conn; [apply mo_talk_typed|].
  - done.
  - vm_compute. lia.
  - rewrite Heq. eexists. split; by vm_compute.
Defined.
End arbitrary.

(** Without writes, the DISC_IND of the bridged call ends in a use after free. *)
Section failing.
#[local] Instance failing_env : Env := env_failing (n_io mo_talk).
#[local] Instance failing_laws : EnvLaws failing_env := env_with_laws _.

Lemma type_safety_witness : typed mo_talk /\
  exists w', handle_event (mncc_event (plain_msg MNCC_DISC_IND 77)) mo_talk = Crash UseAfterFree w'.
Proof.
  assert (rtc may_step (booted initial_config) mo_talk) as Hs.
  { apply (run_checked_may (start_events ++ mo_events)). by vm_compute. }
  assert (enabled mo_talk (mncc_event (plain_msg MNCC_DISC_IND 77))) as Hen by by vm_compute.
  destruct (type_safety initial_config (booted initial_config) mo_talk _ (boot_booted initial_config) Hs Hen) as [Hw _].
  split; [exact Hw|]. eexists. vm_compute. reflexivity.
Defined.
End failing.
