(* ===== verification/Findings.v ===== *)
(** * Where the handlers do not do what they mean to

    Concrete executions, evaluated.  [event_safe] (System.v) needs writes on the
    MNCC socket to succeed and the MSC to keep to its protocol; the first two
    groups show what happens without.  The last shows calls that stay behind. *)
From S2P Require Import Prelude Effect Evpoll Codec Protocol Lib State Skel Rules Call Sdp SipLeg MnccConn App MnccRx SipUa CallFlow SipCall Bridge Faults Vty Demo System Scenario Instances.

(** ** Definitions *)

Definition fault_of (o : outcome world unit) : option fault :=
  match o with Ret _ _ => None | Crash f _ => Some f end.

(** The event is handled while the MSC's socket breaks. *)
Definition fault_on_broken_socket (w : world) (e : event) : option fault :=
  fault_of (@handle_event (env_failing (n_io w)) e w).

(** The event is handled by a working system. *)
Definition fault_on (w : world) (e : event) : option fault := fault_of (@handle_event demo_env e w).

(** ** A failed write frees the leg that is being worked on

    Closing the connection runs [app_mncc_disconnected], which releases the MNCC
    legs at once; the caller then goes on with the leg it had. *)
Lemma uaf_sip_answers : fault_on_broken_socket mo_calling (EvNua nua_r_invite 200 1%positive (Some sip_msg)) = Some UseAfterFree.
Proof. vm_compute. reflexivity. Qed.
Lemma uaf_sip_rings : fault_on_broken_socket mo_calling (EvNua nua_r_invite 180 1%positive (Some sip_msg)) = Some UseAfterFree.
Proof. vm_compute. reflexivity. Qed.
Lemma uaf_rtp_created : fault_on_broken_socket mo_setup (rtp_event MNCC_RTP_CREATE 77) = Some UseAfterFree.
Proof. vm_compute. reflexivity. Qed.
Lemma uaf_disconnect : fault_on_broken_socket mo_talk (EvMncc (Some (demo_bytes (plain_msg MNCC_DISC_IND 77)))) = Some UseAfterFree.
Proof. vm_compute. reflexivity. Qed.
Lemma uaf_hold : fault_on_broken_socket mo_talk (EvMncc (Some (demo_bytes (plain_msg MNCC_HOLD_IND 77)))) = Some UseAfterFree.
Proof. vm_compute. reflexivity. Qed.
Lemma uaf_phone_answers : fault_on_broken_socket mt_setup (EvMncc (Some (demo_bytes (plain_msg MNCC_SETUP_CNF 5001)))) = Some UseAfterFree.
Proof. vm_compute. reflexivity. Qed.

(** ** A message that does not fit the direction of the call

    The SIP leg of a call from the MSC has no [ring_call] and no [connect_call]. *)
Lemma null_ring : fault_on mo_calling (EvMncc (Some (demo_bytes (plain_msg MNCC_ALERT_IND 77)))) = Some NullCall.
Proof. vm_compute. reflexivity. Qed.
Lemma null_connect : fault_on mo_calling (EvMncc (Some (demo_bytes (plain_msg MNCC_SETUP_CNF 77)))) = Some NullCall.
Proof. vm_compute. reflexivity. Qed.

(** A second RTP_CREATE routes the call again: the first SIP leg is no longer
    linked, is freed with the call, and its handle still points to it. *)
Lemma uaf_routed_twice : fault_of (@run demo_env
  [rtp_event MNCC_RTP_CREATE 77; EvMncc (Some (demo_bytes (plain_msg MNCC_REL_IND 77))); EvNua nua_r_bye 200 1%positive None]
  mo_calling) = Some UseAfterFree.
Proof. vm_compute. reflexivity. Qed.

(** ** The Contact of the agent ignores the wildcard it computes *)
Lemma sip_uri_ignores_hostname :
  make_sip_uri (Config "0.0.0.0" 5060 "pbx" 5060 2 "/tmp/msc_mncc" false) = "sip:0.0.0.0:5060"%string.
Proof. vm_compute. reflexivity. Qed.

(** ** A re-INVITE that cannot be used leaves half a call

    The SIP leg is gone, the MNCC leg is neither released nor told. *)
Lemma reinvite_half_call : exists w', @handle_event demo_env
    (EvNua nua_i_invite 100 1%positive (Some (Sip (Some "v=0 named"%string) None None []))) mo_talk = Ret tt w' /\
  map short (drop (length (out mo_talk)) (out w')) = [Respond 406; Destroy] /\
  map fst (map_to_list (legs w')) = [2%positive] /\ timers w' = ∅.
Proof. eexists. split; [vm_compute; reflexivity|]. by vm_compute. Qed.

(** ** The show commands while a call is being released

    The phone has hung up, its leg (the initial one) is gone, and the SIP leg still
    waits for the answer to its BYE. *)
Definition mo_half : world :=
  match @run demo_env [EvMncc (Some (demo_bytes (plain_msg MNCC_REL_IND 77)))] mo_talk with Ret _ w | Crash _ w => w end.
Lemma uaf_show_calls : exists w', show_calls str_nl (fun _ => "0x1"%string) mo_half = Crash UseAfterFree w'.
Proof. eexists. vm_compute. reflexivity. Qed.
Lemma null_show_summary : exists w', show_calls_sum str_nl mo_half = Crash NullDeref w'.
Proof. eexists. vm_compute. reflexivity. Qed.

(** A calling number of 33 characters, which has no NUL in its array. *)
Definition long_number : gsm_mncc :=
  Mncc MNCC_SETUP_IND 77 (Z.lor MNCC_F_CALLED MNCC_F_CALLING) (Number 1 1 "301")
       (Number 0 1 "012345678901234567890123456789012")
       (Cause 0 0 0) (Progress 0 0 0) 0 0 "262420000000001" (replicate 16 0) EmptyString.
Lemma over_read_summary : exists w', show_calls_sum str_nl
  (match @run demo_env [EvMncc (Some (demo_bytes long_number))] idle with Ret _ w | Crash _ w => w end) = Crash OutOfBounds w'.
Proof. eexists. vm_compute. reflexivity. Qed.

(** ** An answer that crosses the release leaves the SIP side up

    The phone hangs up while it rings: the MSC is asked to release and the INVITE
    cancelled.  The 200 that crosses the CANCEL is passed on to the released leg
    and acknowledged; when the MSC confirms the release, the SIP leg is connected,
    alone, without a BYE and without a timer. *)
Lemma crossed_answer : exists w', @run demo_env
    [EvNua nua_r_invite 180 1%positive (Some sip_msg); EvMncc (Some (demo_bytes (plain_msg MNCC_DISC_IND 77)));
     EvNua nua_r_invite 200 1%positive (Some sip_msg); EvMncc (Some (demo_bytes (plain_msg MNCC_REL_CNF 77)))]
    mo_calling = Ret tt w' /\
  map short (drop (length (out mo_calling)) (out w')) =
    [ToMsc MNCC_ALERT_REQ; ToMscRtp MNCC_RTP_CONNECT; ToMsc MNCC_REL_REQ; Cancel;
     ToMscRtp MNCC_RTP_CONNECT; ToMsc MNCC_SETUP_RSP; Ack] /\
  map fst (map_to_list (legs w')) = [3%positive] /\ s_state (sip_at w' 3) = SIP_CC_CONNECTED /\ timers w' = ∅.
Proof. eexists. split; [vm_compute; reflexivity|]. by vm_compute. Qed.

(** ** Clearing answers the call

    A call from the SIP side that the phone declines with the cause of normal
    clearing: the first row of the table of causes makes it a 200, so that the
    INVITE is answered, without a session, and the handle destroyed. *)
Lemma cleared_is_answered : exists w', @run demo_env
    [EvMncc (Some (demo_bytes (set_mn_cause (Cause 0 0 16) (plain_msg MNCC_DISC_IND 5001))))] mt_setup = Ret tt w' /\
  map short (drop (length (out mt_setup)) (out w')) = [ToMsc MNCC_REL_REQ; Respond 200; Destroy].
Proof. eexists. split; [vm_compute; reflexivity|]. by vm_compute. Qed.
